(* ===== verification/_CoqProject ===== *)
-Q . S2P
Prelude.v
Memory.v
CString.v
Mmio.v
Uart.v
Format.v
Render.v
Printk.v
PageAlloc.v
KList.v
Sched.v
Fair.v
Fork.v
PgTable.v
Mmu.v
Access.v
Irq.v
Gic.v
Timer.v
Syscall.v
Traps.v
CacheInfo.v
DumpPgtable.v
Main.v
System.v
Vectors.v
Window.v
Start.v
Bounds.v
Race.v
User.v
MmuTest.v
Shell.v
