(* ===== verification/Prelude.v ===== *)
(** * Arm64OS: a verification of the kernel

    Arm64OS is a small bare-metal kernel for 64-bit Arm (Raspberry Pi 4): head.S takes a
    core from the loader to start_kernel (init/main.c), which brings up a UART, an
    interrupt controller, a page allocator, page tables and a timer, starts two kernel
    threads under a preemptive scheduler, and becomes a shell.  This library translates its C code, and the parts of its assembly
    that move control between the C functions, to executable Rocq functions, and proves
    what makes each component and the whole kernel correct.  Source paths are relative
    to src/.

    ** How the code is modelled

    Each C function is a function in the state monad [M S] of this file: from a state it
    returns a value and a state ([Ret]), or reaches behaviour that C or the machine
    leaves undefined ([Fault]: a null or wild pointer, an index out of range, a read past
    the end of a string, an indeterminate value, an exception nothing handles yet), or
    stops the processor for good in a state that can still be looked at ([Halt], panic's
    endless loop), or runs out of the fuel of a loop ([Hang]).  Every component
    has its own state; [zoom] runs its operations inside a larger one through a [Lens],
    up to [kernel] of Main.v, the state of the whole system.  [returns k Q s] is total
    correctness: from [s], [k] neither faults, stops nor hangs, and ends in [Q].

    Integers are [Z] with the wrap-around written out ([u32], [s32], [u64], ...); signed
    overflow wraps, as in the compiled code.  Memory is a map from addresses to bytes
    (Memory.v); the structures of the scheduler and of the lists are kept by address,
    each kind in a map of its own.  Device and system registers are behind a [platform],
    a parameter: what a read returns may depend on the whole trace of accesses, which is
    part of the state (Mmio.v).  Function pointers are symbol names; the class [IrqCode]
    says what they point to, and Timer.v gives the kernel's instance.

    ** The files

    - Prelude: the monad and its laws, lenses, [returns], C integers, masks and bits.
    - Memory, CString: physical memory; strlen, memcpy and memset of lib/string.c.
    - Mmio, Uart: registers and the trace; the console of mach-rpi/pl_uart.c.
    - Format, Printk: lib/printk.c; myprintf and its number(), then printk, the early log
      and init_printk_done.  The class [Console] is what others print through.  Render:
      the language of formats and the text a format stands for, the specification of
      myprintf.
    - PageAlloc: mm/page_alloc.c.  The class [PageAllocator] is the contract that Mmu.v,
      Gic.v and Timer.v are verified against; get_free_page is its instance, and so is
      the same function with the pages below a given one as what is available.
    - KList: include/list.h; [ring] is the abstract circular list.
    - Sched: kernel/sched.c, sched_nop.c, include/sched.h and cpu_switch_to; [sched_inv]
      is the invariant of tasks, run queue and saved contexts, [task_runs] adds that task
      code is running.  Fair: no starvation.
    - Fork: kernel/fork.c; [fork_inv] ties tasks, pages and the table of tasks.
    - PgTable, Mmu: the page-table headers with [translate], the walk the hardware does,
      and mach-rpi/mmu.c, verified to build what [translate] reads as the intended map.
      Access: which accesses the attributes of a descriptor permit, at EL0 and at EL1.
    - Irq, Gic, Timer: kernel/irq.c, drivers/irqchip/gicv2.c, mach-rpi/timer.c.
    - Syscall: kernel/syscall.c and the user-side stub of usr/syscall.S.
    - Traps, CacheInfo, DumpPgtable: traps.c, cacheinfo.c, dump_pgtable.c.
    - Main: start_kernel; System: what the vectors of entry.S do in a running kernel, as
      events; Vectors: the whole table of vectors.
    - Window: timer interrupts around the creation of the first thread, and the whole
      kernel from its boot on.
    - Start: head.S, mm.S and the place linker.ld gives .bss; each labelled block is a
      computation over the processor's state that returns the label that comes next.
    - Bounds: the ranges of the scheduler's variables; Race: events inside do_fork; User: a
      thread on its way to user space, and my_malloc of usr/; MmuTest: test_mmu of main.c;
      Shell: the console's loop.

    Each file has the data and the operations first, then the lemmas, the properties
    (theorems numbered C1, C2, ...) and, in modules [Example_...], concrete states at
    which the properties are applied (theorems ending in [_witness]).

    ** What is proved

    - The whole kernel: from the boot loader's state the boot ends with two runnable
      threads, an identity map and a ticking timer (Main.boot_brings_up_kernel), and then
      interrupts, system calls, thread creations and calls of the scheduler, in any order,
      are handled without a fault, a stop or an endless loop, keeping every invariant
      (Window.kernel_serves_events).  What this needs is in the theorem: the linker
      script's layout and a controller of at most 256 lines ([bootable]), a live UART, x8
      not negative in system calls ([allowed]), no more pages than there are below the end
      of memory, each event taken as one step, and in the boot no interrupts but as many
      of the timer's as it can bear.  How many that is, before the first thread exists and
      between the two, is exact (Window.boot_tolerates_ticks); what happens when the other
      conditions do not hold is below.
    - Under the timer every queued task gets to run (System.kernel_tasks_run); counters,
      priorities, pids, preemption counts and the length of the queue stay within tight
      bounds (Bounds.scheduler_bounds); every exception goes to the code meant for it,
      with its report if it is one the kernel does not expect (Vectors.exceptions_handled).
    - Power-on: the boot core gets from _start at EL2 to start_kernel with the state its boot
      relies on, provided the linker has put .bss at a multiple of 8; other cores are parked,
      other levels trap (Start.start_reaches_kernel, start_other_levels).  From there the
      kernel boots and serves events under the conditions above
      (Start.power_on_serves_events).
    - Isolation: through all of this the page tables let the kernel execute its text and
      write its data only, and user code nothing (User.kernel_memory_isolated), which also
      keeps the program's own user thread from running
      (User.user_thread_makes_no_progress).  Events leave [k_mem], the memory that holds
      the tables, alone because task structures, stacks and frames are kept in maps of
      their own: the pages they are in come from the allocator, which hands out no page
      that is a page table.
    - Scheduling: the policy picks the first task with the largest counter, no task of
      the queue starves, the timer interrupt of the machine refines the scheduler's, and
      the init task, which nothing enqueues, never runs again.
    - Tasks and system calls: what kernel_thread and clone create, that a failed fork
      gives everything back and leaves every task as it was, that a page past the end of
      memory makes it fault (Fork.do_fork_past_memory), that events inside a fork leave its
      page alone and it completes while its slot is free (Race.interrupted_fork_completes),
      that another fork in between takes the same slot and breaks the table
      (Race.fork_race), what each system call leaves in the caller's frame.
    - Memory: the allocator hands out unused pages only; the page tables map exactly the
      requested range with the requested attributes, by 2 MB sections where they fit; after
      paging_init each region has the permissions and the memory type the architecture
      derives from its descriptor bits, and nothing else is mapped;
      walk_pgtable finds the descriptor the hardware uses; memset fills its range; test_mmu
      reports what the tables were built for.
    - Output: myprintf renders every well-formed format as the text it stands for, and on
      all others it comes to an end without reading past the format; the digits of number()
      read back as the number; printk's output reaches the terminal; a line received is
      what is left in the buffer, and the shell echoes what was typed.
    - Interrupts: what gic_init programs, with the routing it reads from the controller,
      what request_irq enables, what happens to an interrupt nobody handles.
    - Error behaviour: theorems about inputs on which the code faults or does what it
      does not mean to (a negative system call number, a third early message, an empty
      run queue, an escaped percent sign, a large controller, ...) state exactly what
      happens.

    ** Fuel and bounds

    Loops over data take their bound from it (the length of a format, a number of pages
    or descriptors).  A [fuel] argument is left where the bound is the environment's or
    an invariant's: polling the UART ([UartLive] says its FIFOs drain and fill in fewer
    than [fuel] reads), traversing rings of tasks (there are at most 127 forked tasks, so
    128 is enough, see [fork_inv_lengths]), and the dump of the page tables.  number()'s
    digit loop has 65 rounds, one more than a 64-bit number has binary digits, and is
    proved to need no more.  Prelude's [loop_fuel_mono] shows that more fuel never changes
    an answer.

    The allocator has 131072 pages from 4 MB on, of which the last 1024 are past the end of
    memory; they are not mapped, and a task structure there faults.  The boot uses at most
    600 pages for tables, one for the interrupt domain and two for threads; [PAGES_LEFT] of
    Main.v is the rest below the end of memory, and theorems about sequences of events ask
    for no more than that ([supply] of PageAlloc.v).

    ** Not modelled

    - The rest of the linker script: the addresses are parameters (the [...Symbols] classes)
      with its layout as a hypothesis ([bootable] of Main.v, [image_linked] of Start.v).  That
      the variables in .bss and .data, which the model keeps as values, have the contents
      [loaded] gives them is the meaning of a loaded image with a zero .bss.
    - Caches, TLBs and the ordering of memory accesses: barriers are recorded only.
      Instructions between the operations modelled here, stack overflow and the time an
      operation takes are not represented; interrupts are events between operations.
    - Interrupts at every instruction: Window.v has those before and between the two threads
      of the boot, Race.v those at one point inside do_fork, System.v those between the
      operations of the running kernel.  No task of the program forks while interrupts are on
      except start_kernel; Race.v is about kernel_thread as other threads may call it.  The
      shell's loop is modelled by its rounds.
    - The result of an AT instruction is a function of the processor's translation
      ([par_spec] of MmuTest.v).
    - The branches under DEBUG_DUMP_PGTABLE and INIT_CACHE_INFO, which the Makefile does not
      define, the empty system-timer functions, and clone/__clone of usr/, which is
      unfinished in the source.
    - Secondary processors once they are parked, and what is only declared: constants and
      types of the headers that no function uses. *)

From Stdlib Require Export ZArith Lia.
From stdpp Require Export base list gmap strings numbers.
#[global] Open Scope Z_scope.

(** ** Faults and outcomes

    Every C function of the kernel is translated to a function in the state
    monad [M S]: it returns a value and a state, it reaches behaviour the C
    language (or the bare machine) gives no meaning to, it stops for good in an
    endless loop with an empty body, leaving its last state behind, or a loop that
    does something runs out of the fuel it was given. *)

Inductive fault : Type :=
  | NullDeref                   (* a NULL pointer is dereferenced *)
  | WildAddr (a : Z)            (* a load or store at an address nobody owns *)
  | IndexRange (i : Z)          (* an array is indexed out of its bounds *)
  | Trap                        (* an exception before the vectors are installed *)
  | OverRead                    (* a string is read past its terminating NUL *)
  | Uninit.                     (* an indeterminate value is used *)

#[export] Instance fault_eq_dec : EqDecision fault.
Proof. solve_decision. Defined.

Inductive outcome (S A : Type) : Type :=
  | Ret (a : A) (s : S)
  | Fault (f : fault)
  | Halt (s : S)
  | Hang.
Arguments Ret {S A} a s.
Arguments Fault {S A} f.
Arguments Halt {S A} s.
Arguments Hang {S A}.

Definition M (S A : Type) : Type := S → outcome S A.

#[export] Instance M_ret S : MRet (M S) := λ A a s, Ret a s.
#[export] Instance M_bind S : MBind (M S) := λ A B k m s,
  match m s with
  | Ret a s' => k a s'
  | Fault f => Fault f
  | Halt s' => Halt s'
  | Hang => Hang
  end.
#[export] Instance M_fmap S : FMap (M S) := λ A B f m s,
  match m s with
  | Ret a s' => Ret (f a) s'
  | Fault e => Fault e
  | Halt s' => Halt s'
  | Hang => Hang
  end.

Section monad.
Context {S : Type}.

Definition get : M S S := λ s, Ret s s.
Definition put (s : S) : M S unit := λ _, Ret tt s.
Definition gets {A} (f : S → A) : M S A := λ s, Ret (f s) s.
Definition modify (f : S → S) : M S unit := λ s, Ret tt (f s).
Definition throw {A} (e : fault) : M S A := λ _, Fault e.
Definition hang {A} : M S A := λ _, Hang.
(** [while (1);] *)
Definition halt {A} : M S A := λ s, Halt s.
Definition of_option {A} (e : fault) (o : option A) : M S A :=
  match o with Some a => mret a | None => throw e end.
Definition skip : M S unit := mret tt.
(** [when b m]: an [if] without [else]. *)
Definition when (b : bool) (m : M S unit) : M S unit := if b then m else skip.

(** [for (i = from; n iterations; i++) body i]. *)
Fixpoint for_range (n : nat) (i : Z) (body : Z → M S unit) : M S unit :=
  match n with
  | O => skip
  | Datatypes.S n' => body i ;; for_range n' (i + 1) body
  end.

(** A loop whose body either goes round again ([inl]) or leaves with a
    result ([inr]); [fuel] bounds the number of rounds. *)
Fixpoint loop {A B} (fuel : nat) (body : A → M S (A + B)) (a : A) : M S B :=
  match fuel with
  | O => hang
  | Datatypes.S n =>
      r ← body a;
      match r with
      | inl a' => loop n body a'
      | inr b => mret b
      end
  end.

(** Equations of the monad, the form proofs rewrite with. *)
Lemma bind_eq {A B} (m : M S A) (k : A → M S B) s a s' :
  m s = Ret a s' → (m ≫= k) s = k a s'.
Proof. intros H. unfold mbind, M_bind. by rewrite H. Qed.

Lemma bind_fault {A B} (m : M S A) (k : A → M S B) s e :
  m s = Fault e → (m ≫= k) s = Fault e.
Proof. intros H. unfold mbind, M_bind. by rewrite H. Qed.

Lemma bind_halt {A B} (m : M S A) (k : A → M S B) s s' :
  m s = Halt s' → (m ≫= k) s = Halt s'.
Proof. intros H. unfold mbind, M_bind. by rewrite H. Qed.

Lemma bind_hang {A B} (m : M S A) (k : A → M S B) s :
  m s = Hang → (m ≫= k) s = Hang.
Proof. intros H. unfold mbind, M_bind. by rewrite H. Qed.

Lemma bind_inv {A B} (m : M S A) (k : A → M S B) s b s2 :
  (m ≫= k) s = Ret b s2 → ∃ a s1, m s = Ret a s1 ∧ k a s1 = Ret b s2.
Proof. unfold mbind, M_bind. destruct (m s); naive_solver. Qed.

(** Statements that cannot fail. *)
Lemma bind_modify {B} f (k : unit → M S B) s : (modify f ≫= k) s = k tt (f s).
Proof. done. Qed.
Lemma bind_gets {A B} (f : S → A) (k : A → M S B) s : (gets f ≫= k) s = k (f s) s.
Proof. done. Qed.
Lemma bind_mret {A B} (a : A) (k : A → M S B) s : (mret a ≫= k) s = k a s.
Proof. done. Qed.
Lemma bind_skip {B} (k : unit → M S B) s : (skip ≫= k) s = k tt s.
Proof. done. Qed.

Lemma loop_done {A B} n (body : A → M S (A + B)) a b s s' :
  body a s = Ret (inr b) s' → loop (Datatypes.S n) body a s = Ret b s'.
Proof. intros H. cbn. by rewrite (bind_eq _ _ _ _ _ H). Qed.

Lemma loop_more {A B} n (body : A → M S (A + B)) a a' s s' :
  body a s = Ret (inl a') s' → loop (Datatypes.S n) body a s = loop n body a' s'.
Proof. intros H. cbn. by rewrite (bind_eq _ _ _ _ _ H). Qed.

Lemma loop_fault {A B} n (body : A → M S (A + B)) a s e :
  (0 < n)%nat → body a s = Fault e → loop n body a s = Fault e.
Proof. destruct n; [lia|]. intros _ H. cbn. by rewrite (bind_fault _ _ _ _ H). Qed.

(** More fuel never changes the answer of a loop that has one. *)
Lemma loop_fuel_mono {A B} n m (body : A → M S (A + B)) a b s s' :
  (n ≤ m)%nat → loop n body a s = Ret b s' → loop m body a s = Ret b s'.
Proof.
  revert m a s; induction n as [|n IH]; intros m a s Hle H; [discriminate|].
  destruct m as [|m]; [lia|]. cbn in *.
  apply bind_inv in H as ([a'|b'] & s1 & H1 & H2);
    rewrite (bind_eq _ _ _ _ _ H1); [apply IH; [lia|done]|done].
Qed.

(** A counted loop establishes an invariant indexed by its counter. *)
Lemma for_range_inv (P : Z → S → Prop) n i body s :
  P i s →
  (∀ j s, i ≤ j < i + Z.of_nat n → P j s → ∃ s', body j s = Ret tt s' ∧ P (j + 1) s') →
  ∃ s', for_range n i body s = Ret tt s' ∧ P (i + Z.of_nat n) s'.
Proof.
  revert i s; induction n as [|n IH]; intros i s HP Hstep.
  { exists s. by rewrite Z.add_0_r. }
  destruct (Hstep i s) as (s1 & H1 & HP1); [lia|done|].
  destruct (IH (i + 1) s1 HP1) as (s2 & H2 & HP2).
  { intros j s' Hj. apply Hstep. lia. }
  exists s2. split.
  - cbn [for_range]. by rewrite (bind_eq _ _ _ _ _ H1).
  - by replace (i + Z.of_nat (Datatypes.S n)) with (i + 1 + Z.of_nat n) by lia.
Qed.
End monad.

Create Rewrite HintDb monad.
#[export] Hint Rewrite @bind_modify @bind_gets @bind_mret @bind_skip : monad.

(** ** Computations up to pointwise equality

    Two computations are equivalent when they agree from every state; the monad
    laws hold up to this equivalence and [mbind] respects it, so a proof can
    rewrite inside a sequence of statements. *)

#[export] Instance M_equiv S A : Equiv (M S A) := λ m1 m2, ∀ s, m1 s = m2 s.

#[export] Instance M_equivalence S A : Equivalence (≡@{M S A}).
Proof.
  split; [by intros m s|by intros m1 m2 H s; rewrite H|].
  intros m1 m2 m3 H1 H2 s. by rewrite H1.
Qed.

#[export] Instance M_bind_proper S A B :
  Proper (pointwise_relation A (≡@{M S B}) ==> (≡@{M S A}) ==> (≡@{M S B})) (@mbind (M S) _ A B).
Proof.
  intros k1 k2 Hk m1 m2 Hm s. unfold mbind, M_bind. rewrite Hm.
  destruct (m2 s) as [a s'|f|s'|]; [apply Hk|done..].
Qed.

Section monad_laws.
Context {S : Type}.

Lemma bind_ret_l {A B} (a : A) (k : A → M S B) : mret a ≫= k ≡ k a.
Proof. by intros s. Qed.
Lemma bind_ret_r {A} (m : M S A) : m ≫= mret ≡ m.
Proof. intros s. unfold mbind, M_bind. by destruct (m s). Qed.
Lemma bind_assoc {A B C} (m : M S A) (k : A → M S B) (h : B → M S C) :
  (m ≫= k) ≫= h ≡ m ≫= (λ a, k a ≫= h).
Proof. intros s. unfold mbind, M_bind. by destruct (m s). Qed.
Lemma bind_ext {A B} (m : M S A) (k1 k2 : A → M S B) :
  (∀ a, k1 a ≡ k2 a) → m ≫= k1 ≡ m ≫= k2.
Proof. intros H s. unfold mbind, M_bind. destruct (m s); [apply H|done..]. Qed.
End monad_laws.

(** Closed decidable goals, by evaluating their decision procedure. *)
Ltac by_decision :=
  match goal with |- ?Q => refine (bool_decide_eq_true_1 Q _); vm_compute; reflexivity end.

(** ** Components inside larger states

    A component keeps its own state type; [zoom] runs one of its operations
    inside any state that contains it. *)

Class Lens (S T : Type) : Type := {
  lget : S → T;
  lput : T → S → S;
  lget_lput : ∀ t s, lget (lput t s) = t;
  lput_lget : ∀ s, lput (lget s) s = s;
  lput_lput : ∀ t t' s, lput t (lput t' s) = lput t s;
}.

Definition zoom {S T A} `{!Lens S T} (m : M T A) : M S A := λ s,
  match m (lget s) with
  | Ret a t => Ret a (lput t s)
  | Fault e => Fault e
  | Halt t => Halt (lput t s)
  | Hang => Hang
  end.

Lemma zoom_eq {S T A} `{!Lens S T} (m : M T A) s a t :
  m (lget s) = Ret a t → zoom m s = Ret a (lput t s).
Proof. intros H. unfold zoom. by rewrite H. Qed.

Lemma zoom_inv {S T A} `{!Lens S T} (m : M T A) s a s' :
  zoom m s = Ret a s' → ∃ t, m (lget s) = Ret a t ∧ s' = lput t s.
Proof. unfold zoom. destruct (m (lget s)); naive_solver. Qed.

Lemma zoom_seq {S T A B} `{!Lens S T} (m : M T A) (k : M T B) s b t :
  (m ;; k) (lget s) = Ret b t → (zoom m ;; zoom k) s = Ret b (lput t s).
Proof.
  intros (a & t1 & H1 & H2)%bind_inv. rewrite (bind_eq _ _ _ _ _ (zoom_eq _ _ _ _ H1)).
  rewrite (zoom_eq k (lput t1 s) b t); [by rewrite lput_lput|by rewrite lget_lput].
Qed.

Lemma zoom_seq_inv {S T A B} `{!Lens S T} (m : M T A) (k : M T B) s b s' :
  zoom (m ;; k) s = Ret b s' → ∃ a s1, zoom m s = Ret a s1 ∧ zoom k s1 = Ret b s'.
Proof.
  intros (t & (a & t1 & H1 & H2)%bind_inv & ->)%zoom_inv. exists a, (lput t1 s). split; [by apply zoom_eq|].
  rewrite (zoom_eq k (lput t1 s) b t); [by rewrite lput_lput|by rewrite lget_lput].
Qed.

#[export] Program Instance lens_id S : Lens S S := {| lget := id; lput := λ t _, t |}.
Solve All Obligations with done.

#[export] Program Instance lens_fst A B : Lens (A * B) A :=
  {| lget := fst; lput := λ a p, (a, snd p) |}.
Solve All Obligations with by intros; repeat match goal with p : _ * _ |- _ => destruct p end.

#[export] Program Instance lens_snd A B : Lens (A * B) B :=
  {| lget := snd; lput := λ b p, (fst p, b) |}.
Solve All Obligations with by intros; repeat match goal with p : _ * _ |- _ => destruct p end.

(** ** Total correctness

    [returns k Q s]: from the state [s] the computation [k] reaches neither a fault nor
    the end of its fuel, and its result and final state satisfy [Q]. *)

Definition returns {S A} (k : M S A) (Q : A → S → Prop) (s : S) : Prop :=
  ∃ a s', k s = Ret a s' ∧ Q a s'.

Section returns.
Context {S : Type}.

Lemma returns_ret {A} (k : M S A) (Q : A → S → Prop) s a s' : k s = Ret a s' → Q a s' → returns k Q s.
Proof. intros H HQ. by exists a, s'. Qed.

Lemma returns_mret {A} (a : A) (Q : A → S → Prop) s : Q a s → returns (mret a) Q s.
Proof. by apply returns_ret. Qed.

Lemma returns_bind {A B} (m : M S A) (k : A → M S B) (Q : B → S → Prop) s :
  returns m (λ a, returns (k a) Q) s → returns (m ≫= k) Q s.
Proof.
  intros (a & s1 & H1 & b & s2 & H2 & HQ). exists b, s2. by rewrite (bind_eq _ _ _ _ _ H1).
Qed.

Lemma returns_mono {A} (k : M S A) (Q Q' : A → S → Prop) s :
  returns k Q s → (∀ a s', Q a s' → Q' a s') → returns k Q' s.
Proof. intros (a & s' & H & HQ) Himp. exists a, s'. auto. Qed.

(** The rule of sequence, from the triples of the two halves. *)
Lemma returns_seq {A B} (m : M S A) (k : A → M S B) (R : A → S → Prop) (Q : B → S → Prop) s :
  returns m R s → (∀ a s', R a s' → returns (k a) Q s') → returns (m ≫= k) Q s.
Proof. intros Hm Hk. apply returns_bind. by eapply returns_mono. Qed.

Lemma returns_zoom {T A} `{!Lens S T} (m : M T A) (Q : A → S → Prop) s :
  returns m (λ a t, Q a (lput t s)) (lget s) → returns (zoom m) Q s.
Proof. intros (a & t & H & HQ). exists a, (lput t s). by rewrite (zoom_eq _ _ _ _ H). Qed.

Lemma returns_inv {A} (k : M S A) (Q : A → S → Prop) s a s' : returns k Q s → k s = Ret a s' → Q a s'.
Proof. intros (b & s2 & H & HQ) E. rewrite H in E. by injection E as <- <-. Qed.
End returns.

(** ** C integers

    A C integer is a [Z] in the range of its type; conversions and wrapping
    arithmetic are written out with these functions.  Signed overflow, which
    the standard leaves undefined, wraps as the compiled kernel does. *)

Definition u8 (z : Z) : Z := z mod 2 ^ 8.
Definition u16 (z : Z) : Z := z mod 2 ^ 16.
Definition u32 (z : Z) : Z := z mod 2 ^ 32.
Definition u64 (z : Z) : Z := z mod 2 ^ 64.
Definition signed (w z : Z) : Z :=
  if z mod 2 ^ w <? 2 ^ (w - 1) then z mod 2 ^ w else z mod 2 ^ w - 2 ^ w.
Definition s8 : Z → Z := signed 8.
Definition s16 : Z → Z := signed 16.
Definition s32 : Z → Z := signed 32.
Definition s64 : Z → Z := signed 64.

Lemma u8_id z : 0 ≤ z < 2 ^ 8 → u8 z = z.
Proof. apply Z.mod_small. Qed.
Lemma u32_id z : 0 ≤ z < 2 ^ 32 → u32 z = z.
Proof. apply Z.mod_small. Qed.
Lemma u64_id z : 0 ≤ z < 2 ^ 64 → u64 z = z.
Proof. apply Z.mod_small. Qed.
Lemma u8_range z : 0 ≤ u8 z < 2 ^ 8.
Proof. by apply Z.mod_pos_bound. Qed.
Lemma u32_range z : 0 ≤ u32 z < 2 ^ 32.
Proof. by apply Z.mod_pos_bound. Qed.
Lemma u64_range z : 0 ≤ u64 z < 2 ^ 64.
Proof. by apply Z.mod_pos_bound. Qed.

Lemma signed_id w z : 0 < w → - 2 ^ (w - 1) ≤ z < 2 ^ (w - 1) → signed w z = z.
Proof.
  intros Hw Hz. unfold signed.
  assert (2 ^ w = 2 * 2 ^ (w - 1)) as Hp.
  { rewrite <-Z.pow_succ_r by lia. f_equal; lia. }
  destruct (decide (0 ≤ z)).
  - rewrite Z.mod_small by lia. by destruct (Z.ltb_spec z (2 ^ (w - 1))); [|lia].
  - replace (z mod 2 ^ w) with (z + 2 ^ w).
    + destruct (Z.ltb_spec (z + 2 ^ w) (2 ^ (w - 1))); lia.
    + apply (Z.mod_unique_pos z (2 ^ w) (-1)); lia.
Qed.

Lemma s32_id z : - 2 ^ 31 ≤ z < 2 ^ 31 → s32 z = z.
Proof. intros. by apply (signed_id 32). Qed.
Lemma s64_id z : - 2 ^ 63 ≤ z < 2 ^ 63 → s64 z = z.
Proof. intros. by apply (signed_id 64). Qed.

Lemma signed_range w z : 0 < w → - 2 ^ (w - 1) ≤ signed w z < 2 ^ (w - 1).
Proof.
  intros Hw. unfold signed.
  assert (2 ^ w = 2 * 2 ^ (w - 1)) as Hp.
  { rewrite <-Z.pow_succ_r by lia. f_equal; lia. }
  pose proof (Z.mod_pos_bound z (2 ^ w)).
  destruct (Z.ltb_spec (z mod 2 ^ w) (2 ^ (w - 1))); lia.
Qed.

Lemma s32_range z : - 2 ^ 31 ≤ s32 z < 2 ^ 31.
Proof. by apply (signed_range 32). Qed.

Lemma s64_range z : - 2 ^ 63 ≤ s64 z < 2 ^ 63.
Proof. by apply (signed_range 64). Qed.

(** ** Bit fields *)

Lemma land_lnot_ones a n : 0 ≤ n → Z.land a (Z.lnot (Z.ones n)) = a / 2 ^ n * 2 ^ n.
Proof.
  intros Hn. rewrite <-Z.ldiff_land, Z.ldiff_ones_r by done.
  by rewrite Z.shiftr_div_pow2, Z.shiftl_mul_pow2 by done.
Qed.

Lemma testbit_small a n i : 0 ≤ a < 2 ^ n → n ≤ i → Z.testbit a i = false.
Proof.
  intros Ha Hi. destruct (decide (0 ≤ n)); cycle 1.
  { rewrite Z.pow_neg_r in Ha by lia. lia. }
  rewrite <-(Z.mod_small a (2 ^ n)) by done. apply Z.mod_pow2_bits_high. lia.
Qed.

(** Masking with a mask that was converted to [unsigned long] is masking with
    the mask itself. *)
Lemma land_u64_r a m : 0 ≤ a < 2 ^ 64 → Z.land a (u64 m) = Z.land a m.
Proof.
  intros Ha. unfold u64. rewrite <-Z.land_ones by lia.
  rewrite (Z.land_comm m), Z.land_assoc. f_equal.
  rewrite Z.land_ones by lia. by rewrite Z.mod_small.
Qed.

(** [x & ~(2^n - 1)] rounds down to a multiple of [2^n]. *)
Lemma land_mask_down a n :
  0 ≤ n → 0 ≤ a < 2 ^ 64 → Z.land a (u64 (Z.lnot (2 ^ n - 1))) = a / 2 ^ n * 2 ^ n.
Proof.
  intros Hn Ha. rewrite land_u64_r by done.
  rewrite <-land_lnot_ones by done. f_equal. f_equal.
  rewrite Z.ones_equiv. lia.
Qed.

(** An or of a multiple of [2^n] and a number below [2^n] is a sum. *)
Lemma lor_low a b n : 0 ≤ n → a mod 2 ^ n = 0 → 0 ≤ b < 2 ^ n → Z.lor a b = a + b.
Proof.
  intros Hn Ha Hb.
  assert (Z.land a b = 0) as Hab.
  { apply Z.bits_inj'. intros i Hi. rewrite Z.land_spec, Z.bits_0.
    destruct (decide (n ≤ i)).
    - by rewrite (testbit_small b n i), andb_false_r.
    - replace a with (a / 2 ^ n * 2 ^ n).
      + rewrite Z.mul_pow2_bits_low by lia. done.
      + pose proof (Z.div_mod a (2 ^ n)). lia. }
  rewrite <-Z.lxor_lor by done. symmetry. by apply Z.add_nocarry_lxor.
Qed.

Lemma land_low a n : 0 ≤ n → Z.land a (2 ^ n - 1) = a mod 2 ^ n.
Proof.
  intros Hn. rewrite <-Z.land_ones by done. f_equal. rewrite Z.ones_equiv. lia.
Qed.
