(* ===== verification/Memory.v ===== *)
(** * Byte-addressed physical memory

    The kernel runs with an identity map, so a C pointer is a physical
    address.  Memory is a finite map from addresses to bytes: a load from an
    address that was never written is a [WildAddr] fault, a store creates the
    byte.  64-bit accesses are little endian ([-mlittle-endian] in the
    Makefile).  [write_bytes] and [ld64] are what the specifications of
    lib/string.c and of the page-table code are written with. *)

From S2P Require Import Prelude.

Abbreviation memory := (gmap Z Z).

Fixpoint le_bytes (n : nat) (v : Z) : list Z :=
  match n with
  | O => []
  | S n => v mod 256 :: le_bytes n (v / 256)
  end.

Fixpoint le_value (l : list Z) : Z :=
  match l with
  | [] => 0
  | b :: l => b + 256 * le_value l
  end.

Fixpoint write_bytes (a : Z) (l : list Z) (m : memory) : memory :=
  match l with
  | [] => m
  | b :: l => <[a := b]> (write_bytes (a + 1) l m)
  end.

Fixpoint read_bytes (n : nat) (a : Z) (m : memory) : option (list Z) :=
  match n with
  | O => Some []
  | S n => b ← m !! a; l ← read_bytes n (a + 1) m; Some (b :: l)
  end.

Definition ld64 (m : memory) (a : Z) : option Z := le_value <$> read_bytes 8 a m.
Definition st64 (m : memory) (a v : Z) : memory := write_bytes a (le_bytes 8 v) m.

(** [memory] with [n] bytes [b] from [a] on: what a correct memset leaves. *)
Definition fill (a n b : Z) (m : memory) : memory :=
  write_bytes a (replicate (Z.to_nat n) b) m.

(** The loads and stores the C code performs. *)
Definition load8 (a : Z) : M memory Z := λ m,
  match m !! a with Some b => Ret b m | None => Fault (WildAddr a) end.
Definition store8 (a v : Z) : M memory unit := modify (λ m, <[a := u8 v]> m).
Definition load64 (a : Z) : M memory Z := λ m,
  match ld64 m a with Some v => Ret v m | None => Fault (WildAddr a) end.
Definition store64 (a v : Z) : M memory unit := modify (λ m, st64 m a v).

(** ** Encoding *)

Lemma length_le_bytes n v : length (le_bytes n v) = n.
Proof. revert v; induction n; intros; cbn; auto. Qed.

Lemma le_value_bytes n v : 0 ≤ v < 256 ^ Z.of_nat n → le_value (le_bytes n v) = v.
Proof.
  revert v; induction n as [|n IH]; intros v Hv; cbn [le_bytes le_value].
  { change (256 ^ Z.of_nat 0) with 1 in Hv. lia. }
  rewrite Nat2Z.inj_succ, Z.pow_succ_r in Hv by lia.
  rewrite IH; [pose proof (Z.div_mod v 256); lia|].
  split; [apply Z.div_pos; lia|]. apply Z.div_lt_upper_bound; lia.
Qed.

Lemma le_bytes_value l :
  Forall (λ b, 0 ≤ b < 256) l → le_bytes (length l) (le_value l) = l.
Proof.
  induction 1 as [|b l Hb _ IH]; [done|]; cbn [le_bytes le_value length].
  rewrite (Z.mul_comm 256), Z.mod_add, Z.mod_small by lia.
  by rewrite Z.div_add, Z.div_small, Z.add_0_l, IH by lia.
Qed.

Lemma le_value_range l :
  Forall (λ b, 0 ≤ b < 256) l → 0 ≤ le_value l < 256 ^ Z.of_nat (length l).
Proof.
  induction 1 as [|b l Hb _ IH]; [done|]; cbn [le_value length].
  rewrite Nat2Z.inj_succ, Z.pow_succ_r by lia. lia.
Qed.

(** ** Reading what was written *)

Lemma lookup_write_bytes a l m x :
  write_bytes a l m !! x =
    if decide (a ≤ x < a + Z.of_nat (length l)) then l !! Z.to_nat (x - a) else m !! x.
Proof.
  revert a; induction l as [|b l IH]; intros a; cbn [write_bytes length].
  { rewrite decide_False by lia. done. }
  destruct (decide (x = a)) as [->|Hne].
  - rewrite lookup_insert_eq, decide_True by lia.
    by rewrite Z.sub_diag.
  - rewrite lookup_insert_ne, IH by done. do 2 case_decide; try lia; [|done].
    by replace (Z.to_nat (x - a)) with (S (Z.to_nat (x - (a + 1)))) by lia.
Qed.

Lemma lookup_write_bytes_out a l m x :
  x < a ∨ a + Z.of_nat (length l) ≤ x → write_bytes a l m !! x = m !! x.
Proof. intros. rewrite lookup_write_bytes, decide_False by lia. done. Qed.

Lemma lookup_fill a n b m x :
  fill a n b m !! x = if decide (a ≤ x < a + n) then Some b else m !! x.
Proof.
  unfold fill. rewrite lookup_write_bytes, length_replicate.
  destruct (decide (a ≤ x < a + n)).
  - rewrite decide_True by lia. apply lookup_replicate_2. lia.
  - rewrite decide_False by lia. done.
Qed.

Lemma fill_0 a b m : fill a 0 b m = m.
Proof. done. Qed.

Lemma fill_app a n1 n2 b m :
  0 ≤ n1 → 0 ≤ n2 → fill (a + n1) n2 b (fill a n1 b m) = fill a (n1 + n2) b m.
Proof.
  intros. apply map_eq. intros x. rewrite !lookup_fill.
  repeat case_decide; done || lia.
Qed.

Lemma read_bytes_ext n a m m' :
  (∀ x, a ≤ x < a + Z.of_nat n → m !! x = m' !! x) → read_bytes n a m = read_bytes n a m'.
Proof.
  revert a; induction n as [|n IH]; intros a Hx; [done|]; cbn.
  rewrite Hx by lia. destruct (m' !! a); [cbn|done]. rewrite (IH (a + 1)); [done|].
  intros; apply Hx; lia.
Qed.

Lemma read_bytes_lookup n a m l :
  length l = n → (∀ i b, l !! i = Some b → m !! (a + Z.of_nat i) = Some b) →
  read_bytes n a m = Some l.
Proof.
  intros <-; revert a; induction l as [|b l IH]; intros a Hl; [done|].
  cbn [read_bytes length]. rewrite <-(Z.add_0_r a) at 1.
  rewrite (Hl O b eq_refl : m !! (a + 0) = _); cbn. rewrite (IH (a + 1)); [done|].
  intros i b' Hi. rewrite <-(Hl (S i) b' Hi). f_equal. lia.
Qed.

Lemma read_write_bytes a l m : read_bytes (length l) a (write_bytes a l m) = Some l.
Proof.
  apply read_bytes_lookup; [done|]. intros i b Hi.
  pose proof (lookup_lt_Some _ _ _ Hi).
  rewrite lookup_write_bytes, decide_True by lia. rewrite <-Hi. f_equal. lia.
Qed.

Lemma ld64_st64_eq m a v : 0 ≤ v < 2 ^ 64 → ld64 (st64 m a v) a = Some v.
Proof.
  intros Hv. unfold ld64, st64.
  rewrite <-(length_le_bytes 8 v) at 1. rewrite read_write_bytes; cbn [fmap option_fmap option_map].
  by rewrite le_value_bytes.
Qed.

Lemma ld64_ext m m' a : (∀ x, a ≤ x < a + 8 → m !! x = m' !! x) → ld64 m a = ld64 m' a.
Proof. intros H. unfold ld64. by rewrite (read_bytes_ext 8 a m m'). Qed.

Lemma ld64_st64_ne m a b v : a + 8 ≤ b ∨ b + 8 ≤ a → ld64 (st64 m a v) b = ld64 m b.
Proof.
  intros H. apply ld64_ext. intros x Hx. apply lookup_write_bytes_out.
  rewrite length_le_bytes. lia.
Qed.

Lemma st64_lookup_out m a v x : x < a ∨ a + 8 ≤ x → st64 m a v !! x = m !! x.
Proof. intros. apply lookup_write_bytes_out. rewrite length_le_bytes. lia. Qed.

Lemma ld64_fill_zero m a n b : a ≤ b → b + 8 ≤ a + n → ld64 (fill a n 0 m) b = Some 0.
Proof.
  intros. unfold ld64. rewrite (read_bytes_lookup 8 b _ (replicate 8 0)); [done|done|].
  intros i c Hi. apply lookup_replicate in Hi as [-> Hi].
  rewrite lookup_fill, decide_True by lia. done.
Qed.

Lemma load64_eq m a v : ld64 m a = Some v → load64 a m = Ret v m.
Proof. intros H. unfold load64. by rewrite H. Qed.
Lemma store64_eq m a v : store64 a v m = Ret tt (st64 m a v).
Proof. done. Qed.
