(* ===== verification/CString.v ===== *)
(** * lib/string.c

    strlen, memcpy and memset over byte-addressed memory.  [size_t] is
    [unsigned int] in this file, so lengths are 32-bit.  The inline assembly
    of [__memset_16bytes_asm] is a do-while loop of two 64-bit stores. *)

From S2P Require Import Prelude Memory.

(** ** The code *)

(** [lib/string.c:4-12] strlen.  [fuel] bounds the scan. *)
Definition strlen (fuel : nat) (s : Z) : M memory Z :=
  loop fuel (λ sc,
    c ← load8 sc;
    if c =? 0 then mret (inr (u32 (sc - s))) else mret (inl (sc + 1))) s.

(** [lib/string.c:14-22] memcpy *)
Definition memcpy (dest src count : Z) : M memory Z :=
  for_range (Z.to_nat count) 0 (λ i, c ← load8 (src + i); store8 (dest + i) c) ;;
  mret dest.

(** [lib/string.c:24-31] __memset_1bytes *)
Definition __memset_1bytes (s c count : Z) : M memory Z :=
  for_range (Z.to_nat count) 0 (λ i, store8 (s + i) c) ;;
  mret s.

(** [lib/string.c:33-48] __memset_16bytes_asm: [stp data, data, [p], #16] until
    the 32-bit counter equals [count].  [count / 16 + 1] rounds are enough for
    the positive multiples of 16 it is called with. *)
Definition __memset_16bytes_asm (p data count : Z) : M memory unit :=
  loop (S (Z.to_nat (count / 16))) (λ '(p, i),
    store64 p data ;;
    store64 (p + 8) data ;;
    let i := u32 (i + 16) in
    if i =? u32 count then mret (inr tt) else mret (inl (p + 16, i))) (p, 0).

(** [lib/string.c:62-63] __memset: the byte replicated over 64 bits *)
Definition memset_data (c : Z) : Z :=
  foldl (λ data i, Z.lor data (u64 (Z.shiftl (Z.land (u64 c) 0xff) (i * 8)))) 0
    [0; 1; 2; 3; 4; 5; 6; 7].

(** [lib/string.c:50-89] __memset *)
Definition __memset (s c count : Z) : M memory Z :=
  let align := 16 in
  let address := s in
  let data := memset_data c in
  '(p, left') ← (if Z.land address (align - 1) =? 0 then mret (s, count)
                else let size := u32 (Z.land address (align - 1)) in
                     __memset_1bytes s c size ;;
                     mret (s + size, u32 (count - size)));
  when (align <? left')
    (let n := s32 (left' / align) in
     let left' := u32 (left' mod align) in
     __memset_16bytes_asm p data (s32 (16 * n)) ;;
     when (negb (left' =? 0)) (__memset_1bytes (p + 16 * n) c left' ;; skip)) ;;
  mret s.

(** [lib/string.c:91-94] memset *)
Definition memset (s c count : Z) : M memory Z := __memset s c (u32 count).

(** ** strlen *)

(** A NUL-terminated string [l] at address [s]. *)
Definition cstring (m : memory) (s : Z) (l : list Z) : Prop :=
  (∀ i c, l !! i = Some c → m !! (s + Z.of_nat i) = Some c ∧ c ≠ 0) ∧
  m !! (s + Z.of_nat (length l)) = Some 0.

Lemma strlen_loop m s l k fuel :
  cstring m s l → (k ≤ length l)%nat → (length l - k < fuel)%nat →
  loop fuel (λ sc, c ← load8 sc;
    if c =? 0 then mret (inr (u32 (sc - s))) else mret (inl (sc + 1))) (s + Z.of_nat k) m
  = Ret (u32 (Z.of_nat (length l))) m.
Proof.
  intros [Hl H0]. revert k; induction fuel as [|fuel IH]; intros k Hk Hf; [lia|].
  destruct (decide (k = length l)) as [->|Hne].
  - apply loop_done. unfold mbind, M_bind, load8. rewrite H0. cbn.
    by replace (s + Z.of_nat (length l) - s) with (Z.of_nat (length l)) by lia.
  - destruct (lookup_lt_is_Some_2 l k) as [c Hc]; [lia|].
    destruct (Hl k c Hc) as [Hm Hc0].
    rewrite (loop_more fuel _ _ (s + Z.of_nat k + 1) m m).
    + replace (s + Z.of_nat k + 1) with (s + Z.of_nat (S k)) by lia. apply IH; lia.
    + unfold mbind, M_bind, load8. rewrite Hm. by apply Z.eqb_neq in Hc0 as ->.
Qed.

(** ** memcpy *)

Lemma memcpy_loop src l dest m :
  (∀ i c, l !! i = Some c → m !! (src + Z.of_nat i) = Some c ∧ 0 ≤ c < 256) →
  dest + Z.of_nat (length l) ≤ src ∨ src + Z.of_nat (length l) ≤ dest →
  for_range (length l) 0 (λ i, c ← load8 (src + i); store8 (dest + i) c) m
  = Ret tt (write_bytes dest l m).
Proof.
  intros Hl Hd.
  destruct (for_range_inv (λ j m', m' = write_bytes dest (take (Z.to_nat j) l) m)
    (length l) 0 (λ i, c ← load8 (src + i); store8 (dest + i) c) m) as (m' & Heq & Hm').
  - done.
  - intros j m1 Hj ->.
    destruct (lookup_lt_is_Some_2 l (Z.to_nat j)) as [c Hc]; [lia|].
    destruct (Hl _ _ Hc) as [Hm Hcr]. rewrite Z2Nat.id in Hm by lia.
    eexists; split.
    + unfold mbind, M_bind, load8. rewrite lookup_write_bytes_out, Hm; [done|].
      rewrite length_take. lia.
    + rewrite u8_id by lia. apply map_eq; intros x.
      replace (Z.to_nat (j + 1)) with (S (Z.to_nat j)) by lia.
      rewrite (take_S_r _ _ c) by done.
      rewrite lookup_write_bytes, length_app, length_take; cbn [length].
      destruct (decide (x = dest + j)) as [->|Hne].
      * rewrite lookup_insert_eq, decide_True by lia.
        rewrite lookup_app_r; rewrite length_take; [|lia].
        by replace (Z.to_nat (dest + j - dest) - Z.to_nat j `min` length l)%nat with O by lia.
      * rewrite lookup_insert_ne, lookup_write_bytes, length_take by done.
        repeat case_decide; try lia; [|done].
        rewrite lookup_app_l; [done|]. rewrite length_take. lia.
  - rewrite Heq, Hm'. do 2 f_equal. rewrite take_ge; [done|lia].
Qed.

(** ** memset *)

Lemma memset_1bytes_fill s c count m :
  0 ≤ count → __memset_1bytes s c count m = Ret s (fill s count (u8 c) m).
Proof.
  intros Hc. unfold __memset_1bytes.
  destruct (for_range_inv (λ j m', m' = fill s j (u8 c) m) (Z.to_nat count) 0
    (λ i, store8 (s + i) c) m) as (m' & Heq & Hm').
  - done.
  - intros j m1 Hj ->. eexists; split; [done|].
    rewrite <-(fill_app s j 1) by lia. done.
  - rewrite (bind_eq _ _ _ _ _ Heq), Hm'. unfold mret, M_ret. do 2 f_equal. lia.
Qed.

(** The 64-bit pattern is the byte eight times: checked for all 256 bytes. *)
Lemma memset_data_spec c : le_bytes 8 (memset_data c) = replicate 8 (u8 c).
Proof.
  assert (memset_data c = memset_data (u8 c)) as ->.
  { unfold memset_data. do 2 f_equal. unfold u8, u64.
    change 0xff with (2 ^ 8 - 1). rewrite !land_low by lia.
    rewrite !(Z.mod_mod_divide _ (2 ^ 64) (2 ^ 8)) by (by exists (2 ^ 56)).
    by rewrite Z.mod_mod. }
  pose proof (u8_range c) as Hr.
  assert (forallb (λ b, bool_decide (le_bytes 8 (memset_data b) = replicate 8 b)) (seqZ 0 256) = true)
    as Hall by (vm_compute; reflexivity).
  rewrite forallb_forall in Hall. specialize (Hall (u8 c)).
  eapply (bool_decide_eq_true_1 (_ = _)), Hall, list_elem_of_In, elem_of_seqZ. lia.
Qed.

Lemma store_pair_fill p c m :
  (store64 p (memset_data c) ;; store64 (p + 8) (memset_data c)) m
  = Ret tt (fill p 16 (u8 c) m).
Proof.
  unfold mbind, M_bind, store64, modify, st64. rewrite memset_data_spec.
  f_equal. by rewrite <-(fill_app p 8 8) by lia.
Qed.

Lemma memset_16bytes_fill p c n k m fuel :
  0 ≤ k < n → n < 2 ^ 27 → (Z.to_nat (n - k) ≤ fuel)%nat →
  loop fuel (λ '(p, i),
    store64 p (memset_data c) ;;
    store64 (p + 8) (memset_data c) ;;
    let i := u32 (i + 16) in
    if i =? u32 (16 * n) then mret (inr tt) else mret (inl (p + 16, i))) (p, 16 * k) m
  = Ret tt (fill p (16 * (n - k)) (u8 c) m).
Proof.
  intros Hk Hn. revert p k m Hk; induction fuel as [|fuel IH]; intros p k m Hk Hf; [lia|].
  pose proof (store_pair_fill p c m) as Hst.
  unfold mbind, M_bind, store64, modify in Hst. injection Hst as Hst.
  rewrite (u32_id (16 * n)) in * by lia.
  destruct (decide (k + 1 = n)) as [He|Hne].
  - apply loop_done. unfold mbind, M_bind, store64, modify. rewrite Hst.
    rewrite u32_id by lia. replace (16 * k + 16 =? 16 * n) with true by lia.
    unfold mret, M_ret. do 2 f_equal. lia.
  - rewrite (loop_more fuel _ _ (p + 16, 16 * (k + 1)) m (fill p 16 (u8 c) m)).
    + rewrite IH by lia. f_equal. rewrite fill_app by lia. f_equal. lia.
    + unfold mbind, M_bind, store64, modify. rewrite Hst.
      rewrite u32_id by lia. replace (16 * k + 16 =? 16 * n) with false by lia.
      unfold mret, M_ret. do 3 f_equal. lia.
Qed.

(** How many bytes [__memset] really writes: all of them when more than 16 are
    left after the leading unaligned part, else only that leading part. *)
Definition memset_extent (s count : Z) : Z :=
  if 16 <? count - s mod 16 then count else s mod 16.

Lemma memset_extent_fill s c count m :
  0 ≤ s → s mod 16 ≤ count < 2 ^ 31 →
  memset s c count m = Ret s (fill s (memset_extent s count) (u8 c) m).
Proof.
  intros Hs Hc. unfold memset, __memset, memset_extent.
  pose proof (Z.mod_pos_bound s 16 ltac:(lia)) as Hm16.
  rewrite (u32_id count) by lia.
  change (16 - 1) with (2 ^ 4 - 1). rewrite land_low by lia.
  change (2 ^ 4) with 16. rewrite (u32_id (s mod 16)) by lia.
  (* both alignments leave the same intermediate state *)
  assert ((if s mod 16 =? 0 then mret (s, count)
           else __memset_1bytes s c (s mod 16) ;;
                mret (s + s mod 16, u32 (count - s mod 16))) m
          = Ret (s + s mod 16, count - s mod 16) (fill s (s mod 16) (u8 c) m)) as Hhead.
  { destruct (Z.eqb_spec (s mod 16) 0) as [->|Hne].
    - rewrite fill_0, Z.add_0_r, Z.sub_0_r. done.
    - rewrite (bind_eq _ _ _ _ _ (memset_1bytes_fill s c (s mod 16) m ltac:(lia))).
      by rewrite u32_id by lia. }
  rewrite (bind_eq _ _ _ _ _ Hhead). clear Hhead.
  generalize (s mod 16) Hc Hm16. clear Hc Hm16. intros z Hc Hm16.
  destruct (Z.ltb_spec 16 (count - z)) as [Hlt|Hge]; [|done].
  pose proof (Z.div_mod (count - z) 16 ltac:(lia)) as Hdm.
  pose proof (Z.mod_pos_bound (count - z) 16 ltac:(lia)) as Hr.
  set (q := (count - z) / 16) in *. set (r := (count - z) mod 16) in *.
  rewrite !(s32_id q), (s32_id (16 * q)) by lia. rewrite (u32_id r) by lia. cbn [when].
  assert (__memset_16bytes_asm (s + z) (memset_data c) (16 * q) (fill s z (u8 c) m)
    = Ret tt (fill s (z + 16 * q) (u8 c) m)) as Hasm.
  { unfold __memset_16bytes_asm. rewrite (Z.mul_comm 16 q), Z.div_mul, (Z.mul_comm q) by lia.
    change 0 with (16 * 0) at 1. rewrite memset_16bytes_fill by lia.
    by rewrite Z.sub_0_r, fill_app by lia. }
  unfold mbind at 1, M_bind at 1. unfold mbind at 1, M_bind at 1. rewrite Hasm.
  destruct (Z.eqb_spec r 0) as [Hr0|Hr0]; cbn [negb when].
  - unfold skip, mret, M_ret. do 2 f_equal. lia.
  - unfold mbind, M_bind. rewrite memset_1bytes_fill by lia.
    unfold skip, mret, M_ret. f_equal.
    replace (s + z + 16 * q) with (s + (z + 16 * q)) by lia.
    rewrite fill_app by lia. f_equal. lia.
Qed.

(** ** Properties *)

(** Strlen returns the length of every NUL-terminated string
    shorter than 2^32 bytes and leaves memory alone; a scan one step longer
    than the string is enough. *)
Theorem strlen_correct m s l fuel :
  cstring m s l → Z.of_nat (length l) < 2 ^ 32 → (length l < fuel)%nat →
  strlen fuel s m = Ret (Z.of_nat (length l)) m.
Proof.
  intros Hs Hl Hf. unfold strlen.
  pose proof (strlen_loop m s l 0 fuel Hs ltac:(lia) ltac:(lia)) as H.
  rewrite Z.add_0_r in H. rewrite H. by rewrite u32_id by lia.
Qed.

Definition abc_memory : memory := write_bytes 4096 [97; 98; 99; 0] ∅.

Lemma abc_cstring : cstring abc_memory 4096 [97; 98; 99].
Proof.
  split; [|reflexivity]. intros [|[|[|i]]] c Hc; cbn in Hc; try discriminate;
    injection Hc as <-; by split.
Qed.

Lemma strlen_correct_witness : strlen 4 4096 abc_memory = Ret 3 abc_memory.
Proof. apply (strlen_correct _ _ _ _ abc_cstring); cbn; lia. Defined.

(** Memcpy from a buffer that does not overlap the destination
    leaves exactly the source bytes at the destination, changes no other byte
    and returns the destination. *)
Theorem memcpy_copies src dest l m :
  (∀ i c, l !! i = Some c → m !! (src + Z.of_nat i) = Some c ∧ 0 ≤ c < 256) →
  dest + Z.of_nat (length l) ≤ src ∨ src + Z.of_nat (length l) ≤ dest →
  memcpy dest src (Z.of_nat (length l)) m = Ret dest (write_bytes dest l m).
Proof.
  intros Hl Hd. unfold memcpy. rewrite Nat2Z.id.
  by rewrite (bind_eq _ _ _ _ _ (memcpy_loop src l dest m Hl Hd)).
Qed.

Lemma memcpy_copies_witness :
  memcpy 8192 4096 3 abc_memory = Ret 8192 (write_bytes 8192 [97; 98; 99] abc_memory).
Proof.
  apply (memcpy_copies 4096 8192 [97; 98; 99]); [|cbn; lia].
  intros [|[|[|i]]] c Hc; cbn in Hc; try discriminate; injection Hc as <-; (split; [done|lia]).
Defined.

(** C32 (functional): memset, through its unaligned head, its loop of 16-byte
    stores and its tail, writes the low byte of [c] to exactly the [count]
    bytes from [s] and to nothing else, whenever more than 16 bytes are left
    after the unaligned head. *)
Theorem memset_fills s c count m :
  0 ≤ s → 16 < count - s mod 16 → count < 2 ^ 31 →
  memset s c count m = Ret s (fill s count (u8 c) m).
Proof.
  intros Hs Hc Hc'. rewrite memset_extent_fill by lia.
  unfold memset_extent. by replace (16 <? count - s mod 16) with true by lia.
Qed.

Lemma memset_fills_witness :
  memset 0x1003 (-1) 40 ∅ = Ret 0x1003 (fill 0x1003 40 255 ∅).
Proof. apply (memset_fills 0x1003 (-1) 40); [lia|vm_compute; reflexivity|lia]. Defined.

(** Memset on a 16-byte aligned address with at most 16 bytes
    writes nothing at all: the tail is only written when a 16-byte block was. *)
Theorem memset_small_writes_nothing s c count m :
  0 ≤ s → s mod 16 = 0 → 0 ≤ count ≤ 16 → memset s c count m = Ret s m.
Proof.
  intros Hs Ha Hc. rewrite memset_extent_fill by lia.
  unfold memset_extent. replace (16 <? count - s mod 16) with false by lia.
  by rewrite Ha, fill_0.
Qed.

Lemma memset_small_writes_nothing_witness :
  memset 0x2000 0x55 8 abc_memory = Ret 0x2000 abc_memory.
Proof. apply memset_small_writes_nothing; [lia|reflexivity|lia]. Defined.
