(* ===== verification/Mmio.v ===== *)
(** * Device registers, system registers and the trace of accesses

    readl/writel (include/asm/io.h), the system-register macros
    (include/asm/sysregs.h), the barriers (include/asm/barrier.h), the
    interrupt mask bit (include/asm/irq.h) and the busy loop of utils.S all act
    on hardware.  The model records every access, newest first, and a
    [platform], a parameter of every definition that reads a register, answers
    the reads; its answer may depend on the whole history. *)

From S2P Require Import Prelude.

Inductive event : Type :=
  | Readl (addr val : Z)
  | Writel (addr val : Z)
  | Mrs (reg : string) (val : Z)
  | Msr (reg : string) (val : Z)
  | Barrier (kind : string)        (* dsb, isb, tlbi, ic *)
  | Delay (loops : Z).

Abbreviation trace := (list event).

Record platform : Type := {
  dev_read : trace → Z → Z;
  sysreg_read : trace → string → Z;
}.

Section mmio.
Context (P : platform).

(** [arch/arm64/include/asm/io.h:4-11] readl *)
Definition readl (addr : Z) : M trace Z := λ tr,
  let v := u32 (dev_read P tr addr) in Ret v (Readl addr v :: tr).

(** [arch/arm64/include/asm/io.h:12-12] writel *)
Definition writel (v addr : Z) : M trace unit := λ tr,
  Ret tt (Writel addr (u32 v) :: tr).

(** [arch/arm64/include/asm/sysregs.h:27-32] read_sysreg *)
Definition read_sysreg (reg : string) : M trace Z := λ tr,
  let v := u64 (sysreg_read P tr reg) in Ret v (Mrs reg v :: tr).

(** [arch/arm64/include/asm/sysregs.h:34-38] write_sysreg *)
Definition write_sysreg (val : Z) (reg : string) : M trace unit := λ tr,
  Ret tt (Msr reg (u64 val) :: tr).
End mmio.

Definition barrier (kind : string) : M trace unit := modify (cons (Barrier kind)).

(** [arch/arm64/kernel/utils.S:11-15] delay *)
Definition delay (loops : Z) : M trace unit := modify (cons (Delay loops)).

(** The values written to one register, oldest first. *)
Fixpoint writes_to (addr : Z) (tr : trace) : list Z :=
  match tr with
  | [] => []
  | Writel a v :: tr => if a =? addr then writes_to addr tr ++ [v] else writes_to addr tr
  | _ :: tr => writes_to addr tr
  end.

(** All register writes, oldest first. *)
Fixpoint all_writes (tr : trace) : list (Z * Z) :=
  match tr with
  | [] => []
  | Writel a v :: tr => all_writes tr ++ [(a, v)]
  | _ :: tr => all_writes tr
  end.

(** All register reads, oldest first. *)
Fixpoint all_reads (tr : trace) : list (Z * Z) :=
  match tr with
  | [] => []
  | Readl a v :: tr => all_reads tr ++ [(a, v)]
  | _ :: tr => all_reads tr
  end.

Lemma all_writes_app tr1 tr2 : all_writes (tr1 ++ tr2) = all_writes tr2 ++ all_writes tr1.
Proof.
  induction tr1 as [|[] tr1 IH]; cbn; [by rewrite app_nil_r|..]; try done.
  by rewrite IH, app_assoc.
Qed.
