(* ===== verification/Uart.v ===== *)
(** * arch/arm64/mach-rpi/pl_uart.c: the PL011 console

    Sending and receiving poll the flag register; [fuel] bounds each poll.
    [char] is unsigned on AArch64, so characters are 0..255.  The model follows
    the default board of the Makefile (rpi4b: RPI5_BCM2712 undefined). *)

From S2P Require Import Prelude Memory Mmio.

(** ** Registers *)

(** [arch/arm64/mach-rpi/mach/base.h:10-10] PBASE *)
Definition PBASE : Z := 0xFE000000.
(** [arch/arm64/mach-rpi/mach/pl_uart.h:7-11] UART_BASE *)
Definition UART_BASE : Z := u32 (PBASE + 0x00201000).
(** [arch/arm64/mach-rpi/mach/pl_uart.h:13-13] UART_DATA_REG *)
Definition UART_DATA_REG : Z := u32 (UART_BASE + 0x00).
(** [arch/arm64/mach-rpi/mach/pl_uart.h:14-14] UART_FR_REG *)
Definition UART_FR_REG : Z := u32 (UART_BASE + 0x18).
(** [arch/arm64/mach-rpi/mach/pl_uart.h:15-15] UART_IBRD_REG *)
Definition UART_IBRD_REG : Z := u32 (UART_BASE + 0x24).
(** [arch/arm64/mach-rpi/mach/pl_uart.h:16-16] UART_FBRD_REG *)
Definition UART_FBRD_REG : Z := u32 (UART_BASE + 0x28).
(** [arch/arm64/mach-rpi/mach/pl_uart.h:17-17] UART_LCRH_REG *)
Definition UART_LCRH_REG : Z := u32 (UART_BASE + 0x2C).
(** [arch/arm64/mach-rpi/mach/pl_uart.h:18-18] UART_CR_REG *)
Definition UART_CR_REG : Z := u32 (UART_BASE + 0x30).
(** [arch/arm64/mach-rpi/mach/pl_uart.h:20-20] UART_IMSC_REG *)
Definition UART_IMSC_REG : Z := u32 (UART_BASE + 0x38).
(** [arch/arm64/mach-rpi/mach/pl_uart.h:23-23] UART_ICR_REG *)
Definition UART_ICR_REG : Z := u32 (UART_BASE + 0x44).
(** [arch/arm64/mach-rpi/mach/pl_uart.h:25-25] UART_FR_RXFE *)
Definition UART_FR_RXFE : Z := Z.shiftl 1 4.
(** [arch/arm64/mach-rpi/mach/pl_uart.h:26-26] UART_FR_TXFF *)
Definition UART_FR_TXFF : Z := Z.shiftl 1 5.
(** [arch/arm64/mach-rpi/mach/gpio.h:10-10] GPFSEL1 *)
Definition GPFSEL1 : Z := u32 (PBASE + 0x00200004).
(** [arch/arm64/mach-rpi/mach/gpio.h:13-13] GPPUD *)
Definition GPPUD : Z := u32 (PBASE + 0x00200094).
(** [arch/arm64/mach-rpi/mach/gpio.h:14-14] GPPUDCLK0 *)
Definition GPPUDCLK0 : Z := u32 (PBASE + 0x00200098).

(** ** The code *)

Section uart.
Context (P : platform) (fuel : nat).

(** [arch/arm64/mach-rpi/pl_uart.c:7-57] uart_init *)
Definition uart_init : M trace unit :=
  selector ← readl P GPFSEL1;
  let selector := Z.land selector (u32 (Z.lnot (Z.shiftl 7 12))) in
  let selector := Z.lor selector (Z.shiftl 4 12) in
  let selector := Z.land selector (u32 (Z.lnot (Z.shiftl 7 15))) in
  let selector := Z.lor selector (Z.shiftl 4 15) in
  writel selector GPFSEL1 ;;
  writel 0 GPPUD ;;
  delay 150 ;;
  writel (Z.lor (Z.shiftl 1 14) (Z.shiftl 1 15)) GPPUDCLK0 ;;
  delay 150 ;;
  writel 0 GPPUDCLK0 ;;
  writel 0 UART_CR_REG ;;
  writel 0x7FF UART_ICR_REG ;;
  writel 26 UART_IBRD_REG ;;
  writel 3 UART_FBRD_REG ;;
  writel (Z.lor (Z.shiftl 1 4) (Z.shiftl 3 5)) UART_LCRH_REG ;;
  writel 0 UART_IMSC_REG ;;
  writel (Z.lor 1 (Z.lor (Z.shiftl 1 8) (Z.shiftl 1 9))) UART_CR_REG.

(** The polling loop both directions share: [while (readl(FR) & mask) ;]. *)
Definition uart_wait (mask : Z) : M trace unit :=
  loop fuel (λ _ : unit,
    fr ← readl P UART_FR_REG;
    if Z.land fr mask =? 0 then mret (inr tt) else mret (inl tt)) tt.

(** [arch/arm64/mach-rpi/pl_uart.c:59-64] uart_recv *)
Definition uart_recv : M trace Z :=
  uart_wait UART_FR_RXFE ;;
  c ← readl P UART_DATA_REG;
  mret (Z.land c 0xFF).

(** [arch/arm64/mach-rpi/pl_uart.c:66-71] uart_send *)
Definition uart_send (c : Z) : M trace unit :=
  uart_wait UART_FR_TXFF ;;
  writel c UART_DATA_REG.

(** [arch/arm64/mach-rpi/pl_uart.c:73-79] uart_send_string, the string given
    by its characters before the NUL *)
Fixpoint uart_send_string (str : list Z) : M trace unit :=
  match str with
  | [] => skip
  | c :: str => uart_send c ;; uart_send_string str
  end.

(** [arch/arm64/mach-rpi/pl_uart.c:81-97] uart_recv_string.  The loop runs at
    most [len] times. *)
Definition uart_recv_string (buf len : Z) : M (memory * trace) Z :=
  index ← loop (S (Z.to_nat len)) (λ index,
    if index <? len then
      c ← zoom uart_recv;
      zoom (store8 (buf + index) c) ;;
      if (c =? 13) || (c =? 10) then mret (inr (index + 1)) else mret (inl (index + 1))
    else mret (inr index)) 0;
  let index := if index =? len then index - 1 else index in
  zoom (store8 (buf + index) 0) ;;
  mret index.

(** [arch/arm64/mach-rpi/pl_uart.c:99-104] putchar *)
Definition putchar (c : Z) : M trace unit :=
  when (c =? 10) (uart_send 13) ;;
  uart_send c.
End uart.

(** ** Reasoning

    What the terminal sees is the sequence of values written to the data
    register. *)

Definition uart_output : trace → list Z := writes_to UART_DATA_REG.

(** What it typed is the sequence of characters read from it. *)
Fixpoint uart_input (tr : trace) : list Z :=
  match tr with
  | [] => []
  | Readl a v :: tr => if a =? UART_DATA_REG then uart_input tr ++ [Z.land v 0xFF] else uart_input tr
  | _ :: tr => uart_input tr
  end.

(** Flag register after [n] polls from history [tr]. *)
Fixpoint poll_trace (P : platform) (tr : trace) (n : nat) : trace :=
  match n with
  | O => tr
  | S n => let tr := poll_trace P tr n in
           Readl UART_FR_REG (u32 (dev_read P tr UART_FR_REG)) :: tr
  end.

Definition fr_after (P : platform) (tr : trace) (n : nat) : Z :=
  u32 (dev_read P (poll_trace P tr n) UART_FR_REG).

(** The device property the driver relies on: from any history, the bit it
    waits for clears within [fuel] reads of the flag register. *)
Class UartLive (P : platform) (fuel : nat) : Prop := {
  tx_drains : ∀ tr, ∃ n, (n < fuel)%nat ∧ Z.land (fr_after P tr n) UART_FR_TXFF = 0;
  rx_fills : ∀ tr, ∃ n, (n < fuel)%nat ∧ Z.land (fr_after P tr n) UART_FR_RXFE = 0;
}.

Lemma poll_trace_shift P tr n :
  poll_trace P (Readl UART_FR_REG (u32 (dev_read P tr UART_FR_REG)) :: tr) n
  = poll_trace P tr (S n).
Proof. induction n as [|n IH]; [done|]. cbn [poll_trace] in *. by rewrite IH. Qed.

Lemma poll_trace_output P tr n : uart_output (poll_trace P tr n) = uart_output tr.
Proof. by induction n. Qed.

Lemma uart_wait_returns P mask fuel tr n :
  (n < fuel)%nat → Z.land (fr_after P tr n) mask = 0 →
  ∃ tr', uart_wait P fuel mask tr = Ret tt tr' ∧ uart_output tr' = uart_output tr ∧
         all_writes tr' = all_writes tr ∧ uart_input tr' = uart_input tr.
Proof.
  revert tr n; induction fuel as [|fuel IH]; intros tr n Hn H0; [lia|].
  set (v := u32 (dev_read P tr UART_FR_REG)).
  destruct (Z.eqb_spec (Z.land v mask) 0) as [Hz|Hz].
  - exists (Readl UART_FR_REG v :: tr). split_and!; [|done..].
    apply loop_done. unfold mbind, M_bind, readl. fold v. by rewrite Hz.
  - destruct n as [|n]; [done|].
    destruct (IH (Readl UART_FR_REG v :: tr) n) as (tr' & H1 & H2 & H3 & H4); [lia| |].
    { unfold fr_after, v in *. by rewrite poll_trace_shift. }
    exists tr'. split_and!; [|done..]. rewrite <-H1.
    apply loop_more. unfold mbind, M_bind, readl. fold v.
    by destruct (Z.eqb_spec (Z.land v mask) 0).
Qed.

Section live.
Context (P : platform) (fuel : nat) `{!UartLive P fuel}.

Lemma uart_send_output c tr :
  0 ≤ c < 2 ^ 32 →
  ∃ tr', uart_send P fuel c tr = Ret tt tr' ∧ uart_output tr' = uart_output tr ++ [c] ∧
         uart_input tr' = uart_input tr.
Proof.
  intros Hc. destruct (tx_drains tr) as (n & Hn & H0).
  destruct (uart_wait_returns P UART_FR_TXFF fuel tr n Hn H0) as (tr1 & H1 & H2 & _ & H3).
  eexists. split; [unfold uart_send; by rewrite (bind_eq _ _ _ _ _ H1)|].
  cbn. by rewrite Z.eqb_refl, u32_id, <-H2 by lia.
Qed.

Lemma putchar_output c tr :
  0 ≤ c < 2 ^ 32 →
  ∃ tr', putchar P fuel c tr = Ret tt tr' ∧
         uart_output tr' = uart_output tr ++ (if c =? 10 then [13; 10] else [c]).
Proof.
  intros Hc. unfold putchar. destruct (Z.eqb_spec c 10) as [->|Hne]; cbn [when].
  - destruct (uart_send_output 13 tr ltac:(lia)) as (tr1 & H1 & H2 & _).
    destruct (uart_send_output 10 tr1 ltac:(lia)) as (tr2 & H3 & H4 & _).
    exists tr2. by rewrite (bind_eq _ _ _ _ _ H1), H4, H2, <-app_assoc.
  - destruct (uart_send_output c tr ltac:(lia)) as (tr' & H1 & H2 & _). by exists tr'.
Qed.

Lemma uart_recv_returns tr :
  ∃ c tr', uart_recv P fuel tr = Ret c tr' ∧ 0 ≤ c < 256 ∧ all_writes tr' = all_writes tr ∧
           uart_input tr' = uart_input tr ++ [c].
Proof.
  destruct (rx_fills tr) as (n & Hn & H0).
  destruct (uart_wait_returns P UART_FR_RXFE fuel tr n Hn H0) as (tr1 & H1 & _ & H2 & H3).
  unfold uart_recv. rewrite (bind_eq _ _ _ _ _ H1). eexists _, _. split; [done|].
  split; [|split; [done|cbn; by rewrite Z.eqb_refl, H3]]. change 0xFF with (2 ^ 8 - 1). rewrite land_low by lia.
  by apply Z.mod_pos_bound.
Qed.
End live.

(** A device whose FIFO is always free and always has the character [c]. *)
Definition ready_platform (c : Z) : platform :=
  {| dev_read := λ _ a, if a =? UART_DATA_REG then c else 0; sysreg_read := λ _ _, 0 |}.

#[export] Instance ready_platform_live c n : UartLive (ready_platform c) (S n).
Proof. split; intros tr; exists O; (split; [lia|reflexivity]). Qed.

(** ** Receiving a line *)

Section recv_string.
Context (P : platform) (fuel : nat) `{!UartLive P fuel} (buf len : Z).

Definition recv_step (index : Z) : M (memory * trace) (Z + Z) :=
  if index <? len then
    c ← zoom (uart_recv P fuel);
    zoom (store8 (buf + index) c) ;;
    if (c =? 13) || (c =? 10) then mret (inr (index + 1)) else mret (inl (index + 1))
  else mret (inr index).

(** What holds of memory [m'] after the characters [l] went into the buffer. *)
Definition received (m m' : memory) (l : list Z) : Prop :=
  (∀ x, x < buf ∨ buf + Z.of_nat (length l) ≤ x → m' !! x = m !! x) ∧
  (∀ i c, l !! i = Some c → m' !! (buf + Z.of_nat i) = Some c).

(** A line: it ends at its first carriage return or newline, or is as long as the buffer. *)
Definition ends_line (c : Z) : bool := (c =? 13) || (c =? 10).
Definition is_line (l : list Z) : Prop :=
  Forall (λ c, 0 ≤ c < 256) l ∧ Z.of_nat (length l) ≤ len ∧
  ∃ l' c, l = l' ++ [c] ∧ Forall (λ c, ends_line c = false) l' ∧ (ends_line c = true ∨ Z.of_nat (length l) = len).

Lemma received_store m m' l c :
  0 ≤ c < 256 → received m m' l → received m (<[buf + Z.of_nat (length l) := u8 c]> m') (l ++ [c]).
Proof.
  intros Hc [Hout Hin]. rewrite u8_id by lia. split.
  - intros x Hx. rewrite length_app in Hx; cbn in Hx. rewrite lookup_insert_ne by lia. apply Hout. lia.
  - intros i c' Hi. apply lookup_app_Some in Hi as [Hi|[Hle Hi]].
    + pose proof (lookup_lt_Some _ _ _ Hi). rewrite lookup_insert_ne by lia. by apply Hin.
    + apply list_lookup_singleton_Some in Hi as [Hi ->]. replace i with (length l) by lia. by rewrite lookup_insert_eq.
Qed.

Lemma recv_step_full i s : len ≤ i → recv_step i s = Ret (inr i) s.
Proof. intros H. unfold recv_step. by destruct (Z.ltb_spec i len); [lia|]. Qed.

Lemma recv_step_char i m tr :
  i < len →
  ∃ c tr', recv_step i (m, tr) = Ret (if ends_line c then inr (i + 1) else inl (i + 1)) (<[buf + i := u8 c]> m, tr') ∧
           0 ≤ c < 256 ∧ all_writes tr' = all_writes tr ∧ uart_input tr' = uart_input tr ++ [c].
Proof.
  intros Hlt. destruct (uart_recv_returns P fuel tr) as (c & tr1 & H1 & Hc & Hw & Hi).
  exists c, tr1. split; [|done]. unfold recv_step. destruct (Z.ltb_spec i len); [|lia].
  unfold mbind, M_bind, zoom; cbn [lget lput lens_snd lens_fst fst snd]. rewrite H1. cbn. unfold ends_line.
  by destruct (_ || _).
Qed.

(** The loop, when [l] is in the buffer already and contains no end of line. *)
Lemma recv_loop n l m m0 tr :
  Z.of_nat (length l) ≤ len → 1 ≤ len → (Z.to_nat (len - Z.of_nat (length l)) < n)%nat → received m0 m l →
  Forall (λ c, 0 ≤ c < 256) l → Forall (λ c, ends_line c = false) l →
  ∃ k m' tr', loop n recv_step (Z.of_nat (length l)) (m, tr) = Ret (Z.of_nat (length (l ++ k))) (m', tr') ∧
    is_line (l ++ k) ∧ received m0 m' (l ++ k) ∧
    all_writes tr' = all_writes tr ∧ uart_input tr' = uart_input tr ++ k.
Proof.
  revert l m tr; induction n as [|n IH]; intros l m tr Hi Hlen Hn Hr Hb Hl; [lia|].
  destruct (decide (Z.of_nat (length l) < len)) as [Hlt|Hge]; cycle 1.
  { exists [], m, tr. rewrite !app_nil_r. split; [by apply loop_done, recv_step_full; lia|].
    split; [|done]. split; [done|]. split; [done|].
    destruct l as [|c l _] using rev_ind; [cbn in Hge; lia|]. apply Forall_app in Hl as [Hl _].
    exists l, c. split; [done|]. split; [done|]. right. lia. }
  destruct (recv_step_char (Z.of_nat (length l)) m tr Hlt) as (c & tr1 & H1 & Hc & Hw & Hin).
  pose proof (received_store m0 m l c Hc Hr) as Hr'.
  assert (Z.of_nat (length l) + 1 = Z.of_nat (length (l ++ [c]))) as Hlc by (rewrite length_app; cbn; lia).
  assert (Forall (λ c, 0 ≤ c < 256) (l ++ [c])) as Hb' by (apply Forall_app; split; [done|by constructor]).
  rewrite Hlc in H1. destruct (ends_line c) eqn:He.
  - exists [c], (<[buf + Z.of_nat (length l) := u8 c]> m), tr1.
    split; [by rewrite (loop_done n _ _ _ _ _ H1)|]. split; [|done].
    split; [done|]. split; [lia|]. exists l, c. split; [done|]. split; [done|by left].
  - destruct (IH (l ++ [c]) (<[buf + Z.of_nat (length l) := u8 c]> m) tr1) as (k & m' & tr' & H & Hk);
      [lia|done|lia|done|done|apply Forall_app; split; [done|by constructor]|].
    exists (c :: k), m', tr'. rewrite (loop_more n _ _ _ _ _ H1), (cons_middle c l k), (app_assoc l [c] k).
    split; [done|]. destruct Hk as (H2 & H3 & H4 & H5). split; [done|]. split; [done|].
    split; [by rewrite H4|]. by rewrite H5, Hin, <-app_assoc.
Qed.
End recv_string.

(** ** Properties *)

(** What the terminal sees is a part of what is written. *)
Lemma uart_output_writes tr tr' : all_writes tr' = all_writes tr → uart_output tr' = uart_output tr.
Proof.
  assert (∀ tr, uart_output tr = snd <$> filter (λ w, fst w = UART_DATA_REG) (all_writes tr)) as Hall.
  { clear. unfold uart_output. induction tr as [|[] tr IH]; try done. cbn [writes_to all_writes].
    rewrite list.filter_app, fmap_app, <-IH. destruct (Z.eqb_spec addr UART_DATA_REG) as [->|Hne].
    - by rewrite filter_cons_True.
    - rewrite filter_cons_False by done. by rewrite app_nil_r. }
  intros H. by rewrite !Hall, H.
Qed.

Lemma uart_send_string_ok P fuel `{!UartLive P fuel} str tr :
  Forall (λ c, 0 ≤ c < 256) str →
  ∃ tr', uart_send_string P fuel str tr = Ret tt tr' ∧
         uart_output tr' = uart_output tr ++ str ∧ uart_input tr' = uart_input tr.
Proof.
  intros Hs; revert tr; induction Hs as [|c str Hc _ IH]; intros tr.
  { exists tr. by rewrite app_nil_r. }
  destruct (uart_send_output P fuel c tr ltac:(lia)) as (tr1 & H1 & H2 & H3).
  destruct (IH tr1) as (tr2 & H4 & H5 & H6). exists tr2.
  cbn [uart_send_string]. by rewrite (bind_eq _ _ _ _ _ H1), H5, H2, H6, <-app_assoc.
Qed.

(** On a live UART, sending a string terminates and the
    terminal receives exactly its characters, in order, after what it had
    already received. *)
Theorem uart_send_string_output P fuel `{!UartLive P fuel} str tr :
  Forall (λ c, 0 ≤ c < 256) str →
  ∃ tr', uart_send_string P fuel str tr = Ret tt tr' ∧
         uart_output tr' = uart_output tr ++ str.
Proof. intros Hs. destruct (uart_send_string_ok P fuel str tr Hs) as (tr' & E & H & _). by exists tr'. Qed.

Lemma uart_send_string_output_witness :
  ∃ tr', uart_send_string (ready_platform 0) 1 [72; 105] [] = Ret tt tr' ∧
         uart_output tr' = uart_output [] ++ [72; 105].
Proof. apply uart_send_string_output; [apply _|]. repeat constructor; lia. Defined.

(** uart_recv_string: the line [l] is read, and the buffer holds it up to its last place,
    which is the NUL's. *)
Lemma uart_recv_string_line P fuel `{!UartLive P fuel} buf len m tr :
  1 ≤ len →
  ∃ l m' tr', let text := take (Z.to_nat (len - 1)) l in
    uart_recv_string P fuel buf len (m, tr) = Ret (Z.of_nat (length text)) (m', tr') ∧ is_line len l ∧
    received buf m m' (text ++ [0]) ∧ all_writes tr' = all_writes tr ∧ uart_input tr' = uart_input tr ++ l.
Proof.
  intros Hlen.
  destruct (recv_loop P fuel buf len (S (Z.to_nat len)) [] m m tr)
    as (l & m1 & tr1 & Heq & Hl & [Hout Hin] & Hw & Hi); [cbn; lia|done|cbn; lia|by split; intros; [|done]|constructor..|].
  cbn [app] in *. exists l, (<[buf + Z.of_nat (length (take (Z.to_nat (len - 1)) l)) := 0]> m1), tr1. cbv zeta.
  destruct Hl as (Hb & Hle & Hl). pose proof (length_take_le l (Z.to_nat (len - 1))) as Ht.
  split; [|split; [done|split; [|done]]].
  - unfold uart_recv_string. fold (recv_step P fuel buf len). rewrite (bind_eq _ _ _ _ _ Heq). cbv zeta.
    assert ((if Z.of_nat (length l) =? len then Z.of_nat (length l) - 1 else Z.of_nat (length l))
            = Z.of_nat (length (take (Z.to_nat (len - 1)) l))) as ->.
    { rewrite length_take. destruct (Z.eqb_spec (Z.of_nat (length l)) len); lia. }
    unfold mbind, M_bind, zoom; cbn [lget lput lens_fst fst snd store8 modify]. done.
  - split.
    + intros x. rewrite length_app, length_take; cbn [length]. intros Hx. rewrite lookup_insert_ne by lia.
      destruct (decide (x < buf ∨ buf + Z.of_nat (length l) ≤ x)); [by apply Hout|]. lia.
    + intros i c [Hc|[Hge Hc]]%lookup_app_Some.
      * pose proof (lookup_lt_Some _ _ _ Hc). rewrite lookup_insert_ne by lia. apply lookup_take_Some in Hc as [Hc _].
        by apply Hin.
      * apply list_lookup_singleton_Some in Hc as [H0 <-]. rewrite <-(lookup_insert_eq m1 (buf + Z.of_nat i) 0).
        do 3 f_equal. lia.
Qed.

(** C31 (functional): with a positive length and a live UART, receiving a line terminates.
    What it takes from the terminal is one line: the characters up to and with the first
    carriage return or newline, or [len] of them when none comes before.  The buffer holds
    those characters, in order, up to its last place, and then a NUL, whose index is what
    the function returns; a line of [len] characters loses its last.  Nothing is written
    after the NUL nor anywhere outside the buffer, and nothing is sent. *)
Theorem uart_recv_string_in_bounds P fuel `{!UartLive P fuel} buf len m tr :
  1 ≤ len →
  ∃ l m' tr', let text := take (Z.to_nat (len - 1)) l in
    uart_recv_string P fuel buf len (m, tr) = Ret (Z.of_nat (length text)) (m', tr') ∧
    uart_input tr' = uart_input tr ++ l ∧ all_writes tr' = all_writes tr ∧
    (∃ l' c, l = l' ++ [c] ∧ 13 ∉ l' ∧ 10 ∉ l' ∧
       (c = 13 ∨ c = 10 ∨ Z.of_nat (length l) = len) ∧ Z.of_nat (length l) ≤ len) ∧
    (∀ i c, (text ++ [0]) !! i = Some c → m' !! (buf + Z.of_nat i) = Some c) ∧
    Z.of_nat (length text) < len ∧
    (∀ x, x < buf ∨ buf + Z.of_nat (length text) < x → m' !! x = m !! x).
Proof.
  intros Hlen. destruct (uart_recv_string_line P fuel buf len m tr Hlen)
    as (l & m' & tr' & E & (_ & Hle & l' & c & Hl & Hno & Hend) & [Hout Hin] & Hw & Hi).
  assert (∀ x, ends_line x = true → x ∉ l') as Hnot.
  { intros x Hx Hxl. rewrite (proj1 (list.Forall_forall _ _) Hno x Hxl) in Hx. done. }
  exists l, m', tr'. cbv zeta. split; [done|]. split; [done|]. split; [done|]. split; [|split; [exact Hin|split]].
  - exists l', c. split; [done|]. split; [by apply Hnot|]. split; [by apply Hnot|]. split; [|done].
    destruct Hend as [[Hc|Hc]%orb_prop|Hc]; [left; lia|right; left; lia|by right; right].
  - rewrite length_take. lia.
  - intros x Hx. apply Hout. rewrite length_app. cbn [length]. lia.
Qed.

Lemma uart_recv_string_in_bounds_witness :
  ∃ l m' tr', uart_recv_string (ready_platform 65) 1 4096 4 (∅, []) = Ret 3 (m', tr') ∧
    uart_input tr' = l ∧ length l = 4%nat ∧ m' !! 4099 = Some 0.
Proof.
  destruct (uart_recv_string_in_bounds (ready_platform 65) 1 4096 4 ∅ [] ltac:(lia))
    as (l & m' & tr' & E & Hi & _ & _ & Hin & _ & _).
  assert (∃ m2 tr2, uart_recv_string (ready_platform 65) 1 4096 4 (∅, []) = Ret 3 (m2, tr2) ∧ length (uart_input tr2) = 4%nat) as (m2 & tr2 & E2 & Hl)
    by (do 2 eexists; split; [vm_compute; reflexivity|by vm_compute]).
  rewrite E in E2. injection E2 as Hidx -> ->. exists l, m2, tr2. rewrite E, Hidx. split; [done|]. split; [exact Hi|].
  rewrite Hi in Hl. split; [exact Hl|]. apply (Hin 3%nat). rewrite lookup_app_r by lia. by replace (3 - _)%nat with 0%nat by lia.
Defined.
