(* ===== verification/Format.v ===== *)
(** * lib/printk.c, the formatting half: scan_number, number and myprintf

    Output goes to a character buffer of [cap] bytes.  The buffer is modelled
    by the characters written so far; a store past its end is an [IndexRange]
    fault (the C code receives the size and never looks at it).  A pointer into
    the format is the list of the characters from there to the end of the
    string, the NUL included; a pointer past the NUL is [[]], and reading through
    it is an [OverRead] fault.  Variadic arguments are 64-bit slots or strings. *)

From S2P Require Import Prelude.

(** Characters of a Rocq string. *)
Definition chars (s : string) : list Z :=
  map (λ a, Z.of_N (Ascii.N_of_ascii a)) (String.list_ascii_of_string s).
Definition ch (s : string) : Z := List.hd 0 (chars s).
(** The newline, which Rocq strings have no escape for. *)
Definition nl : string := String (Ascii.ascii_of_N 10) EmptyString.
Infix "+++" := String.append (at level 60, right associativity).

(** One slot of a va_list: an integer register, or a pointer to a
    NUL-terminated string (NULL is [None]). *)
Inductive karg : Type :=
  | KInt (w : Z)
  | KStr (s : option (list Z)).

(** ** Flags *)

(** [lib/printk.c:22-22] ZEROPAD *)
Definition ZEROPAD : Z := 1.
(** [lib/printk.c:23-23] SIGN *)
Definition SIGN : Z := 2.
(** [lib/printk.c:24-24] PLUS *)
Definition PLUS : Z := 4.
(** [lib/printk.c:25-25] SPACE *)
Definition SPACE : Z := 8.
(** [lib/printk.c:26-26] LEFT *)
Definition LEFT : Z := 16.
(** [lib/printk.c:27-27] SPECIAL *)
Definition SPECIAL : Z := 32.
(** [lib/printk.c:28-28] SMALL *)
Definition SMALL : Z := 64.

Definition has (type flag : Z) : bool := negb (Z.land type flag =? 0).

(** [lib/printk.c:30-30] is_digit *)
Definition is_digit (c : Z) : bool := (48 <=? c) && (c <=? 57).

(** ** The output buffer *)

(** What a call of myprintf threads: the characters stored so far ([pos] is
    their number), the unread arguments, the local [base] (indeterminate until a
    conversion sets it) and the bytes stored through [%n]. *)
Record fmt_state : Type := FmtState {
  f_out : list Z;
  f_args : list karg;
  f_base : option Z;
  f_stores : list (Z * Z);
}.

Section format.
Context (cap : Z).

(** [*pos++ = c] *)
Definition emit (c : Z) : M fmt_state unit := λ st,
  if Z.of_nat (length (f_out st)) <? cap
  then Ret tt (FmtState (f_out st ++ [c]) (f_args st) (f_base st) (f_stores st))
  else Fault (IndexRange cap).

(** [while (bound < v--) *pos++ = c;], with the final value of [v]. *)
Fixpoint pad_loop (fuel : nat) (bound v c : Z) : M fmt_state Z :=
  match fuel with
  | O => hang
  | S n => if bound <? v then emit c ;; pad_loop n bound (v - 1) c else mret (v - 1)
  end.
Definition pad (bound v c : Z) : M fmt_state Z :=
  pad_loop (S (Z.to_nat (v - bound))) bound v c.

(** [while (--v > 0) *pos++ = c;] *)
Fixpoint pad_pre_loop (fuel : nat) (v c : Z) : M fmt_state Z :=
  match fuel with
  | O => hang
  | S n => if 0 <? v - 1 then emit c ;; pad_pre_loop n (v - 1) c else mret (v - 1)
  end.
Definition pad_pre (v c : Z) : M fmt_state Z := pad_pre_loop (S (Z.to_nat v)) v c.

Fixpoint emit_list (l : list Z) : M fmt_state unit :=
  match l with
  | [] => skip
  | c :: l => emit c ;; emit_list l
  end.

(** [*fmt] *)
Definition deref (fmt : list Z) : M fmt_state Z :=
  match fmt with [] => throw OverRead | c :: _ => mret c end.

(** [lib/printk.c:40-51] scan_number *)
Fixpoint scan_number_from (tmp : Z) (str : list Z) : M fmt_state (Z * list Z) :=
  match str with
  | [] => throw OverRead
  | c :: rest =>
      if is_digit c then scan_number_from (s32 (s32 (tmp * 10) + (c - 48))) rest
      else mret (tmp, str)
  end.
Definition scan_number (str : list Z) : M fmt_state (Z * list Z) := scan_number_from 0 str.

(** [lib/printk.c:59-63] digits *)
Definition digits (type : Z) : list Z :=
  if has type SMALL then chars "0123456789abcdefghijklmnopqrstuvwxyz"
  else chars "0123456789ABCDEFGHIJKLMNOPQRSTUVWXYZ".
Definition digit (type d : Z) : Z := nth (Z.to_nat d) (digits type) 0.

(** [lib/printk.c:91-96] number: the digits, least significant first, as they
    are stored into [tmp].  A 64-bit number has at most 64 of them; the round
    after the last finds that nothing is left. *)
Definition number_digits (type num base : Z) : M fmt_state (list Z) :=
  if num =? 0 then mret [ch "0"] else
  loop 65 (λ '(tmp, num),
    if num =? 0 then mret (inr tmp)
    else mret (inl (tmp ++ [digit type (num mod base)], num / base))) ([], num).

(** [lib/printk.c:53-124] number.  The result says whether the pointer it
    returns is valid ([false]: NULL). *)
Definition number (num base size precision type : Z) : M fmt_state bool :=
  let type := if has type LEFT then Z.land type (Z.lnot ZEROPAD) else type in
  if (base <? 2) || (36 <? base) then mret false else
  let c := if has type ZEROPAD then ch "0" else ch " " in
  let '(sign, num, size) :=
    if has type SIGN then
      let snum := s64 num in
      if snum <? 0 then (ch "-", u64 (- snum), size)
      else if has type PLUS then (ch "+", num, s32 (size - 1))
      else if has type SPACE then (ch " ", num, s32 (size - 1))
      else (0, num, size)
    else (0, num, size) in
  let size :=
    if has type SPECIAL then
      if base =? 16 then s32 (size - 2) else if base =? 8 then s32 (size - 1) else size
    else size in
  tmp ← number_digits type num base;
  let i := Z.of_nat (length tmp) in
  let precision := if precision <? i then i else precision in
  let size := s32 (size - precision) in
  size ← (if negb (has type (ZEROPAD + LEFT)) then pad 0 size (ch " ") else mret size);
  when (negb (sign =? 0)) (emit sign) ;;
  when (has type SPECIAL)
    (if base =? 8 then emit (ch "0")
     else when (base =? 16) (emit (ch "0") ;; emit (nth 33 (digits type) 0))) ;;
  size ← (if negb (has type LEFT) then pad 0 size c else mret size);
  pad i precision (ch "0") ;;
  emit_list (reverse tmp) ;;
  pad 0 size (ch " ") ;;
  mret true.

(** ** Arguments *)

Definition va_arg : M fmt_state karg := λ st,
  match f_args st with
  | [] => Fault Uninit
  | a :: args => Ret a (FmtState (f_out st) args (f_base st) (f_stores st))
  end.
(** The 64 bits of an integer slot. *)
Definition va_word : M fmt_state Z :=
  a ← va_arg; match a with KInt w => mret (u64 w) | KStr _ => throw Uninit end.
Definition va_int : M fmt_state Z := w ← va_word; mret (s32 w).
Definition va_str : M fmt_state (option (list Z)) :=
  a ← va_arg;
  match a with
  | KStr s => mret s
  | KInt w => if u64 w =? 0 then mret None else throw (WildAddr (u64 w))
  end.

Definition set_base (b : Z) : M fmt_state unit :=
  modify (λ st, FmtState (f_out st) (f_args st) (Some b) (f_stores st)).

(** ** Conversions *)

(** [lib/printk.c:164-184] myprintf: the flags loop.  [fmt] points at the
    character before the next flag. *)
Fixpoint parse_flags (flags : Z) (fmt : list Z) : M fmt_state (Z * list Z) :=
  match fmt with
  | _ :: ((c :: _) as fmt) =>
      if c =? ch "-" then parse_flags (Z.lor flags LEFT) fmt
      else if c =? ch "+" then parse_flags (Z.lor flags PLUS) fmt
      else if c =? ch " " then parse_flags (Z.lor flags SPACE) fmt
      else if c =? ch "#" then parse_flags (Z.lor flags SPECIAL) fmt
      else if c =? ch "0" then parse_flags (Z.lor flags ZEROPAD) fmt
      else mret (flags, fmt)
  | _ => throw OverRead
  end.

(** [lib/printk.c:186-196] myprintf: the minimum width.  A [*] is not skipped. *)
Definition parse_width (flags : Z) (fmt : list Z) : M fmt_state (Z * Z * list Z) :=
  c ← deref fmt;
  if is_digit c then '(w, fmt) ← scan_number fmt; mret (flags, w, fmt)
  else if c =? ch "*" then
    w ← va_int;
    if w <? 0 then mret (Z.lor flags LEFT, s32 (- w), fmt) else mret (flags, w, fmt)
  else mret (flags, -1, fmt).

(** [lib/printk.c:198-208] myprintf: the precision *)
Definition parse_precision (fmt : list Z) : M fmt_state (Z * list Z) :=
  c ← deref fmt;
  if c =? ch "." then
    let fmt := tl fmt in
    c ← deref fmt;
    '(p, fmt) ← (if is_digit c then scan_number fmt
                 else if c =? ch "*" then p ← va_int; mret (p, fmt)
                 else mret (-1, fmt));
    mret (if p <? 0 then 0 else p, fmt)
  else mret (-1, fmt).

(** [lib/printk.c:210-223] myprintf: the qualifier *)
Definition parse_qualifier (fmt : list Z) : M fmt_state (Z * list Z) :=
  q ← deref fmt;
  if (q =? ch "h") || (q =? ch "l") || (q =? ch "L") then
    let fmt := tl fmt in
    if q =? ch "l" then c ← deref fmt; mret (if c =? ch "l" then (ch "L", tl fmt) else (q, fmt))
    else mret (q, fmt)
  else mret (-1, fmt).

(** [--fmt], of a pointer into the string that starts at [start]. *)
Definition before (start fmt : list Z) : list Z := drop (length start - S (length fmt)) start.

(** [lib/printk.c:227-235] myprintf: case c *)
Definition conv_char (flags width : Z) : M fmt_state unit :=
  width ← (if negb (has flags LEFT) then pad_pre width (ch " ") else mret width);
  c ← va_int;
  emit (u8 c) ;;
  pad_pre width (ch " ") ;;
  skip.

(** [lib/printk.c:238-255] myprintf: case s *)
Definition conv_string (flags width precision : Z) : M fmt_state unit :=
  s ← va_str;
  let s := default (chars "<NULL>") s in
  let len := Z.of_nat (length s) in
  let len := if precision <? 0 then len else if precision <? len then precision else len in
  width ← (if negb (has flags LEFT) then pad len width (ch " ") else mret width);
  emit_list (take (Z.to_nat len) s) ;;
  pad len width (ch " ") ;;
  skip.

(** [lib/printk.c:308-329] myprintf: fetch the number and format it *)
Definition conv_number (flags width precision qualifier : Z) : M fmt_state unit :=
  w ← va_word;
  let num :=
    if (qualifier =? ch "L") || (qualifier =? ch "l") then w
    else if qualifier =? ch "h" then
      if has flags SIGN then u64 (s16 w) else u16 w
    else if has flags SIGN then u64 (s32 w) else u32 w in
  st ← get;
  base ← of_option Uninit (f_base st);
  ok ← number num base width precision flags;
  if ok : bool then skip else throw NullDeref.

(** [lib/printk.c:225-306] myprintf: the conversion character, in the directive
    whose percent sign is at [start]; the result is where [fmt] then points.  The
    default case breaks out of the switch and so, like the numeric cases, goes on to
    format a number, with the [base] an earlier conversion left. *)
Definition conversion (flags width precision qualifier : Z) (start fmt : list Z) :
    M fmt_state (list Z) :=
  c ← deref fmt;
  if c =? ch "c" then conv_char flags width ;; mret fmt
  else if c =? ch "s" then conv_string flags width precision ;; mret fmt
  else if c =? ch "n" then
    ip ← va_word;
    modify (λ st, FmtState (f_out st) (f_args st) (f_base st)
                    (f_stores st ++ [(ip, u8 (Z.of_nat (length (f_out st))))])) ;;
    mret fmt
  else if c =? ch "p" then
    let '(width, flags) := if width =? -1 then (16, Z.lor flags ZEROPAD) else (width, flags) in
    w ← va_word;
    number w 16 width precision flags ;;
    mret fmt
  else if c =? ch "o" then
    set_base 8 ;; conv_number flags width precision qualifier ;; mret fmt
  else if c =? ch "x" then
    set_base 16 ;; conv_number (Z.lor flags SMALL) width precision qualifier ;; mret fmt
  else if c =? ch "X" then
    set_base 16 ;; conv_number flags width precision qualifier ;; mret fmt
  else if (c =? ch "d") || (c =? ch "i") then
    set_base 10 ;; conv_number (Z.lor flags SIGN) width precision qualifier ;; mret fmt
  else if c =? ch "u" then
    set_base 10 ;; conv_number flags width precision qualifier ;; mret fmt
  else
    when (negb (c =? ch "%")) (emit (ch "%")) ;;
    fmt ← (if negb (c =? 0) then emit c ;; mret fmt else mret (before start fmt));
    conv_number flags width precision qualifier ;;
    mret fmt.

(** [lib/printk.c:158-330] myprintf: one directive, from its percent sign;
    the result is what the loop continues with, after its [fmt++]. *)
Definition directive (start : list Z) : M fmt_state (list Z) :=
  '(flags, fmt) ← parse_flags 0 start;
  '(flags, width, fmt) ← parse_width flags fmt;
  '(precision, fmt) ← parse_precision fmt;
  '(qualifier, fmt) ← parse_qualifier fmt;
  fmt ← conversion flags width precision qualifier start fmt;
  mret (tl fmt).

(** [lib/printk.c:158-163] myprintf: a round of the loop over the format *)
Definition format_step (fmt : list Z) : M fmt_state (list Z + unit) :=
  c ← deref fmt;
  if c =? 0 then mret (inr tt)
  else if negb (c =? ch "%") then emit c ;; mret (inl (tl fmt))
  else fmt ← directive fmt; mret (inl fmt).

(** A round consumes at least one character, so the length of the format bounds the
    rounds. *)
(** [lib/printk.c:158-163] myprintf: the loop over the format *)
Definition format_loop (fmt : list Z) : M fmt_state unit := loop (length fmt) format_step fmt.

(** [fmt] holds the characters before the NUL; the result is the text without its
    final NUL, whose store must be in bounds too. *)
(** [lib/printk.c:141-334] myprintf *)
Definition myprintf (fmt : list Z) (args : list karg) : outcome fmt_state Z :=
  (format_loop (fmt ++ [0]) ;;
   st ← get;
   emit 0 ;;
   put st ;;
   mret (s32 (Z.of_nat (length (f_out st))))) (FmtState [] args None []).
End format.

(** Try it. *)
Definition run_printf (cap : Z) (fmt : string) (args : list karg) : option (list Z) :=
  match myprintf cap (chars fmt) args with Ret _ st => Some (f_out st) | _ => None end.

Example printf_1 : run_printf 1024 "pid %d need_resched" [KInt 3] = Some (chars "pid 3 need_resched").
Proof. vm_compute. reflexivity. Qed.
Example printf_2 : run_printf 1024 "0x%08lx - %6ld B" [KInt 0x80000; KInt 4096] = Some (chars "0x00080000 -   4096 B").
Proof. vm_compute. reflexivity. Qed.
Example printf_3 : run_printf 1024 "%5d|%-5d|%+d|%#x" [KInt (-42); KInt 42; KInt 7; KInt 255]
  = Some (chars "   -42|42   |+7|0xff").
Proof. vm_compute. reflexivity. Qed.
Example printf_4 : run_printf 1024 "%s %5s %-5s|%.2s%c" [KStr (Some (chars "abc")); KStr (Some (chars "de")); KStr None; KStr (Some (chars "xyz")); KInt 65]
  = Some (chars "abc    de <NULL>|xyA").
Proof. vm_compute. reflexivity. Qed.

(** ** What the pieces compute *)

Lemma has_pow2 type k : 0 ≤ k → has type (2 ^ k) = Z.testbit type k.
Proof.
  intros Hk. unfold has. destruct (Z.testbit type k) eqn:Hb.
  - destruct (Z.eqb_spec (Z.land type (2 ^ k)) 0) as [H0|]; [|done].
    apply (f_equal (λ z, Z.testbit z k)) in H0.
    by rewrite Z.land_spec, Hb, Z.pow2_bits_true, Z.bits_0 in H0.
  - replace (Z.land type (2 ^ k)) with 0; [done|].
    symmetry. apply Z.bits_inj'. intros i Hi. rewrite Z.land_spec, Z.bits_0.
    destruct (decide (i = k)) as [->|]; [by rewrite Hb|].
    by rewrite Z.pow2_bits_false, andb_false_r by done.
Qed.

Lemma has_lor type f k : 0 ≤ k → has (Z.lor type f) (2 ^ k) = has type (2 ^ k) || has f (2 ^ k).
Proof. intros. by rewrite !has_pow2, Z.lor_spec. Qed.

Lemma has_clear_zeropad type k :
  0 ≤ k → has (Z.land type (Z.lnot ZEROPAD)) (2 ^ k) = has type (2 ^ k) && negb (k =? 0).
Proof.
  intros. rewrite !has_pow2, Z.land_spec, Z.lnot_spec by done.
  replace (Z.testbit ZEROPAD k) with (k =? 0); [done|].
  change ZEROPAD with (2 ^ 0). destruct (Z.eqb_spec k 0) as [->|]; [done|].
  by rewrite Z.pow2_bits_false.
Qed.

Lemma has_zeropad_left type : has type (ZEROPAD + LEFT) = has type ZEROPAD || has type LEFT.
Proof.
  change ZEROPAD with (2 ^ 0). change LEFT with (2 ^ 4). rewrite !has_pow2 by done.
  unfold has. change (2 ^ 0 + 2 ^ 4) with (Z.lor (2 ^ 0) (2 ^ 4)).
  rewrite Z.land_lor_distr_r.
  assert (∀ k, 0 ≤ k → Z.land type (2 ^ k) = if Z.testbit type k then 2 ^ k else 0) as Hl.
  { intros k Hk. apply Z.bits_inj'. intros i Hi. rewrite Z.land_spec.
    destruct (decide (i = k)) as [->|].
    - rewrite Z.pow2_bits_true by done. destruct (Z.testbit type k).
      + by rewrite Z.pow2_bits_true.
      + by rewrite Z.bits_0.
    - rewrite Z.pow2_bits_false, andb_false_r by done.
      destruct (Z.testbit type k); [by rewrite Z.pow2_bits_false|by rewrite Z.bits_0]. }
  rewrite !Hl by done. by destruct (Z.testbit type 0), (Z.testbit type 4).
Qed.

Section emit.
Context (cap : Z).

Lemma emit_list_app l1 l2 :
  emit_list cap (l1 ++ l2) ≡ (emit_list cap l1 ;; emit_list cap l2).
Proof.
  induction l1 as [|c l1 IH]; [by intros st|]. cbn [emit_list app].
  rewrite bind_assoc. apply bind_ext. intros _. by rewrite IH.
Qed.

Lemma emit_single c : emit cap c ≡ emit_list cap [c].
Proof. intros st. cbn. unfold mbind, M_bind, skip, mret, M_ret. by destruct (emit cap c st) as [[] ?|?|?|]. Qed.

(** Enough room: the characters are appended. *)
Lemma emit_list_fits l st :
  Z.of_nat (length (f_out st) + length l) ≤ cap →
  emit_list cap l st = Ret tt (FmtState (f_out st ++ l) (f_args st) (f_base st) (f_stores st)).
Proof.
  revert st; induction l as [|c l IH]; intros st Hl; cbn [emit_list].
  { rewrite app_nil_r. by destruct st. }
  cbn [length] in Hl. unfold mbind, M_bind, emit.
  destruct (Z.ltb_spec (Z.of_nat (length (f_out st))) cap); [|lia].
  rewrite IH; cbn [f_out f_args f_base f_stores]; [by rewrite <-app_assoc|].
  rewrite length_app; cbn [length]. lia.
Qed.

(** Not enough room: a store past the end of the buffer. *)
Lemma emit_list_overflow l st :
  Z.of_nat (length (f_out st)) ≤ cap < Z.of_nat (length (f_out st) + length l) →
  emit_list cap l st = Fault (IndexRange cap).
Proof.
  revert st; induction l as [|c l IH]; intros st Hl; cbn [length emit_list] in *; [lia|].
  unfold mbind, M_bind, emit.
  destruct (Z.ltb_spec (Z.of_nat (length (f_out st))) cap) as [Hlt|]; [|done].
  apply IH; cbn [f_out]. rewrite length_app; cbn [length]. lia.
Qed.

Lemma emit_list_ret_nil {A} (a : A) : (emit_list cap [] ;; mret a) ≡ mret a.
Proof. by intros st. Qed.

Lemma pad_loop_spec n bound v c :
  (Z.to_nat (v - bound) < n)%nat →
  pad_loop cap n bound v c
  ≡ (emit_list cap (replicate (Z.to_nat (v - bound)) c) ;; mret (Z.min v bound - 1)).
Proof.
  revert v; induction n as [|n IH]; intros v Hn; [lia|]; cbn [pad_loop].
  destruct (Z.ltb_spec bound v) as [Hlt|Hge].
  - replace (Z.to_nat (v - bound)) with (S (Z.to_nat (v - 1 - bound))) by lia.
    cbn [replicate emit_list]. rewrite bind_assoc. apply bind_ext. intros _.
    rewrite IH by lia. by replace (Z.min (v - 1) bound - 1) with (Z.min v bound - 1) by lia.
  - replace (Z.to_nat (v - bound)) with O by lia. rewrite emit_list_ret_nil.
    by replace (Z.min v bound) with v by lia.
Qed.

Lemma pad_spec bound v c :
  pad cap bound v c
  ≡ (emit_list cap (replicate (Z.to_nat (v - bound)) c) ;; mret (Z.min v bound - 1)).
Proof. apply pad_loop_spec. lia. Qed.

(** A padding loop whose counter is already used up emits nothing. *)
Lemma pad_done bound v c : v ≤ bound → pad cap bound v c ≡ mret (v - 1).
Proof.
  intros Hv. rewrite pad_spec. replace (Z.to_nat (v - bound)) with O by lia.
  rewrite emit_list_ret_nil. by replace (Z.min v bound) with v by lia.
Qed.

Lemma pad_pre_spec v c :
  pad_pre cap v c
  ≡ (emit_list cap (replicate (Z.to_nat (v - 1)) c) ;; mret (Z.min (v - 1) 0)).
Proof.
  unfold pad_pre. assert (Z.to_nat v < S (Z.to_nat v))%nat as Hf by lia.
  revert Hf. generalize (S (Z.to_nat v)). intros n; revert v.
  induction n as [|n IH]; intros v Hn; [lia|]; cbn [pad_pre_loop].
  destruct (Z.ltb_spec 0 (v - 1)) as [Hlt|Hge].
  - replace (Z.to_nat (v - 1)) with (S (Z.to_nat (v - 1 - 1))) by lia.
    cbn [replicate emit_list]. rewrite bind_assoc. apply bind_ext. intros _.
    rewrite IH by lia. by replace (Z.min (v - 1 - 1) 0) with (Z.min (v - 1) 0) by lia.
  - replace (Z.to_nat (v - 1)) with O by lia. rewrite emit_list_ret_nil.
    by replace (Z.min (v - 1) 0) with (v - 1) by lia.
Qed.
End emit.

(** ** Numerals *)

(** The digits of a number, least significant first: at most [n] of them. *)
Fixpoint numeral_digits (n : nat) (type num base : Z) : list Z :=
  match n with
  | O => []
  | S n => if num =? 0 then []
           else digit type (num mod base) :: numeral_digits n type (num / base) base
  end.
Definition number_tmp (type num base : Z) : list Z :=
  if num =? 0 then [ch "0"] else numeral_digits 64 type num base.

Definition char_value (c : Z) : Z :=
  if c <=? 57 then c - 48 else if c <=? 90 then c - 55 else c - 87.

(** Reading a numeral back, most significant digit first. *)
Definition numeral_value (base : Z) (l : list Z) : Z :=
  foldl (λ acc c, acc * base + char_value c) 0 l.

Lemma char_value_digit type d : 0 ≤ d < 36 → char_value (digit type d) = d.
Proof.
  intros Hd. unfold digit, digits.
  assert (forallb (λ d, (char_value (nth (Z.to_nat d) (chars "0123456789abcdefghijklmnopqrstuvwxyz") 0) =? d)
    && (char_value (nth (Z.to_nat d) (chars "0123456789ABCDEFGHIJKLMNOPQRSTUVWXYZ") 0) =? d)) (seqZ 0 36) = true)
    as Hall by (vm_compute; reflexivity).
  rewrite forallb_forall in Hall. specialize (Hall d).
  rewrite andb_true_iff, !Z.eqb_eq in Hall. destruct Hall as [H1 H2].
  { apply list_elem_of_In, elem_of_seqZ. lia. }
  by destruct (has type SMALL).
Qed.

Lemma numeral_value_snoc base l c :
  numeral_value base (l ++ [c]) = numeral_value base l * base + char_value c.
Proof. unfold numeral_value. by rewrite foldl_app. Qed.

Section numerals.
Context (type base : Z) (Hbase : 2 ≤ base ≤ 36).

Lemma numeral_digits_value n num :
  0 ≤ num < base ^ Z.of_nat n →
  numeral_value base (reverse (numeral_digits n type num base)) = num.
Proof.
  revert num; induction n as [|n IH]; intros num Hn.
  { cbn in *. change (base ^ 0) with 1 in Hn. unfold numeral_value; cbn. lia. }
  cbn [numeral_digits]. destruct (Z.eqb_spec num 0) as [->|Hnz]; [done|].
  rewrite Nat2Z.inj_succ, Z.pow_succ_r in Hn by lia.
  pose proof (Z.mod_pos_bound num base ltac:(lia)) as Hm.
  rewrite reverse_cons, numeral_value_snoc, char_value_digit by lia.
  rewrite IH; [pose proof (Z.div_mod num base); lia|].
  split; [apply Z.div_pos; lia|apply Z.div_lt_upper_bound; lia].
Qed.

Lemma pow2_le_base n : 2 ^ Z.of_nat n ≤ base ^ Z.of_nat n.
Proof. apply Z.pow_le_mono_l. lia. Qed.

Lemma number_tmp_value num :
  0 ≤ num < 2 ^ 64 → numeral_value base (reverse (number_tmp type num base)) = num.
Proof.
  intros Hn. unfold number_tmp. destruct (Z.eqb_spec num 0) as [->|]; [done|].
  apply numeral_digits_value. pose proof (pow2_le_base 64). lia.
Qed.

Lemma number_tmp_length num : (1 ≤ length (number_tmp type num base) ≤ 64)%nat.
Proof.
  unfold number_tmp. destruct (Z.eqb_spec num 0) as [|Hnz]; [cbn; lia|]. split.
  - change 64%nat with (S 63). cbn [numeral_digits].
    destruct (Z.eqb_spec num 0); [done|cbn; lia].
  - generalize 64%nat. intros n; revert num Hnz; induction n as [|n IH]; intros num Hnz; [done|].
    cbn [numeral_digits]. destruct (Z.eqb_spec num 0); [cbn; lia|]. cbn [length].
    destruct (decide (num / base = 0)) as [H0|H0]; [|specialize (IH _ H0); lia].
    rewrite H0. destruct n; cbn; lia.
Qed.

(** The loop ends after the last digit, and has found them all. *)
Lemma number_digits_loop n num acc (st : fmt_state) :
  0 ≤ num < base ^ Z.of_nat n →
  loop (S n) (λ '((tmp, num) : list Z * Z),
    if num =? 0 then mret (inr tmp)
    else mret (inl (tmp ++ [digit type (num mod base)], num / base))) (acc, num) st
  = Ret (acc ++ numeral_digits n type num base) st.
Proof.
  revert num acc; induction n as [|n IH]; intros num acc Hn.
  { change (base ^ Z.of_nat 0) with 1 in Hn. replace num with 0 by lia. by rewrite app_nil_r. }
  cbn [numeral_digits]. destruct (Z.eqb_spec num 0) as [->|Hnz].
  { rewrite app_nil_r. by apply loop_done. }
  rewrite (loop_more (S n) _ _ (acc ++ [digit type (num mod base)], num / base) st st)
    by (by rewrite (proj2 (Z.eqb_neq num 0))).
  rewrite IH, <-app_assoc; [done|]. rewrite Nat2Z.inj_succ, Z.pow_succ_r in Hn by lia.
  split; [apply Z.div_pos; lia|apply Z.div_lt_upper_bound; lia].
Qed.

Lemma number_digits_eq num : 0 ≤ num < 2 ^ 64 → number_digits type num base ≡ mret (number_tmp type num base).
Proof.
  intros Hn st. unfold number_digits, number_tmp. destruct (num =? 0); [done|].
  rewrite (number_digits_loop 64 num [] st); [done|]. pose proof (pow2_le_base 64). lia.
Qed.
End numerals.

(** ** The text of a number *)

(** Sign character, magnitude and remaining width. *)
Definition number_sign (type num size : Z) : list Z * Z * Z :=
  if has type SIGN then
    if s64 num <? 0 then ([ch "-"], u64 (- s64 num), size)
    else if has type PLUS then ([ch "+"], num, size - 1)
    else if has type SPACE then ([ch " "], num, size - 1)
    else ([], num, size)
  else ([], num, size).

Definition number_prefix (type base : Z) : list Z :=
  if has type SPECIAL then
    if base =? 8 then [ch "0"]
    else if base =? 16 then [ch "0"; nth 33 (digits type) 0] else []
  else [].

(** The layout [number] promises: padding, sign, prefix, zeros, digits. *)
Definition number_text (num base size precision type : Z) : list Z :=
  let '(sign, num, size) := number_sign type num size in
  let prefix := number_prefix type base in
  let numeral := reverse (number_tmp type num base) in
  let zeros := replicate (Z.to_nat precision - length numeral)%nat (ch "0") in
  let fill := (Z.to_nat size - length (prefix ++ zeros ++ numeral))%nat in
  if has type LEFT then sign ++ prefix ++ zeros ++ numeral ++ replicate fill (ch " ")
  else if has type ZEROPAD then sign ++ prefix ++ replicate fill (ch "0") ++ zeros ++ numeral
  else replicate fill (ch " ") ++ sign ++ prefix ++ zeros ++ numeral.

Lemma digits_clear type : digits (Z.land type (Z.lnot ZEROPAD)) = digits type.
Proof.
  unfold digits. change SMALL with (2 ^ 6). rewrite has_clear_zeropad by done.
  by rewrite andb_true_r.
Qed.

Lemma number_tmp_clear type num base :
  number_tmp (Z.land type (Z.lnot ZEROPAD)) num base = number_tmp type num base.
Proof.
  unfold number_tmp. destruct (num =? 0); [done|]. generalize 64%nat; intros n.
  revert num; induction n as [|n IH]; intros num; [done|]; cbn [numeral_digits].
  destruct (num =? 0); [done|]. f_equal; [|apply IH]. unfold digit. by rewrite digits_clear.
Qed.

Section number_spec.
Context (cap : Z).

Lemma emit_merge {A} l1 l2 (k : M fmt_state A) :
  (emit_list cap l1 ;; emit_list cap l2 ;; k) ≡ (emit_list cap (l1 ++ l2) ;; k).
Proof. by rewrite emit_list_app, bind_assoc. Qed.

Lemma pad_bind {A} bound v c (k : Z → M fmt_state A) :
  (pad cap bound v c ≫= k)
  ≡ (emit_list cap (replicate (Z.to_nat (v - bound)) c) ;; k (Z.min v bound - 1)).
Proof. rewrite pad_spec, bind_assoc. apply bind_ext. intros _. by rewrite bind_ret_l. Qed.

Lemma emit_list_nil {A} (k : M fmt_state A) : (emit_list cap [] ;; k) ≡ k.
Proof. by intros st. Qed.

(** The padding skeleton of [number], whatever the flags were. *)
Lemma number_skeleton (sign prefix numeral : list Z) (precision size c : Z) (left' zero : bool) :
  (c = if zero then ch "0" else ch " ") → (left' = true → zero = false) →
  let i := Z.of_nat (length numeral) in
  let zeros := replicate (Z.to_nat precision - length numeral)%nat (ch "0") in
  let fill := Z.to_nat (size - Z.max precision i) in
  (size ← (if negb (zero || left') then pad cap 0 (size - Z.max precision i) (ch " ")
           else mret (size - Z.max precision i));
   emit_list cap sign ;;
   emit_list cap prefix ;;
   size ← (if negb left' then pad cap 0 size c else mret size);
   pad cap i (Z.max precision i) (ch "0") ;;
   emit_list cap numeral ;;
   pad cap 0 size (ch " ") ;;
   mret true)
  ≡ (emit_list cap
       (if left' then sign ++ prefix ++ zeros ++ numeral ++ replicate fill (ch " ")
        else if zero then sign ++ prefix ++ replicate fill (ch "0") ++ zeros ++ numeral
        else replicate fill (ch " ") ++ sign ++ prefix ++ zeros ++ numeral) ;;
     mret true).
Proof.
  intros Hc Hlz i zeros fill.
  assert (replicate (Z.to_nat (Z.max precision i - i)) (ch "0") = zeros) as Hz.
  { unfold zeros. f_equal. lia. }
  destruct left', zero; subst c; [by specialize (Hlz eq_refl)|..]; cbn [negb orb];
    repeat (rewrite pad_bind || rewrite bind_ret_l || rewrite emit_merge || setoid_rewrite pad_bind
            || setoid_rewrite bind_ret_l || setoid_rewrite emit_merge);
    rewrite Hz, ?Z.sub_0_r; fold fill;
    repeat match goal with
    | |- context [replicate (Z.to_nat ?z) _] => rewrite (Z2Nat.nonpos z) by lia
    end; cbn [replicate];
    match goal with
    | |- (_ ?l1 ≫= _) ≡ (_ ?l2 ≫= _) =>
        replace l1 with l2 by (rewrite ?app_nil_r, <-?app_assoc; reflexivity)
    end; reflexivity.
Qed.
End number_spec.

(** The sign computation of the code, against [number_sign]. *)
Lemma number_sign_code type num size :
  0 ≤ num < 2 ^ 64 → - 2 ^ 29 ≤ size ≤ 2 ^ 29 →
  ∃ sl n sz, number_sign type num size = (sl, n, sz) ∧
    (if has type SIGN then
       if s64 num <? 0 then (ch "-", u64 (- s64 num), size)
       else if has type PLUS then (ch "+", num, s32 (size - 1))
       else if has type SPACE then (ch " ", num, s32 (size - 1))
       else (0, num, size)
     else (0, num, size)) = (List.hd 0 sl, n, sz) ∧
    0 ≤ n < 2 ^ 64 ∧ - 2 ^ 29 - 1 ≤ sz ≤ 2 ^ 29 ∧
    ∀ cap, when (negb (List.hd 0 sl =? 0)) (emit cap (List.hd 0 sl)) ≡ emit_list cap sl.
Proof.
  intros Hn Hs. unfold number_sign.
  assert (s32 (size - 1) = size - 1) as -> by (apply s32_id; lia).
  pose proof (u64_range (- s64 num)).
  destruct (has type SIGN); [destruct (s64 num <? 0); [|destruct (has type PLUS);
    [|destruct (has type SPACE)]]|]; eexists _, _, _;
    (split; [reflexivity|split; [reflexivity|split; [lia|split; [lia|]]]]);
    intros cap; (apply emit_single || by intros st).
Qed.

Lemma number_prefix_code cap type base :
  when (has type SPECIAL)
    (if base =? 8 then emit cap (ch "0")
     else when (base =? 16) (emit cap (ch "0") ;; emit cap (nth 33 (digits type) 0)))
  ≡ emit_list cap (number_prefix type base).
Proof.
  unfold number_prefix. destruct (has type SPECIAL); [cbn [when]|by intros st].
  destruct (base =? 8); [apply emit_single|]. destruct (base =? 16); [cbn [when]|by intros st].
  cbn [emit_list]. apply bind_ext. intros _. apply emit_single.
Qed.

Lemma number_prefix_size type base size :
  - 2 ^ 29 - 1 ≤ size ≤ 2 ^ 29 →
  (if has type SPECIAL then
     if base =? 16 then s32 (size - 2) else if base =? 8 then s32 (size - 1) else size
   else size) = size - Z.of_nat (length (number_prefix type base)).
Proof.
  intros Hs. unfold number_prefix. rewrite !s32_id by lia.
  destruct (has type SPECIAL); [|cbn; lia].
  destruct (Z.eqb_spec base 8) as [->|]; [cbn; lia|]. destruct (base =? 16); cbn [length]; lia.
Qed.

Lemma number_spec cap num base size precision type :
  2 ≤ base ≤ 36 → 0 ≤ num < 2 ^ 64 →
  - 2 ^ 29 ≤ size ≤ 2 ^ 29 → precision ≤ 2 ^ 29 →
  number cap num base size precision type
  ≡ (emit_list cap (number_text num base size precision type) ;; mret true).
Proof.
  intros Hb Hn Hs Hp. unfold number.
  set (type' := if has type LEFT then Z.land type (Z.lnot ZEROPAD) else type).
  assert (∀ k, 0 < k → has type' (2 ^ k) = has type (2 ^ k)) as Hhas.
  { intros k Hk. unfold type'. destruct (has type LEFT); [|done].
    rewrite has_clear_zeropad by lia. by replace (k =? 0) with false by lia;
      rewrite andb_true_r. }
  assert (has type' ZEROPAD = has type ZEROPAD && negb (has type LEFT)) as Hz.
  { unfold type'. destruct (has type LEFT); [|by rewrite andb_true_r].
    change ZEROPAD with (2 ^ 0) at 2 3. rewrite has_clear_zeropad by done. done. }
  assert (digits type' = digits type) as Hdig.
  { unfold type'. destruct (has type LEFT); [apply digits_clear|done]. }
  assert (∀ n, number_tmp type' n base = number_tmp type n base) as Htmp.
  { intros n. unfold type'. destruct (has type LEFT); [apply number_tmp_clear|done]. }
  rewrite has_zeropad_left, Hz, Hdig, (Hhas 4 eq_refl : has type' LEFT = has type LEFT),
    (Hhas 1 eq_refl : has type' SIGN = has type SIGN), (Hhas 2 eq_refl : has type' PLUS = has type PLUS),
    (Hhas 3 eq_refl : has type' SPACE = has type SPACE),
    (Hhas 5 eq_refl : has type' SPECIAL = has type SPECIAL).
  destruct (number_sign_code type num size Hn Hs) as (sl & n & sz & Hsg & -> & Hn' & Hsz & Hemit).
  replace (base <? 2) with false by lia. replace (36 <? base) with false by lia. cbn [orb].
  rewrite (number_digits_eq type' base Hb n Hn'), bind_ret_l.
  unfold number_text. rewrite Hsg, Htmp, (number_prefix_size type base sz Hsz).
  set (tmp := number_tmp type n base). set (pre := number_prefix type base).
  pose proof (number_tmp_length type base n) as Hlen. fold tmp in Hlen.
  assert (length pre ≤ 2)%nat as Hpre.
  { unfold pre, number_prefix. destruct (has type SPECIAL), (base =? 8), (base =? 16); cbn; lia. }
  replace (if precision <? Z.of_nat (length tmp) then Z.of_nat (length tmp) else precision)
    with (Z.max precision (Z.of_nat (length tmp)))
    by (destruct (Z.ltb_spec precision (Z.of_nat (length tmp))); lia).
  rewrite s32_id by lia.
  setoid_rewrite (Hemit cap). setoid_rewrite (number_prefix_code cap type base). fold pre.
  rewrite <-(length_reverse tmp).
  rewrite (number_skeleton cap sl pre (reverse tmp) precision
    (sz - Z.of_nat (length pre)) _ (has type LEFT) (has type ZEROPAD && negb (has type LEFT)) eq_refl)
    by (intros ->; by rewrite andb_false_r).
  replace (Z.to_nat (sz - Z.of_nat (length pre) - Z.max precision (Z.of_nat (length (reverse tmp)))))
    with (Z.to_nat sz - length (pre ++ replicate (Z.to_nat precision - length (reverse tmp)) (ch "0")
            ++ reverse tmp))%nat
    by (rewrite !length_app, length_replicate, length_reverse; lia).
  by destruct (has type LEFT), (has type ZEROPAD).
Qed.

(** ** Termination

    [ends Q m]: from every state [m] returns a value in [Q] or faults, and not by
    reading past the end of a string; none of its loops runs out of rounds. *)

Definition ends {S A} (Q : A → Prop) (m : M S A) : Prop :=
  ∀ s, match m s with Ret a _ => Q a | Fault f => f ≠ OverRead | Halt _ | Hang => False end.

Section ends.
Context {S : Type}.

Lemma ends_ret {A} (a : A) (Q : A → Prop) : Q a → ends (S:=S) Q (mret a).
Proof. by intros HQ s. Qed.
Lemma ends_throw {A} e (Q : A → Prop) : e ≠ OverRead → ends (S:=S) Q (throw e).
Proof. by intros He s. Qed.
Lemma ends_get : ends (S:=S) (λ _, True) get.
Proof. by intros s. Qed.
Lemma ends_modify (f : S → S) : ends (λ _, True) (modify f).
Proof. by intros s. Qed.
Lemma ends_skip : ends (S:=S) (λ _, True) skip.
Proof. by intros s. Qed.
Lemma ends_of_option {A} e (o : option A) : e ≠ OverRead → ends (S:=S) (λ _, True) (of_option e o).
Proof. by intros He s; destruct o. Qed.
Lemma ends_bind {A B} (R : A → Prop) (Q : B → Prop) (m : M S A) (k : A → M S B) :
  ends R m → (∀ a, R a → ends Q (k a)) → ends Q (m ≫= k).
Proof.
  intros Hm Hk s. unfold mbind, M_bind. specialize (Hm s). destruct (m s); [by apply Hk|done..].
Qed.
Lemma ends_if {A} (b : bool) (Q : A → Prop) (m1 m2 : M S A) : ends Q m1 → ends Q m2 → ends Q (if b then m1 else m2).
Proof. by destruct b. Qed.
Lemma ends_when b (m : M S unit) : ends (λ _, True) m → ends (λ _, True) (when b m).
Proof. intros H. destruct b; [done|apply ends_skip]. Qed.
Lemma ends_weaken {A} (R Q : A → Prop) (m : M S A) : ends R m → (∀ a, R a → Q a) → ends Q m.
Proof. intros Hm H s. specialize (Hm s). destruct (m s); auto. Qed.
Lemma ends_equiv {A} (Q : A → Prop) (m1 m2 : M S A) : m1 ≡ m2 → ends Q m2 → ends Q m1.
Proof. intros He H s. rewrite (He s). apply H. Qed.
End ends.

Create HintDb ends.
#[export] Hint Resolve ends_get ends_modify ends_skip ends_of_option : ends.
#[export] Hint Extern 1 (_ ≠ OverRead) => discriminate : ends.

(** One statement after the other; what is left are the values they return. *)
Ltac ends_step :=
  match goal with
  | |- ∀ _, _ => intros; cbv beta in *
  | |- ends _ (mret _) => apply ends_ret
  | |- ends _ (throw _) => apply ends_throw; discriminate
  | |- ends _ (_ ≫= _) => first [eapply ends_bind; [solve [eauto with ends]|]|apply (ends_bind (λ _, True))]
  | |- ends _ (let '(_, _) := ?x in _) => destruct x eqn:?
  | |- ends _ (if _ then _ else _) => apply ends_if
  | |- ends _ (when _ _) => apply ends_when
  | |- ends _ _ => solve [eauto with ends | eapply ends_weaken; eauto with ends]
  end.

Section format_ends.
Context (cap : Z).

Lemma ends_emit c : ends (λ _, True) (emit cap c).
Proof. intros st. unfold emit. by destruct (_ <? _). Qed.
Hint Resolve ends_emit : ends.
Lemma ends_emit_list l : ends (λ _, True) (emit_list cap l).
Proof. induction l; cbn [emit_list]; repeat ends_step. Qed.
Hint Resolve ends_emit_list : ends.
Lemma ends_pad b v c : ends (λ _, True) (pad cap b v c).
Proof. eapply ends_equiv; [apply pad_spec|]. by repeat ends_step. Qed.
Lemma ends_pad_pre v c : ends (λ _, True) (pad_pre cap v c).
Proof. eapply ends_equiv; [apply pad_pre_spec|]. by repeat ends_step. Qed.
Hint Resolve ends_pad ends_pad_pre : ends.

Lemma ends_number_digits type num base :
  2 ≤ base ≤ 36 → 0 ≤ num < 2 ^ 64 → ends (λ _, True) (number_digits type num base).
Proof. intros Hb Hn. eapply ends_equiv; [by apply number_digits_eq|]. by apply ends_ret. Qed.

Lemma ends_number num base size precision type :
  0 ≤ num < 2 ^ 64 → ends (λ _, True) (number cap num base size precision type).
Proof.
  intros Hn. unfold number. set (type' := if has type LEFT then _ else _).
  destruct ((base <? 2) || (36 <? base)) eqn:Hb; [by apply ends_ret|].
  destruct (if has type' SIGN then _ else _) as [[sg n] sz] eqn:E.
  assert (0 ≤ n < 2 ^ 64) as Hn'.
  { pose proof (u64_range (- s64 num)). destruct (has type' SIGN); [destruct (s64 num <? 0); [|destruct (has type' PLUS);
      [|destruct (has type' SPACE)]]|]; by injection E as _ <- _. }
  eapply ends_bind; [apply ends_number_digits; [lia|done]|]. by repeat ends_step.
Qed.
Hint Resolve ends_number : ends.

Lemma ends_va_arg : ends (λ _, True) va_arg.
Proof. intros st. unfold va_arg. by destruct (f_args st). Qed.
Hint Resolve ends_va_arg : ends.
Lemma ends_va_word : ends (λ w, 0 ≤ w < 2 ^ 64) va_word.
Proof. unfold va_word. ends_step. intros [w|s] _; [|by ends_step]. apply ends_ret, u64_range. Qed.
Hint Resolve ends_va_word : ends.
Lemma ends_va_str : ends (λ _, True) va_str.
Proof. unfold va_str. ends_step. intros [w|s] _; by repeat ends_step. Qed.
Lemma ends_va_int : ends (λ _, True) va_int.
Proof. unfold va_int. by repeat ends_step. Qed.
Hint Resolve ends_va_str ends_va_int : ends.

Lemma ends_conv_number f w p q : ends (λ _, True) (conv_number cap f w p q).
Proof.
  unfold conv_number. eapply ends_bind; [apply ends_va_word|]. intros v Hv.
  assert (0 ≤ u16 v < 2 ^ 16) by by apply Z.mod_pos_bound. pose proof (u32_range v).
  eapply ends_bind; [apply ends_get|]. intros st _. eapply ends_bind; [by apply ends_of_option|]. intros base _.
  eapply ends_bind; [apply ends_number|].
  - destruct (_ || _); [done|]. destruct (q =? _); destruct (has f SIGN); (apply u64_range || lia).
  - intros [] _; by ends_step.
Qed.
Lemma ends_conv_char f w : ends (λ _, True) (conv_char cap f w).
Proof. unfold conv_char. by repeat ends_step. Qed.
Lemma ends_conv_string f w p : ends (λ _, True) (conv_string cap f w p).
Proof. unfold conv_string. by repeat ends_step. Qed.
Hint Resolve ends_conv_number ends_conv_char ends_conv_string : ends.

(** A pointer into the string [start], at least [n] characters from its beginning and
    not past its NUL. *)
Definition within (start : list Z) (n : nat) (fmt : list Z) : Prop :=
  ∃ l, start = l ++ fmt ∧ (n ≤ length l)%nat ∧ 0 ∈ fmt.

Lemma within_next k n c fmt : within k n (c :: fmt) → c ≠ 0 → within k (S n) fmt.
Proof.
  intros (l & -> & Hl & H0) Hc. apply elem_of_cons in H0 as [|H0]; [done|].
  exists (l ++ [c]). rewrite <-app_assoc, length_app. split_and!; [done|cbn; lia|done].
Qed.

Lemma within_nil k n : ¬ within k n [].
Proof. by intros (l & _ & _ & ?%elem_of_nil). Qed.

Lemma ends_deref k n fmt : within k n fmt → ends (λ c, c = List.hd 0 fmt) (deref fmt).
Proof. intros H. destruct fmt; [by apply within_nil in H|]. by apply ends_ret. Qed.

Lemma within_tl k n fmt : within k n fmt → List.hd 0 fmt ≠ 0 → within k (S n) (tl fmt).
Proof. intros H Hc. destruct fmt as [|c fmt]; [by apply within_nil in H|]. by apply (within_next k n c). Qed.

Lemma within_less k n m fmt : within k n fmt → (m ≤ n)%nat → within k m fmt.
Proof. intros (l & H & Hl & H0) Hm. exists l. split_and!; [done|lia|done]. Qed.

Lemma within_length k n fmt : within k n fmt → (length fmt + n ≤ length k)%nat.
Proof. intros (l & -> & Hl & H0). rewrite length_app. lia. Qed.

Lemma ends_parse_flags k n flags c fmt :
  within k n fmt → ends (λ r, within k n (snd r)) (parse_flags flags (c :: fmt)).
Proof.
  revert flags c n; induction fmt as [|d fmt IH]; intros flags c n H; [by apply within_nil in H|].
  cbn [parse_flags].
  assert (∀ flags', d ≠ 0 → ends (λ r, within k n (snd r)) (parse_flags flags' (d :: fmt))) as Hgo.
  { intros flags' Hd. eapply ends_weaken; [apply (IH flags' d (S n)); by apply (within_next k n d)|].
    intros r Hr. eapply within_less; [exact Hr|lia]. }
  repeat (case_match; [apply Hgo; intros ->; discriminate|]). by apply ends_ret.
Qed.

Lemma ends_scan_number k n tmp fmt :
  within k n fmt → ends (λ r, within k n (snd r)) (scan_number_from tmp fmt).
Proof.
  revert tmp n; induction fmt as [|c fmt IH]; intros tmp n H; [by apply within_nil in H|].
  cbn [scan_number_from]. destruct (is_digit c) eqn:Hd; [|by apply ends_ret].
  eapply ends_weaken; [apply (IH _ (S n)), (within_next k n c); [done|]|intros r Hr; eapply within_less; [exact Hr|lia]].
  intros ->. done.
Qed.

Lemma ends_parse_width k n flags fmt :
  within k n fmt → ends (λ r, within k n (snd r)) (parse_width flags fmt).
Proof.
  intros H. unfold parse_width. eapply ends_bind; [by eapply ends_deref|]. intros c _. apply ends_if; [|apply ends_if].
  - eapply ends_bind; [by apply ends_scan_number|]. intros [w f] Hf. by apply ends_ret.
  - by repeat ends_step.
  - by apply ends_ret.
Qed.

Lemma ends_parse_precision k n fmt :
  within k n fmt → ends (λ r, within k n (snd r)) (parse_precision fmt).
Proof.
  intros H. unfold parse_precision. eapply ends_bind; [by eapply ends_deref|]. intros c Hc.
  destruct (Z.eqb_spec c (ch ".")) as [Hdot|]; [|by apply ends_ret].
  assert (within k n (tl fmt)) as H'
    by (eapply within_less; [eapply (within_tl k n); [done|by rewrite <-Hc, Hdot]|lia]).
  eapply ends_bind; [by eapply ends_deref|]. intros d _.
  eapply (ends_bind (λ r, within k n (snd r))); [|intros [p f] Hf; by apply ends_ret].
  apply ends_if; [by apply ends_scan_number|]. by repeat ends_step.
Qed.

Lemma ends_parse_qualifier k n fmt :
  within k n fmt → ends (λ r, within k n (snd r)) (parse_qualifier fmt).
Proof.
  intros H. unfold parse_qualifier. eapply ends_bind; [by eapply ends_deref|]. intros c Hc.
  destruct (_ || _) eqn:Hq; [|by apply ends_ret].
  assert (within k n (tl fmt)) as H'.
  { eapply within_less; [eapply (within_tl k n); [done|]|lia]. rewrite <-Hc. intros ->. done. }
  destruct (c =? ch "l"); [|by apply ends_ret].
  eapply ends_bind; [by eapply ends_deref|]. intros d Hd. apply ends_ret.
  destruct (Z.eqb_spec d (ch "l")) as [Hl|]; [|done]. cbn [snd].
  eapply within_less; [eapply (within_tl k n); [done|by rewrite <-Hd, Hl]|lia].
Qed.

(** Where the directive leaves the pointer: at the NUL at the latest, since the
    default case steps back from it. *)
Lemma ends_conversion f w p q start fmt :
  within start 1 fmt → ends (λ r, within start 1 (tl r)) (conversion cap f w p q start fmt).
Proof.
  intros H. unfold conversion. eapply ends_bind; [by eapply ends_deref|]. intros c Hc.
  assert (c ≠ 0 → within start 1 (tl fmt)) as Hnext.
  { intros Hc'. eapply within_less; [eapply (within_tl _ 1); [done|by rewrite <-Hc]|lia]. }
  do 9 (match goal with |- ends _ (if ?b then _ else _) => destruct b eqn:? end;
        [match goal with Hb : _ = true |- _ =>
           assert (within start 1 (tl fmt)) by (apply Hnext; intros ->; discriminate Hb) end;
         try (destruct (if w =? -1 then _ else _)); repeat ends_step; done|]).
  apply (ends_bind (λ _, True)); [apply ends_when, ends_emit|]. intros _ _.
  apply (ends_bind (λ r, within start 1 (tl r))); [|intros r Hr; by repeat ends_step].
  destruct (Z.eqb_spec c 0) as [->|Hne]; cbn [negb]; [|repeat ends_step; by apply Hnext].
  apply ends_ret. destruct H as (l & -> & Hl & H0). unfold before. rewrite length_app.
  destruct l as [|x l _] using rev_ind; [cbn in Hl; lia|]. rewrite length_app. cbn [length].
  replace (length l + 1 + length fmt - S (length fmt))%nat with (length l) by lia.
  rewrite <-app_assoc, drop_app_length. exists (l ++ [x]). rewrite <-app_assoc, length_app. cbn. auto with lia.
Qed.

Lemma ends_directive c fmt :
  c ≠ 0 → 0 ∈ c :: fmt → ends (within (c :: fmt) 1) (directive cap (c :: fmt)).
Proof.
  intros Hc H0. assert (within (c :: fmt) 1 fmt) as H by (apply (within_next _ 0 c); [by exists []|done]).
  unfold directive. eapply ends_bind; [by apply ends_parse_flags|]. intros [f f1] H1.
  eapply ends_bind; [by apply ends_parse_width|]. intros [[f' w] f2] H2.
  eapply ends_bind; [by apply ends_parse_precision|]. intros [p f3] H3.
  eapply ends_bind; [by apply ends_parse_qualifier|]. intros [q f4] H4.
  eapply ends_bind; [by apply ends_conversion|]. intros f5 H5. by apply ends_ret.
Qed.

(** The rounds: each leaves the pointer further on, and none leaves the string. *)
Lemma ends_format_loop n fmt :
  (length fmt ≤ n)%nat → 0 ∈ fmt → ends (λ _, True) (loop n (format_step cap) fmt).
Proof.
  revert fmt; induction n as [|n IH]; intros fmt Hn H0; [by destruct fmt; [apply elem_of_nil in H0|cbn in Hn; lia]|].
  assert (∀ f, within fmt 1 f → ends (λ _, True) (loop n (format_step cap) f)) as Hgo.
  { intros f Hf. pose proof (within_length _ _ _ Hf). apply IH; [lia|]. by destruct Hf as (_ & _ & _ & ?). }
  destruct fmt as [|c fmt]; [by apply elem_of_nil in H0|]. cbn [loop].
  apply (ends_bind (λ r, if r is inl f then within (c :: fmt) 1 f else True));
    [|intros [f|[]] Hf; [by apply Hgo|by apply ends_ret]].
  unfold format_step. eapply ends_bind; [apply (ends_deref (c :: fmt) 0); by exists []|]. cbn [List.hd]. intros c' ->.
  destruct (Z.eqb_spec c 0) as [|Hc]; [by apply ends_ret|]. apply ends_if.
  - eapply ends_bind; [apply ends_emit|]. intros _ _. apply ends_ret. apply (within_next _ 0 c); [by exists []|done].
  - eapply ends_bind; [by apply ends_directive|]. intros f Hf. by apply ends_ret.
Qed.
End format_ends.

(** ** Plain text *)

Definition plain_char (c : Z) : Prop := c ≠ ch "%" ∧ c ≠ 0.

#[export] Instance plain_char_dec c : Decision (plain_char c).
Proof. unfold plain_char. apply _. Defined.

Lemma format_step_char cap c fmt :
  plain_char c → format_step cap (c :: fmt) ≡ (emit cap c ;; mret (inl fmt)).
Proof.
  intros [Hc H0] st. unfold format_step. cbn [deref]. rewrite bind_mret.
  by rewrite (proj2 (Z.eqb_neq c _) H0), (proj2 (Z.eqb_neq c _) Hc).
Qed.

Lemma format_loop_plain cap fmt :
  Forall plain_char fmt → format_loop cap (fmt ++ [0]) ≡ emit_list cap fmt.
Proof.
  intros Hf. enough (∀ n, (length fmt < n)%nat → loop n (format_step cap) (fmt ++ [0]) ≡ emit_list cap fmt) as Hgo.
  { apply Hgo. rewrite length_app. cbn. lia. }
  induction Hf as [|c fmt [Hc H0] Hf IH]; intros [|n] Hn; try (cbn in Hn; lia); [by intros st|].
  cbn [loop app emit_list length] in *. rewrite format_step_char by done. rewrite bind_assoc. apply bind_ext. intros _.
  rewrite bind_ret_l. apply IH. lia.
Qed.

(** The state after [l] more characters. *)
Definition wrote (l : list Z) (st : fmt_state) : fmt_state :=
  FmtState (f_out st ++ l) (f_args st) (f_base st) (f_stores st).

Lemma number_returns cap num base size precision type st :
  2 ≤ base ≤ 36 → 0 ≤ num < 2 ^ 64 → - 2 ^ 29 ≤ size ≤ 2 ^ 29 → precision ≤ 2 ^ 29 →
  Z.of_nat (length (f_out st) + length (number_text num base size precision type)) ≤ cap →
  number cap num base size precision type st
  = Ret true (wrote (number_text num base size precision type) st).
Proof.
  intros Hb Hn Hs Hp Hroom. rewrite (number_spec cap num base size precision type Hb Hn Hs Hp st).
  by rewrite (bind_eq _ _ _ _ _ (emit_list_fits cap _ st Hroom)).
Qed.

(** The width a number needs: sign, prefix and the longer of digits and precision. *)
Definition number_body_length (num base precision type : Z) : nat :=
  let '(sign, num, _) := number_sign type num 0 in
  (length sign + length (number_prefix type base)
   + Nat.max (Z.to_nat precision) (length (number_tmp type num base)))%nat.

Definition is_negative (type num : Z) : bool := has type SIGN && (s64 num <? 0).

Lemma number_text_length num base size precision type :
  0 ≤ size →
  length (number_text num base size precision type)
  = Nat.max (Z.to_nat size + (if is_negative type num then 1 else 0))
            (number_body_length num base precision type).
Proof.
  intros Hs. unfold number_text, number_body_length, number_sign, is_negative.
  assert (∀ (b1 b2 : bool) (sg pre nu : list Z) (z : Z) (pr n : nat),
    n = Nat.max (Z.to_nat z + length sg)
          (length sg + length pre + Nat.max pr (length nu)) →
    length (if b1 then sg ++ pre ++ replicate (pr - length (reverse nu)) (ch "0") ++ reverse nu ++
              replicate (Z.to_nat z - length (pre ++ replicate (pr - length (reverse nu)) (ch "0") ++ reverse nu)) (ch " ")
            else if b2 then sg ++ pre ++
              replicate (Z.to_nat z - length (pre ++ replicate (pr - length (reverse nu)) (ch "0") ++ reverse nu)) (ch "0") ++
              replicate (pr - length (reverse nu)) (ch "0") ++ reverse nu
            else replicate (Z.to_nat z - length (pre ++ replicate (pr - length (reverse nu)) (ch "0") ++ reverse nu)) (ch " ") ++
              sg ++ pre ++ replicate (pr - length (reverse nu)) (ch "0") ++ reverse nu) = n) as Hgen.
  { intros b1 b2 sg pre nu z pr n ->.
    destruct b1, b2; rewrite !length_app, !length_replicate, !length_reverse; lia. }
  pose proof (λ n, number_tmp_length type base n) as Hlen.
  destruct (has type SIGN); [destruct (s64 num <? 0); [|destruct (has type PLUS);
    [|destruct (has type SPACE)]]|]; apply Hgen; cbn [andb length];
    match goal with |- context [number_tmp type ?n base] => specialize (Hlen n) end; lia.
Qed.

(** ** Properties *)

(** For every base from 2 to 36 and every 64-bit value,
    number() appends exactly the specified layout (padding, sign, 0x or 0
    prefix, precision zeros, digits, in the order the flags ask for) and
    returns a valid pointer, given room in the buffer. *)
Theorem number_layout cap num base size precision type st :
  2 ≤ base ≤ 36 → 0 ≤ num < 2 ^ 64 → - 2 ^ 29 ≤ size ≤ 2 ^ 29 → precision ≤ 2 ^ 29 →
  Z.of_nat (length (f_out st) + length (number_text num base size precision type)) ≤ cap →
  number cap num base size precision type st
  = Ret true (FmtState (f_out st ++ number_text num base size precision type)
                (f_args st) (f_base st) (f_stores st)).
Proof. intros. by rewrite number_returns. Qed.

Lemma number_layout_witness :
  number 1024 48879 16 10 6 (SPECIAL + SMALL) (FmtState [] [] None [])
  = Ret true (FmtState (chars "  0x00beef") [] None []).
Proof.
  rewrite (number_layout 1024 48879 16 10 6 (SPECIAL + SMALL) (FmtState [] [] None []));
    [vm_compute; reflexivity|lia|lia|lia|lia|vm_compute; discriminate].
Defined.

(** C26 (roundtrip): the numeral number() prints (without sign, prefix, width or
    precision) is at most 64 characters and reads back, in the same base, to
    the number that was printed. *)
Theorem number_roundtrip cap num base type st :
  2 ≤ base ≤ 36 → 0 ≤ num < 2 ^ 64 → has type SIGN = false → has type SPECIAL = false →
  Z.of_nat (length (f_out st)) + 64 ≤ cap →
  ∃ l, number cap num base 0 0 type st = Ret true (wrote l st) ∧
       numeral_value base l = num ∧ (length l ≤ 64)%nat.
Proof.
  intros Hb Hn Hsg Hsp Hroom. exists (reverse (number_tmp type num base)).
  pose proof (number_tmp_length type base num) as Hlen.
  assert (number_text num base 0 0 type = reverse (number_tmp type num base)) as Ht.
  { unfold number_text, number_sign, number_prefix. rewrite Hsg, Hsp.
    change (Z.to_nat 0) with O. cbn [Nat.sub replicate app]. rewrite app_nil_r.
    by destruct (has type LEFT), (has type ZEROPAD). }
  rewrite number_returns; rewrite ?Ht, ?length_reverse; [|lia..].
  split; [done|]. split; [by apply number_tmp_value|lia].
Qed.

Lemma number_roundtrip_witness :
  ∃ l, number 1024 3735928559 16 0 0 SMALL (FmtState [] [] None [])
       = Ret true (wrote l (FmtState [] [] None [])) ∧
       numeral_value 16 l = 3735928559 ∧ (length l ≤ 64)%nat.
Proof. apply number_roundtrip; [lia|lia|reflexivity|reflexivity|cbn; lia]. Defined.

(** A number printed with a minimum field width occupies exactly
    the larger of that width and the length of its text, except that a negative
    number with the signed conversions is given one column more than the width
    (the branch for the minus sign does not decrement [size], the plus and
    space branches do). *)
Theorem number_field_width cap num base size precision type st :
  2 ≤ base ≤ 36 → 0 ≤ num < 2 ^ 64 → 0 ≤ size ≤ 2 ^ 29 → precision ≤ 2 ^ 29 →
  Z.of_nat (length (f_out st)) + Z.max (size + 1) (Z.of_nat (number_body_length num base precision type)) ≤ cap →
  ∃ l, number cap num base size precision type st = Ret true (wrote l st) ∧
       Z.of_nat (length l)
       = Z.max (if is_negative type num then size + 1 else size)
               (Z.of_nat (number_body_length num base precision type)).
Proof.
  intros Hb Hn Hs Hp Hroom. exists (number_text num base size precision type).
  pose proof (number_text_length num base size precision type ltac:(lia)) as Hl.
  split; [apply number_returns; [lia..|]|]; rewrite Hl; destruct (is_negative type num); lia.
Qed.

Lemma number_field_width_witness :
  ∃ l, number 1024 (u64 (-42)) 10 5 (-1) SIGN (FmtState [] [] None [])
       = Ret true (wrote l (FmtState [] [] None [])) ∧ Z.of_nat (length l) = 6.
Proof.
  apply (number_field_width 1024 (u64 (-42)) 10 5 (-1) SIGN (FmtState [] [] None []));
    [lia|vm_compute; split; congruence|lia|lia|vm_compute; discriminate].
Defined.

(** C27 (termination): myprintf always comes to an end, whatever the format, the
    arguments and the size of the buffer: it returns, or it is stopped by a fault (a store
    past the buffer, a missing or wrong argument); none of its loops (the format, flags,
    paddings, digits of a number, whose division brings every number to 0 within 64
    rounds) goes on forever, and the format is never read past its NUL, also by a directive
    the string ends in. *)
Theorem myprintf_terminates cap fmt args :
  match myprintf cap fmt args with
  | Ret _ _ => True
  | Fault f => f ≠ OverRead
  | Halt _ | Hang => False
  end.
Proof.
  assert (ends (λ _, True) (λ st, (format_loop cap (fmt ++ [0]) ;;
    st ← get; emit cap 0 ;; put st ;; mret (s32 (Z.of_nat (length (f_out st))))) st)) as H.
  { eapply ends_bind; [apply ends_format_loop; [done|set_solver]|]. intros _ _.
    eapply ends_bind; [apply ends_get|]. intros st _.
    eapply ends_bind; [apply ends_emit|]. intros _ _.
    eapply ends_bind; [apply (ends_modify (λ _, st))|]. intros _ _. by apply ends_ret. }
  exact (H (FmtState [] args None [])).
Qed.

(** A format without directives is copied verbatim when it fits
    with its NUL, and stores past the end of the buffer when it does not:
    nothing compares the position with the buffer's size. *)
Theorem myprintf_plain cap fmt args :
  Forall plain_char fmt → 0 ≤ cap < 2 ^ 31 →
  myprintf cap fmt args =
    if Z.of_nat (length fmt) <? cap
    then Ret (Z.of_nat (length fmt)) (FmtState fmt args None [])
    else Fault (IndexRange cap).
Proof.
  intros Hf Hcap. set (st0 := FmtState [] args None []). unfold myprintf. fold st0.
  unfold mbind at 1, M_bind at 1. rewrite (format_loop_plain cap fmt Hf st0).
  destruct (decide (Z.of_nat (length fmt) ≤ cap)) as [Hle|Hgt].
  - rewrite (emit_list_fits cap fmt st0) by (cbn; lia).
    unfold mbind, M_bind, get, emit. cbn [st0 f_out f_args f_base f_stores app].
    destruct (Z.ltb_spec (Z.of_nat (length fmt)) cap); [|done].
    unfold put, mret, M_ret; cbn [f_out]. by rewrite s32_id by lia.
  - rewrite (emit_list_overflow cap fmt st0) by (cbn; lia).
    by destruct (Z.ltb_spec (Z.of_nat (length fmt)) cap); [lia|].
Qed.

Lemma myprintf_plain_witness :
  myprintf 1024 (chars "printk init done.") [] = Ret 17 (FmtState (chars "printk init done.") [] None []).
Proof.
  apply (myprintf_plain 1024 (chars "printk init done.") []); [|lia].
  by_decision.
Defined.

(** The conversion character of an escaped percent sign goes to the default case. *)
Lemma directive_percent cap rest st :
  directive cap (37 :: 37 :: rest) st
  = ((skip ;; fmt ← (emit cap 37 ;; mret (37 :: rest)); conv_number cap 0 (-1) (-1) (-1) ;; mret fmt) ≫= λ f, mret (tl f)) st.
Proof. reflexivity. Qed.

Lemma conv_number_no_base cap flags width precision qualifier st :
  f_base st = None → conv_number cap flags width precision qualifier st = Fault Uninit.
Proof.
  intros Hb. unfold conv_number, va_word, va_arg, mbind, M_bind.
  destruct (f_args st) as [|[w|s] args]; [done| |done].
  unfold mret, M_ret, get. cbn [f_base]. by rewrite Hb.
Qed.

(** An escaped percent sign is printed and then, because the default
    case of the switch breaks instead of continuing, formatted again as a
    number: as the first directive of a format it uses the indeterminate
    [base], whatever arguments follow. *)
Theorem myprintf_percent_uninit cap rest args :
  1 ≤ cap → myprintf cap (ch "%" :: ch "%" :: rest) args = Fault Uninit.
Proof.
  intros Hcap. change (ch "%") with 37. unfold myprintf, format_loop.
  apply bind_fault. cbn [length loop app]. apply bind_fault.
  change (format_step cap (37 :: 37 :: rest ++ [0])) with (fmt ← directive cap (37 :: 37 :: rest ++ [0]); mret (inl fmt) : M _ (list Z + unit)).
  apply bind_fault. rewrite directive_percent. apply bind_fault.
  rewrite bind_skip. rewrite (bind_eq _ _ _ (37 :: rest ++ [0]) (FmtState [37] args None [])).
  { apply bind_fault. by apply conv_number_no_base. }
  unfold mbind, M_bind, emit. cbn [f_out length]. by rewrite (proj2 (Z.ltb_lt _ cap)) by lia.
Qed.

Lemma myprintf_percent_uninit_witness : myprintf 1024 (chars "%% done") [KInt 5] = Fault Uninit.
Proof. apply (myprintf_percent_uninit 1024 (chars " done") [KInt 5]). lia. Defined.

(** A width given by an argument: the [*] is read but not skipped, so it becomes the
    conversion character and goes to the default case too. *)
Lemma myprintf_star_uninit cap w rest args :
  2 ≤ cap → 0 ≤ s32 (u64 w) → myprintf cap (ch "%" :: ch "*" :: rest) (KInt w :: args) = Fault Uninit.
Proof.
  intros Hcap Hw. change (ch "%") with 37. change (ch "*") with 42. unfold myprintf, format_loop.
  apply bind_fault. cbn [length loop app]. apply bind_fault.
  change (format_step cap (37 :: 42 :: rest ++ [0])) with (fmt ← directive cap (37 :: 42 :: rest ++ [0]); mret (inl fmt) : M _ (list Z + unit)).
  apply bind_fault.
  set (st1 := FmtState [] args None []).
  assert (directive cap (37 :: 42 :: rest ++ [0]) (FmtState [] (KInt w :: args) None [])
          = (conversion cap 0 (s32 (u64 w)) (-1) (-1) (37 :: 42 :: rest ++ [0]) (42 :: rest ++ [0]) ≫= λ f, mret (tl f)) st1) as ->.
  { change (directive cap (37 :: 42 :: rest ++ [0]) (FmtState [] (KInt w :: args) None []))
      with (('(flags, width, fmt) ← (if s32 (u64 w) <? 0 return M fmt_state (Z * Z * list Z)
                then mret (Z.lor 0 LEFT, s32 (- s32 (u64 w)), 42 :: rest ++ [0])
                else mret (0, s32 (u64 w), 42 :: rest ++ [0]));
             '(precision, fmt) ← parse_precision fmt;
             '(qualifier, fmt) ← parse_qualifier fmt;
             fmt ← conversion cap flags width precision qualifier (37 :: 42 :: rest ++ [0]) fmt;
             mret (tl fmt)) st1). by rewrite (proj2 (Z.ltb_ge _ 0)) by lia. }
  apply bind_fault.
  change (conversion cap 0 (s32 (u64 w)) (-1) (-1) (37 :: 42 :: rest ++ [0]) (42 :: rest ++ [0]) st1)
    with ((emit cap 37 ;; fmt ← (emit cap 42 ;; mret (42 :: rest ++ [0]));
           conv_number cap 0 (s32 (u64 w)) (-1) (-1) ;; mret fmt) st1).
  assert (emit cap 37 st1 = Ret tt (FmtState [37] args None [])) as E1.
  { unfold emit; cbn [f_out st1 length]. by rewrite (proj2 (Z.ltb_lt _ cap)) by (cbn; lia). }
  assert (emit cap 42 (FmtState [37] args None []) = Ret tt (FmtState [37; 42] args None [])) as E2.
  { unfold emit; cbn [f_out length]. by rewrite (proj2 (Z.ltb_lt _ cap)) by (cbn; lia). }
  rewrite (bind_eq _ _ _ _ _ E1), bind_assoc, (bind_eq _ _ _ _ _ E2), bind_mret.
  apply bind_fault. by apply conv_number_no_base.
Qed.
