(* ===== verification/Render.v ===== *)
(** * The language of printk's formats

    An abstract syntax of the formats myprintf understands, the text each directive
    stands for, and the theorem that myprintf prints it. *)

From S2P Require Import Prelude Format.

(** ** Formats *)

Inductive flag : Type := Left | Plus | Space | Special | Zeropad.
Inductive qualifier : Type := Q_none | Q_h | Q_l | Q_ll | Q_L.
Inductive conversion_kind : Type :=
  | Conv_c | Conv_s | Conv_p | Conv_o | Conv_x | Conv_X | Conv_d | Conv_i | Conv_u.

(** A directive: flags, the digits of the width ([[]]: none), those of the precision,
    length and conversion. *)
Record directive_syntax : Type := Directive {
  dir_flags : list flag;
  dir_width : list Z;
  dir_precision : option (list Z);
  dir_qualifier : qualifier;
  dir_conversion : conversion_kind;
}.

Inductive piece : Type := Text (l : list Z) | Dir (d : directive_syntax).

(** *** Concrete syntax *)

Definition flag_char (f : flag) : Z :=
  match f with Left => ch "-" | Plus => ch "+" | Space => ch " " | Special => ch "#" | Zeropad => ch "0" end.
Definition qualifier_chars (q : qualifier) : list Z :=
  match q with Q_none => [] | Q_h => [ch "h"] | Q_l => [ch "l"] | Q_ll => [ch "l"; ch "l"] | Q_L => [ch "L"] end.
Definition conversion_char (c : conversion_kind) : Z :=
  match c with Conv_c => ch "c" | Conv_s => ch "s" | Conv_p => ch "p" | Conv_o => ch "o" | Conv_x => ch "x"
  | Conv_X => ch "X" | Conv_d => ch "d" | Conv_i => ch "i" | Conv_u => ch "u" end.
Definition precision_chars (p : option (list Z)) : list Z :=
  match p with None => [] | Some ds => ch "." :: ds end.

Definition unparse_tail (d : directive_syntax) : list Z :=
  dir_width d ++ precision_chars (dir_precision d) ++ qualifier_chars (dir_qualifier d)
  ++ [conversion_char (dir_conversion d)].
Definition unparse_piece (p : piece) : list Z :=
  match p with Text l => l | Dir d => ch "%" :: map flag_char (dir_flags d) ++ unparse_tail d end.
Definition unparse (ps : list piece) : list Z := concat (map unparse_piece ps).

(** *** Meaning *)

Definition decimal_from (n : Z) (ds : list Z) : Z := fold_left (λ n c, n * 10 + (c - 48)) ds n.
Definition decimal (ds : list Z) : Z := decimal_from 0 ds.

Definition flag_bit (f : flag) : Z :=
  match f with Left => LEFT | Plus => PLUS | Space => SPACE | Special => SPECIAL | Zeropad => ZEROPAD end.
Definition flag_bits (fs : list flag) : Z := fold_left (λ b f, Z.lor b (flag_bit f)) fs 0.

Definition width_of (d : directive_syntax) : Z :=
  match dir_width d with [] => -1 | ds => decimal ds end.
Definition precision_of (d : directive_syntax) : Z :=
  match dir_precision d with None => -1 | Some ds => decimal ds end.

(** The number a directive prints: the argument at the size of its qualifier. *)
Definition number_of (q : qualifier) (signed : bool) (w : Z) : Z :=
  match q with
  | Q_none => if signed then u64 (s32 w) else u32 w
  | Q_h => if signed then u64 (s16 w) else u16 w
  | Q_l | Q_ll | Q_L => w
  end.

Definition spaces (n : Z) : list Z := replicate (Z.to_nat n) (ch " ").
(** A text in a field of [width] columns. *)
Definition in_field (to_left : bool) (width : Z) (l : list Z) : list Z :=
  let fill := spaces (width - Z.of_nat (length l)) in if to_left then l ++ fill else fill ++ l.

(** The text of a directive for its argument; [None] when the argument has the wrong kind. *)
Definition directive_text (d : directive_syntax) (a : karg) : option (list Z) :=
  let flags := flag_bits (dir_flags d) in
  let width := width_of d in
  let precision := precision_of d in
  let numeric base signed extra w :=
    Some (number_text (number_of (dir_qualifier d) signed (u64 w)) base width precision (Z.lor flags extra)) in
  match dir_conversion d, a with
  | Conv_c, KInt w => Some (in_field (has flags LEFT) width [u8 w])
  | Conv_s, KStr s =>
      let s := default (chars "<NULL>") s in
      Some (in_field (has flags LEFT) width (if precision <? 0 then s else take (Z.to_nat precision) s))
  | Conv_p, KInt w =>
      let '(width, flags) := if width =? -1 then (16, Z.lor flags ZEROPAD) else (width, flags) in
      Some (number_text (u64 w) 16 width precision flags)
  | Conv_o, KInt w => numeric 8 false 0 w
  | Conv_x, KInt w => numeric 16 false SMALL w
  | Conv_X, KInt w => numeric 16 false 0 w
  | (Conv_d | Conv_i), KInt w => numeric 10 true SIGN w
  | Conv_u, KInt w => numeric 10 false 0 w
  | _, _ => None
  end.

(** The text of a format, each directive taking one argument, and the arguments left. *)
Fixpoint render (ps : list piece) (args : list karg) : option (list Z * list karg) :=
  match ps with
  | [] => Some ([], args)
  | Text l :: ps => '(out, unread) ← render ps args; Some (l ++ out, unread)
  | Dir d :: ps =>
      match args with
      | [] => None
      | a :: args => l ← directive_text d a; '(out, unread) ← render ps args; Some (l ++ out, unread)
      end
  end.

Definition digits_ok (ds : list Z) : Prop := Forall (λ c, is_digit c = true) ds ∧ decimal ds ≤ 2 ^ 29.
(** Digits are digits, a width has no leading zero (it would be the flag), numbers are
    not absurdly large, and plain text holds no percent sign and no NUL. *)
Definition piece_ok (p : piece) : Prop :=
  match p with
  | Text l => Forall plain_char l
  | Dir d => digits_ok (dir_width d) ∧ List.hd 0 (dir_width d) ≠ ch "0" ∧
             (match dir_precision d with None => True | Some ds => digits_ok ds end)
  end.

Example unparse_1 :
  unparse [Text (chars "0x"); Dir (Directive [Zeropad] [56] None Q_l Conv_x); Text (chars ": ");
           Dir (Directive [Left] [49; 48] (Some [52]) Q_none Conv_s)] = chars "0x%08lx: %-10.4s".
Proof. vm_compute. reflexivity. Qed.
Example render_1 :
  render [Text (chars "0x"); Dir (Directive [Zeropad] [56] None Q_l Conv_x); Text (chars ": ");
          Dir (Directive [Left] [49; 48] (Some [52]) Q_none Conv_s)] [KInt 0x80000; KStr (Some (chars "kernel"))]
  = Some (chars "0x00080000: kern      ", []).
Proof. vm_compute. reflexivity. Qed.

(** ** Reading a format *)

Section parse.
Implicit Types (fs : list flag) (ds fmt : list Z).

Lemma deref_hd fmt (st : fmt_state) : fmt ≠ [] → deref fmt st = Ret (List.hd 0 fmt) st.
Proof. by destruct fmt. Qed.

Lemma parse_flags_unparse fs b c fmt (st : fmt_state) :
  64 < List.hd 0 fmt ∨ List.hd 0 fmt = ch "." ∨ is_digit (List.hd 0 fmt) = true ∧ List.hd 0 fmt ≠ ch "0" →
  parse_flags b (c :: map flag_char fs ++ fmt) st = Ret (fold_left (λ b f, Z.lor b (flag_bit f)) fs b, fmt) st.
Proof.
  intros Hd. revert b c; induction fs as [|f fs IH]; intros b c.
  - cbn [map app fold_left]. unfold is_digit in Hd. change (ch ".") with 46 in Hd. change (ch "0") with 48 in Hd.
    destruct fmt as [|x fmt]; [destruct Hd as [?|[?|[? ?]]]; done|]. cbn [List.hd] in Hd. cbn [parse_flags].
    repeat match goal with |- context [x =? ?k] => replace (x =? k) with false;
      [|symmetry; apply Z.eqb_neq; change k with (Z.of_N (Z.to_N k)); vm_compute (Z.of_N (Z.to_N k)); lia] end.
    done.
  - transitivity (parse_flags (Z.lor b (flag_bit f)) (flag_char f :: map flag_char fs ++ fmt) st); [by destruct f|apply IH].
Qed.

Lemma decimal_from_ge n ds : 0 ≤ n → Forall (λ c, is_digit c = true) ds → n ≤ decimal_from n ds.
Proof.
  intros Hn Hd; revert n Hn; induction Hd as [|c ds Hc _ IH]; intros n Hn; [done|]. unfold is_digit in Hc.
  change (decimal_from n (c :: ds)) with (decimal_from (n * 10 + (c - 48)) ds).
  etransitivity; [|apply IH; lia]. lia.
Qed.

Lemma scan_number_unparse n ds fmt (st : fmt_state) :
  0 ≤ n → Forall (λ c, is_digit c = true) ds → decimal_from n ds ≤ 2 ^ 29 → is_digit (List.hd 0 fmt) = false → fmt ≠ [] →
  scan_number_from n (ds ++ fmt) st = Ret (decimal_from n ds, fmt) st.
Proof.
  intros Hn Hd; revert n Hn; induction Hd as [|c ds Hc Hd IH]; intros n Hn Hmax Hf Hne.
  - destruct fmt as [|x fmt]; [done|]. cbn in *. by rewrite Hf.
  - cbn [app scan_number_from]. rewrite Hc. unfold is_digit in Hc.
    change (decimal_from n (c :: ds)) with (decimal_from (n * 10 + (c - 48)) ds) in *.
    pose proof (decimal_from_ge (n * 10 + (c - 48)) ds ltac:(lia) Hd).
    rewrite (s32_id (n * 10)), s32_id by lia. apply IH; [lia|done..].
Qed.
End parse.

(** The qualifier as myprintf keeps it. *)
Definition qualifier_code (q : qualifier) : Z :=
  match q with Q_none => -1 | Q_h => ch "h" | Q_l => ch "l" | Q_ll | Q_L => ch "L" end.

Section conversions.
Context (cap : Z).
Implicit Types (st : fmt_state) (d : directive_syntax) (l : list Z).

Lemma parse_qualifier_unparse q c rest :
  ∀ st, parse_qualifier (qualifier_chars q ++ conversion_char c :: rest) st
        = Ret (qualifier_code q, conversion_char c :: rest) st.
Proof. by destruct q, c. Qed.

Lemma letters q c rest : 64 < List.hd 0 (qualifier_chars q ++ conversion_char c :: rest).
Proof. by destruct q, c. Qed.

Lemma not_digit x : 64 < x ∨ x = ch "." → is_digit x = false.
Proof. unfold is_digit. change (ch ".") with 46. lia. Qed.

Lemma not_star x : 64 < x ∨ x = ch "." → (x =? ch "*") = false.
Proof. change (ch ".") with 46. change (ch "*") with 42. lia. Qed.

Lemma hd_app ds fmt : List.hd 0 (ds ++ fmt) = match ds with [] => List.hd 0 fmt | c :: _ => c end.
Proof. by destruct ds. Qed.

Lemma hd_ne fmt : 46 ≤ List.hd 0 fmt → fmt ≠ [].
Proof. by intros H ->. Qed.

Lemma parse_precision_unparse d fmt :
  match dir_precision d with None => True | Some ds => digits_ok ds end → 64 < List.hd 0 fmt →
  ∀ st, parse_precision (precision_chars (dir_precision d) ++ fmt) st
        = Ret (precision_of d, fmt) st.
Proof.
  intros Hd Hf st. pose proof (hd_ne fmt ltac:(lia)) as Hne.
  unfold precision_of. destruct (dir_precision d) as [ds|]; cbn [precision_chars app]; unfold parse_precision.
  - destruct Hd as [Hd Hm]. cbn [deref]. rewrite bind_mret. cbn [tl]. change (ch "." =? ch ".") with true. cbv iota zeta.
    rewrite (bind_eq _ _ _ _ _ (deref_hd (ds ++ fmt) st ltac:(by destruct ds))), hd_app. destruct ds as [|c ds].
    + rewrite not_digit, not_star by by left. done.
    + pose proof (Forall_inv Hd) as Hc. cbv beta in Hc. rewrite Hc. unfold scan_number.
      rewrite (bind_eq _ _ _ _ _ (scan_number_unparse 0 (c :: ds) fmt st ltac:(done) Hd Hm (not_digit _ (or_introl Hf)) Hne)).
      pose proof (decimal_from_ge 0 (c :: ds) ltac:(done) Hd). fold (decimal (c :: ds)) in *.
      by rewrite (proj2 (Z.ltb_ge _ 0)) by lia.
  - rewrite (bind_eq _ _ _ _ _ (deref_hd fmt st Hne)). change (ch ".") with 46. by rewrite (proj2 (Z.eqb_neq _ 46)) by lia.
Qed.

Lemma parse_width_unparse d flags fmt :
  digits_ok (dir_width d) → 64 < List.hd 0 fmt ∨ List.hd 0 fmt = ch "." →
  ∀ st, parse_width flags (dir_width d ++ fmt) st = Ret (flags, width_of d, fmt) st.
Proof.
  intros [Hd Hm] Hf st. assert (fmt ≠ []) as Hne by (apply hd_ne; change (ch ".") with 46 in Hf; lia).
  unfold parse_width, width_of.
  rewrite (bind_eq _ _ _ _ _ (deref_hd (dir_width d ++ fmt) st ltac:(by destruct (dir_width d)))), hd_app.
  destruct (dir_width d) as [|c ds].
  - by rewrite not_digit, not_star.
  - pose proof (Forall_inv Hd) as Hc. cbv beta in Hc. rewrite Hc. unfold scan_number.
    by rewrite (bind_eq _ _ _ _ _ (scan_number_unparse 0 (c :: ds) fmt st ltac:(done) Hd Hm (not_digit _ Hf) Hne)).
Qed.

(** *** Printing *)

(** What a printing computation does, in bounds or not. *)
Lemma emit_then l (k : M fmt_state unit) l2 st st2 :
  Z.of_nat (length (f_out st)) ≤ cap → f_out st2 = f_out st →
  (Z.of_nat (length (f_out st) + length l) ≤ cap → k (wrote l st) = emit_list cap l2 (wrote l st2)) →
  (emit_list cap l ;; k) st = emit_list cap (l ++ l2) st2.
Proof.
  intros Hcap Hout Hk. destruct (decide (Z.of_nat (length (f_out st) + length l) ≤ cap)) as [Hle|Hgt].
  - rewrite (bind_eq _ _ _ _ _ (emit_list_fits cap l st Hle)), (emit_list_app cap l l2 st2).
    rewrite (bind_eq _ _ _ _ _ (emit_list_fits cap l st2 ltac:(by rewrite Hout))). by apply Hk.
  - rewrite (emit_list_overflow cap (l ++ l2) st2) by (rewrite Hout, length_app; lia).
    apply bind_fault, emit_list_overflow. lia.
Qed.

Lemma emit_skip l st : (emit_list cap l ;; skip) st = emit_list cap l st.
Proof. unfold mbind, M_bind. by destruct (emit_list cap l st) as [[] ?|?|?|]. Qed.

(** The padding loops. *)
Lemma pad_then {A} bound v (k : Z → M fmt_state A) st :
  (pad cap bound v (ch " ") ≫= k) st = (emit_list cap (spaces (v - bound)) ;; k (Z.min v bound - 1)) st.
Proof. exact (pad_bind cap bound v (ch " ") k st). Qed.
Lemma pad_skip bound v st : (pad cap bound v (ch " ") ;; skip) st = emit_list cap (spaces (v - bound)) st.
Proof. rewrite pad_then. apply emit_skip. Qed.
Lemma pad_pre_then {A} v (k : Z → M fmt_state A) st :
  (pad_pre cap v (ch " ") ≫= k) st = (emit_list cap (spaces (v - 1)) ;; k (Z.min (v - 1) 0)) st.
Proof.
  revert st. change ((pad_pre cap v (ch " ") ≫= k) ≡ (emit_list cap (spaces (v - 1)) ;; k (Z.min (v - 1) 0))).
  rewrite pad_pre_spec, bind_assoc. apply bind_ext. intros []. apply bind_ret_l.
Qed.
Lemma pad_pre_skip v st : (pad_pre cap v (ch " ") ;; skip) st = emit_list cap (spaces (v - 1)) st.
Proof. rewrite pad_pre_then. apply emit_skip. Qed.

(** The state once a directive has taken its argument. *)
Definition took (base : option Z) (args : list karg) st : fmt_state := FmtState (f_out st) args base (f_stores st).

Lemma va_word_eq w args st : f_args st = KInt w :: args → va_word st = Ret (u64 w) (took (f_base st) args st).
Proof. intros Ha. unfold va_word, va_arg, mbind, M_bind. by rewrite Ha. Qed.
Lemma va_int_eq w args st : f_args st = KInt w :: args → va_int st = Ret (s32 (u64 w)) (took (f_base st) args st).
Proof. intros Ha. unfold va_int. by rewrite (bind_eq _ _ _ _ _ (va_word_eq w args st Ha)). Qed.
Lemma va_str_eq s args st : f_args st = KStr s :: args → va_str st = Ret s (took (f_base st) args st).
Proof. intros Ha. unfold va_str, va_arg, mbind, M_bind. by rewrite Ha. Qed.

Lemma u8_s32_u64 w : u8 (s32 (u64 w)) = u8 w.
Proof.
  assert (∀ z, u8 (s32 z) = u8 z) as H.
  { intros z. unfold u8, s32, signed. destruct (_ <? _); [by apply Z.mod_mod_divide; exists (2 ^ 24)|].
    rewrite Zminus_mod, Z.mod_mod_divide by by exists (2 ^ 24). change (2 ^ 32 mod 2 ^ 8) with 0.
    by rewrite Z.sub_0_r, Z.mod_mod. }
  rewrite H. apply Z.mod_mod_divide. by exists (2 ^ 56).
Qed.

Lemma spaces_none n : n ≤ 0 → spaces n = [].
Proof. intros. unfold spaces. by replace (Z.to_nat n) with O by lia. Qed.

Lemma conv_char_text flags width w args st :
  Z.of_nat (length (f_out st)) ≤ cap → f_args st = KInt w :: args →
  conv_char cap flags width st
  = emit_list cap (in_field (has flags LEFT) width [u8 w]) (took (f_base st) args st).
Proof.
  intros Hcap Ha. unfold conv_char, in_field. cbn [length]. change (Z.of_nat 1) with 1.
  assert (∀ s1 v, f_args s1 = KInt w :: args → (c ← va_int; emit cap (u8 c) ;; pad_pre cap v (ch " ") ;; skip) s1
    = emit_list cap (u8 w :: spaces (v - 1)) (took (f_base s1) args s1)) as Htail.
  { intros s1 v H1. rewrite (bind_eq _ _ _ _ _ (va_int_eq w args s1 H1)), u8_s32_u64. cbn [emit_list].
    apply (bind_ext (emit cap (u8 w)) _ (λ _, emit_list cap (spaces (v - 1)))). intros [] s2. apply pad_pre_skip. }
  destruct (has flags LEFT); cbn [negb].
  - rewrite bind_mret. by apply Htail.
  - rewrite pad_pre_then. apply emit_then; [done..|]. intros _.
    rewrite (Htail (wrote (spaces (width - 1)) st) _ Ha).
    by rewrite spaces_none by lia.
Qed.

Lemma conv_string_text flags width precision s args st :
  Z.of_nat (length (f_out st)) ≤ cap → f_args st = KStr s :: args →
  let l := default (chars "<NULL>") s in
  conv_string cap flags width precision st
  = emit_list cap (in_field (has flags LEFT) width (if precision <? 0 then l else take (Z.to_nat precision) l))
      (took (f_base st) args st).
Proof.
  intros Hcap Ha l. unfold conv_string. rewrite (bind_eq _ _ _ _ _ (va_str_eq s args st Ha)). fold l.
  set (st1 := took (f_base st) args st). set (t := if precision <? 0 then l else _).
  set (len := if precision <? 0 then _ else _).
  assert (Z.of_nat (length t) = len ∧ take (Z.to_nat len) l = t) as [Hlen Ht].
  { unfold t, len. destruct (Z.ltb_spec precision 0); [by rewrite Nat2Z.id, take_ge|].
    destruct (Z.ltb_spec precision (Z.of_nat (length l))); [split; [rewrite length_take; lia|done]|].
    rewrite Nat2Z.id, !take_ge by lia. done. }
  assert (∀ v s1, Z.of_nat (length (f_out s1)) ≤ cap →
    (emit_list cap t ;; pad cap len v (ch " ") ;; skip) s1 = emit_list cap (t ++ spaces (v - len)) s1) as Htail.
  { intros v s1 Hs1. apply emit_then; [done..|]. intros _. apply pad_skip. }
  rewrite Ht. unfold in_field. rewrite Hlen. destruct (has flags LEFT); cbn [negb].
  - rewrite bind_mret. by apply Htail.
  - rewrite pad_then. apply emit_then; [done..|]. intros Hr. rewrite Htail by (cbn; rewrite length_app; exact Hr).
    by rewrite (spaces_none (_ - len)), app_nil_r by lia.
Qed.

Lemma number_emit num base width precision flags st :
  2 ≤ base ≤ 36 → 0 ≤ num < 2 ^ 64 → - 2 ^ 29 ≤ width ≤ 2 ^ 29 → precision ≤ 2 ^ 29 →
  ∀ k, (ok ← number cap num base width precision flags; if ok : bool then skip else k) st
       = emit_list cap (number_text num base width precision flags) st.
Proof.
  intros. unfold mbind at 1, M_bind at 1. rewrite (number_spec cap num base width precision flags) by done.
  unfold mbind, M_bind. by destruct (emit_list cap _ st) as [[] ?|?|?|].
Qed.

Lemma number_of_range q sg w : 0 ≤ w < 2 ^ 64 → 0 ≤ number_of q sg w < 2 ^ 64.
Proof.
  intros Hw. pose proof (u32_range w). assert (0 ≤ u16 w < 2 ^ 16) by (by apply Z.mod_pos_bound).
  destruct q, sg; cbn [number_of]; try done; try apply u64_range; lia.
Qed.

Lemma conv_number_text q flags width precision base w args st :
  2 ≤ base ≤ 36 → - 2 ^ 29 ≤ width ≤ 2 ^ 29 → precision ≤ 2 ^ 29 →
  f_base st = Some base → f_args st = KInt w :: args →
  conv_number cap flags width precision (qualifier_code q) st
  = emit_list cap (number_text (number_of q (has flags SIGN) (u64 w)) base width precision flags) (took (Some base) args st).
Proof.
  intros Hb Hw Hp Hbase Ha. unfold conv_number. rewrite (bind_eq _ _ _ _ _ (va_word_eq w args st Ha)).
  cbv zeta. rewrite Hbase.
  rewrite <-(number_emit _ base width precision flags _ Hb (number_of_range q _ _ (u64_range w)) Hw Hp (throw NullDeref)).
  by destruct q.
Qed.
Lemma flag_bits_unsigned fs : has (flag_bits fs) SIGN = false.
Proof.
  unfold flag_bits. assert (has 0 SIGN = false) as H by done. revert H. generalize 0.
  induction fs as [|f fs IH]; intros b Hb; [done|]. apply IH.
  change SIGN with (2 ^ 1) in *. rewrite has_lor, Hb by done. by destruct f.
Qed.

Lemma width_range d : digits_ok (dir_width d) → - 1 ≤ width_of d ≤ 2 ^ 29.
Proof.
  intros [Hd Hm]. unfold width_of. destruct (dir_width d) as [|c ds] eqn:E; [done|].
  split; [|done]. etransitivity; [|by apply decimal_from_ge]. done.
Qed.
Lemma precision_range d :
  match dir_precision d with None => True | Some ds => digits_ok ds end → precision_of d ≤ 2 ^ 29.
Proof. unfold precision_of. destruct (dir_precision d); [by intros []|done]. Qed.

(** The number conversions: [base] is set, and the flags say whether to extend the sign. *)
Lemma set_base_number base d extra w args st (signed : bool) :
  piece_ok (Dir d) → 2 ≤ base ≤ 36 → f_args st = KInt w :: args →
  has (Z.lor (flag_bits (dir_flags d)) extra) SIGN = signed →
  (set_base base ;; conv_number cap (Z.lor (flag_bits (dir_flags d)) extra) (width_of d) (precision_of d)
                      (qualifier_code (dir_qualifier d))) st
  = emit_list cap (number_text (number_of (dir_qualifier d) signed (u64 w)) base (width_of d) (precision_of d)
                     (Z.lor (flag_bits (dir_flags d)) extra)) (took (Some base) args st).
Proof.
  intros (Hw & _ & Hp) Hb Ha Hs. unfold set_base. rewrite bind_modify. pose proof (width_range d Hw).
  rewrite (conv_number_text _ _ _ _ base w args); [by rewrite Hs|done|lia|by apply precision_range|done|exact Ha].
Qed.

Lemma then_same {A B} (m n : M fmt_state A) (k : A → M fmt_state B) st st' : m st = n st' → (m ≫= k) st = (n ≫= k) st'.
Proof. intros H. unfold mbind, M_bind. by rewrite H. Qed.

Lemma conversion_text d a l args st start rest :
  piece_ok (Dir d) → Z.of_nat (length (f_out st)) ≤ cap → f_args st = a :: args → directive_text d a = Some l →
  ∃ base, conversion cap (flag_bits (dir_flags d)) (width_of d) (precision_of d) (qualifier_code (dir_qualifier d)) start
            (conversion_char (dir_conversion d) :: rest) st
          = (emit_list cap l ;; mret (conversion_char (dir_conversion d) :: rest)) (took base args st).
Proof.
  intros Hok Hcap Ha Hl. pose proof Hok as (Hw & _ & Hp). apply width_range in Hw. apply precision_range in Hp.
  pose proof (flag_bits_unsigned (dir_flags d)) as Hun.
  assert (has (Z.lor (flag_bits (dir_flags d)) 0) SIGN = false) as H0 by by rewrite Z.lor_0_r.
  assert (has (Z.lor (flag_bits (dir_flags d)) SMALL) SIGN = false) as H1
    by (change SIGN with (2 ^ 1) in *; rewrite has_lor, Hun by done; done).
  assert (has (Z.lor (flag_bits (dir_flags d)) SIGN) SIGN = true) as H2
    by (change SIGN with (2 ^ 1) in *; rewrite has_lor, Hun by done; done).
  pose proof (λ base w sg, set_base_number base d 0 w args st sg Hok) as N0. rewrite !Z.lor_0_r in N0, H0.
  unfold directive_text in Hl. rewrite !Z.lor_0_r in Hl.
  destruct (dir_conversion d) eqn:Ec, a as [w|s]; try done; unfold conversion; cbn [conversion_char deref]; rewrite bind_mret;
    repeat match goal with |- context [ch ?x =? ch ?y] =>
      let b := eval vm_compute in (ch x =? ch y) in change (ch x =? ch y) with b end; cbv iota; cbn [orb];
    try (injection Hl as <-).
  - exists (f_base st). by apply then_same, conv_char_text.
  - exists (f_base st). by apply then_same, conv_string_text.
  - exists (f_base st). destruct (if width_of d =? -1 then _ else _) as [w' fl] eqn:Ew. injection Hl as <-.
    assert (- 2 ^ 29 ≤ w' ≤ 2 ^ 29) as Hw' by (destruct (width_of d =? -1); injection Ew as <- _; lia).
    rewrite (bind_eq _ _ _ _ _ (va_word_eq w args st Ha)).
    etransitivity; [|apply then_same, (number_emit (u64 w) 16 w' (precision_of d) fl _ ltac:(lia) (u64_range w) Hw' Hp skip)].
    rewrite (bind_assoc _ _ _ (took _ _ _)). apply bind_ext. intros [] s2; by rewrite bind_skip.
  - exists (Some 8). rewrite <-(bind_assoc _ _ _ st). by apply then_same, N0.
  - exists (Some 16). rewrite <-(bind_assoc _ _ _ st). by apply then_same, set_base_number.
  - exists (Some 16). rewrite <-(bind_assoc _ _ _ st). by apply then_same, N0.
  - exists (Some 10). rewrite <-(bind_assoc _ _ _ st). by apply then_same, set_base_number.
  - exists (Some 10). rewrite <-(bind_assoc _ _ _ st). by apply then_same, set_base_number.
  - exists (Some 10). rewrite <-(bind_assoc _ _ _ st). by apply then_same, N0.
Qed.

(** A directive consumes its syntax and one argument, and prints its text. *)
Lemma directive_unparse d a l args st rest :
  piece_ok (Dir d) → Z.of_nat (length (f_out st)) ≤ cap → f_args st = a :: args → directive_text d a = Some l →
  ∃ base, directive cap (unparse_piece (Dir d) ++ rest) st = (emit_list cap l ;; mret rest) (took base args st).
Proof.
  intros Hok Hcap Ha Hl. set (start := unparse_piece (Dir d) ++ rest).
  destruct (conversion_text d a l args st start rest Hok Hcap Ha Hl) as [base E]. exists base.
  pose proof Hok as (Hw & Hz & Hp). unfold directive.
  set (t3 := qualifier_chars (dir_qualifier d) ++ conversion_char (dir_conversion d) :: rest).
  pose proof (letters (dir_qualifier d) (dir_conversion d) rest) as Hlet. fold t3 in Hlet.
  assert (start = ch "%" :: map flag_char (dir_flags d) ++ dir_width d ++ precision_chars (dir_precision d) ++ t3) as Hstart
    by (unfold start, t3, unparse_piece, unparse_tail; rewrite <-app_comm_cons, <-!app_assoc; done).
  assert (64 < List.hd 0 (precision_chars (dir_precision d) ++ t3)
          ∨ List.hd 0 (precision_chars (dir_precision d) ++ t3) = ch ".") as H2
    by (rewrite hd_app; destruct (dir_precision d); cbn; [by right|by left]).
  rewrite (bind_eq _ _ _ (flag_bits (dir_flags d), dir_width d ++ precision_chars (dir_precision d) ++ t3) st).
  - rewrite (bind_eq _ _ _ _ _ (parse_width_unparse d _ _ Hw H2 st)).
    rewrite (bind_eq _ _ _ _ _ (parse_precision_unparse d _ Hp Hlet st)). unfold t3.
    rewrite (bind_eq _ _ _ _ _ (parse_qualifier_unparse _ _ _ st)).
    etransitivity; [apply then_same, E|]. rewrite (bind_assoc _ _ _ (took _ _ _)). done.
  - rewrite Hstart. apply parse_flags_unparse.
    rewrite hd_app. destruct (dir_width d) as [|c ds] eqn:Ed; [destruct H2; auto|].
    right; right. split; [|exact Hz]. exact (Forall_inv (proj1 Hw)).
Qed.

(** *** A whole format *)

Lemma loop_text l rest n :
  Forall plain_char l →
  loop (length l + n) (format_step cap) (l ++ rest) ≡ (emit_list cap l ;; loop n (format_step cap) rest).
Proof.
  intros Hl; induction Hl as [|c l Hc _ IH]; [by intros st|].
  cbn [length Nat.add app loop emit_list]. rewrite format_step_char by done.
  rewrite !bind_assoc. apply bind_ext. intros []. rewrite bind_ret_l. exact IH.
Qed.

Lemma loop_directive n d rest st :
  loop (S n) (format_step cap) (unparse_piece (Dir d) ++ rest) st
  = (directive cap (unparse_piece (Dir d) ++ rest) ≫= loop n (format_step cap)) st.
Proof.
  cbn [loop unparse_piece app].
  match goal with |- (format_step cap ?l ≫= _) st = _ =>
    change (format_step cap l) with (fmt ← directive cap l; mret (inl fmt) : M _ (list Z + unit)) end.
  rewrite (bind_assoc _ _ _ st). apply bind_ext. intros fmt s1. by rewrite bind_mret.
Qed.

(** Printing a text before something that prints. *)
Lemma emit_before l out (k : M fmt_state unit) args unread st :
  (∀ s1, Z.of_nat (length (f_out s1)) ≤ cap → f_args s1 = args → ∃ base, k s1 = emit_list cap out (took base unread s1)) →
  Z.of_nat (length (f_out st)) ≤ cap → f_args st = args →
  ∃ base, (emit_list cap l ;; k) st = emit_list cap (l ++ out) (took base unread st).
Proof.
  intros Hk Hcap Ha. destruct (decide (Z.of_nat (length (f_out st) + length l) ≤ cap)) as [Hle|Hgt].
  - destruct (Hk (wrote l st)) as [base E]; [cbn; by rewrite length_app|done|]. exists base.
    by apply emit_then; [..|intros _; rewrite E].
  - exists None. apply emit_then; [done|done|]. lia.
Qed.

Lemma format_loop_unparse ps args out unread :
  Forall piece_ok ps → render ps args = Some (out, unread) →
  ∀ n st, (length (unparse ps) < n)%nat → Z.of_nat (length (f_out st)) ≤ cap → f_args st = args →
  ∃ base, loop n (format_step cap) (unparse ps ++ [0]) st = emit_list cap out (took base unread st).
Proof.
  intros Hps; revert args out; induction Hps as [|p ps Hp _ IH]; intros args out Hr n st Hn Hcap Ha.
  { injection Hr as <- <-. exists (f_base st). destruct n; [cbn in Hn; lia|]. cbn. destruct st. cbn in Ha. by subst. }
  change (unparse (p :: ps)) with (unparse_piece p ++ unparse ps) in *. rewrite <-app_assoc. rewrite length_app in Hn.
  destruct p as [l|d]; cbn [render] in Hr.
  - destruct (render ps args) as [[out' unread']|] eqn:E; [|done]. injection Hr as <- <-.
    replace n with (length l + (n - length l))%nat by (cbn in Hn; lia). cbn [unparse_piece] in *.
    rewrite (loop_text l (unparse ps ++ [0]) _ Hp st). apply (emit_before _ _ _ args); [|done..].
    intros s1 H1 H2. apply (IH args out' E); [lia|done..].
  - destruct args as [|a args]; [done|]. destruct (directive_text d a) as [l|] eqn:El; [|done]. cbn in Hr.
    destruct (render ps args) as [[out' unread']|] eqn:E; [|done]. injection Hr as <- <-.
    destruct n as [|n]; [lia|]. rewrite loop_directive.
    destruct (directive_unparse d a l args st (unparse ps ++ [0]) Hp Hcap Ha El) as [b Ed].
    destruct (emit_before l out' (loop n (format_step cap) (unparse ps ++ [0])) args unread' (took b args st)) as [base Eb];
      [|done..|].
    + intros s1 H1 H2. apply (IH args out' E); [cbn in Hn; lia|done..].
    + exists base. transitivity ((emit_list cap l ;; loop n (format_step cap) (unparse ps ++ [0])) (took b args st)); [|exact Eb].
      unfold mbind at 1, M_bind at 1. rewrite Ed. unfold mbind, M_bind. by destruct (emit_list cap l _) as [[] ?|?|?|].
Qed.
End conversions.

(** ** Properties *)

(** C17 (functional): for every format made of plain text and of well-formed directives
    (any flags, width, precision, length and any of the conversions c s p o x X d i u),
    with arguments of the right kinds, myprintf writes exactly the text the format
    stands for and returns its length, one byte of the buffer being left for the NUL.
    The flag # stands for what the code prints, 0 before an octal number, 0x after x and
    0X after X; the comment before myprintf promises 0x in all three cases.  When the text does not fit, a store goes past the end of the buffer: the size is
    never looked at. *)
Theorem myprintf_renders cap ps args out unread :
  Forall piece_ok ps → render ps args = Some (out, unread) → 0 ≤ cap < 2 ^ 31 →
  if Z.of_nat (length out) <? cap
  then ∃ base, myprintf cap (unparse ps) args = Ret (Z.of_nat (length out)) (FmtState out unread base [])
  else myprintf cap (unparse ps) args = Fault (IndexRange cap).
Proof.
  intros Hps Hr Hcap. set (st0 := FmtState [] args None []).
  destruct (format_loop_unparse cap ps args out unread Hps Hr (length (unparse ps ++ [0])) st0) as [base E];
    [rewrite length_app; cbn; lia|cbn; lia|done|].
  change (format_loop cap (unparse ps ++ [0]) st0 = emit_list cap out (took base unread st0)) in E.
  unfold myprintf. fold st0. destruct (Z.ltb_spec (Z.of_nat (length out)) cap) as [Hlt|Hge].
  - exists base. rewrite (bind_eq _ _ _ _ _ (eq_trans E (emit_list_fits cap out (took base unread st0) ltac:(cbn; lia)))).
    unfold mbind, M_bind, get, emit. cbn [took st0 f_out f_args f_base f_stores app].
    rewrite (proj2 (Z.ltb_lt _ cap)) by done. unfold put, mret, M_ret; cbn [f_out]. by rewrite s32_id by lia.
  - destruct (decide (Z.of_nat (length out) ≤ cap)).
    + rewrite (bind_eq _ _ _ _ _ (eq_trans E (emit_list_fits cap out (took base unread st0) ltac:(cbn; lia)))).
      unfold mbind, M_bind, get, emit. cbn [took st0 f_out f_args f_base f_stores app].
      by rewrite (proj2 (Z.ltb_ge _ cap)) by lia.
    + apply bind_fault. rewrite E. apply emit_list_overflow. cbn; lia.
Qed.

(** The format of print_mem. *)
Lemma myprintf_renders_witness :
  let fmt := [Text (chars ".data: 0x"); Dir (Directive [Zeropad] [56] None Q_l Conv_x); Text (chars " (");
              Dir (Directive [] [54] None Q_l Conv_d); Text (chars " B)")] in
  unparse fmt = chars ".data: 0x%08lx (%6ld B)" ∧
  ∃ base, myprintf 1024 (unparse fmt) [KInt 0x88000; KInt 8448]
          = Ret 28 (FmtState (chars ".data: 0x00088000 (  8448 B)") [] base []).
Proof.
  intros fmt. split; [by vm_compute|].
  refine (myprintf_renders 1024 fmt [KInt 0x88000; KInt 8448] (chars ".data: 0x00088000 (  8448 B)") [] _ _ _);
    [|by vm_compute|lia].
  repeat (constructor; [by_decision || (split; [split; [by_decision|by vm_compute]|by split; [vm_compute|]])|]). constructor.
Defined.
