(* ===== verification/Printk.v ===== *)
(** * lib/printk.c, the console half: printk, init_printk_done, the early log

    Before init_printk_done the messages are recorded in [log_buf]; after it they
    go to the UART, character by character.  The console is also the interface
    other components print through: [Console] below says what they rely on, and
    [uart_console] implements it with the code of this file. *)

From S2P Require Import Prelude Mmio Uart Format.

(** ** State *)

(** [lib/printk.c:5-6] CONSOLE_PRINT_BUFFER_SIZE *)
Definition CONSOLE_PRINT_BUFFER_SIZE : Z := 1024.
(** [lib/printk.c:9-11] LOG_BUF_LEN *)
Definition LOG_BUF_LEN : Z := Z.shiftl 1 17.

(** [lib/printk.c:13-16] printk_status *)
Inductive printk_status : Type := PRINTK_STATUS_DOWN | PRINTK_STATUS_READY.

(** [lib/printk.c:11-20] g_record: the static variables of the file.  [log_buf] holds
    the bytes stored so far (the rest is zero, it is in .bss) and [g_record] is
    the pointer's offset into it. *)
Record printk_state : Type := PrintkState {
  g_printk_status : printk_status;
  log_buf : gmap Z Z;
  g_record : Z;
  g_record_len : Z;
}.

Definition printk_boot : printk_state := PrintkState PRINTK_STATUS_DOWN ∅ 0 0.

Definition log_byte (ps : printk_state) (i : Z) : Z := default 0 (log_buf ps !! i).

(** ** The code *)

Section printk.
Context (P : platform) (fuel : nat).

(** One byte of [memcpy(g_record, print_buf, len)]. *)
Definition log_store (off c : Z) : M printk_state unit := λ ps,
  if (0 <=? off) && (off <? LOG_BUF_LEN)
  then Ret tt (PrintkState (g_printk_status ps) (<[off := u8 c]> (log_buf ps))
                 (g_record ps) (g_record_len ps))
  else Fault (IndexRange off).

Fixpoint log_store_list (off : Z) (l : list Z) : M printk_state unit :=
  match l with
  | [] => skip
  | c :: l => log_store off c ;; log_store_list (off + 1) l
  end.

(** [lib/printk.c:359-366] printk: the message goes to the early log *)
Definition printk_record (text : list Z) (len : Z) : M printk_state unit :=
  ps ← get;
  log_store_list (g_record ps) text ;;
  modify (λ ps, PrintkState (g_printk_status ps) (log_buf ps) len
                  (u64 (g_record_len ps + len))).

(** [lib/printk.c:368-372] printk: the message goes to the UART.  [i] counts the
    characters sent; the test against the buffer's size comes after each. *)
Fixpoint printk_putchars (text : list Z) (i : Z) : M trace unit :=
  match text with
  | [] => skip
  | c :: text =>
      putchar P fuel c ;;
      if CONSOLE_PRINT_BUFFER_SIZE <? u64 i then skip else printk_putchars text (i + 1)
  end.

(** [lib/printk.c:349-374] printk.  The formatted text is what myprintf left in
    [print_buf]; a byte stored through [%n] would land in memory the console
    does not own. *)
Definition printk (fmt : list Z) (args : list karg) : M (printk_state * trace) Z := λ s,
  match myprintf CONSOLE_PRINT_BUFFER_SIZE fmt args with
  | Fault f => Fault f
  | Halt _ | Hang => Hang
  | Ret len st =>
      match f_stores st with
      | (a, _) :: _ => Fault (WildAddr a)
      | [] =>
          match g_printk_status (fst s) with
          | PRINTK_STATUS_DOWN => (zoom (printk_record (f_out st) len) ;; mret 0) s
          | PRINTK_STATUS_READY => (zoom (printk_putchars (f_out st) 0) ;; mret len) s
          end
      end
  end.

(** [lib/printk.c:336-347] init_printk_done *)
Definition init_printk_done : M (printk_state * trace) unit :=
  zoom (modify (λ ps, PrintkState PRINTK_STATUS_READY (log_buf ps) (g_record ps) (g_record_len ps))) ;;
  ps ← zoom (S:=printk_state * trace) (T:=printk_state) get;
  for_range (Z.to_nat (g_record_len ps)) 0 (λ i,
    if i <? LOG_BUF_LEN then zoom (putchar P fuel (log_byte ps i))
    else throw (IndexRange i)) ;;
  zoom (modify (λ ps, PrintkState (g_printk_status ps) (log_buf ps) 0 0)).
End printk.

(** ** The console other components print through

    A kernel function that prints hands a format and its arguments to a console
    and goes on; what the console does with them does not touch the caller's
    data.  [uart_console] runs the printk above; should printk fault (a message
    longer than its buffer) the console is lost ([None]) and stays so, and
    statements about what was printed are about consoles that are alive. *)

Class Console (C : Type) : Type := console_printk : string → list karg → C → C.

Definition uart_console (P : platform) (fuel : nat) : Console (option (printk_state * trace)) :=
  λ fmt args c,
    match c with
    | None => None
    | Some s => match printk P fuel (chars fmt) args s with
                | Ret _ s' => Some s'
                | _ => None
                end
    end.

(** A console that only keeps the requests, newest first. *)
Definition log_console : Console (list (string * list karg)) :=
  λ fmt args c, (fmt, args) :: c.

(** ** Lemmas *)

(** What the terminal shows for a text: every newline gets a carriage return. *)
Definition crlf (l : list Z) : list Z := l ≫= λ c, if c =? 10 then [13; 10] else [c].

Lemma crlf_cons c l : crlf (c :: l) = (if c =? 10 then [13; 10] else [c]) ++ crlf l.
Proof. done. Qed.

Section live.
Context (P : platform) (fuel : nat) `{!UartLive P fuel}.

Lemma printk_putchars_output text i tr :
  Forall (λ c, 0 ≤ c < 256) text → 0 ≤ i → i + Z.of_nat (length text) ≤ 1024 →
  ∃ tr', printk_putchars P fuel text i tr = Ret tt tr' ∧
         uart_output tr' = uart_output tr ++ crlf text.
Proof.
  intros Hc; revert i tr; induction Hc as [|c text Hc _ IH]; intros i tr Hi Hl.
  { exists tr. by rewrite app_nil_r. }
  cbn [length printk_putchars] in *.
  destruct (putchar_output P fuel c tr ltac:(lia)) as (tr1 & H1 & H2).
  destruct (IH (i + 1) tr1 ltac:(lia) ltac:(lia)) as (tr2 & H3 & H4). exists tr2.
  rewrite (bind_eq _ _ _ _ _ H1), u64_id by lia. unfold CONSOLE_PRINT_BUFFER_SIZE.
  destruct (Z.ltb_spec 1024 i); [lia|]. by rewrite H4, H2, crlf_cons, <-app_assoc.
Qed.

Lemma flush_output (f : Z → Z) n i tr :
  (∀ j, 0 ≤ f j < 256) → 0 ≤ i → i + Z.of_nat n ≤ LOG_BUF_LEN →
  ∃ tr', ∀ ps : printk_state,
    for_range n i (λ j, if j <? LOG_BUF_LEN then zoom (putchar P fuel (f j))
                        else throw (IndexRange j)) (ps, tr) = Ret tt (ps, tr') ∧
    uart_output tr' = uart_output tr ++ crlf (f <$> seqZ i (Z.of_nat n)).
Proof.
  intros Hf; revert i tr; induction n as [|n IH]; intros i tr Hi Hn.
  { exists tr. intros ps. by rewrite app_nil_r. }
  destruct (putchar_output P fuel (f i) tr) as (tr1 & H1 & H2); [specialize (Hf i); lia|].
  destruct (IH (i + 1) tr1 ltac:(lia) ltac:(lia)) as (tr2 & H3). exists tr2. intros ps.
  destruct (H3 ps) as [H4 H5]. cbn [for_range].
  replace (i <? LOG_BUF_LEN) with true by lia.
  unfold mbind at 1, M_bind at 1, zoom at 1. cbn [lget lput lens_snd snd fst]. rewrite H1.
  split; [exact H4|]. rewrite H5, H2, <-app_assoc, (seqZ_cons i) by lia.
  cbn [fmap list_fmap]. rewrite crlf_cons. do 4 f_equal. f_equal; lia.
Qed.
End live.

(** The early log as memory: the message [l] was stored at [off]. *)
Fixpoint log_insert (off : Z) (l : list Z) (m : gmap Z Z) : gmap Z Z :=
  match l with
  | [] => m
  | c :: l => log_insert (off + 1) l (<[off := u8 c]> m)
  end.

Lemma log_store_list_eq off l ps :
  0 ≤ off → off + Z.of_nat (length l) ≤ LOG_BUF_LEN →
  log_store_list off l ps
  = Ret tt (PrintkState (g_printk_status ps) (log_insert off l (log_buf ps))
              (g_record ps) (g_record_len ps)).
Proof.
  revert off ps; induction l as [|c l IH]; intros off ps Ho Hl; cbn [length log_store_list log_insert] in *.
  { by destruct ps. }
  unfold mbind, M_bind, log_store. replace (0 <=? off) with true by lia.
  replace (off <? LOG_BUF_LEN) with true by lia. cbn [andb].
  rewrite IH by lia. done.
Qed.

Lemma log_insert_lookup off l m x :
  log_insert off l m !! x
  = if decide (off ≤ x < off + Z.of_nat (length l)) then u8 <$> l !! Z.to_nat (x - off) else m !! x.
Proof.
  revert off m; induction l as [|c l IH]; intros off m; cbn [log_insert length].
  { rewrite decide_False by lia. done. }
  rewrite IH. destruct (decide (x = off)) as [->|Hne].
  - rewrite decide_False, decide_True, lookup_insert_eq by lia. by rewrite Z.sub_diag.
  - rewrite lookup_insert_ne by done. repeat case_decide; try lia; [|done].
    by replace (Z.to_nat (x - off)) with (S (Z.to_nat (x - (off + 1)))) by lia.
Qed.

Lemma printk_down P fuel fmt args len st ps tr :
  myprintf CONSOLE_PRINT_BUFFER_SIZE fmt args = Ret len st → f_stores st = [] →
  g_printk_status ps = PRINTK_STATUS_DOWN →
  0 ≤ g_record ps → g_record ps + Z.of_nat (length (f_out st)) ≤ LOG_BUF_LEN →
  printk P fuel fmt args (ps, tr)
  = Ret 0 (PrintkState PRINTK_STATUS_DOWN (log_insert (g_record ps) (f_out st) (log_buf ps))
             len (u64 (g_record_len ps + len)), tr).
Proof.
  intros Hf Hn Hd H0 Hl. unfold printk. rewrite Hf, Hn. cbn [fst]. rewrite Hd.
  unfold mbind, M_bind, zoom, printk_record, get. cbn [lget lens_fst fst].
  unfold mbind, M_bind. rewrite log_store_list_eq by done. cbn. by rewrite Hd.
Qed.

(** init_printk_done sends the part of the log that [g_record_len] counts. *)
Lemma init_printk_done_output P fuel `{!UartLive P fuel} ps l tr :
  g_record_len ps = Z.of_nat (length l) → Z.of_nat (length l) ≤ LOG_BUF_LEN →
  (∀ i, 0 ≤ log_byte ps i < 256) →
  (∀ i, (i < length l)%nat → Some (log_byte ps (Z.of_nat i)) = l !! i) →
  ∃ ps' tr', init_printk_done P fuel (ps, tr) = Ret tt (ps', tr') ∧
             uart_output tr' = uart_output tr ++ crlf l ∧
             g_printk_status ps' = PRINTK_STATUS_READY ∧ g_record_len ps' = 0.
Proof.
  intros Hlen Hmax Hc Hb. set (ps1 := PrintkState PRINTK_STATUS_READY (log_buf ps) (g_record ps) (g_record_len ps)).
  destruct (flush_output P fuel (log_byte ps1) (length l) 0 tr) as (tr' & Hflush); [exact Hc|lia|lia|].
  exists (PrintkState PRINTK_STATUS_READY (log_buf ps) 0 0), tr'. destruct (Hflush ps1) as [H3 H4].
  split; [|split; [|done]].
  - unfold init_printk_done. unfold mbind at 1, M_bind at 1, zoom at 1. cbn [lget lput lens_fst fst snd modify]. fold ps1.
    unfold mbind at 1, M_bind at 1, zoom at 1, get. cbn [lget lput lens_fst fst snd].
    change (g_record_len ps1) with (g_record_len ps). rewrite Hlen, Nat2Z.id. by rewrite (bind_eq _ _ _ _ _ H3).
  - rewrite H4. do 2 f_equal. apply list_eq. intros i. rewrite list_lookup_fmap.
    destruct (decide (i < length l)%nat) as [Hi|Hi].
    + rewrite lookup_seqZ_lt by lia. cbn. rewrite <-(Hb i Hi). by rewrite Z.add_0_l.
    + rewrite lookup_seqZ_ge by lia. symmetry. apply lookup_ge_None. lia.
Qed.

(** The log after two messages: both, one after the other. *)
Lemma log_insert_two l1 l2 m i :
  (i < length l1 + length l2)%nat →
  log_insert (Z.of_nat (length l1)) l2 (log_insert 0 l1 m) !! Z.of_nat i = u8 <$> (l1 ++ l2) !! i.
Proof.
  intros Hi. rewrite !log_insert_lookup. case_decide.
  - rewrite lookup_app_r by lia. do 2 f_equal. lia.
  - rewrite decide_True by lia. rewrite lookup_app_l by lia. do 2 f_equal. lia.
Qed.

Lemma u8_fmap l i : Forall (λ c, 0 ≤ c < 256) l → u8 <$> l !! i = l !! i.
Proof.
  intros Hc. destruct (l !! i) as [c|] eqn:E; [|done]. cbn. rewrite u8_id; [done|].
  change (2 ^ 8) with 256. by apply (Forall_lookup_1 _ _ _ _ Hc E).
Qed.


(** printk while the console is down: the message goes to [g_record], which then points
    [len] bytes into the log. *)
Definition logged (l : list Z) (ps : printk_state) : printk_state :=
  PrintkState PRINTK_STATUS_DOWN (log_insert (g_record ps) l (log_buf ps)) (Z.of_nat (length l))
    (u64 (g_record_len ps + Z.of_nat (length l))).

Lemma log_byte_logged l ps i :
  (∀ j, 0 ≤ log_byte ps j < 256) → 0 ≤ log_byte (logged l ps) i < 256.
Proof.
  intros H. unfold log_byte, logged. cbn [log_buf]. rewrite log_insert_lookup.
  case_decide; [|apply H]. destruct (_ !! _); [apply u8_range|cbn; lia].
Qed.

Lemma log_byte_boot i : 0 ≤ log_byte printk_boot i < 256.
Proof. unfold log_byte, printk_boot. cbn [log_buf]. rewrite lookup_empty. cbn. lia. Qed.

(** [fmt] with its arguments is the message [l]: it fits the print buffer, and stores
    nothing through %n. *)
Definition formats (fmt : list Z) (args : list karg) (l : list Z) : Prop :=
  ∃ base unread, myprintf CONSOLE_PRINT_BUFFER_SIZE fmt args
                 = Ret (Z.of_nat (length l)) (FmtState l unread base []) ∧ Z.of_nat (length l) < 1024.

Lemma printk_logs {B} P fuel fmt args l ps tr (k : M (printk_state * trace) B) :
  formats fmt args l → g_printk_status ps = PRINTK_STATUS_DOWN → 0 ≤ g_record ps ≤ 1024 →
  (printk P fuel fmt args ;; k) (ps, tr) = k (logged l ps, tr).
Proof.
  intros (base & unread & Hf & Hl) Hd Hr. apply bind_eq with (a := 0).
  rewrite (printk_down P fuel fmt args (Z.of_nat (length l)) (FmtState l unread base [])); try done; [lia|].
  change LOG_BUF_LEN with 131072. cbn. lia.
Qed.

(** ** Properties *)

(** C25 (functional): once the console is up and the UART live, printk returns the
    number of characters myprintf produced, the terminal receives exactly
    those characters with a carriage return before every newline, and the
    early log is untouched. *)
Theorem printk_ready_output P fuel `{!UartLive P fuel} fmt args len st ps tr :
  myprintf CONSOLE_PRINT_BUFFER_SIZE fmt args = Ret len st →
  f_stores st = [] → Forall (λ c, 0 ≤ c < 256) (f_out st) →
  Z.of_nat (length (f_out st)) ≤ 1024 →
  g_printk_status ps = PRINTK_STATUS_READY →
  ∃ tr', printk P fuel fmt args (ps, tr) = Ret len (ps, tr') ∧
         uart_output tr' = uart_output tr ++ crlf (f_out st).
Proof.
  intros Hf Hn Hc Hl Hr.
  destruct (printk_putchars_output P fuel (f_out st) 0 tr Hc) as (tr' & H1 & H2); [lia..|].
  exists tr'. split; [|done]. unfold printk. rewrite Hf, Hn. cbn [fst]. rewrite Hr.
  unfold mbind, M_bind, zoom. cbn [lget lput lens_snd snd fst]. by rewrite H1.
Qed.

Lemma printk_ready_output_witness :
  ∃ tr', printk (ready_platform 0) 1 (chars ("pid %d" +++ nl)) [KInt 7]
           (PrintkState PRINTK_STATUS_READY ∅ 0 0, []) = Ret 6 (PrintkState PRINTK_STATUS_READY ∅ 0 0, tr') ∧
         uart_output tr' = uart_output [] ++ crlf (chars ("pid 7" +++ nl)).
Proof.
  apply (printk_ready_output (ready_platform 0) 1 _ _ _
    (FmtState (chars ("pid 7" +++ nl)) [] (Some 10) [])); try reflexivity;
    [by_decision|vm_compute; discriminate].
Defined.

(** Two messages printed before the console is up are not
    lost: init_printk_done sends both, in order, and empties the log. *)
Theorem early_log_two_messages P fuel `{!UartLive P fuel} fmt1 args1 l1 fmt2 args2 l2 tr :
  formats fmt1 args1 l1 → formats fmt2 args2 l2 → Forall (λ c, 0 ≤ c < 256) (l1 ++ l2) →
  ∃ ps' tr', (printk P fuel fmt1 args1 ;; printk P fuel fmt2 args2 ;; init_printk_done P fuel)
               (printk_boot, tr) = Ret tt (ps', tr') ∧
             uart_output tr' = uart_output tr ++ crlf (l1 ++ l2) ∧
             g_printk_status ps' = PRINTK_STATUS_READY ∧ g_record_len ps' = 0.
Proof.
  intros Hf1 Hf2 Hc. pose proof Hf1 as (? & ? & _ & Hl1). pose proof Hf2 as (? & ? & _ & Hl2).
  rewrite (printk_logs P fuel fmt1 args1 l1), (printk_logs P fuel fmt2 args2 l2) by (done || (cbn; lia)).
  eapply init_printk_done_output; [done|..].
  - cbn. rewrite (u64_id (0 + Z.of_nat (length l1))), u64_id by lia. rewrite length_app. lia.
  - rewrite length_app. change LOG_BUF_LEN with 131072. lia.
  - intros i. repeat (apply log_byte_logged; clear i; intros i). apply log_byte_boot.
  - intros i Hi. rewrite length_app in Hi. unfold log_byte. cbn. rewrite log_insert_two by done.
    rewrite u8_fmap by done. destruct (lookup_lt_is_Some_2 (l1 ++ l2) i) as [c ->]; [rewrite length_app; lia|done].
Qed.

Lemma early_log_two_messages_witness :
  ∃ ps' tr', (printk (ready_platform 0) 1 (chars "one ") [] ;;
              printk (ready_platform 0) 1 (chars "%d") [KInt 2] ;;
              init_printk_done (ready_platform 0) 1) (printk_boot, []) = Ret tt (ps', tr') ∧
             uart_output tr' = uart_output [] ++ crlf (chars "one " ++ chars "2") ∧
             g_printk_status ps' = PRINTK_STATUS_READY ∧ g_record_len ps' = 0.
Proof.
  apply (early_log_two_messages (ready_platform 0) 1); [by eexists _, _|by eexists _, _|by_decision].
Defined.





