(* ===== verification/PageAlloc.v ===== *)
(** * mm/page_alloc.c: the page allocator

    One byte per page in [mem_map]; get_free_page hands out the first free page,
    free_page clears the byte of an address.  [PageAllocator] is the contract
    its clients (fork, the page tables, the interrupt domains) are verified
    against. *)

From S2P Require Import Prelude Format Printk.

(** ** Constants of include/page.h and include/asm/mm.h *)

(** [include/page.h:8-8] PAGE_SHIFT *)
Definition PAGE_SHIFT : Z := 12.
(** [include/page.h:9-9] TABLE_SHIFT *)
Definition TABLE_SHIFT : Z := 9.
(** [include/page.h:10-10] SECTION_SHIFT *)
Definition SECTION_SHIFT : Z := PAGE_SHIFT + TABLE_SHIFT.
(** [include/page.h:12-12] PAGE_SIZE *)
Definition PAGE_SIZE : Z := Z.shiftl 1 PAGE_SHIFT.
(** [include/page.h:13-13] PAGE_MASK, an [int] *)
Definition PAGE_MASK : Z := Z.lnot (PAGE_SIZE - 1).
(** [include/page.h:14-14] SECTION_SIZE *)
Definition SECTION_SIZE : Z := Z.shiftl 1 SECTION_SHIFT.
(** [include/page.h:16-17] PAGE_ALIGN at type [unsigned long] *)
Definition PAGE_ALIGN (addr : Z) : Z :=
  Z.land (u64 (u64 (addr + PAGE_SIZE) - 1)) (u64 PAGE_MASK).
(** [arch/arm64/include/asm/mm.h:7-7] LOW_MEMORY *)
Definition LOW_MEMORY : Z := 2 * SECTION_SIZE.
(** [arch/arm64/include/asm/mm.h:8-8] TOTAL_MEMORY *)
Definition TOTAL_MEMORY : Z := 512 * 0x100000.
(** [mm/page_alloc.c:4-4] NR_PAGES *)
Definition NR_PAGES : Z := TOTAL_MEMORY / PAGE_SIZE.

(** ** State *)

(** [mm/page_alloc.c:6-7] mem_map: [true] is a page in use *)
Record pages : Type := Pages {
  mem_map : list bool;
  phy_start_address : Z;
}.

Definition pages_boot : pages := Pages (replicate (Z.to_nat NR_PAGES) false) 0.

(** ** The code *)

(** [mm/page_alloc.c:29-34] get_free_page: the scan, from index [i] on; the
    answer is the index found. *)
Fixpoint find_free (map : list bool) (i : Z) : option Z :=
  match map with
  | [] => None
  | used :: map => if used : bool then find_free map (i + 1) else Some i
  end.

(** [mm/page_alloc.c:27-36] get_free_page *)
Definition get_free_page : M pages Z := λ s,
  match find_free (mem_map s) 0 with
  | Some i => Ret (LOW_MEMORY + i * PAGE_SIZE)
                  (Pages (<[Z.to_nat i := true]> (mem_map s)) (phy_start_address s))
  | None => Ret 0 s
  end.

(** [mm/page_alloc.c:38-41] free_page.  The index is computed in unsigned long
    and not checked. *)
Definition free_page (p : Z) : M pages unit := λ s,
  let i := u64 (p - LOW_MEMORY) / PAGE_SIZE in
  if i <? Z.of_nat (length (mem_map s))
  then Ret tt (Pages (<[Z.to_nat i := false]> (mem_map s)) (phy_start_address s))
  else Fault (IndexRange i).

Section mem_init.
Context {C : Type} `{!Console C}.

(** [mm/page_alloc.c:9-25] mem_init *)
Definition mem_init (start_mem end_mem : Z) : M (pages * C) unit :=
  let start_mem := PAGE_ALIGN start_mem in
  zoom (modify (λ s, Pages (mem_map s) start_mem)) ;;
  let end_mem := Z.land end_mem (u64 PAGE_MASK) in
  let free := u64 (end_mem - start_mem) in
  nr_free_pages ← loop (S (Z.to_nat ((end_mem - start_mem) / PAGE_SIZE + 1))) (λ '(nr_free_pages, start_mem),
      if start_mem <? end_mem
      then mret (inl (u64 (nr_free_pages + 1), u64 (start_mem + PAGE_SIZE)))
      else mret (inr nr_free_pages)) (0, start_mem);
  zoom (modify (console_printk ("Memory: %uKB available, %u free pages" +++ nl)
                  [KInt (free / 1024); KInt nr_free_pages])).
End mem_init.

(** ** The contract

    [pa_used a] is the set of pages handed out and not freed.  An allocation, of which
    [pa_avail a] succeed, returns a page-aligned page inside the managed range that was
    not in use.  One that fails says so with 0 and changes nothing: this second promise
    has a class of its own, for the clients that need it. *)

Definition page_index (p : Z) : Z := (p - LOW_MEMORY) / PAGE_SIZE.

(** The pages the allocator manages. *)
Definition page_ok (p : Z) : Prop :=
  p mod PAGE_SIZE = 0 ∧ LOW_MEMORY ≤ p < LOW_MEMORY + TOTAL_MEMORY.

Class PageAllocator (A : Type) (alloc : M A Z) : Type := {
  pa_ok : A → Prop;
  pa_used : A → Z → Prop;
  pa_avail : A → nat;
  pa_alloc : ∀ a, pa_ok a → (0 < pa_avail a)%nat →
    ∃ p a', alloc a = Ret p a' ∧ pa_ok a' ∧ page_ok p ∧ ¬ pa_used a p ∧
      (∀ q, pa_used a' q ↔ q = p ∨ pa_used a q) ∧ pa_avail a' = (pa_avail a - 1)%nat;
}.
Class PageAllocatorFails (A : Type) (alloc : M A Z) `{!PageAllocator A alloc} : Prop :=
  pa_exhausted : ∀ a, pa_ok a → pa_avail a = 0%nat → alloc a = Ret 0 a.

(** ** Lemmas *)

Lemma PAGE_SIZE_eq : PAGE_SIZE = 4096.
Proof. reflexivity. Qed.
Lemma LOW_MEMORY_eq : LOW_MEMORY = 4194304.
Proof. reflexivity. Qed.
Lemma TOTAL_MEMORY_eq : TOTAL_MEMORY = 536870912.
Proof. reflexivity. Qed.
Lemma NR_PAGES_eq : NR_PAGES = 131072.
Proof. reflexivity. Qed.

Create Rewrite HintDb page_consts.
#[export] Hint Rewrite PAGE_SIZE_eq LOW_MEMORY_eq TOTAL_MEMORY_eq NR_PAGES_eq : page_consts.

(** Unfold the page constants and call lia. *)
Ltac page_lia := autorewrite with page_consts in *; lia.

Lemma find_free_Some map i j :
  find_free map i = Some j →
  i ≤ j ∧ map !! Z.to_nat (j - i) = Some false ∧
  ∀ k, i ≤ k < j → map !! Z.to_nat (k - i) = Some true.
Proof.
  revert i; induction map as [|[] map IH]; intros i H; [done| |]; cbn in H.
  - apply IH in H as (Hle & Hj & Hk). split; [lia|]. split.
    + by replace (Z.to_nat (j - i)) with (S (Z.to_nat (j - (i + 1)))) by lia.
    + intros k Hk'. destruct (decide (k = i)) as [->|Hne].
      * by rewrite Z.sub_diag.
      * replace (Z.to_nat (k - i)) with (S (Z.to_nat (k - (i + 1)))) by lia.
        apply Hk. lia.
  - injection H as <-. rewrite Z.sub_diag. split; [lia|]. split; [done|]. lia.
Qed.

Lemma find_free_None map i : find_free map i = None ↔ Forall (eq true) map.
Proof.
  revert i; induction map as [|[] map IH]; intros i; cbn; [done| |].
  - rewrite IH. split; intros H; [by constructor|by inversion H].
  - split; [done|]. intros H; inversion H; done.
Qed.

(** The number of free pages. *)
Definition nr_free (map : list bool) : nat := length (filter (eq false) map).

Lemma nr_free_set map i :
  map !! i = Some false → nr_free (<[i := true]> map) = (nr_free map - 1)%nat.
Proof.
  unfold nr_free. revert i; induction map as [|b map IH]; intros [|i] H; cbn in H; try done.
  - injection H as ->. change (<[0%nat:=true]> (false :: map)) with (true :: map).
    rewrite filter_cons_False, filter_cons_True by done. cbn [length]. lia.
  - change (<[S i:=true]> (b :: map)) with (b :: <[i:=true]> map). specialize (IH i H). rewrite !filter_cons.
    assert (0 < length (filter (eq false) map))%nat.
    { apply list_elem_of_lookup_2 in H. assert (false ∈ filter (eq false) map) as Hin
        by by apply list_elem_of_filter.
      destruct (filter (eq false) map); [by apply elem_of_nil in Hin|cbn; lia]. }
    case_decide; cbn [length]; lia.
Qed.

Lemma nr_free_0 map : nr_free map = 0%nat ↔ Forall (eq true) map.
Proof.
  unfold nr_free. induction map as [|[] map IH]; [done| |].
  - rewrite filter_cons_False by done. rewrite IH.
    split; intros H; [by constructor|by inversion H].
  - rewrite filter_cons_True by done. split; [done|]. intros H. inversion H. done.
Qed.

(** The representation invariant: the array has its size. *)
Definition pages_ok (s : pages) : Prop := length (mem_map s) = Z.to_nat NR_PAGES.

Definition page_used (s : pages) (p : Z) : Prop :=
  page_ok p ∧ mem_map s !! Z.to_nat (page_index p) = Some true.

Lemma page_index_address i :
  0 ≤ i < NR_PAGES → page_index (LOW_MEMORY + i * PAGE_SIZE) = i ∧ page_ok (LOW_MEMORY + i * PAGE_SIZE).
Proof.
  intros Hi. unfold page_index, page_ok. autorewrite with page_consts in *.
  replace (4194304 + i * 4096 - 4194304) with (i * 4096) by lia.
  rewrite Z.div_mul by lia. split; [done|]. split; [|lia].
  replace (4194304 + i * 4096) with ((1024 + i) * 4096) by lia. apply Z.mod_mul. lia.
Qed.

Lemma page_address_index p :
  page_ok p → p = LOW_MEMORY + page_index p * PAGE_SIZE ∧ 0 ≤ page_index p < NR_PAGES.
Proof.
  unfold page_ok, page_index. autorewrite with page_consts. intros [Hm Hr].
  pose proof (Z.div_mod p 4096). pose proof (Z.div_mod (p - 4194304) 4096).
  assert ((p - 4194304) mod 4096 = 0) as Hm'.
  { replace (p - 4194304) with (p + (-1024) * 4096) by lia. by rewrite Z.mod_add by lia. }
  split; [lia|]. split; [apply Z.div_pos; lia|apply Z.div_lt_upper_bound; lia].
Qed.

Lemma page_index_inj p q : page_ok p → page_ok q → page_index p = page_index q → p = q.
Proof.
  intros Hp Hq He. destruct (page_address_index p Hp) as [-> _].
  destruct (page_address_index q Hq) as [-> _]. by rewrite He.
Qed.

Lemma get_free_page_spec s :
  pages_ok s → (0 < nr_free (mem_map s))%nat →
  ∃ p s', get_free_page s = Ret p s' ∧ pages_ok s' ∧ page_ok p ∧ ¬ page_used s p ∧
    (∀ q, page_used s' q ↔ q = p ∨ page_used s q) ∧
    nr_free (mem_map s') = (nr_free (mem_map s) - 1)%nat.
Proof.
  intros Hok Hfree. unfold get_free_page.
  destruct (find_free (mem_map s) 0) as [i|] eqn:Hf; cycle 1.
  { apply find_free_None, nr_free_0 in Hf. lia. }
  apply find_free_Some in Hf as (Hi0 & Hi & _). rewrite Z.sub_0_r in Hi.
  pose proof (lookup_lt_Some _ _ _ Hi) as Hlt. unfold pages_ok in Hok. rewrite Hok in Hlt.
  destruct (page_index_address i ltac:(page_lia)) as [Hidx Hp].
  eexists _, _. split; [done|]. split; [|split; [done|split; [|split]]].
  - unfold pages_ok; cbn. by rewrite length_insert.
  - intros [_ Hu]. rewrite Hidx in Hu. congruence.
  - intros q. unfold page_used; cbn [mem_map]. split.
    + intros [Hq Hu]. destruct (decide (page_index q = i)) as [He|Hne].
      * left. apply page_index_inj; [done..|]. by rewrite Hidx.
      * right. split; [done|]. destruct (page_address_index q Hq) as [_ Hr].
        rewrite list_lookup_insert_ne in Hu by lia. done.
    + intros [->|[Hq Hu]].
      * split; [done|]. rewrite Hidx, list_lookup_insert_eq; [done|]. rewrite Hok. page_lia.
      * split; [done|]. destruct (decide (page_index q = i)) as [He|Hne].
        { rewrite He in Hu. congruence. }
        destruct (page_address_index q Hq) as [_ Hr].
        by rewrite list_lookup_insert_ne by lia.
  - cbn. by apply nr_free_set.
Qed.

Lemma get_free_page_none s : nr_free (mem_map s) = 0%nat → get_free_page s = Ret 0 s.
Proof.
  intros H0. unfold get_free_page. apply nr_free_0 in H0.
  by rewrite (proj2 (find_free_None (mem_map s) 0) H0).
Qed.

#[export] Program Instance get_free_page_allocator : PageAllocator pages get_free_page := {|
    pa_ok := pages_ok; pa_used := page_used; pa_avail := λ s, nr_free (mem_map s);
  |}.
  Next Obligation. exact get_free_page_spec. Qed.
#[export] Instance get_free_page_fails : PageAllocatorFails pages get_free_page.
Proof. intros s _. exact (get_free_page_none s). Qed.

(** The allocator takes the first free page: it does not go past the first [n] while one
    of them is free. *)
Lemma get_free_page_low n s :
  pages_ok s → (0 < nr_free (take n (mem_map s)))%nat →
  ∃ p s', get_free_page s = Ret p s' ∧ pages_ok s' ∧ page_ok p ∧ ¬ page_used s p ∧
    (∀ q, page_used s' q ↔ q = p ∨ page_used s q) ∧ (Z.to_nat (page_index p) < n)%nat ∧
    mem_map s' = <[Z.to_nat (page_index p) := true]> (mem_map s) ∧
    nr_free (take n (mem_map s')) = (nr_free (take n (mem_map s)) - 1)%nat.
Proof.
  intros Hok Hfree.
  assert (nr_free (mem_map s) ≠ 0%nat) as Hne.
  { intros Hz. apply nr_free_0 in Hz. assert (nr_free (take n (mem_map s)) = 0%nat); [|lia].
    by apply nr_free_0, Forall_take. }
  destruct (get_free_page_spec s Hok ltac:(lia)) as (p & s' & E & Hok' & Hp & Hu & Hu' & _).
  pose proof E as E'. unfold get_free_page in E'.
  destruct (find_free (mem_map s) 0) as [i|] eqn:Hf; [|by apply find_free_None, nr_free_0 in Hf].
  injection E' as E1 E2. apply find_free_Some in Hf as (Hi0 & Hi & Hbefore). rewrite Z.sub_0_r in Hi.
  pose proof (lookup_lt_Some _ _ _ Hi) as Hin. unfold pages_ok in Hok. rewrite Hok in Hin.
  destruct (page_index_address i ltac:(page_lia)) as [Hidx _]. rewrite E1 in Hidx.
  assert (Z.to_nat i < n)%nat as Hlt.
  { destruct (decide (Z.to_nat i < n)%nat) as [|Hge]; [done|]. exfalso.
    assert (nr_free (take n (mem_map s)) = 0%nat); [|lia]. apply nr_free_0, Forall_lookup. intros k b Hk.
    apply lookup_take_Some in Hk as [Hk Hkn]. specialize (Hbefore (Z.of_nat k) ltac:(lia)).
    rewrite Z.sub_0_r, Nat2Z.id in Hbefore. congruence. }
  exists p, s'. rewrite Hidx. repeat (split; [done|]). subst s'. cbn [mem_map]. split; [done|].
  rewrite take_insert_lt by done. apply nr_free_set. by rewrite lookup_take_lt.
Qed.

(** While there are free pages below the free page [p0], it is not handed out.  The same
    contract, with the pages below [p0] as what is available, says so to every client of
    the class. *)
Section first_fit.
Context (p0 : Z).

Definition free_below (s : pages) : nat := nr_free (take (Z.to_nat (page_index p0)) (mem_map s)).
Definition spared (s : pages) : Prop := pages_ok s ∧ mem_map s !! Z.to_nat (page_index p0) = Some false.

Lemma get_free_page_below s :
  spared s → (0 < free_below s)%nat →
  ∃ p s', get_free_page s = Ret p s' ∧ spared s' ∧ page_ok p ∧ ¬ page_used s p ∧
    (∀ q, page_used s' q ↔ q = p ∨ page_used s q) ∧ free_below s' = (free_below s - 1)%nat.
Proof.
  intros [Hok H0] Hfree. destruct (get_free_page_low _ s Hok Hfree) as (p & s' & E & H1 & H2 & H3 & H4 & Hlt & Hm & H5).
  exists p, s'. split; [done|]. split; [split; [done|]|done]. rewrite Hm, list_lookup_insert_ne by lia. done.
Qed.

Program Definition below_allocator : PageAllocator pages get_free_page := {|
    pa_ok := spared; pa_used := page_used; pa_avail := free_below;
  |}.
  Next Obligation. exact get_free_page_below. Qed.
End first_fit.

(** The array has a byte for TOTAL_MEMORY / PAGE_SIZE pages, but the first is the one at
    LOW_MEMORY: the last pages lie past the end of memory, which paging_init leaves
    unmapped.  What the kernel can touch with the MMU on is the pages before them. *)
Definition MAPPED_PAGES : nat := Z.to_nat ((TOTAL_MEMORY - LOW_MEMORY) / PAGE_SIZE).
Definition nr_mapped (s : pages) : nat := nr_free (take MAPPED_PAGES (mem_map s)).

Lemma MAPPED_PAGES_eq : Z.of_nat MAPPED_PAGES = 130048.
Proof. unfold MAPPED_PAGES. rewrite Z2Nat.id; [done|by vm_compute]. Qed.

Lemma page_mapped p : page_ok p → p < TOTAL_MEMORY ↔ (Z.to_nat (page_index p) < MAPPED_PAGES)%nat.
Proof. intros Hp. destruct (page_address_index p Hp) as [E Hr]. pose proof MAPPED_PAGES_eq. page_lia. Qed.

Lemma get_free_page_mapped s :
  pages_ok s → (0 < nr_mapped s)%nat →
  ∃ p s', get_free_page s = Ret p s' ∧ pages_ok s' ∧ page_ok p ∧ p < TOTAL_MEMORY ∧ ¬ page_used s p ∧
    (∀ q, page_used s' q ↔ q = p ∨ page_used s q) ∧ nr_mapped s' = (nr_mapped s - 1)%nat.
Proof.
  intros Hok Hfree. destruct (get_free_page_low _ s Hok Hfree) as (p & s' & E & H1 & H2 & H3 & H4 & Hlt & _ & H5).
  exists p, s'. repeat (split; [done|]). split; [by apply page_mapped|done].
Qed.

Lemma nr_mapped_free s : (nr_mapped s ≤ nr_free (mem_map s))%nat.
Proof.
  unfold nr_mapped, nr_free. rewrite <-(take_drop MAPPED_PAGES (mem_map s)) at 2.
  rewrite list.filter_app, length_app. lia.
Qed.

(** When only those past the end of memory are left, one of them is handed out. *)
Lemma get_free_page_past s :
  pages_ok s → nr_mapped s = 0%nat → nr_free (mem_map s) ≠ 0%nat →
  ∃ p s', get_free_page s = Ret p s' ∧ page_ok p ∧ TOTAL_MEMORY ≤ p.
Proof.
  intros Hok H0 Hne. destruct (get_free_page_spec s Hok ltac:(lia)) as (p & s' & E & _ & Hp & Hu & _).
  exists p, s'. split; [done|]. split; [done|]. apply Z.le_ngt. intros Hlt. apply Hu. split; [done|].
  apply page_mapped in Hlt; [|done]. destruct (page_address_index p Hp) as [_ Hr].
  unfold pages_ok in Hok. destruct (lookup_lt_is_Some_2 (mem_map s) (Z.to_nat (page_index p))) as [b Hb]; [page_lia|].
  apply nr_free_0 in H0. rewrite Forall_lookup in H0. rewrite (H0 (Z.to_nat (page_index p)) b); [done|].
  by rewrite lookup_take_lt.
Qed.

(** [n] more pages can be asked for without getting one past the end of memory: there are
    as many mapped ones, or no page at all. *)
Definition supply (n : nat) (s : pages) : Prop := (n ≤ nr_mapped s)%nat ∨ nr_free (mem_map s) = 0%nat.

Lemma supply_less n m s : supply n s → (m ≤ n)%nat → supply m s.
Proof. intros [H|H] Hm; [left; lia|by right]. Qed.

(** An allocation takes one of them. *)
Lemma get_free_page_supply n s :
  pages_ok s → supply (S n) s →
  ∃ p s', get_free_page s = Ret p s' ∧ pages_ok s' ∧ (∀ q, page_used s q → page_used s' q) ∧ supply n s' ∧
          (p = 0 ∧ s' = s ∨ page_ok p ∧ p < TOTAL_MEMORY).
Proof.
  intros Hok Hs. destruct (decide (nr_free (mem_map s) = 0%nat)) as [H0|H0].
  { exists 0, s. split; [by apply get_free_page_none|]. do 2 (split; [done|]). split; [by right|by left]. }
  destruct Hs as [Hs|]; [|done]. destruct (get_free_page_mapped s Hok ltac:(lia)) as (p & s' & E & H1 & H2 & H3 & _ & H4 & H5).
  exists p, s'. split; [done|]. split; [done|]. split; [intros q Hq; apply H4; by right|]. split; [left; lia|by right].
Qed.

(** The contract with the mapped pages as what is available: what the boot leaves of them. *)
Program Definition mapped_allocator : PageAllocator pages get_free_page := {|
    pa_ok := pages_ok; pa_used := page_used; pa_avail := nr_mapped;
  |}.
  Next Obligation.
    intros s Hok Hfree. destruct (get_free_page_mapped s Hok Hfree) as (p & s' & E & H1 & H2 & _ & H).
    by exists p, s'.
  Qed.

Lemma free_page_restores s p s' :
  pages_ok s → get_free_page s = Ret p s' → p ≠ 0 → free_page p s' = Ret tt s.
Proof.
  intros Hok Hg Hp. unfold get_free_page in Hg.
  destruct (find_free (mem_map s) 0) as [i|] eqn:Hf; [|congruence].
  apply find_free_Some in Hf as (Hi0 & Hi & _). rewrite Z.sub_0_r in Hi.
  pose proof (lookup_lt_Some _ _ _ Hi) as Hlt. unfold pages_ok in Hok.
  injection Hg as <- <-. unfold free_page; cbn [mem_map phy_start_address].
  rewrite length_insert, Hok. rewrite Hok in Hlt.
  replace (LOW_MEMORY + i * PAGE_SIZE - LOW_MEMORY) with (i * PAGE_SIZE) by lia.
  rewrite u64_id, Z.div_mul by page_lia.
  destruct (Z.ltb_spec i (Z.of_nat (Z.to_nat NR_PAGES))); [|page_lia].
  rewrite list_insert_insert_eq, list_insert_id by done. by destruct s.
Qed.

(** ** Allocation sequences *)

(** [n] calls of get_free_page and the state they leave. *)
Fixpoint alloc_n (n : nat) : M pages unit :=
  match n with
  | O => skip
  | S n => alloc_n n ;; get_free_page ;; skip
  end.

(** The state after the first [n] pages were handed out. *)
Definition first_used (n : nat) : pages :=
  Pages (replicate n true ++ replicate (Z.to_nat NR_PAGES - n) false) 0.

Lemma find_free_first n m i :
  find_free (replicate n true ++ replicate (S m) false) i = Some (i + Z.of_nat n).
Proof.
  revert i; induction n as [|n IH]; intros i; cbn [replicate app find_free].
  - by rewrite Z.add_0_r.
  - rewrite IH. f_equal. lia.
Qed.

Lemma insert_first n m :
  <[n := true]> (replicate n true ++ replicate (S m) false) = replicate (S n) true ++ replicate m false.
Proof. induction n as [|n IH]; [done|]. cbn [replicate app].
  change (<[S n:=true]> (true :: ?l)) with (true :: <[n:=true]> l). f_equal. exact IH. Qed.

Lemma get_free_page_first n :
  Z.of_nat n < NR_PAGES →
  get_free_page (first_used n) = Ret (LOW_MEMORY + Z.of_nat n * PAGE_SIZE) (first_used (S n)).
Proof.
  intros Hn. unfold get_free_page, first_used. cbn [mem_map phy_start_address].
  replace (Z.to_nat NR_PAGES - n)%nat with (S (Z.to_nat NR_PAGES - S n)) by page_lia.
  rewrite find_free_first, Z.add_0_l, Nat2Z.id, insert_first. reflexivity.
Qed.

Lemma alloc_n_boot n :
  Z.of_nat n ≤ NR_PAGES → alloc_n n pages_boot = Ret tt (first_used n).
Proof.
  induction n as [|n IH]; intros Hn.
  { cbn [alloc_n]. unfold skip, mret, M_ret, pages_boot, first_used.
    rewrite Nat.sub_0_r. change (replicate 0 true) with (@nil bool). rewrite app_nil_l. reflexivity. }
  cbn [alloc_n]. rewrite (bind_eq _ _ _ _ _ (IH ltac:(lia))).
  by rewrite (bind_eq _ _ _ _ _ (get_free_page_first n ltac:(lia))).
Qed.

Lemma nr_free_replicate m : nr_free (replicate m false) = m.
Proof.
  unfold nr_free. induction m as [|m IH]; [done|].
  cbn [replicate]. rewrite filter_cons_True by done. cbn [length]. by rewrite IH.
Qed.

Lemma first_used_free : (0 < nr_free (mem_map pages_boot))%nat.
Proof. unfold pages_boot; cbn [mem_map]. rewrite nr_free_replicate. page_lia. Qed.

Lemma nr_mapped_boot : Z.of_nat (nr_mapped pages_boot) = 130048.
Proof.
  unfold nr_mapped, pages_boot; cbn [mem_map]. rewrite take_replicate, nr_free_replicate.
  pose proof MAPPED_PAGES_eq. page_lia.
Qed.

Lemma first_used_mapped n k : Z.of_nat (n + k) ≤ 130048 → (k ≤ nr_mapped (first_used n))%nat.
Proof.
  intros Hn. pose proof MAPPED_PAGES_eq. unfold nr_mapped, first_used. cbn [mem_map].
  rewrite take_app, take_replicate, length_replicate, take_replicate. unfold nr_free. rewrite list.filter_app, length_app.
  rewrite (Nat.min_l (MAPPED_PAGES - n)) by page_lia. fold (nr_free (replicate (MAPPED_PAGES - n) false)).
  rewrite nr_free_replicate. lia.
Qed.

(** ** mem_init *)

Lemma PAGE_ALIGN_up a :
  0 ≤ a → a + PAGE_SIZE < 2 ^ 64 → PAGE_ALIGN a = (a + PAGE_SIZE - 1) / PAGE_SIZE * PAGE_SIZE.
Proof.
  intros Ha Hb. unfold PAGE_ALIGN.
  rewrite (u64_id (a + PAGE_SIZE)), u64_id by page_lia.
  change PAGE_MASK with (Z.lnot (2 ^ 12 - 1)). by rewrite land_mask_down by page_lia.
Qed.

Section mem_init_loop.
Context {S : Type}.

Lemma mem_init_count n (k start end_mem nr : Z) fuel (s : S) :
  end_mem = start + k * PAGE_SIZE → n = Z.to_nat k → 0 ≤ k → 0 ≤ start → start + k * PAGE_SIZE < 2 ^ 64 → 0 ≤ nr → nr + k < 2 ^ 64 →
  (n < fuel)%nat →
  loop fuel (λ '(nr_free_pages, start_mem),
      if start_mem <? end_mem
      then mret (inl (u64 (nr_free_pages + 1), u64 (start_mem + PAGE_SIZE)))
      else mret (inr nr_free_pages)) (nr, start) s = Ret (nr + k) s.
Proof.
  intros ->. revert k start nr fuel.
  induction n as [|n IH]; intros k start nr fuel Hn Hk H0 H64 Hnr Hnr' Hf.
  - destruct fuel; [lia|]. replace k with 0 by lia. apply loop_done.
    rewrite Z.mul_0_l, !Z.add_0_r, Z.ltb_irrefl. done.
  - destruct fuel as [|fuel]; [lia|].
    rewrite (loop_more fuel _ _ (nr + 1, start + PAGE_SIZE) s s).
    + replace (start + k * PAGE_SIZE) with (start + PAGE_SIZE + (k - 1) * PAGE_SIZE) by lia.
      replace (nr + k) with (nr + 1 + (k - 1)) by lia. apply IH; page_lia.
    + replace (start <? start + k * PAGE_SIZE) with true by page_lia.
      by rewrite !u64_id by page_lia.
Qed.
End mem_init_loop.

(** ** Properties *)

(** C21 (safety): while a page is free, get_free_page returns a page-aligned
    address of the managed range that was not in use, marks it used and
    changes the status of no other page; when none is free it returns 0 and
    changes nothing. *)
Theorem get_free_page_correct s :
  pages_ok s →
  match get_free_page s with
  | Ret p s' =>
      pages_ok s' ∧
      if decide (nr_free (mem_map s) = 0%nat) then p = 0 ∧ s' = s
      else p mod PAGE_SIZE = 0 ∧ LOW_MEMORY ≤ p < LOW_MEMORY + TOTAL_MEMORY ∧
           ¬ page_used s p ∧ (∀ q, page_used s' q ↔ q = p ∨ page_used s q) ∧
           nr_free (mem_map s') = (nr_free (mem_map s) - 1)%nat
  | _ => False
  end.
Proof.
  intros Hok. case_decide as H0.
  - rewrite (get_free_page_none s H0). done.
  - destruct (get_free_page_spec s Hok ltac:(lia)) as (p & s' & -> & Hok' & [Hm Hr] & H).
    split; [done|]. split; [done|]. split; [lia|]. done.
Qed.

Lemma pages_boot_ok : pages_ok pages_boot.
Proof. unfold pages_ok, pages_boot; cbn [mem_map]. apply length_replicate. Qed.

Lemma get_free_page_correct_witness :
  pages_ok pages_boot ∧
  match get_free_page pages_boot with
  | Ret p s' => pages_ok s' ∧
      if decide (nr_free (mem_map pages_boot) = 0%nat) then p = 0 ∧ s' = pages_boot
      else p mod PAGE_SIZE = 0 ∧ LOW_MEMORY ≤ p < LOW_MEMORY + TOTAL_MEMORY ∧
           ¬ page_used pages_boot p ∧ (∀ q, page_used s' q ↔ q = p ∨ page_used pages_boot q) ∧
           nr_free (mem_map s') = (nr_free (mem_map pages_boot) - 1)%nat
  | _ => False
  end.
Proof. split; [exact pages_boot_ok|exact (get_free_page_correct pages_boot pages_boot_ok)]. Defined.

(** Freeing the page get_free_page just returned restores the
    allocator's state exactly. *)
Theorem free_page_undoes_alloc s p s' :
  pages_ok s → get_free_page s = Ret p s' → p ≠ 0 → free_page p s' = Ret tt s.
Proof. apply free_page_restores. Qed.

Lemma first_used_ok n : (Z.of_nat n <=? NR_PAGES) = true → pages_ok (first_used n).
Proof.
  intros Hn. unfold pages_ok, first_used; cbn [mem_map].
  rewrite length_app, !length_replicate. page_lia.
Qed.

Lemma free_page_undoes_alloc_witness : free_page LOW_MEMORY (first_used 1) = Ret tt (first_used 0).
Proof.
  apply (free_page_undoes_alloc (first_used 0)); [| |discriminate].
  - exact (first_used_ok 0 eq_refl).
  - exact (get_free_page_first 0 eq_refl).
Defined.

(** From boot, the allocator hands out the pages from LOW_MEMORY
    upwards in order, one after the other; because its map has an entry for
    every page of TOTAL_MEMORY but starts LOW_MEMORY above zero, its last 1024
    pages lie at and beyond the end of memory. *)
Theorem boot_allocation_order n :
  Z.of_nat n < NR_PAGES →
  ∃ s s', alloc_n n pages_boot = Ret tt s ∧
          get_free_page s = Ret (LOW_MEMORY + Z.of_nat n * PAGE_SIZE) s' ∧
          (NR_PAGES - 1024 ≤ Z.of_nat n ↔ TOTAL_MEMORY ≤ LOW_MEMORY + Z.of_nat n * PAGE_SIZE).
Proof.
  intros Hn. exists (first_used n), (first_used (S n)).
  split; [apply alloc_n_boot; lia|]. split; [by apply get_free_page_first|page_lia].
Qed.

Lemma boot_allocation_order_witness :
  ∃ s s', alloc_n 2 pages_boot = Ret tt s ∧
          get_free_page s = Ret (LOW_MEMORY + Z.of_nat 2 * PAGE_SIZE) s' ∧
          (NR_PAGES - 1024 ≤ Z.of_nat 2 ↔ TOTAL_MEMORY ≤ LOW_MEMORY + Z.of_nat 2 * PAGE_SIZE).
Proof. apply (boot_allocation_order 2). reflexivity. Defined.

Lemma mem_init_ok {C} `{!Console C} start_mem end_mem s (c : C) :
  0 ≤ start_mem → start_mem + PAGE_SIZE < 2 ^ 64 → 0 ≤ end_mem < 2 ^ 64 - PAGE_SIZE →
  PAGE_ALIGN start_mem ≤ end_mem →
  let first := (start_mem + PAGE_SIZE - 1) / PAGE_SIZE in
  let last := end_mem / PAGE_SIZE in
  mem_init start_mem end_mem (s, c)
  = Ret tt (Pages (mem_map s) (first * PAGE_SIZE),
            console_printk ("Memory: %uKB available, %u free pages" +++ nl)
              [KInt ((last - first) * PAGE_SIZE / 1024); KInt (last - first)] c).
Proof.
  intros Hs Hs' He Hle first last. rewrite PAGE_ALIGN_up in Hle by done.
  unfold mem_init. rewrite PAGE_ALIGN_up by done.
  change PAGE_MASK with (Z.lnot (2 ^ 12 - 1)). rewrite land_mask_down by page_lia.
  change (2 ^ 12) with PAGE_SIZE. fold first last in Hle |- *. cbv zeta.
  assert (first ≤ last) as Hfl.
  { unfold last. apply Z.div_le_lower_bound; [reflexivity|]. lia. }
  assert (0 ≤ first) by (apply Z.div_pos; page_lia).
  assert (last * PAGE_SIZE ≤ end_mem) by (unfold last; rewrite Z.mul_comm; by apply Z.mul_div_le).
  unfold mbind at 1, M_bind at 1, zoom at 1. cbn [lget lput lens_fst fst snd modify mem_map].
  replace (last * PAGE_SIZE - first * PAGE_SIZE) with ((last - first) * PAGE_SIZE) by lia.
  rewrite (Z.div_mul (last - first) PAGE_SIZE), (u64_id ((last - first) * PAGE_SIZE)) by page_lia.
  rewrite (bind_eq _ _ _ _ _ (mem_init_count (Z.to_nat (last - first)) (last - first)
    (first * PAGE_SIZE) (last * PAGE_SIZE) 0
    (S (Z.to_nat (last - first + 1))) _ ltac:(lia) eq_refl ltac:(lia) ltac:(page_lia) ltac:(page_lia) ltac:(lia)
    ltac:(page_lia) ltac:(lia))).
  done.
Qed.

(** Mem_init rounds the start of memory up and its end down to
    pages, records the start, and reports the kilobytes and the number of whole
    pages between the two. *)
Theorem mem_init_counts {C} `{!Console C} start_mem end_mem s (c : C) :
  0 ≤ start_mem → start_mem + PAGE_SIZE < 2 ^ 64 → 0 ≤ end_mem < 2 ^ 64 - PAGE_SIZE →
  PAGE_ALIGN start_mem ≤ end_mem →
  let first := (start_mem + PAGE_SIZE - 1) / PAGE_SIZE in
  let last := end_mem / PAGE_SIZE in
  mem_init start_mem end_mem (s, c)
  = Ret tt (Pages (mem_map s) (first * PAGE_SIZE),
            console_printk ("Memory: %uKB available, %u free pages" +++ nl)
              [KInt ((last - first) * PAGE_SIZE / 1024); KInt (last - first)] c).
Proof. apply mem_init_ok. Qed.

Lemma mem_init_counts_witness :
  mem_init (C:=list (string * list karg)) (Console0:=log_console) 0x85123 0x88000 (pages_boot, [])
  = Ret tt (Pages (mem_map pages_boot) 0x86000,
            [("Memory: %uKB available, %u free pages" +++ nl, [KInt 8; KInt 2])]).
Proof.
  rewrite (mem_init_counts (Console0:=log_console) 0x85123 0x88000); [reflexivity|..]; vm_compute; intuition congruence.
Defined.

(** Free_page does not check its argument: an address below
    LOW_MEMORY, whose offset wraps around, or past the managed range indexes
    the map out of bounds. *)
Theorem free_page_out_of_range s p :
  pages_ok s → 0 ≤ p < 2 ^ 64 → p < LOW_MEMORY ∨ LOW_MEMORY + TOTAL_MEMORY ≤ p →
  ∃ i, free_page p s = Fault (IndexRange i) ∧ NR_PAGES ≤ i.
Proof.
  intros Hok Hp Hr. eexists. unfold free_page. unfold pages_ok in Hok. rewrite Hok.
  assert (NR_PAGES ≤ u64 (p - LOW_MEMORY) / PAGE_SIZE) as Hi.
  { apply Z.div_le_lower_bound; [reflexivity|]. destruct Hr as [Hr|Hr].
    - unfold u64. rewrite <-(Z.mod_add _ 1) by lia. rewrite Z.mod_small; page_lia.
    - rewrite u64_id; page_lia. }
  destruct (Z.ltb_spec (u64 (p - LOW_MEMORY) / PAGE_SIZE) (Z.of_nat (Z.to_nat NR_PAGES)));
    [page_lia|]. done.
Qed.

Lemma free_page_out_of_range_witness :
  ∃ i, free_page 0x1000 pages_boot = Fault (IndexRange i) ∧ NR_PAGES ≤ i.
Proof. apply free_page_out_of_range; [exact pages_boot_ok|lia|left; reflexivity]. Defined.
