(* ===== verification/KList.v ===== *)
(** * include/list.h: the circular doubly linked list

    A heap maps the address of each [struct list_head] to its two links.  The
    operations are the inline functions of the header; [ring h hd xs] is the
    abstract state they implement: the list headed by [hd] holds the nodes [xs]
    in this order. *)

From S2P Require Import Prelude.

(** ** Data *)

(** [include/list.h:5-7] list_head *)
Record list_head : Type := ListHead { next : Z; prev : Z }.

#[export] Instance list_head_eq_dec : EqDecision list_head.
Proof. solve_decision. Defined.

Abbreviation heap := (gmap Z list_head).

(** [include/list.h:9-10] LIST_POISON1 *)
Definition LIST_POISON1 : Z := 0x00100100 + 0xdead000000000000.
(** [include/list.h:11-11] LIST_POISON2 *)
Definition LIST_POISON2 : Z := 0x00200200 + 0xdead000000000000.

(** Field accesses through a pointer. *)
Definition load_next (a : Z) : M heap Z := λ h,
  match h !! a with Some n => Ret (next n) h | None => Fault (WildAddr a) end.
Definition load_prev (a : Z) : M heap Z := λ h,
  match h !! a with Some n => Ret (prev n) h | None => Fault (WildAddr a) end.
Definition store_next (a v : Z) : M heap unit := λ h,
  match h !! a with
  | Some n => Ret tt (<[a := ListHead v (prev n)]> h)
  | None => Fault (WildAddr a)
  end.
Definition store_prev (a v : Z) : M heap unit := λ h,
  match h !! a with
  | Some n => Ret tt (<[a := ListHead (next n) v]> h)
  | None => Fault (WildAddr a)
  end.

(** ** The code *)

(** [include/list.h:18-22] INIT_LIST_HEAD *)
Definition INIT_LIST_HEAD (list : Z) : M heap unit :=
  store_next list list ;; store_prev list list.

(** [include/list.h:24-31] __list_add *)
Definition __list_add (new prev next : Z) : M heap unit :=
  store_prev next new ;;
  store_next new next ;;
  store_prev new prev ;;
  store_next prev new.

(** [include/list.h:33-36] list_add *)
Definition list_add (new head : Z) : M heap unit :=
  n ← load_next head; __list_add new head n.

(** [include/list.h:38-41] list_add_tail *)
Definition list_add_tail (new head : Z) : M heap unit :=
  p ← load_prev head; __list_add new p head.

(** [include/list.h:43-48] __list_del *)
Definition __list_del (prev next : Z) : M heap unit :=
  store_prev next prev ;; store_next prev next.

(** [include/list.h:50-55] list_del *)
Definition list_del (entry : Z) : M heap unit :=
  p ← load_prev entry;
  n ← load_next entry;
  __list_del p n ;;
  store_next entry LIST_POISON1 ;;
  store_prev entry LIST_POISON2.

(** [include/list.h:57-60] list_empty *)
Definition list_empty (head : Z) : M heap bool :=
  n ← load_next head; mret (n =? head).

(** [include/list.h:62-63] list_entry: the object [member] bytes before the node *)
Definition list_entry (ptr member : Z) : Z := u64 (ptr - member).

(** [include/list.h:65-66] list_for_each, with a body that threads an
    accumulator [acc] (the caller's local variables). *)
Definition list_for_each {S A} `{!Lens S heap} (fuel : nat) (head : Z) (body : A → Z → M S A) (acc : A) : M S A :=
  first ← zoom (load_next head);
  loop fuel (λ '(acc, pos),
    if pos =? head then mret (inr acc)
    else acc ← body acc pos; pos ← zoom (load_next pos); mret (inl (acc, pos))) (acc, first).

(** ** Abstract state *)

Definition next_of (h : heap) (a : Z) : option Z := next <$> h !! a.
Definition prev_of (h : heap) (a : Z) : option Z := prev <$> h !! a.

(** [a] and [b] are linked in both directions. *)
Definition edge (h : heap) (a b : Z) : Prop := next_of h a = Some b ∧ prev_of h b = Some a.

(** The links from [a] through the nodes [l] to [b]. *)
Fixpoint seg (h : heap) (a : Z) (l : list Z) (b : Z) : Prop :=
  match l with
  | [] => edge h a b
  | x :: l => edge h a x ∧ seg h x l b
  end.

Definition ring (h : heap) (hd : Z) (xs : list Z) : Prop := NoDup (hd :: xs) ∧ seg h hd xs hd.

(** ** Lemmas *)

Lemma list_head_eta (n : list_head) : ListHead (next n) (prev n) = n.
Proof. by destruct n. Qed.

Lemma heap_ext_links (h h' : heap) a :
  next_of h' a = next_of h a → prev_of h' a = prev_of h a → h' !! a = h !! a.
Proof.
  unfold next_of, prev_of. destruct (h' !! a) as [[]|], (h !! a) as [[]|]; cbn; congruence.
Qed.

Lemma seg_ext h h' a l b :
  (∀ x, x ∈ a :: l → next_of h' x = next_of h x) →
  (∀ x, x ∈ l ++ [b] → prev_of h' x = prev_of h x) →
  seg h a l b → seg h' a l b.
Proof.
  revert a; induction l as [|x l IH]; intros a Hn Hp; cbn; unfold edge.
  - intros [H1 H2]. rewrite Hn, Hp by set_solver. done.
  - intros [[H1 H2] H]. rewrite Hn, Hp by set_solver. split; [done|].
    apply IH; [set_solver..|done].
Qed.

Lemma seg_app h a l1 x l2 b : seg h a (l1 ++ x :: l2) b ↔ seg h a l1 x ∧ seg h x l2 b.
Proof. revert a; induction l1 as [|y l1 IH]; intros a; cbn; [done|]. rewrite IH. tauto. Qed.

Lemma edge_next h a b : edge h a b → load_next a h = Ret b h.
Proof. unfold edge, next_of, load_next. intros [H _]. destruct (h !! a); naive_solver. Qed.
Lemma edge_prev h a b : edge h a b → load_prev b h = Ret a h.
Proof. unfold edge, prev_of, load_prev. intros [_ H]. destruct (h !! b); naive_solver. Qed.

(** The first and the last link of a segment. *)
Definition first_of (l : list Z) (b : Z) : Z := match l with [] => b | x :: _ => x end.
Definition last_of (a : Z) (l : list Z) : Z := List.last l a.

Lemma seg_first h a l b : seg h a l b → edge h a (first_of l b).
Proof. destruct l; cbn; tauto. Qed.
Lemma seg_last h a l b : seg h a l b → edge h (last_of a l) b.
Proof.
  destruct l as [|x l _] using rev_ind; [done|]. rewrite seg_app.
  unfold last_of. rewrite List.last_last. cbn. tauto.
Qed.

(** A ring's nodes are all allocated. *)
Lemma seg_alloc h a l b x : seg h a l b → x ∈ a :: l ++ [b] → is_Some (h !! x).
Proof.
  revert a; induction l as [|y l IH]; intros a; cbn [seg app].
  - intros [Hn Hp] [->|[->|[]%elem_of_nil]%elem_of_cons]%elem_of_cons.
    + unfold next_of in Hn. by destruct (h !! a).
    + unfold prev_of in Hp. by destruct (h !! b).
  - intros [[Hn _] H] [->|Hx]%elem_of_cons.
    + unfold next_of in Hn. by destruct (h !! a).
    + by apply (IH y).
Qed.

Lemma ring_alloc h hd xs x : ring h hd xs → x ∈ hd :: xs → is_Some (h !! x).
Proof. intros [_ H] Hx. eapply seg_alloc; [done|]. set_solver. Qed.

(** Rings in different places of one heap do not interfere. *)
Lemma ring_frame h h' hd xs :
  (∀ x, x ∈ hd :: xs → h' !! x = h !! x) → ring h hd xs → ring h' hd xs.
Proof.
  intros Hf [Hnd H]. split; [done|]. eapply seg_ext; [..|done]; intros x Hx;
    unfold next_of, prev_of; rewrite Hf by set_solver; done.
Qed.

Lemma edge_alloc h a b : edge h a b → a ∈ dom h ∧ b ∈ dom h.
Proof. intros H. split; apply elem_of_dom, (seg_alloc h a [] b); [done|set_solver|done|set_solver]. Qed.

(** What the primitive stores do to the links. *)
Lemma store_next_spec h a v :
  is_Some (h !! a) → ∃ h', store_next a v h = Ret tt h' ∧
    (∀ x, next_of h' x = if decide (x = a) then Some v else next_of h x) ∧
    (∀ x, prev_of h' x = prev_of h x) ∧ dom h' = dom h.
Proof.
  intros [n Hn]. unfold store_next. rewrite Hn. eexists; split; [done|].
  unfold next_of, prev_of. split; [|split].
  - intros x. case_decide; subst; [by rewrite lookup_insert_eq|by rewrite lookup_insert_ne].
  - intros x. destruct (decide (x = a)) as [->|]; [by rewrite lookup_insert_eq, Hn|by rewrite lookup_insert_ne].
  - apply dom_insert_lookup_L. by rewrite Hn.
Qed.

Lemma store_prev_spec h a v :
  is_Some (h !! a) → ∃ h', store_prev a v h = Ret tt h' ∧
    (∀ x, prev_of h' x = if decide (x = a) then Some v else prev_of h x) ∧
    (∀ x, next_of h' x = next_of h x) ∧ dom h' = dom h.
Proof.
  intros [n Hn]. unfold store_prev. rewrite Hn. eexists; split; [done|].
  unfold next_of, prev_of. split; [|split].
  - intros x. case_decide; subst; [by rewrite lookup_insert_eq|by rewrite lookup_insert_ne].
  - intros x. destruct (decide (x = a)) as [->|]; [by rewrite lookup_insert_eq, Hn|by rewrite lookup_insert_ne].
  - apply dom_insert_lookup_L. by rewrite Hn.
Qed.

(** Run one store whose target is allocated and keep what it did. *)
Ltac store_step :=
  match goal with
  | |- context [(store_next ?a ?v ≫= _) ?h] =>
      let h' := fresh "h" in let E := fresh "E" in let N := fresh "N" in
      let P := fresh "P" in let D := fresh "D" in
      destruct (store_next_spec h a v) as (h' & E & N & P & D);
      [apply elem_of_dom; congruence|rewrite (bind_eq _ _ _ _ _ E); clear E]
  | |- context [(store_prev ?a ?v ≫= _) ?h] =>
      let h' := fresh "h" in let E := fresh "E" in let N := fresh "N" in
      let P := fresh "P" in let D := fresh "D" in
      destruct (store_prev_spec h a v) as (h' & E & P & N & D);
      [apply elem_of_dom; congruence|rewrite (bind_eq _ _ _ _ _ E); clear E]
  | |- context [store_next ?a ?v ?h] =>
      let h' := fresh "h" in let E := fresh "E" in let N := fresh "N" in
      let P := fresh "P" in let D := fresh "D" in
      destruct (store_next_spec h a v) as (h' & E & N & P & D);
      [apply elem_of_dom; congruence|rewrite E; clear E]
  | |- context [store_prev ?a ?v ?h] =>
      let h' := fresh "h" in let E := fresh "E" in let N := fresh "N" in
      let P := fresh "P" in let D := fresh "D" in
      destruct (store_prev_spec h a v) as (h' & E & P & N & D);
      [apply elem_of_dom; congruence|rewrite E; clear E]
  end.

(** The new links after [__list_add] and [list_del]. *)
Lemma __list_add_spec h new p n :
  is_Some (h !! new) → is_Some (h !! p) → is_Some (h !! n) → new ≠ p → new ≠ n →
  ∃ h', __list_add new p n h = Ret tt h' ∧
    (∀ x, next_of h' x = if decide (x = p) then Some new
                         else if decide (x = new) then Some n else next_of h x) ∧
    (∀ x, prev_of h' x = if decide (x = n) then Some new
                         else if decide (x = new) then Some p else prev_of h x) ∧
    dom h' = dom h.
Proof.
  rewrite <-!elem_of_dom. intros Hnew Hp Hn Hnp Hnn. unfold __list_add.
  repeat store_step. eexists; split; [done|]. split; [|split; [|congruence]].
  - intros x. rewrite N2, N1, N0, N. repeat case_decide; congruence.
  - intros x. rewrite P2, P1, P0, P. repeat case_decide; congruence.
Qed.

Lemma list_del_spec h p e n :
  edge h p e → edge h e n → p ≠ e → n ≠ e →
  ∃ h', list_del e h = Ret tt h' ∧
    (∀ x, next_of h' x = if decide (x = e) then Some LIST_POISON1
                         else if decide (x = p) then Some n else next_of h x) ∧
    (∀ x, prev_of h' x = if decide (x = e) then Some LIST_POISON2
                         else if decide (x = n) then Some p else prev_of h x) ∧
    dom h' = dom h.
Proof.
  intros Hp Hn Hpe Hne. unfold list_del, __list_del.
  rewrite (bind_eq _ _ _ _ _ (edge_prev _ _ _ Hp)), (bind_eq _ _ _ _ _ (edge_next _ _ _ Hn)).
  destruct (edge_alloc h p e Hp), (edge_alloc h e n Hn).
  rewrite (bind_assoc (store_prev n p) _ _ h). repeat store_step.
  eexists; split; [done|]. split; [|split; [|congruence]].
  - intros x. rewrite N2, N1, N0, N. repeat case_decide; congruence.
  - intros x. rewrite P2, P1, P0, P. repeat case_decide; congruence.
Qed.

(** A segment whose last link, or whose first link, was redirected. *)
Lemma last_of_cons a x l : last_of a (x :: l) = last_of x l.
Proof. unfold last_of. revert x; induction l as [|y l IH]; intros x; [done|]. cbn in *. by destruct l. Qed.

Lemma last_of_in a l : last_of a l ∈ a :: l.
Proof.
  revert a; induction l as [|x l IH]; intros a; [set_solver|].
  rewrite last_of_cons. specialize (IH x). set_solver.
Qed.

Lemma first_of_in l b : first_of l b ∈ l ++ [b].
Proof. destruct l; set_solver. Qed.

Lemma seg_split h a l1 l2 b :
  seg h a (l1 ++ l2) b ↔ seg h a l1 (first_of l2 b) ∧ seg h (last_of a l1) l2 b.
Proof.
  revert a; induction l1 as [|x l1 IH]; intros a.
  - cbn [app]. split; [intros H; split; [by apply seg_first in H|done]|by intros [_ H]].
  - rewrite last_of_cons. cbn. rewrite IH. tauto.
Qed.

Lemma seg_last_ext h h' a l b b' :
  (∀ x, x ∈ a :: l → x ≠ last_of a l → next_of h' x = next_of h x) →
  (∀ x, x ∈ l → prev_of h' x = prev_of h x) →
  edge h' (last_of a l) b' → NoDup (a :: l) → seg h a l b → seg h' a l b'.
Proof.
  revert a; induction l as [|x l IH]; intros a Hn Hp He Hnd H; [done|].
  rewrite last_of_cons in *. apply list.NoDup_cons in Hnd as [Ha Hnd]. cbn in H. destruct H as [[H1 H2] H].
  pose proof (last_of_in x l). split.
  - unfold edge. rewrite Hn, Hp by set_solver. done.
  - apply IH; set_solver.
Qed.

Lemma seg_first_ext h h' a a' l b :
  (∀ x, x ∈ l → next_of h' x = next_of h x) →
  (∀ x, x ∈ l ++ [b] → x ≠ first_of l b → prev_of h' x = prev_of h x) →
  edge h' a' (first_of l b) → NoDup (l ++ [b]) → seg h a l b → seg h' a' l b.
Proof.
  destruct l as [|x l]; intros Hn Hp He Hnd H; [done|].
  cbn in *. split; [done|]. apply list.NoDup_cons in Hnd as [Hx Hnd].
  apply (seg_ext h); [done| |tauto]. intros y Hy. apply Hp; set_solver.
Qed.

(** Inserting a node between two neighbours, and unlinking one. *)
Lemma seg_insert h h' a l1 new l2 b :
  (∀ x, next_of h' x = if decide (x = last_of a l1) then Some new
                       else if decide (x = new) then Some (first_of l2 b) else next_of h x) →
  (∀ x, prev_of h' x = if decide (x = first_of l2 b) then Some new
                       else if decide (x = new) then Some (last_of a l1) else prev_of h x) →
  NoDup (a :: l1 ++ l2) → NoDup (l1 ++ l2 ++ [b]) → new ∉ a :: l1 ++ l2 ++ [b] →
  seg h a (l1 ++ l2) b → seg h' a (l1 ++ new :: l2) b.
Proof.
  intros HN HP Hnd1 Hnd2 Hnew H. apply seg_split in H as [H1 H2]. apply seg_app.
  pose proof (last_of_in a l1). pose proof (first_of_in l2 b).
  rewrite app_comm_cons in Hnd1. apply list.NoDup_app in Hnd1 as (Hnd1 & Hd1 & _), Hnd2 as (_ & Hd2 & Hnd2).
  split.
  - eapply seg_last_ext; [..|done|exact H1].
    + intros x Hx Hne. rewrite HN, !decide_False by set_solver. done.
    + intros x Hx. rewrite HP, !decide_False by set_solver. done.
    + split; rewrite ?HN, ?HP; [by rewrite decide_True|].
      rewrite decide_False, decide_True by set_solver. done.
  - eapply seg_first_ext; [..|done|exact H2].
    + intros x Hx. rewrite HN, !decide_False by set_solver. done.
    + intros x Hx Hne. rewrite HP, !decide_False by set_solver. done.
    + split; rewrite ?HN, ?HP; [|by rewrite decide_True].
      rewrite decide_False, decide_True by set_solver. done.
Qed.

Lemma seg_delete h h' a l1 e l2 b :
  (∀ x, x ≠ e → next_of h' x = if decide (x = last_of a l1) then Some (first_of l2 b) else next_of h x) →
  (∀ x, x ≠ e → prev_of h' x = if decide (x = first_of l2 b) then Some (last_of a l1) else prev_of h x) →
  NoDup (a :: l1 ++ l2) → NoDup (l1 ++ l2 ++ [b]) → e ∉ a :: l1 ++ l2 ++ [b] →
  seg h a (l1 ++ e :: l2) b → seg h' a (l1 ++ l2) b.
Proof.
  intros HN HP Hnd1 Hnd2 Hnew H. apply seg_app in H as [H1 H2]. apply seg_split.
  pose proof (last_of_in a l1). pose proof (first_of_in l2 b).
  rewrite app_comm_cons in Hnd1. apply list.NoDup_app in Hnd1 as (Hnd1 & Hd1 & _), Hnd2 as (_ & Hd2 & Hnd2).
  assert (edge h' (last_of a l1) (first_of l2 b)) as He.
  { split; rewrite ?HN, ?HP by set_solver; by rewrite decide_True. }
  split.
  - eapply seg_last_ext; [..|done|exact H1]; [| |done].
    + intros x Hx Hne. rewrite HN, !decide_False by set_solver. done.
    + intros x Hx. rewrite HP, !decide_False by set_solver. done.
  - eapply seg_first_ext; [..|done|exact H2]; [| |done].
    + intros x Hx. rewrite HN, !decide_False by set_solver. done.
    + intros x Hx Hne. rewrite HP, !decide_False by set_solver. done.
Qed.

(** ** The operations on rings *)

(** What is in a ring is determined by the links. *)
Lemma seg_unique h a l l' b : seg h a l b → seg h a l' b → b ∉ l → b ∉ l' → l = l'.
Proof.
  revert a l'; induction l as [|x l IH]; intros a [|y l']; cbn [seg]; [done|..].
  - intros [H1 _] [[H2 _] _] _ Hb. rewrite H1 in H2. injection H2 as <-. set_solver.
  - intros [[H1 _] _] [H2 _] Hb _. rewrite H2 in H1. injection H1 as <-. set_solver.
  - intros [[H1 _] Hl] [[H2 _] Hl'] Hb Hb'. rewrite H1 in H2. injection H2 as <-.
    f_equal. apply (IH x); [done..|set_solver|set_solver].
Qed.
Lemma ring_unique h hd xs ys : ring h hd xs → ring h hd ys → xs = ys.
Proof. intros [[H1 _]%list.NoDup_cons Hx] [[H2 _]%list.NoDup_cons Hy]. by apply (seg_unique h hd xs ys hd). Qed.

Lemma ring_nodup h hd xs : ring h hd xs → NoDup (hd :: xs) ∧ NoDup (xs ++ [hd]).
Proof.
  intros [Hnd _]. split; [done|]. rewrite (Permutation_app_comm xs [hd]). done.
Qed.

(** One insertion, at any place of the ring. *)
Lemma ring_insert h hd xs ys new :
  ring h hd (xs ++ ys) → is_Some (h !! new) → new ∉ hd :: xs ++ ys →
  ∃ h', __list_add new (last_of hd xs) (first_of ys hd) h = Ret tt h' ∧
        ring h' hd (xs ++ new :: ys) ∧ dom h' = dom h ∧
        (∀ x, x ∉ new :: hd :: xs ++ ys → h' !! x = h !! x).
Proof.
  intros Hr Hnew Hnin. destruct (ring_nodup _ _ _ Hr) as [Hnd1 Hnd2].
  pose proof (last_of_in hd xs). pose proof (first_of_in ys hd).
  destruct (__list_add_spec h new (last_of hd xs) (first_of ys hd)) as (h' & E & HN & HP & HD);
    [done|eapply ring_alloc; [done|set_solver]..|set_solver|set_solver|].
  rewrite <-app_assoc in Hnd2.
  exists h'. split; [done|]. split; [|split; [done|]].
  - split.
    + rewrite <-(Permutation_middle xs ys new), (Permutation_swap new hd (xs ++ ys)).
      by apply list.NoDup_cons.
    + eapply seg_insert; [done..| |apply Hr]. set_solver.
  - intros x Hx. apply heap_ext_links; [rewrite HN|rewrite HP]; rewrite !decide_False by set_solver; done.
Qed.

Lemma ring_list_add h hd xs new :
  ring h hd xs → is_Some (h !! new) → new ∉ hd :: xs →
  ∃ h', list_add new hd h = Ret tt h' ∧ ring h' hd (new :: xs) ∧ dom h' = dom h ∧
        (∀ x, x ∉ new :: hd :: xs → h' !! x = h !! x).
Proof.
  intros Hr Hnew Hnin. unfold list_add.
  rewrite (bind_eq _ _ _ _ _ (edge_next _ _ _ (seg_first _ _ _ _ (proj2 Hr)))).
  exact (ring_insert h hd [] xs new Hr Hnew Hnin).
Qed.

Lemma ring_list_add_tail h hd xs new :
  ring h hd xs → is_Some (h !! new) → new ∉ hd :: xs →
  ∃ h', list_add_tail new hd h = Ret tt h' ∧ ring h' hd (xs ++ [new]) ∧ dom h' = dom h ∧
        (∀ x, x ∉ new :: hd :: xs → h' !! x = h !! x).
Proof.
  intros Hr Hnew Hnin. unfold list_add_tail.
  rewrite (bind_eq _ _ _ _ _ (edge_prev _ _ _ (seg_last _ _ _ _ (proj2 Hr)))).
  rewrite <-(app_nil_r xs) in Hr, Hnin.
  destruct (ring_insert h hd xs [] new Hr Hnew Hnin) as (h' & E & H). rewrite app_nil_r in H. eauto.
Qed.

Lemma ring_list_del h hd xs e ys :
  ring h hd (xs ++ e :: ys) →
  ∃ h', list_del e h = Ret tt h' ∧ ring h' hd (xs ++ ys) ∧ dom h' = dom h ∧
        h' !! e = Some (ListHead LIST_POISON1 LIST_POISON2) ∧
        (∀ x, x ∉ e :: hd :: xs ++ ys → h' !! x = h !! x).
Proof.
  intros [Hnd Hr]. pose proof Hr as [H1 H2]%seg_app.
  pose proof (last_of_in hd xs). pose proof (first_of_in ys hd).
  rewrite <-(Permutation_middle xs ys e), (Permutation_swap e hd (xs ++ ys)) in Hnd.
  apply list.NoDup_cons in Hnd as [He Hnd].
  destruct (list_del_spec h (last_of hd xs) e (first_of ys hd)) as (h' & E & HN & HP & HD);
    [by apply seg_last|by apply seg_first|set_solver..|].
  exists h'. split; [done|]. split; [|split; [done|split]].
  - split; [done|]. eapply seg_delete; [..|exact Hr].
    + intros x Hx. by rewrite HN, decide_False.
    + intros x Hx. by rewrite HP, decide_False.
    + done.
    + rewrite app_assoc, (Permutation_app_comm (xs ++ ys) [hd]). done.
    + set_solver.
  - specialize (HN e). specialize (HP e). rewrite decide_True in HN, HP by done.
    unfold next_of, prev_of in *. destruct (h' !! e) as [[]|]; naive_solver.
  - intros x Hx. apply heap_ext_links; [rewrite HN|rewrite HP]; rewrite !decide_False by set_solver; done.
Qed.

Lemma ring_list_empty h hd xs : ring h hd xs → list_empty hd h = Ret (bool_decide (xs = [])) h.
Proof.
  intros [Hnd Hr]. unfold list_empty.
  rewrite (bind_eq _ _ _ _ _ (edge_next _ _ _ (seg_first _ _ _ _ Hr))).
  unfold mret, M_ret. f_equal. destruct xs as [|x xs]; cbn; [by rewrite Z.eqb_refl|].
  apply Z.eqb_neq. apply list.NoDup_cons in Hnd. set_solver.
Qed.

Lemma INIT_LIST_HEAD_ring h hd :
  is_Some (h !! hd) → INIT_LIST_HEAD hd h = Ret tt (<[hd := ListHead hd hd]> h) ∧
                      ring (<[hd := ListHead hd hd]> h) hd [].
Proof.
  intros [n Hn]. unfold INIT_LIST_HEAD, store_next, store_prev, mbind, M_bind. rewrite Hn.
  rewrite lookup_insert_eq. cbn. rewrite insert_insert_eq. split; [done|].
  split; [apply NoDup_singleton|]. cbn. unfold edge, next_of, prev_of. by rewrite lookup_insert_eq.
Qed.

(** A traversal whose body keeps the ring is a left fold over its nodes. *)
Lemma list_for_each_ring {S A} `{!Lens S heap} (I : list Z → A → S → Prop) h hd xs fuel
    (body : A → Z → M S A) acc s :
  ring h hd xs → lget s = h → (length xs < fuel)%nat → I [] acc s →
  (∀ done x todo acc s, xs = done ++ x :: todo → I done acc s → lget s = h →
     ∃ acc' s', body acc x s = Ret acc' s' ∧ lget s' = h ∧ I (done ++ [x]) acc' s') →
  ∃ acc' s', list_for_each fuel hd body acc s = Ret acc' s' ∧ lget s' = h ∧ I xs acc' s'.
Proof.
  intros [Hnd Hr] Hs Hf HI Hbody. unfold list_for_each.
  rewrite (bind_eq _ _ _ _ _ (zoom_eq _ _ _ _ (edge_next _ _ _ (eq_ind_r (λ h, edge h _ _)
    (seg_first _ _ _ _ Hr) Hs)))), lput_lget.
  apply list.NoDup_cons in Hnd as [Hhd _].
  assert (∀ todo done acc s fuel, xs = done ++ todo → (length todo < fuel)%nat → lget s = h →
    I done acc s → ∃ acc' s',
      loop fuel (λ '(acc, pos), if pos =? hd then mret (inr acc)
        else acc ← body acc pos; pos ← zoom (load_next pos); mret (inl (acc, pos)))
        (acc, first_of todo hd) s = Ret acc' s' ∧ lget s' = h ∧ I xs acc' s') as Hloop; cycle 1.
  { by apply (Hloop xs [] acc s fuel). }
  clear acc s Hs fuel Hf HI. induction todo as [|x todo IH]; intros done' acc s fuel Hxs Hf Hs HI;
    (destruct fuel as [|fuel]; [cbn in Hf; lia|]).
  - exists acc, s. rewrite app_nil_r in Hxs. subst done'. split; [|done].
    apply loop_done. cbn. by rewrite Z.eqb_refl.
  - destruct (Hbody done' x todo acc s Hxs HI Hs) as (acc' & s' & Hb & Hs' & HI').
    destruct (IH (done' ++ [x]) acc' s' fuel) as (acc2 & s2 & Hl & H2); [|cbn in Hf; lia|done..|].
    { by rewrite <-app_assoc. }
    exists acc2, s2. split; [|done]. rewrite <-Hl. apply loop_more. cbn [first_of].
    assert ((x =? hd) = false) as -> by (apply Z.eqb_neq; set_solver).
    rewrite (bind_eq _ _ _ _ _ Hb). rewrite Hxs in Hr. apply seg_app in Hr as [_ Hr].
    by rewrite (bind_eq _ _ _ _ _ (zoom_eq _ _ _ _ (edge_next _ _ _ (eq_ind_r (λ h, edge h _ _)
      (seg_first _ _ _ _ Hr) Hs')))), lput_lget.
Qed.

(** ** Properties *)

(** The list with the three nodes 100, 200, 300 behind the head 8. *)
Definition example_heap : heap :=
  <[8 := ListHead 100 300]> (<[100 := ListHead 200 8]> (<[200 := ListHead 300 100]>
  (<[300 := ListHead 8 200]> (<[400 := ListHead 0 0]> ∅)))).

Lemma example_ring : ring example_heap 8 ([100; 200] ++ [300]).
Proof.
  split; [by_decision|]. cbn. unfold edge. repeat split.
Qed.

(** On a well-formed list, list_add puts the new node right
    after the head and list_add_tail right before it; both leave a well-formed
    list and every node outside it alone. *)
Theorem list_add_inserts h hd xs new :
  ring h hd xs → is_Some (h !! new) → new ∉ hd :: xs →
  (∃ h', list_add new hd h = Ret tt h' ∧ ring h' hd (new :: xs) ∧
         ∀ x, x ∉ new :: hd :: xs → h' !! x = h !! x) ∧
  (∃ h', list_add_tail new hd h = Ret tt h' ∧ ring h' hd (xs ++ [new]) ∧
         ∀ x, x ∉ new :: hd :: xs → h' !! x = h !! x).
Proof.
  intros Hr Hnew Hin.
  destruct (ring_list_add h hd xs new) as (h1 & ? & ? & _ & ?); [done..|].
  destruct (ring_list_add_tail h hd xs new) as (h2 & ? & ? & _ & ?); [done..|]. eauto 10.
Qed.

Lemma list_add_inserts_witness :
  (∃ h', list_add 400 8 example_heap = Ret tt h' ∧ ring h' 8 [400; 100; 200; 300] ∧
         ∀ x, x ∉ [400; 8; 100; 200; 300] → h' !! x = example_heap !! x) ∧
  (∃ h', list_add_tail 400 8 example_heap = Ret tt h' ∧ ring h' 8 ([100; 200; 300] ++ [400]) ∧
         ∀ x, x ∉ [400; 8; 100; 200; 300] → h' !! x = example_heap !! x).
Proof. apply (list_add_inserts example_heap 8 [100; 200; 300] 400 example_ring); [eauto|by_decision]. Defined.

(** List_del unlinks exactly its node: the rest of the list
    keeps its order, the node is left with both poison pointers, and following
    its next pointer afterwards faults at LIST_POISON1. *)
Theorem list_del_unlinks h hd xs e ys :
  ring h hd (xs ++ e :: ys) → h !! LIST_POISON1 = None →
  ∃ h', list_del e h = Ret tt h' ∧ ring h' hd (xs ++ ys) ∧
        (∀ x, x ∉ e :: hd :: xs ++ ys → h' !! x = h !! x) ∧
        (load_next e ≫= load_next) h' = Fault (WildAddr LIST_POISON1).
Proof.
  intros Hr Hp. destruct (ring_list_del h hd xs e ys Hr) as (h' & ? & ? & HD & He & ?).
  exists h'. repeat (split; [done|]). unfold mbind, M_bind, load_next. rewrite He. cbn [next].
  assert (h' !! LIST_POISON1 = None) as ->; [|done].
  apply not_elem_of_dom. rewrite HD. by apply not_elem_of_dom.
Qed.

Lemma list_del_unlinks_witness :
  ∃ h', list_del 200 example_heap = Ret tt h' ∧ ring h' 8 ([100] ++ [300]) ∧
        (∀ x, x ∉ 200 :: 8 :: [100] ++ [300] → h' !! x = example_heap !! x) ∧
        (load_next 200 ≫= load_next) h' = Fault (WildAddr LIST_POISON1).
Proof. apply (list_del_unlinks example_heap 8 [100] 200 [300]); [exact example_ring|reflexivity]. Defined.

(** List_for_each over a well-formed list visits its nodes
    once each, in order, and stops, within as many rounds as the list has nodes
    and one more; list_empty tells whether there is any. *)
Theorem list_for_each_visits (h : heap) hd xs fuel :
  ring h hd xs → (length xs < fuel)%nat →
  list_for_each fuel hd (λ seen pos, mret (seen ++ [pos])) [] h = Ret xs h ∧
  list_empty hd h = Ret (bool_decide (xs = [])) h.
Proof.
  intros Hr Hf. split; [|by apply ring_list_empty].
  destruct (list_for_each_ring (λ done acc s, acc = done ∧ s = h) h hd xs fuel
    (λ seen pos, mret (seen ++ [pos])) [] h) as (acc & s & -> & _ & -> & ->); [done..| |done].
  intros d x todo acc s _ [-> ->] _. by eexists _, h.
Qed.

Lemma list_for_each_visits_witness :
  list_for_each 4 8 (λ seen pos, mret (seen ++ [pos])) [] example_heap = Ret [100; 200; 300] example_heap ∧
  list_empty 8 example_heap = Ret false example_heap.
Proof. apply (list_for_each_visits example_heap 8 [100; 200; 300] 4 example_ring). cbn. lia. Defined.
