(* ===== verification/Sched.v ===== *)
(** * include/sched.h, kernel/sched_nop.c, kernel/sched.c, cpu_switch_to: the scheduler

    The state holds the task structures by address, the [struct list_head]s of
    the run queue (a task's node is [RUN_LIST] bytes into its structure), the
    run queue's counters, the processor's callee-saved registers and its
    interrupt mask.  A function that switches tasks does not return in the
    caller's context: [__schedule] runs until the task it switched to is back in
    its own code, so a call models everything between two points at which task
    code runs. *)

From S2P Require Import Prelude Format Printk PageAlloc KList.

(** ** Data *)

(** [arch/arm64/include/asm/processor.h:8-22] cpu_context *)
Record cpu_context : Type := CpuContext {
  x19 : Z; x20 : Z; x21 : Z; x22 : Z; x23 : Z; x24 : Z; x25 : Z; x26 : Z; x27 : Z; x28 : Z;
  fp : Z; sp : Z; pc : Z;
}.

(** [include/sched.h:35-41] task_state *)
Inductive task_state : Type :=
  | TASK_RUNNING | TASK_INTERRUPTIBLE | TASK_UNINTERRUPTIBLE | TASK_ZOMBIE | TASK_STOPPED.

#[export] Instance task_state_eq_dec : EqDecision task_state.
Proof. solve_decision. Defined.

(** [include/sched.h:43-45] task_flags *)
Definition PF_KTHREAD : Z := Z.shiftl 1 0.

(** [include/sched.h:48-60] task_struct, less [run_list], which is in the heap
    of list nodes *)
Record task_struct : Type := TaskStruct {
  state : task_state;
  flags : Z;
  pid : Z;
  context : cpu_context;
  counter : Z;
  priority : Z;
  need_resched : Z;
  preempt_count : Z;
  next_task : Z;
  prev_task : Z;
}.

(** Byte offsets in [struct task_struct] (LP64). *)
Definition THREAD_CPU_CONTEXT : Z := 16.
Definition RUN_LIST : Z := THREAD_CPU_CONTEXT + 13 * 8.
Definition sizeof_task_struct : Z := 168.

(** [arch/arm64/include/asm/mm.h:30-30] THREAD_SIZE *)
Definition THREAD_SIZE : Z := 1 * PAGE_SIZE.

(** [include/timer.h:12-13] HZ *)
Definition HZ : Z := 250.

(** [include/sched.h:69-69] DEF_COUNTER *)
Definition DEF_COUNTER : Z := HZ / 10.

Definition zero_context : cpu_context := CpuContext 0 0 0 0 0 0 0 0 0 0 0 0 0.

(** [include/sched.h:72-83] INIT_TASK *)
Definition INIT_TASK (task : Z) : task_struct :=
  TaskStruct TASK_RUNNING PF_KTHREAD 0 zero_context DEF_COUNTER 20 0 0 task task.

(** [include/sched.h:28-33] run_queue; [rq_head] is the node of the heap at the
    structure's own address *)
Record run_queue : Type := RunQueue {
  nr_running : Z;
  nr_switches : Z;
  curr : Z;
}.

(** Which function called a suspended [__schedule]: the return address it has
    on its task's kernel stack. *)
Inductive schedule_caller : Type := In_schedule | In_preempt_schedule_irq.

Record sched (C : Type) : Type := Sched {
  tasks : gmap Z task_struct;
  nodes : heap;
  rq : run_queue;
  regs : cpu_context;               (* x19..x28, fp, sp and, in [pc], the link register *)
  irqs_masked : bool;               (* DAIF.I *)
  frames : gmap Z schedule_caller;  (* by task: the frame of a suspended [__schedule] *)
  console : C;
}.
Arguments Sched {C}. Arguments tasks {C}. Arguments nodes {C}. Arguments rq {C}.
Arguments regs {C}. Arguments irqs_masked {C}. Arguments frames {C}. Arguments console {C}.

(** Addresses the linker chooses. *)
Class SchedSymbols : Type := {
  g_ready_queue : Z;
  init_task : Z;
  ret_from_fork : Z;
  switch_to_return : Z;             (* the instruction after [bl cpu_switch_to] *)
  ret_from_fork_ne : switch_to_return ≠ ret_from_fork;
}.

#[export] Program Instance lens_nodes C : Lens (sched C) heap := {|
  lget := nodes;
  lput := λ h s, Sched (tasks s) h (rq s) (regs s) (irqs_masked s) (frames s) (console s);
|}.
Solve All Obligations with by intros; repeat match goal with p : sched _ |- _ => destruct p end.

Section setters.
Context {C : Type}.
Definition set_tasks ts (s : sched C) : sched C :=
  Sched ts (nodes s) (rq s) (regs s) (irqs_masked s) (frames s) (console s).
Definition set_rq r (s : sched C) : sched C :=
  Sched (tasks s) (nodes s) r (regs s) (irqs_masked s) (frames s) (console s).
Definition set_regs r (s : sched C) : sched C :=
  Sched (tasks s) (nodes s) (rq s) r (irqs_masked s) (frames s) (console s).
Definition set_masked b (s : sched C) : sched C :=
  Sched (tasks s) (nodes s) (rq s) (regs s) b (frames s) (console s).
Definition set_frames f (s : sched C) : sched C :=
  Sched (tasks s) (nodes s) (rq s) (regs s) (irqs_masked s) f (console s).
Definition set_console c (s : sched C) : sched C :=
  Sched (tasks s) (nodes s) (rq s) (regs s) (irqs_masked s) (frames s) c.
End setters.

Definition with_counter c (t : task_struct) : task_struct :=
  TaskStruct (state t) (flags t) (pid t) (context t) c (priority t) (need_resched t)
    (preempt_count t) (next_task t) (prev_task t).
Definition with_need_resched n (t : task_struct) : task_struct :=
  TaskStruct (state t) (flags t) (pid t) (context t) (counter t) (priority t) n
    (preempt_count t) (next_task t) (prev_task t).
Definition with_preempt_count n (t : task_struct) : task_struct :=
  TaskStruct (state t) (flags t) (pid t) (context t) (counter t) (priority t) (need_resched t)
    n (next_task t) (prev_task t).
Definition with_context c (t : task_struct) : task_struct :=
  TaskStruct (state t) (flags t) (pid t) c (counter t) (priority t) (need_resched t)
    (preempt_count t) (next_task t) (prev_task t).
Definition with_state st (t : task_struct) : task_struct :=
  TaskStruct st (flags t) (pid t) (context t) (counter t) (priority t) (need_resched t)
    (preempt_count t) (next_task t) (prev_task t).

Definition with_pid n (t : task_struct) : task_struct :=
  TaskStruct (state t) (flags t) n (context t) (counter t) (priority t) (need_resched t)
    (preempt_count t) (next_task t) (prev_task t).
Definition with_priority n (t : task_struct) : task_struct :=
  TaskStruct (state t) (flags t) (pid t) (context t) (counter t) n (need_resched t)
    (preempt_count t) (next_task t) (prev_task t).
Definition with_next_task n (t : task_struct) : task_struct :=
  TaskStruct (state t) (flags t) (pid t) (context t) (counter t) (priority t) (need_resched t)
    (preempt_count t) n (prev_task t).
Definition with_prev_task n (t : task_struct) : task_struct :=
  TaskStruct (state t) (flags t) (pid t) (context t) (counter t) (priority t) (need_resched t)
    (preempt_count t) (next_task t) n.

Definition set_x19 v (c : cpu_context) : cpu_context :=
  CpuContext v (x20 c) (x21 c) (x22 c) (x23 c) (x24 c) (x25 c) (x26 c) (x27 c) (x28 c) (fp c) (sp c) (pc c).
Definition set_x20 v (c : cpu_context) : cpu_context :=
  CpuContext (x19 c) v (x21 c) (x22 c) (x23 c) (x24 c) (x25 c) (x26 c) (x27 c) (x28 c) (fp c) (sp c) (pc c).
Definition set_sp v (c : cpu_context) : cpu_context :=
  CpuContext (x19 c) (x20 c) (x21 c) (x22 c) (x23 c) (x24 c) (x25 c) (x26 c) (x27 c) (x28 c) (fp c) v (pc c).
Definition set_pc v (c : cpu_context) : cpu_context :=
  CpuContext (x19 c) (x20 c) (x21 c) (x22 c) (x23 c) (x24 c) (x25 c) (x26 c) (x27 c) (x28 c) (fp c) (sp c) v.

(** ** The code *)

Section sched.
Context `{Hsym : !SchedSymbols} {C : Type} `{Hcon : !Console C} (fuel : nat).
Implicit Types (s : sched C) (p : Z).

(** Field accesses through a task pointer. *)
Definition task p : M (sched C) task_struct := λ s,
  match tasks s !! p with Some t => Ret t s | None => Fault (WildAddr p) end.
Definition set_task p (f : task_struct → task_struct) : M (sched C) unit := λ s,
  match tasks s !! p with
  | Some _ => Ret tt (set_tasks (alter f p (tasks s)) s)
  | None => Fault (WildAddr p)
  end.

(** [arch/arm64/include/asm/current.h:8-11] get_current *)
Definition current s : Z := Z.land (sp (regs s)) (u64 (Z.lnot (THREAD_SIZE - 1))).
Definition get_current : M (sched C) Z := gets current.

(** [arch/arm64/include/asm/irq.h:8-15] arch_local_irq_disable *)
Definition raw_local_irq_disable : M (sched C) unit := modify (set_masked true).
(** [arch/arm64/include/asm/irq.h:17-24] arch_local_irq_enable *)
Definition raw_local_irq_enable : M (sched C) unit := modify (set_masked false).

Definition print (fmt : string) (args : list karg) : M (sched C) unit :=
  modify (λ s, set_console (console_printk fmt args (console s)) s).

(** [include/sched.h:114-117] preempt_add *)
Definition preempt_add (val : Z) : M (sched C) unit :=
  p ← get_current; set_task p (λ t, with_preempt_count (s32 (preempt_count t + val)) t).
(** [include/sched.h:119-122] preempt_sub *)
Definition preempt_sub (val : Z) : M (sched C) unit :=
  p ← get_current; set_task p (λ t, with_preempt_count (s32 (preempt_count t - val)) t).
(** [include/sched.h:124-134] HARDIRQ_OFFSET *)
Definition HARDIRQ_OFFSET : Z := Z.shiftl 1 (0 + 8).
Definition __irq_enter : M (sched C) unit := preempt_add HARDIRQ_OFFSET.
Definition __irq_exit : M (sched C) unit := preempt_sub HARDIRQ_OFFSET.

(** *** kernel/sched_nop.c *)

(** [kernel/sched_nop.c:9-13] dequeue_task_nop *)
Definition dequeue_task_nop (q p : Z) : M (sched C) unit :=
  modify (λ s, set_rq (RunQueue (u32 (nr_running (rq s) - 1)) (nr_switches (rq s)) (curr (rq s))) s) ;;
  zoom (list_del (p + RUN_LIST)).

(** [kernel/sched_nop.c:15-19] enqueue_task_nop *)
Definition enqueue_task_nop (q p : Z) : M (sched C) unit :=
  zoom (list_add (p + RUN_LIST) q) ;;
  modify (λ s, set_rq (RunQueue (u32 (nr_running (rq s) + 1)) (nr_switches (rq s)) (curr (rq s))) s).

(** [kernel/sched_nop.c:21-28] task_tick_nop *)
Definition task_tick_nop (q p : Z) : M (sched C) unit :=
  set_task p (λ t, with_counter (s32 (counter t - 1)) t) ;;
  t ← task p;
  when (counter t <=? 0) (
    set_task p (with_counter 0) ;;
    set_task p (with_need_resched 1) ;;
    t ← task p;
    print ("pid %d need_resched" +++ nl) [KInt (pid t)]).

(** [kernel/sched_nop.c:30-33] goodness *)
Definition goodness (p : Z) : M (sched C) Z := t ← task p; mret (counter t).

(** [kernel/sched_nop.c:35-43] reset_score; for_each_task of include/sched.h:85-86 *)
Definition reset_score : M (sched C) unit :=
  loop fuel (λ p,
    t ← task p;
    let p := next_task t in
    if p =? init_task then mret (inr tt)
    else set_task p (λ t, with_counter (s32 (DEF_COUNTER + priority t)) t) ;; mret (inl p)) init_task.

(** [kernel/sched_nop.c:55-62] pick_next_task_nop: the body of list_for_each.
    The accumulator is [c] and [next], which is uninitialised at first and keeps its
    value when the search is repeated. *)
Definition pick_step (acc : Z * option Z) (tmp : Z) : M (sched C) (Z * option Z) :=
  let p := list_entry tmp RUN_LIST in
  weight ← goodness p;
  mret (if fst acc <? weight then (weight, Some p) else acc).

(** [kernel/sched_nop.c:45-72] pick_next_task_nop *)
Definition pick_next_task_nop (q prev : Z) : M (sched C) Z :=
  loop fuel (λ next : option Z,
    r ← list_for_each fuel q pick_step (-1000, next);
    let '(c, next) := r in
    if c =? 0 then reset_score ;; mret (inl next)
    else next ← of_option Uninit next; mret (inr next)) None.

(** [include/sched.h:16-25] sched_class *)
Inductive sched_class : Type := SchedClass {
  class_next : option sched_class;
  class_task_fork : option (Z → M (sched C) unit);
  class_enqueue_task : option (Z → Z → M (sched C) unit);
  class_dequeue_task : option (Z → Z → M (sched C) unit);
  class_task_tick : option (Z → Z → M (sched C) unit);
  class_pick_next_task : option (Z → Z → M (sched C) Z);
}.

(** [kernel/sched_nop.c:73-79] nop_sched_class *)
Definition nop_sched_class : sched_class :=
  SchedClass None None (Some enqueue_task_nop) (Some dequeue_task_nop)
    (Some task_tick_nop) (Some pick_next_task_nop).

(** *** kernel/sched.c *)

(** [kernel/sched.c:13-18] pick_next_task *)
Definition pick_next_task (q prev : Z) : M (sched C) Z :=
  f ← of_option NullDeref (class_pick_next_task nop_sched_class); f q prev.
(** [kernel/sched.c:19-23] dequeue_task *)
Definition dequeue_task (q p : Z) : M (sched C) unit :=
  f ← of_option NullDeref (class_dequeue_task nop_sched_class); f q p.
(** [kernel/sched.c:25-29] enqueue_task *)
Definition enqueue_task (q p : Z) : M (sched C) unit :=
  f ← of_option NullDeref (class_enqueue_task nop_sched_class); f q p.
(** [kernel/sched.c:31-35] task_tick *)
Definition task_tick (q p : Z) : M (sched C) unit :=
  f ← of_option NullDeref (class_task_tick nop_sched_class); f q p.

(** [kernel/sched.c:37-41] tick_handle_periodic *)
Definition tick_handle_periodic : M (sched C) unit :=
  p ← get_current; task_tick g_ready_queue p.

(** [kernel/sched.c:43-46] preempt_disable *)
Definition preempt_disable : M (sched C) unit := preempt_add 1.
(** [kernel/sched.c:48-51] preempt_enable *)
Definition preempt_enable : M (sched C) unit := preempt_sub 1.

(** [kernel/sched.c:53-57] schedule_debug *)
Definition schedule_debug (p : Z) : M (sched C) unit :=
  c ← get_current; t ← task c;
  when (negb (preempt_count t =? 1)) (
    t ← task p; c ← task c;
    print ("BUG: scheduling while atomic: %d, 0x%x" +++ nl) [KInt (pid t); KInt (preempt_count c)]).

(** [kernel/sched.c:59-62] clear_task_resched *)
Definition clear_task_resched (p : Z) : M (sched C) unit := set_task p (with_need_resched 0).

(** [arch/arm64/kernel/entry.S:323-343] cpu_switch_to: the link register is the
    return address in [switch_to] when it is entered *)
Definition cpu_switch_to (prev next : Z) : M (sched C) unit :=
  r ← gets regs;
  set_task prev (with_context r) ;;
  t ← task next;
  modify (set_regs (context t)).

(** [kernel/sched.c:72-76] schedule_tail *)
Definition schedule_tail : M (sched C) unit := raw_local_irq_enable.

(** What runs after [__schedule] returned to its caller:
    the rest of schedule, or of preempt_schedule_irq. *)
Definition schedule_return (caller : schedule_caller) : M (sched C) unit :=
  match caller with
  | In_schedule => preempt_enable
  | In_preempt_schedule_irq => raw_local_irq_disable ;; preempt_enable
  end.

(** [kernel/sched.c:109-114] __schedule: what runs after cpu_switch_to, on the stack
    of the task that was switched to.  A task that ran before is inside its own
    [__schedule] and returns from it; a new one starts at [ret_from_fork], which
    calls schedule_tail (entry.S:313-314). *)
Definition __schedule_resume : M (sched C) unit :=
  lr ← gets (pc ∘ regs);
  if lr =? ret_from_fork then schedule_tail
  else if lr =? switch_to_return then
    modify (λ s, set_rq (RunQueue (nr_running (rq s)) (u64 (nr_switches (rq s) + 1)) (current s)) s) ;;
    schedule_tail ;;
    c ← get_current;
    fs ← gets frames;
    caller ← of_option Uninit (fs !! c);
    schedule_return caller
  else throw (WildAddr lr).

(** [kernel/sched.c:64-70] switch_to: [bl cpu_switch_to] sets the link register *)
Definition switch_to (prev next : Z) (caller : schedule_caller) : M (sched C) unit :=
  if prev =? next then skip else
  modify (λ s, set_frames (<[prev := caller]> (frames s)) s) ;;
  modify (λ s, let r := regs s in set_regs (CpuContext (x19 r) (x20 r) (x21 r) (x22 r) (x23 r)
    (x24 r) (x25 r) (x26 r) (x27 r) (x28 r) (fp r) (sp r) switch_to_return) s) ;;
  cpu_switch_to prev next.

(** [kernel/sched.c:78-115] __schedule *)
Definition __schedule (caller : schedule_caller) : M (sched C) unit :=
  prev ← get_current;
  schedule_debug prev ;;
  raw_local_irq_disable ;;
  t ← task prev;
  when (negb (bool_decide (state t = TASK_RUNNING))) (dequeue_task g_ready_queue prev) ;;
  next ← pick_next_task g_ready_queue prev;
  clear_task_resched prev ;;
  if next =? prev then schedule_tail ;; schedule_return caller
  else switch_to prev next caller ;; __schedule_resume.

(** [kernel/sched.c:117-123] schedule *)
Definition schedule : M (sched C) unit :=
  preempt_disable ;; __schedule In_schedule.

(** [kernel/sched.c:125-145] preempt_schedule_irq *)
Definition preempt_schedule_irq : M (sched C) unit :=
  c ← get_current; t ← task c;
  when (negb (preempt_count t =? 0))
    (print ("BUG: %s incorrect preempt count: 0x%x" +++ nl)
       [KStr (Some (chars "preempt_schedule_irq")); KInt (preempt_count t)]) ;;
  preempt_disable ;;
  raw_local_irq_enable ;;
  __schedule In_preempt_schedule_irq.

(** [kernel/sched.c:147-152] wake_up_process *)
Definition wake_up_process (p : Z) : M (sched C) unit :=
  set_task p (with_state TASK_RUNNING) ;; enqueue_task g_ready_queue p.

(** [kernel/sched.c:154-161] sched_init *)
Definition sched_init : M (sched C) unit :=
  zoom (INIT_LIST_HEAD g_ready_queue) ;;
  modify (set_rq (RunQueue 0 0 0)).

(** [arch/arm64/kernel/entry.S:259-269] el1_irq: the way out of an interrupt *)
Definition el1_irq_exit : M (sched C) unit :=
  c ← get_current; t ← task c;
  if negb (preempt_count t =? 0) then skip
  else if need_resched t =? 0 then skip
  else preempt_schedule_irq.

(** [arch/arm64/kernel/entry.S:292-308] ret_to_user *)
Definition ret_to_user : M (sched C) unit :=
  raw_local_irq_disable ;;
  c ← get_current; t ← task c;
  if negb (need_resched t =? 0) then schedule else skip.
End sched.

(** ** The run queue and the ring of tasks *)

(** The ring of all tasks, as list links: [next_task] and [prev_task]. *)
Definition task_links (ts : gmap Z task_struct) : heap :=
  (λ t, ListHead (next_task t) (prev_task t)) <$> ts.

Definition counter_of (ts : gmap Z task_struct) (p : Z) : Z :=
  match ts !! p with Some t => counter t | None => 0 end.

Definition priority_of (ts : gmap Z task_struct) (p : Z) : Z :=
  match ts !! p with Some t => priority t | None => 0 end.

(** What pick_next_task_nop looks for: the first task with the largest counter. *)
Definition pick_best (f : Z → Z) (l : list Z) (acc : Z * option Z) : Z * option Z :=
  foldl (λ acc p, if fst acc <? f p then (f p, Some p) else acc) acc l.

(** [next] is the first task of the queue with the largest counter. *)
Definition best (ts : gmap Z task_struct) (queue : list Z) (next : Z) : Prop :=
  (∃ l1 l2, queue = l1 ++ next :: l2 ∧ ∀ q, q ∈ l1 → counter_of ts q < counter_of ts next) ∧
  ∀ q, q ∈ queue → counter_of ts q ≤ counter_of ts next.

(** What reset_score does to the tasks [l]. *)
Definition recharge (t : task_struct) : task_struct := with_counter (s32 (DEF_COUNTER + priority t)) t.
Definition recharge_all (l : list Z) (ts : gmap Z task_struct) : gmap Z task_struct :=
  foldl (λ ts p, alter recharge p ts) ts l.

(** The tasks as pick_next_task_nop leaves them: recharged when every task of
    the queue has used up its counter. *)
Definition charged (forked queue : list Z) (ts : gmap Z task_struct) : gmap Z task_struct :=
  if bool_decide (Forall (λ p, counter_of ts p = 0) queue) then recharge_all forked ts else ts.

Lemma links_alter f p ts :
  (∀ t, next_task (f t) = next_task t ∧ prev_task (f t) = prev_task t) →
  task_links (alter f p ts) = task_links ts.
Proof.
  intros Hf. apply map_eq. intros q. unfold task_links. rewrite !lookup_fmap, lookup_alter.
  case_decide; [subst|done]. destruct (ts !! q) as [t|]; [|done]. cbn.
  by destruct (Hf t) as [-> ->].
Qed.

Lemma links_recharge l ts : task_links (recharge_all l ts) = task_links ts.
Proof.
  revert ts; induction l as [|p l IH]; intros ts; [done|].
  unfold recharge_all; cbn [foldl]. fold (recharge_all l (alter recharge p ts)).
  by rewrite IH, links_alter.
Qed.

Lemma lookup_recharge l ts p :
  NoDup l → recharge_all l ts !! p = (if decide (p ∈ l) then recharge else id) <$> ts !! p.
Proof.
  revert ts; induction l as [|q l IH]; intros ts Hnd.
  { cbn. rewrite option_fmap_id. done. }
  apply list.NoDup_cons in Hnd as [Hq Hnd].
  unfold recharge_all; cbn [foldl]. fold (recharge_all l (alter recharge q ts)).
  rewrite IH, lookup_alter by done. destruct (decide (q = p)) as [->|Hne].
  - rewrite decide_False, decide_True by set_solver. by rewrite option_fmap_id.
  - destruct (decide (p ∈ l)); [rewrite decide_True by set_solver|rewrite decide_False by set_solver]; done.
Qed.

Lemma pick_best_spec f l c o :
  let r := pick_best f l (c, o) in
  c ≤ fst r ∧ (∀ p, p ∈ l → f p ≤ fst r) ∧
  (fst r = c ∧ snd r = o ∨
   ∃ l1 p l2, l = l1 ++ p :: l2 ∧ snd r = Some p ∧ f p = fst r ∧ c < f p ∧ ∀ q, q ∈ l1 → f q < f p).
Proof.
  revert c o; induction l as [|x l IH]; intros c o; cbn zeta.
  { unfold pick_best. cbn. split; [done|]. split; [set_solver|by left]. }
  unfold pick_best; cbn [foldl fst]. destruct (Z.ltb_spec c (f x)) as [Hlt|Hge].
  - destruct (IH (f x) (Some x)) as (H1 & H2 & H3). fold (pick_best f l (f x, Some x)).
    split; [lia|]. split; [intros p [->|Hp]%elem_of_cons; [lia|auto]|].
    right. destruct H3 as [[He Ho]|(l1 & p & l2 & -> & Ho & He & Hc & Hl1)].
    + exists [], x, l. repeat split; [done|lia..|set_solver].
    + exists (x :: l1), p, l2. repeat split; [done|lia..|].
      intros q [->|Hq]%elem_of_cons; [lia|auto].
  - destruct (IH c o) as (H1 & H2 & H3). fold (pick_best f l (c, o)).
    split; [lia|]. split; [intros p [->|Hp]%elem_of_cons; [lia|auto]|].
    destruct H3 as [H3|(l1 & p & l2 & -> & Ho & He & Hc & Hl1)]; [by left|right].
    exists (x :: l1), p, l2. repeat split; [done..|].
    intros q [->|Hq]%elem_of_cons; [lia|auto].
Qed.

(** ** The invariant *)

Definition node_of (p : Z) : Z := p + RUN_LIST.

#[export] Instance node_of_inj : Inj (=) (=) node_of.
Proof. unfold node_of. intros p q H. lia. Qed.

#[export] Instance map_node_of_inj : Inj (=) (=) (map node_of).
Proof. exact (list_fmap_eq_inj node_of _). Qed.

(** A task structure sits at the bottom of its own, page-aligned stack. *)
Definition stack_base (a : Z) : Z := Z.land a (u64 (Z.lnot (THREAD_SIZE - 1))).

Record task_wf (p : Z) (t : task_struct) : Prop := {
  wf_aligned : stack_base p = p;
  wf_range : 0 < p < 2 ^ 64 - THREAD_SIZE;
  wf_counter : 0 ≤ counter t < 2 ^ 31 - 1;
  wf_priority : 0 ≤ priority t < 2 ^ 31 - 1 - DEF_COUNTER;
}.

(** A task that is not running was saved by cpu_switch_to inside its own
    __schedule, with preemption off, or was never switched to. *)
Definition suspended `{!SchedSymbols} (fs : gmap Z schedule_caller) (p : Z) (t : task_struct) : Prop :=
  stack_base (sp (context t)) = p ∧
  (pc (context t) = ret_from_fork ∧ preempt_count t = 0 ∨
   pc (context t) = switch_to_return ∧ preempt_count t = 1 ∧ is_Some (fs !! p)).

Record sched_inv `{!SchedSymbols} {C} (s : sched C) (queue forked : list Z) : Prop := {
  inv_ring : ring (nodes s) g_ready_queue (map node_of queue);
  inv_nr : nr_running (rq s) = Z.of_nat (length queue);
  inv_links : ring (task_links (tasks s)) init_task forked;
  inv_queue : ∀ p, p ∈ queue → p ∈ forked;
  inv_tasks : ∀ p t, p ∈ init_task :: forked → tasks s !! p = Some t → task_wf p t;
  inv_current : current s ∈ init_task :: forked;
  inv_saved : ∀ p t, p ∈ init_task :: forked → tasks s !! p = Some t → p ≠ current s →
    suspended (frames s) p t;
}.

(** The fields of a task that switching does not touch. *)
Definition task_core (t : task_struct) := (state t, pid t, counter t, priority t, need_resched t).
Definition same_core (ts ts' : gmap Z task_struct) : Prop :=
  ∀ p, task_core <$> ts !! p = task_core <$> ts' !! p.
Definition preempt_count_of {C} (s : sched C) (p : Z) : Z :=
  match tasks s !! p with Some t => preempt_count t | None => 0 end.

(** ** Lemmas about the code *)

Section lemmas.
Context `{Hsym : !SchedSymbols} {C : Type} `{Hcon : !Console C} (fuel : nat).
Implicit Types (s : sched C) (p : Z).

Lemma task_eq s p t : tasks s !! p = Some t → task p s = Ret t s.
Proof. intros H. unfold task. by rewrite H. Qed.

Lemma set_task_eq s p f t :
  tasks s !! p = Some t → set_task p f s = Ret tt (set_tasks (alter f p (tasks s)) s).
Proof. intros H. unfold set_task. by rewrite H. Qed.

Lemma links_lookup s forked p :
  ring (task_links (tasks s)) init_task forked → p ∈ init_task :: forked → is_Some (tasks s !! p).
Proof.
  intros Hr Hp. apply (ring_alloc _ _ _ _ Hr) in Hp. unfold task_links in Hp.
  rewrite lookup_fmap in Hp. by apply fmap_is_Some in Hp.
Qed.

Lemma inv_current_task s queue forked :
  sched_inv s queue forked → is_Some (tasks s !! current s).
Proof. intros H. apply (links_lookup s forked); apply H. Qed.

Lemma links_next s p q t :
  edge (task_links (tasks s)) p q → tasks s !! p = Some t → next_task t = q.
Proof.
  unfold edge, next_of, task_links. intros [H _] Ht. rewrite lookup_fmap, Ht in H. by injection H.
Qed.

Lemma reset_score_loop todo p s n :
  seg (task_links (tasks s)) p todo init_task → init_task ∉ todo → (length todo < n)%nat →
  loop n (λ p,
    t ← task p;
    let p := next_task t in
    if p =? init_task then mret (inr tt)
    else set_task p (λ t, with_counter (s32 (DEF_COUNTER + priority t)) t) ;; mret (inl p)) p s
  = Ret tt (set_tasks (recharge_all todo (tasks s)) s).
Proof.
  revert p s n; induction todo as [|q todo IH]; intros p s n Hseg Hnin Hn;
    (destruct n as [|n]; [cbn in Hn; lia|]).
  - destruct (seg_alloc _ _ _ _ p Hseg ltac:(set_solver)) as [? Hl].
    unfold task_links in Hl. rewrite lookup_fmap in Hl.
    destruct (tasks s !! p) as [t|] eqn:Ht; [|done].
    rewrite (loop_done n _ _ tt s s); [by destruct s|].
    rewrite (bind_eq _ _ _ _ _ (task_eq s p t Ht)).
    cbv zeta. by rewrite (links_next s p init_task t Hseg Ht), Z.eqb_refl.
  - destruct Hseg as [He Hseg].
    destruct (edge_alloc _ _ _ He) as [[tp Hp]%elem_of_dom [tq Hq]%elem_of_dom].
    unfold task_links in Hp, Hq. rewrite lookup_fmap in Hp, Hq.
    destruct (tasks s !! p) as [t|] eqn:Ht; [|done]. destruct (tasks s !! q) as [t'|] eqn:Ht'; [|done].
    set (s' := set_tasks (alter recharge q (tasks s)) s).
    rewrite (loop_more n _ _ q s s').
    + specialize (IH q s' n). rewrite IH; [done|..].
      * unfold s'; cbn [tasks set_tasks]. by rewrite links_alter.
      * set_solver.
      * cbn in Hn. lia.
    + rewrite (bind_eq _ _ _ _ _ (task_eq s p t Ht)). cbv zeta. rewrite (links_next s p q t He Ht).
      rewrite (proj2 (Z.eqb_neq q init_task)) by set_solver.
      by rewrite (bind_eq _ _ _ _ _ (set_task_eq s q _ t' Ht')).
Qed.

Lemma reset_score_eq s forked :
  ring (task_links (tasks s)) init_task forked → (length forked < fuel)%nat →
  reset_score fuel s = Ret tt (set_tasks (recharge_all forked (tasks s)) s).
Proof.
  intros [Hnd Hseg] Hf. apply reset_score_loop; [done| |done].
  by apply list.NoDup_cons in Hnd as [? _].
Qed.

Lemma node_entry p : 0 ≤ p < 2 ^ 64 → list_entry (node_of p) RUN_LIST = p.
Proof. intros Hp. unfold list_entry, node_of. rewrite u64_id; lia. Qed.

(** The traversal of the run queue. *)
Lemma pick_traversal s queue acc :
  ring (nodes s) g_ready_queue (map node_of queue) →
  (∀ p, p ∈ queue → is_Some (tasks s !! p) ∧ 0 ≤ p < 2 ^ 64) → (length queue < fuel)%nat →
  list_for_each fuel g_ready_queue pick_step acc s
  = Ret (pick_best (counter_of (tasks s)) queue acc) s.
Proof.
  intros Hr Hq Hf.
  destruct (list_for_each_ring
    (λ done acc' s', s' = s ∧ ∃ d, done = map node_of d ∧
                     acc' = pick_best (counter_of (tasks s)) d acc)
    (nodes s) g_ready_queue (map node_of queue) fuel pick_step acc s)
    as (acc' & s' & -> & _ & -> & d & Hd & ->); [done|done|by rewrite length_map| |..].
  - split; [done|]. by exists [].
  - intros done' x todo a s' Hsplit [-> (d & -> & ->)] _.
    apply map_eq_app in Hsplit as (d' & rest & -> & Hd & Hrest).
    apply map_eq_cons in Hrest as (p & tl & -> & <- & _).
    apply (inj (map node_of)) in Hd as <-.
    destruct (Hq p ltac:(set_solver)) as [[t Ht] Hp].
    eexists _, s. split; [|split; [done|]].
    + unfold pick_step. rewrite node_entry by done. unfold goodness.
      rewrite (bind_assoc (task p) _ _ s), (bind_eq _ _ _ _ _ (task_eq s p t Ht)). reflexivity.
    + split; [done|]. exists (d' ++ [p]). rewrite map_app. split; [done|].
      unfold pick_best. rewrite foldl_app; cbn.
      assert (counter_of (tasks s) p = counter t) as -> by (unfold counter_of; by rewrite Ht). done.
  - apply (inj (map node_of)) in Hd as <-. done.
Qed.

(** One round of the scan ends at the best task. *)
Lemma pick_best_queue ts queue o :
  queue ≠ [] → (∀ p, p ∈ queue → 0 ≤ counter_of ts p) →
  ∃ next, pick_best (counter_of ts) queue (-1000, o) = (counter_of ts next, Some next) ∧
          best ts queue next.
Proof.
  intros Hne Hpos.
  destruct (pick_best_spec (counter_of ts) queue (-1000) o) as (Hc & Hmax & [[Hr _]|H]).
  - destruct queue as [|p q]; [done|]. specialize (Hmax p ltac:(set_solver)).
    specialize (Hpos p ltac:(set_solver)). lia.
  - destruct H as (l1 & p & l2 & Hq & Ho & Hf & _ & Hl1). exists p. split.
    + rewrite (surjective_pairing (pick_best _ _ _)). by rewrite Ho, Hf.
    + split; [by exists l1, l2|]. intros q Hq'. rewrite Hf. by apply Hmax.
Qed.

Lemma counter_recharge forked ts p t :
  NoDup forked → p ∈ forked → ts !! p = Some t → 0 ≤ priority t < 2 ^ 31 - 1 - DEF_COUNTER →
  counter_of (recharge_all forked ts) p = DEF_COUNTER + priority t.
Proof.
  intros Hnd Hp Ht Hpr. unfold counter_of. rewrite lookup_recharge, decide_True, Ht by done.
  cbn. apply s32_id. change DEF_COUNTER with 25 in *. lia.
Qed.

Lemma pick_next_ok s queue forked prev :
  ring (nodes s) g_ready_queue (map node_of queue) →
  ring (task_links (tasks s)) init_task forked →
  (∀ p, p ∈ queue → p ∈ forked) →
  (∀ p t, p ∈ init_task :: forked → tasks s !! p = Some t → task_wf p t) →
  queue ≠ [] → (length forked < fuel)%nat → (length queue < fuel)%nat →
  ∃ next, pick_next_task_nop fuel g_ready_queue prev s
          = Ret next (set_tasks (charged forked queue (tasks s)) s) ∧
          best (charged forked queue (tasks s)) queue next.
Proof.
  intros Hr Hl Hq Hwf Hne Hff Hfq. unfold pick_next_task_nop.
  assert (∀ p, p ∈ queue → is_Some (tasks s !! p) ∧ 0 ≤ p < 2 ^ 64) as Hqt.
  { intros p Hp. destruct (links_lookup s forked p Hl) as [t Ht]; [set_solver|].
    split; [by exists t|]. destruct (Hwf p t ltac:(set_solver) Ht). change THREAD_SIZE with 4096 in *. lia. }
  assert (∀ p, p ∈ queue → 0 ≤ counter_of (tasks s) p) as Hpos.
  { intros p Hp. destruct (Hqt p Hp) as [[t Ht] _]. unfold counter_of. rewrite Ht. apply (Hwf p); [set_solver|done]. }
  pose proof (pick_traversal s queue (-1000, None) Hr Hqt Hfq) as Ht1.
  destruct (pick_best_queue (tasks s) queue None Hne Hpos) as (n1 & Hn1 & Hb1). rewrite Hn1 in Ht1.
  destruct fuel as [|f] eqn:Hfuel; [lia|]. rewrite <-Hfuel in *.
  unfold charged. destruct (decide (counter_of (tasks s) n1 = 0)) as [H0|H0].
  - assert (∀ p, p ∈ queue → counter_of (tasks s) p = 0) as Hall.
    { intros p Hp. pose proof (proj2 Hb1 p Hp). specialize (Hpos p Hp). lia. }
    rewrite bool_decide_eq_true_2 by (by apply list.Forall_forall).
    set (s1 := set_tasks (recharge_all forked (tasks s)) s).
    assert (NoDup forked) as Hnd by (destruct Hl as [Hnd _]; by apply list.NoDup_cons in Hnd as [_ ?]).
    assert (∀ p, p ∈ queue → 0 < counter_of (tasks s1) p) as Hpos1.
    { intros p Hp. destruct (Hqt p Hp) as [[t Ht] _]. unfold s1; cbn [tasks set_tasks].
      destruct (Hwf p t ltac:(set_solver) Ht). rewrite (counter_recharge forked _ p t); [|auto..]. change DEF_COUNTER with 25. lia. }
    assert (∀ p, p ∈ queue → is_Some (tasks s1 !! p) ∧ 0 ≤ p < 2 ^ 64) as Hqt1.
    { intros p Hp. destruct (Hqt p Hp) as [[t Ht] ?]. split; [|done]. unfold s1; cbn [tasks set_tasks].
      rewrite lookup_recharge, Ht by done. eauto. }
    destruct (pick_best_queue (tasks s1) queue (Some n1) Hne) as (n2 & Hn2 & Hb2).
    { intros p Hp. specialize (Hpos1 p Hp). lia. }
    exists n2. split; [|done].
    pose proof (pick_traversal s1 queue (-1000, Some n1) Hr Hqt1 Hfq) as Ht2. rewrite Hn2 in Ht2.
    rewrite Hfuel at 1. rewrite (loop_more f _ None (Some n1) s s1).
    + assert (0 < length forked)%nat.
      { destruct queue as [|p q]; [done|]. specialize (Hq p ltac:(set_solver)).
        destruct forked; [by apply elem_of_nil in Hq|cbn; lia]. }
      destruct f as [|f]; [lia|].
      apply loop_done. rewrite (bind_eq _ _ _ _ _ Ht2).
      rewrite (proj2 (Z.eqb_neq _ 0)); [done|]. destruct Hb2 as [(l1 & l2 & Heq & _) _].
      specialize (Hpos1 n2). rewrite Heq in Hpos1. specialize (Hpos1 ltac:(set_solver)). lia.
    + rewrite (bind_eq _ _ _ _ _ Ht1), H0; cbn [Z.eqb].
      by rewrite (bind_eq _ _ _ _ _ (reset_score_eq s forked Hl Hff)).
  - rewrite bool_decide_eq_false_2.
    + exists n1. split; [|done]. rewrite Hfuel at 1. apply loop_done.
      rewrite (bind_eq _ _ _ _ _ Ht1), (proj2 (Z.eqb_neq _ 0)) by done. by destruct s.
    + rewrite list.Forall_forall. intros Hall. apply H0, Hall.
      destruct Hb1 as [(l1 & l2 & -> & _) _]. set_solver.
Qed.

(** *** The invariant under updates of one task *)

Lemma inv_alter s queue forked p f :
  sched_inv s queue forked →
  (∀ t, next_task (f t) = next_task t ∧ prev_task (f t) = prev_task t) →
  (∀ t, task_wf p t → task_wf p (f t)) →
  (p = current s ∨ ∀ t, suspended (frames s) p t → suspended (frames s) p (f t)) →
  sched_inv (set_tasks (alter f p (tasks s)) s) queue forked.
Proof.
  intros [Hr Hn Hl Hq Hwf Hc Hs] Hf Hfwf Hfs. split; cbn [set_tasks nodes rq tasks frames]; try done.
  - by rewrite links_alter.
  - intros q t Hin. rewrite lookup_alter_Some. intros [(-> & t' & Ht & ->)|[_ Ht]]; auto.
  - change (current (set_tasks _ s)) with (current s). intros q t Hin.
    rewrite lookup_alter_Some. intros [(-> & t' & Ht & ->)|[_ Ht]] Hne; [|auto].
    destruct Hfs; [done|auto].
Qed.

Lemma inv_charged s queue forked q' :
  sched_inv s queue forked → sched_inv (set_tasks (charged forked q' (tasks s)) s) queue forked.
Proof.
  unfold charged. case_bool_decide; [|by destruct s].
  intros [Hr Hn Hl Hq Hwf Hc Hs].
  assert (NoDup forked) as Hnd by (destruct Hl as [Hnd _]; by apply list.NoDup_cons in Hnd as [_ ?]).
  assert (∀ p t, recharge_all forked (tasks s) !! p = Some t →
    ∃ t', tasks s !! p = Some t' ∧ (t = recharge t' ∨ t = t')) as Hlk.
  { intros p t. rewrite lookup_recharge by done. destruct (tasks s !! p) as [t'|]; [|done].
    intros [= <-]. exists t'. split; [done|]. case_decide; [by left|by right]. }
  split; cbn [set_tasks nodes rq tasks frames]; try done.
  - by rewrite links_recharge.
  - intros p t Hin Ht. destruct (Hlk p t Ht) as (t' & Ht' & [-> | ->]); [|by apply Hwf].
    destruct (Hwf p t' Hin Ht'). split; try done; cbn. change DEF_COUNTER with 25 in *. rewrite s32_id; lia.
  - change (current (set_tasks _ s)) with (current s). intros p t Hin Ht Hne.
    destruct (Hlk p t Ht) as (t' & Ht' & [-> | ->]); [|by apply Hs]. exact (Hs p t' Hin Ht' Hne).
Qed.

(** *** Switching *)

Lemma preempt_sub_eq s v t :
  tasks s !! current s = Some t →
  preempt_sub v s = Ret tt (set_tasks (alter (λ t, with_preempt_count (s32 (preempt_count t - v)) t)
                                         (current s) (tasks s)) s).
Proof. intros H. unfold preempt_sub, get_current. rewrite bind_gets. by apply (set_task_eq _ _ _ t). Qed.

Lemma preempt_add_eq s v t :
  tasks s !! current s = Some t →
  preempt_add v s = Ret tt (set_tasks (alter (λ t, with_preempt_count (s32 (preempt_count t + v)) t)
                                         (current s) (tasks s)) s).
Proof. intros H. unfold preempt_add, get_current. rewrite bind_gets. by apply (set_task_eq _ _ _ t). Qed.

Lemma core_alter ts p f :
  (∀ t, task_core (f t) = task_core t) → same_core (alter f p ts) ts.
Proof.
  intros Hf q. rewrite lookup_alter. case_decide; [subst|done].
  destruct (ts !! q); [cbn; by rewrite Hf|done].
Qed.

Lemma counter_alter ts p f q :
  (∀ t, counter (f t) = counter t) → counter_of (alter f p ts) q = counter_of ts q.
Proof.
  intros Hf. unfold counter_of. rewrite lookup_alter. case_decide; [subst|done].
  destruct (ts !! q); [cbn; by rewrite Hf|done].
Qed.

Lemma schedule_return_ok s queue forked caller t :
  sched_inv s queue forked → tasks s !! current s = Some t → preempt_count t = 1 →
  ∃ s', schedule_return caller s = Ret tt s' ∧ sched_inv s' queue forked ∧
        current s' = current s ∧ preempt_count_of s' (current s') = 0 ∧
        same_core (tasks s') (tasks s) ∧ console s' = console s ∧
        irqs_masked s' = (match caller with In_schedule => irqs_masked s | _ => true end).
Proof.
  intros Hinv Ht Hp.
  set (f := λ t, with_preempt_count (s32 (preempt_count t - 1)) t).
  assert (∀ s, sched_inv s queue forked → tasks s !! current s = Some t →
    let s' := set_tasks (alter f (current s) (tasks s)) s in
    preempt_enable s = Ret tt s' ∧ sched_inv s' queue forked ∧ current s' = current s ∧
    preempt_count_of s' (current s') = 0 ∧ same_core (tasks s') (tasks s)) as Hen.
  { clear s Hinv Ht. intros s Hinv Ht s'. split; [by apply (preempt_sub_eq s 1 t)|].
    split; [apply inv_alter; [done|done|intros t' []; by split|by left]|].
    split; [done|]. split; [|by apply core_alter].
    unfold s', preempt_count_of; cbn [set_tasks tasks].
    change (current (set_tasks _ s)) with (current s).
    rewrite lookup_alter_eq, Ht. cbn. by rewrite Hp. }
  destruct caller; cbn [schedule_return].
  - destruct (Hen s Hinv Ht) as (E & H1 & H2 & H3 & H4). eexists. split; [exact E|]. done.
  - unfold raw_local_irq_disable. rewrite bind_modify.
    destruct (Hen (set_masked true s)) as (E & H1 & H2 & H3 & H4); [by destruct Hinv|done|].
    eexists. split; [exact E|]. done.
Qed.

(** The registers cpu_switch_to saves for a task that calls it. *)
Definition at_switch (r : cpu_context) : cpu_context :=
  CpuContext (x19 r) (x20 r) (x21 r) (x22 r) (x23 r) (x24 r) (x25 r) (x26 r) (x27 r) (x28 r)
    (fp r) (sp r) switch_to_return.

(** The state when the code of the next task starts to run. *)
Definition switched (s : sched C) (next : Z) (caller : schedule_caller) (tn : task_struct) : sched C :=
  Sched (alter (with_context (at_switch (regs s))) (current s) (tasks s)) (nodes s) (rq s)
    (context tn) (irqs_masked s) (<[current s := caller]> (frames s)) (console s).

Lemma switch_to_eq s next caller tc tn :
  next ≠ current s → tasks s !! current s = Some tc → tasks s !! next = Some tn →
  switch_to (current s) next caller s = Ret tt (switched s next caller tn).
Proof.
  intros Hne Hc Hn. unfold switch_to.
  rewrite (proj2 (Z.eqb_neq _ _)) by (intros Heq; by apply Hne).
  rewrite !bind_modify. unfold cpu_switch_to. rewrite bind_gets.
  match goal with |- (set_task _ _ ≫= _) ?x = _ => set (s1 := x) end.
  rewrite (bind_eq _ _ _ _ _ (set_task_eq s1 (current s) _ tc Hc)).
  match goal with |- (task _ ≫= _) ?x = _ => set (s2 := x) end.
  assert (tasks s2 !! next = Some tn) as H2.
  { unfold s2; cbn [tasks set_tasks]. by rewrite lookup_alter_ne. }
  by rewrite (bind_eq _ _ _ _ _ (task_eq s2 next tn H2)).
Qed.

Lemma switched_inv s queue forked next caller tc tn :
  sched_inv s queue forked → next ≠ current s → next ∈ forked →
  tasks s !! current s = Some tc → preempt_count tc = 1 → tasks s !! next = Some tn →
  sched_inv (switched s next caller tn) queue forked ∧ current (switched s next caller tn) = next.
Proof.
  intros [Hr Hn Hl Hq Hwf Hcin Hs] Hne Hnf Hc Hp Htn.
  destruct (Hs next tn ltac:(set_solver) Htn Hne) as [Hsp Hpc].
  assert (current (switched s next caller tn) = next) as Hcur by exact Hsp.
  split; [|exact Hcur].
  split; rewrite ?Hcur; cbn [switched tasks nodes rq frames]; try done.
  - by rewrite links_alter.
  - intros p t Hin. rewrite lookup_alter_Some. intros [(<- & t' & Ht & ->)|[_ Ht]]; [|auto].
    destruct (Hwf _ t' Hin Ht). by split.
  - set_solver.
  - intros p t Hin. rewrite lookup_alter_Some. intros [(<- & t' & Ht & ->)|[Hpc' Ht]] Hpn.
    + rewrite Hc in Ht. injection Ht as <-. split; [done|]. right. cbn.
      by rewrite lookup_insert_eq.
    + destruct (Hs p t Hin Ht) as [? H]; [done|]. split; [done|].
      rewrite lookup_insert_ne by done. done.
Qed.

(** Who called the suspended [__schedule] that runs on after a switch to
    [next]; nobody when [next] is new or is the current task. *)
Definition resumed_caller (s : sched C) (next : Z) (caller : schedule_caller) : option schedule_caller :=
  if decide (next = current s) then Some caller
  else c ← context <$> tasks s !! next;
       if pc c =? ret_from_fork then None else frames s !! next.

Definition masked_in (c : option schedule_caller) : bool :=
  match c with Some In_preempt_schedule_irq => true | _ => false end.

Lemma resume_ok s queue forked next caller tc tn :
  sched_inv s queue forked → next ≠ current s → next ∈ forked →
  tasks s !! current s = Some tc → preempt_count tc = 1 → tasks s !! next = Some tn →
  ∃ s', __schedule_resume (switched s next caller tn) = Ret tt s' ∧ sched_inv s' queue forked ∧
        current s' = next ∧ preempt_count_of s' next = 0 ∧
        same_core (tasks s') (tasks s) ∧ console s' = console s ∧
        irqs_masked s' = masked_in (resumed_caller s next caller).
Proof.
  intros Hinv Hne Hnf Hc Hp Htn.
  destruct (switched_inv s queue forked next caller tc tn Hinv Hne Hnf Hc Hp Htn) as [Hinv' Hcur].
  destruct (inv_saved _ _ _ Hinv next tn ltac:(set_solver) Htn Hne) as [Hsp Hpc].
  assert (tasks (switched s next caller tn) !! next = Some tn) as Htn'
    by (cbn; by rewrite lookup_alter_ne).
  assert (same_core (tasks (switched s next caller tn)) (tasks s)) as Hcore by by apply core_alter.
  set (s1 := switched s next caller tn) in *. unfold __schedule_resume, resumed_caller.
  rewrite bind_gets, decide_False, Htn by done. cbn [fmap option_fmap option_map mbind option_bind].
  change ((pc ∘ regs) s1) with (pc (context tn)).
  destruct Hpc as [[Hf Hpr]|(Hs & Hpr & [cl Hcl])].
  - rewrite Hf, Z.eqb_refl. exists (set_masked false s1). split; [done|].
    split; [by destruct Hinv'|]. split; [done|]. split; [|done].
    unfold preempt_count_of; cbn [tasks set_masked]. by rewrite Htn'.
  - rewrite Hs, Z.eqb_refl, (proj2 (Z.eqb_neq _ _) ret_from_fork_ne), Hcl.
    rewrite bind_modify. unfold schedule_tail, raw_local_irq_enable, get_current.
    rewrite bind_modify, !bind_gets.
    match goal with |- context [(of_option _ (frames ?x !! _) ≫= _) _] => set (s2 := x) end.
    change (current s2) with (current s1). change (frames s2) with (frames s1). rewrite Hcur.
    assert (frames s1 !! next = Some cl) as -> by (cbn; by rewrite lookup_insert_ne).
    cbn [of_option]. rewrite bind_mret.
    destruct (schedule_return_ok s2 queue forked cl tn) as (s' & E & H1 & H2 & H3 & H4 & H5 & H6).
    + by destruct Hinv'.
    + change (current s2) with (current s1). by rewrite Hcur.
    + done.
    + exists s'. split; [exact E|]. split; [done|].
      assert (current s' = next) as Hcur' by (rewrite H2; exact Hcur).
      split; [done|]. split; [by rewrite <-Hcur' at 1|]. split; [|split; [done|]].
      * intros p. rewrite H4. apply Hcore.
      * rewrite H6. by destruct cl.
Qed.

(** *** The run queue *)

Lemma enqueue_ok s queue forked p :
  sched_inv s queue forked → p ∈ forked → p ∉ queue → is_Some (nodes s !! node_of p) →
  node_of p ≠ g_ready_queue → Z.of_nat (length queue) < 2 ^ 32 - 1 →
  ∃ s', enqueue_task fuel g_ready_queue p s = Ret tt s' ∧ sched_inv s' (p :: queue) forked ∧
        tasks s' = tasks s ∧ regs s' = regs s ∧ console s' = console s ∧
        irqs_masked s' = irqs_masked s ∧ frames s' = frames s ∧
        (∀ x, x ∉ node_of p :: g_ready_queue :: map node_of queue → nodes s' !! x = nodes s !! x).
Proof.
  intros [Hr Hn Hl Hq Hwf Hc Hs] Hp Hpq Hnode Hne Hlen.
  destruct (ring_list_add (nodes s) g_ready_queue (map node_of queue) (node_of p) Hr Hnode)
    as (h' & E & Hr' & _ & Hframe).
  { intros [?|Hin]%elem_of_cons; [done|]. apply (list_elem_of_fmap_1 node_of queue) in Hin as (q & Heq & Hin).
    apply (inj node_of) in Heq as ->. done. }
  unfold enqueue_task, nop_sched_class, class_enqueue_task, of_option, enqueue_task_nop. rewrite bind_mret.
  assert (list_add (p + RUN_LIST) g_ready_queue (lget s) = Ret tt h') as E1 by exact E.
  rewrite (bind_eq _ _ _ _ _ (zoom_eq _ s _ _ E1)).
  eexists; split; [done|]. split; [|done].
  split; try done; cbn [set_rq rq nr_running lput lens_nodes].
  - rewrite Hn. cbn [length]. rewrite u32_id; lia.
  - intros q [->|?]%elem_of_cons; auto.
Qed.

Lemma dequeue_ok s l1 p l2 forked :
  sched_inv s (l1 ++ p :: l2) forked → Z.of_nat (length (l1 ++ p :: l2)) < 2 ^ 32 →
  ∃ s', dequeue_task fuel g_ready_queue p s = Ret tt s' ∧ sched_inv s' (l1 ++ l2) forked ∧
        tasks s' = tasks s ∧ regs s' = regs s ∧ console s' = console s ∧
        irqs_masked s' = irqs_masked s ∧ frames s' = frames s ∧
        nodes s' !! node_of p = Some (ListHead LIST_POISON1 LIST_POISON2).
Proof.
  intros [Hr Hn Hl Hq Hwf Hc Hs] Hlen. rewrite map_app in Hr. cbn [map] in Hr.
  destruct (ring_list_del (nodes s) g_ready_queue _ _ _ Hr) as (h' & E & Hr' & _ & Hpo & _).
  unfold dequeue_task, nop_sched_class, class_dequeue_task, of_option, dequeue_task_nop. rewrite bind_mret, bind_modify.
  match goal with |- zoom _ ?x = _ ∧ _ => idtac | |- context [zoom _ ?x] => set (s1 := x) end.
  assert (list_del (p + RUN_LIST) (lget s1) = Ret tt h') as E1 by exact E.
  rewrite (zoom_eq _ s1 _ _ E1).
  eexists; split; [done|]. split; [|done].
  split; try done; cbn [set_rq rq nr_running lput lens_nodes s1].
  - by rewrite map_app.
  - rewrite Hn, !length_app in *. cbn [length] in *. rewrite u32_id; lia.
  - intros q Hq'. apply Hq. set_solver.
Qed.

(** *** __schedule *)

Lemma best_ext ts ts' queue next :
  (∀ p, counter_of ts' p = counter_of ts p) → best ts queue next → best ts' queue next.
Proof.
  intros He [(l1 & l2 & Hq & H1) H2]. split.
  - exists l1, l2. split; [done|]. intros q Hq'. rewrite !He. auto.
  - intros q Hq'. rewrite !He. auto.
Qed.

Lemma counter_same_core ts ts' p : same_core ts ts' → counter_of ts p = counter_of ts' p.
Proof.
  intros H. specialize (H p). unfold counter_of.
  destruct (ts !! p) as [t|], (ts' !! p) as [t'|]; try done. cbn in H. unfold task_core in H. congruence.
Qed.

Lemma priority_same_core ts ts' p : same_core ts ts' → priority_of ts p = priority_of ts' p.
Proof.
  intros H. specialize (H p). unfold priority_of.
  destruct (ts !! p) as [t|], (ts' !! p) as [t'|]; try done. cbn in H. unfold task_core in H. congruence.
Qed.

Lemma priority_alter ts p f q :
  (∀ t, priority (f t) = priority t) → priority_of (alter f p ts) q = priority_of ts q.
Proof.
  intros Hf. unfold priority_of. rewrite lookup_alter. case_decide; [subst|done].
  destruct (ts !! q); [apply Hf|done].
Qed.

Lemma priority_charged forked queue ts q :
  NoDup forked → priority_of (charged forked queue ts) q = priority_of ts q.
Proof.
  intros Hnd. unfold charged. case_bool_decide; [|done]. unfold priority_of. rewrite lookup_recharge by done.
  destruct (ts !! q); [by case_decide|done].
Qed.

Lemma forked_nodup s queue forked : sched_inv s queue forked → NoDup forked ∧ init_task ∉ forked.
Proof. intros Hs. destruct (inv_links _ _ _ Hs) as [Hnd _]. by apply list.NoDup_cons in Hnd as [? ?]. Qed.

(** A recharge changes counters only. *)
Lemma charged_back forked queue ts p t1 :
  NoDup forked → charged forked queue ts !! p = Some t1 →
  ∃ t, ts !! p = Some t ∧ context t = context t1 ∧ preempt_count t = preempt_count t1.
Proof.
  intros Hnd. unfold charged. case_bool_decide; [|by exists t1].
  rewrite lookup_recharge by done. destruct (ts !! p) as [t|]; [|done].
  intros [= <-]. exists t. by case_decide.
Qed.

(** From the choice of the next task to the point at which it runs. *)
Definition schedule_rest (caller : schedule_caller) (prev : Z) : M (sched C) unit :=
  next ← pick_next_task fuel g_ready_queue prev;
  clear_task_resched prev ;;
  if next =? prev then schedule_tail ;; schedule_return caller
  else switch_to prev next caller ;; __schedule_resume.

Lemma schedule_rest_ok s queue forked caller tc :
  sched_inv s queue forked → queue ≠ [] → (length forked < fuel)%nat → (length queue < fuel)%nat →
  tasks s !! current s = Some tc → preempt_count tc = 1 →
  ∃ s', schedule_rest caller (current s) s = Ret tt s' ∧ sched_inv s' queue forked ∧
        best (tasks s') queue (current s') ∧ preempt_count_of s' (current s') = 0 ∧
        same_core (tasks s') (alter (with_need_resched 0) (current s) (charged forked queue (tasks s))) ∧
        console s' = console s ∧
        irqs_masked s' = masked_in (resumed_caller s (current s') caller).
Proof.
  intros Hinv Hne Hff Hfq Hc Hp. unfold schedule_rest, pick_next_task, nop_sched_class, class_pick_next_task.
  destruct (pick_next_ok s queue forked (current s)) as (next & E & Hbest);
    [apply Hinv..|done|done|done|].
  cbn [of_option]. rewrite bind_mret || idtac.
  set (ts1 := charged forked queue (tasks s)) in *.
  set (ts2 := alter (with_need_resched 0) (current s) ts1).
  pose proof (λ p t1, charged_back forked queue (tasks s) p t1 (proj1 (forked_nodup s queue forked Hinv))) as Hback. fold ts1 in Hback.
  assert (sched_inv (set_tasks ts1 s) queue forked) as Hinv1 by by apply inv_charged.
  assert (sched_inv (set_tasks ts2 s) queue forked) as Hinv2.
  { apply (inv_alter (set_tasks ts1 s)); [done|done|intros t []; by split|by left]. }
  destruct (inv_current_task _ _ _ Hinv1) as [tc1 Hc1].
  change (tasks (set_tasks ts1 s) !! current s = Some tc1) in Hc1.
  destruct (Hback (current s) tc1 Hc1) as (t & Ht & _ & Hp1). rewrite Hc in Ht. injection Ht as <-. rewrite Hp in Hp1.
  rewrite (bind_eq _ _ _ _ _ E). unfold clear_task_resched.
  rewrite (bind_eq _ _ _ _ _ (set_task_eq (set_tasks ts1 s) (current s) _ tc1 Hc1)).
  change (set_tasks (alter _ _ _) (set_tasks ts1 s)) with (set_tasks ts2 s).
  assert (tasks (set_tasks ts2 s) !! current s = Some (with_need_resched 0 tc1)) as Hc2
    by (cbn [tasks set_tasks]; unfold ts2; rewrite lookup_alter_eq; unfold tasks, set_tasks in Hc1; by rewrite Hc1).
  assert (best (tasks (set_tasks ts2 s)) queue next) as Hbest2.
  { eapply best_ext; [|exact Hbest]. intros p. by apply counter_alter. }
  destruct (Z.eqb_spec next (current s)) as [->|Hnc].
  - unfold schedule_tail, raw_local_irq_enable. rewrite bind_modify.
    destruct (schedule_return_ok (set_masked false (set_tasks ts2 s)) queue forked caller (with_need_resched 0 tc1))
      as (s' & E' & H1 & H2 & H3 & H4 & H5 & H6); [by destruct Hinv2|done|done|].
    change (current (set_masked _ _)) with (current s) in H2.
    exists s'. split; [done|]. split; [done|]. rewrite H2 in *. unfold resumed_caller. rewrite decide_True by done.
    split; [eapply best_ext; [|exact Hbest2]; intros p; by apply counter_same_core|].
    split; [done|]. split; [done|]. split; [done|]. rewrite H6. by destruct caller.
  - destruct Hbest2 as [(l1 & l2 & Hq & Hl1) Hmax] eqn:Heq.
    assert (next ∈ forked) as Hnf by (apply (inv_queue _ _ _ Hinv); rewrite Hq; set_solver).
    destruct (links_lookup (set_tasks ts2 s) forked next) as [tn Htn]; [apply Hinv2| |].
    { apply elem_of_cons. by right. }
    change (set_tasks ts2 s) with (set_tasks ts2 s) in *.
    destruct (resume_ok (set_tasks ts2 s) queue forked next caller (with_need_resched 0 tc1) tn)
      as (s' & E' & H1 & H2 & H3 & H4 & H5 & H6); [done..|].
    rewrite (bind_eq _ _ _ _ _ (switch_to_eq (set_tasks ts2 s) next caller _ tn Hnc Hc2 Htn)).
    exists s'. split; [done|]. split; [done|]. rewrite H2.
    split; [eapply best_ext; [|by split; [exists l1, l2|]]; intros p; by apply counter_same_core|].
    split; [done|]. split; [done|]. split; [done|]. rewrite H6. unfold resumed_caller.
    change (current (set_tasks ts2 s)) with (current s). rewrite !decide_False by done.
    change (frames (set_tasks ts2 s)) with (frames s). cbn [tasks set_tasks].
    assert (context <$> ts2 !! next = context <$> tasks s !! next) as ->; [|done].
    unfold ts2 in *. cbn in Htn. rewrite lookup_alter_ne in * by done. rewrite Htn.
    destruct (Hback _ _ Htn) as (t & -> & Hx & _). cbn. by rewrite Hx.
Qed.

(** *** The operations on states between two pieces of task code *)

Definition all_running (ts : gmap Z task_struct) : Prop :=
  ∀ p t, ts !! p = Some t → state t = TASK_RUNNING.

Lemma all_running_core ts ts' : same_core ts' ts → all_running ts → all_running ts'.
Proof.
  intros Hc H p t Ht. specialize (Hc p). rewrite Ht in Hc.
  destruct (ts !! p) as [t'|] eqn:Ht'; [|done]. apply H in Ht'. cbn in Hc. unfold task_core in Hc. congruence.
Qed.

Lemma all_running_alter ts p f : (∀ t, state (f t) = state t) → all_running ts → all_running (alter f p ts).
Proof.
  intros Hf H q t. rewrite lookup_alter_Some. intros [(-> & t' & Ht & ->)|[_ Ht]]; [rewrite Hf|]; by eapply H.
Qed.

Lemma all_running_charged forked queue ts : NoDup forked → all_running ts → all_running (charged forked queue ts).
Proof.
  intros Hnd H p t. unfold charged. case_bool_decide; [|apply H].
  rewrite lookup_recharge by done. destruct (ts !! p) as [t'|] eqn:Ht'; [|done].
  intros [= <-]. apply H in Ht'. by case_decide.
Qed.

Lemma __schedule_eq s caller t :
  tasks s !! current s = Some t → state t = TASK_RUNNING → preempt_count t = 1 →
  __schedule fuel caller s = schedule_rest caller (current s) (set_masked true s).
Proof.
  intros Ht Hst Hp. unfold __schedule, get_current. rewrite bind_gets.
  unfold schedule_debug, get_current.
  rewrite (bind_assoc (gets current) _ _ s), bind_gets.
  rewrite (bind_assoc (task (current s)) _ _ s), (bind_eq _ _ _ _ _ (task_eq s (current s) t Ht)).
  rewrite Hp, Z.eqb_refl. cbn [negb when]. rewrite bind_skip.
  unfold raw_local_irq_disable. rewrite bind_modify.
  rewrite (bind_eq _ _ _ _ _ (task_eq (set_masked true s) (current s) t Ht)), Hst.
  rewrite bool_decide_eq_true_2 by done. cbn [negb when]. by rewrite bind_skip.
Qed.

Lemma __schedule_ok s queue forked caller t :
  sched_inv s queue forked → all_running (tasks s) → queue ≠ [] →
  (length forked < fuel)%nat → (length queue < fuel)%nat →
  tasks s !! current s = Some t → preempt_count t = 1 →
  ∃ s', __schedule fuel caller s = Ret tt s' ∧ sched_inv s' queue forked ∧ all_running (tasks s') ∧
        best (tasks s') queue (current s') ∧ preempt_count_of s' (current s') = 0 ∧
        same_core (tasks s') (alter (with_need_resched 0) (current s) (charged forked queue (tasks s))) ∧
        console s' = console s ∧
        irqs_masked s' = masked_in (resumed_caller s (current s') caller).
Proof.
  intros Hinv Hrun Hne Hff Hfq Ht Hp.
  rewrite (__schedule_eq s caller t) by eauto.
  destruct (schedule_rest_ok (set_masked true s) queue forked caller t)
    as (s' & E & H1 & H2 & H3 & H4 & H5 & H6); [by destruct Hinv|done..|].
  exists s'. split; [exact E|]. split; [done|]. split; [|done].
  eapply all_running_core; [exact H4|]. apply all_running_alter; [done|].
  apply all_running_charged; [|done]. destruct (inv_links _ _ _ Hinv) as [Hnd _].
  by apply list.NoDup_cons in Hnd as [_ ?].
Qed.

(** A state in which task code runs: the invariant, every task runnable, and
    the current task preemptible. *)
Record task_runs (s : sched C) (queue forked : list Z) : Prop := {
  tr_inv : sched_inv s queue forked;
  tr_running : all_running (tasks s);
  tr_count : preempt_count_of s (current s) = 0;
}.

Lemma preempt_disable_ok s queue forked :
  task_runs s queue forked →
  ∃ t s1, preempt_disable s = Ret tt s1 ∧ sched_inv s1 queue forked ∧ all_running (tasks s1) ∧
    current s1 = current s ∧ tasks s1 !! current s1 = Some t ∧ preempt_count t = 1 ∧
    s1 = set_tasks (alter (λ t, with_preempt_count (s32 (preempt_count t + 1)) t) (current s) (tasks s)) s.
Proof.
  intros [Hinv Hrun Hp]. destruct (inv_current_task _ _ _ Hinv) as [t Ht].
  unfold preempt_count_of in Hp. rewrite Ht in Hp.
  eexists _, _. split; [by apply (preempt_add_eq s 1 t)|].
  split; [apply inv_alter; [done|done|intros t' []; by split|by left]|].
  split; [by apply all_running_alter|]. split; [done|].
  split; [cbn [tasks set_tasks]; change (current (set_tasks _ s)) with (current s); by rewrite lookup_alter_eq, Ht|].
  split; [|done]. cbn. by rewrite Hp.
Qed.

Lemma charged_core forked queue ts ts' :
  NoDup forked → same_core ts ts' → same_core (charged forked queue ts) (charged forked queue ts').
Proof.
  intros Hnd Hc. assert (Forall (λ p, counter_of ts p = 0) queue ↔ Forall (λ p, counter_of ts' p = 0) queue) as Hiff.
  { split; intros H; (eapply list.Forall_impl; [exact H|]); intros p; cbn;
      by rewrite (counter_same_core ts ts' p Hc). }
  unfold charged. rewrite (bool_decide_ext _ _ Hiff). case_bool_decide; [|done].
  intros p. rewrite !lookup_recharge by done. specialize (Hc p).
  destruct (ts !! p) as [t|], (ts' !! p) as [t'|]; try done. cbn in *.
  case_decide; [|done]. unfold recharge, task_core in *. cbn. simplify_eq. congruence.
Qed.

Lemma same_core_sym ts ts' : same_core ts ts' → same_core ts' ts.
Proof. by intros H p. Qed.

(** What a call of the scheduler from task code leaves. *)
Definition rescheduled (s s' : sched C) (queue forked : list Z) (caller : schedule_caller) : Prop :=
  task_runs s' queue forked ∧ best (tasks s') queue (current s') ∧
  (∀ p, counter_of (tasks s') p = counter_of (charged forked queue (tasks s)) p) ∧
  need_resched <$> tasks s' !! current s = Some 0 ∧ console s' = console s ∧
  irqs_masked s' = masked_in (resumed_caller s (current s') caller) ∧
  (∀ p, priority_of (tasks s') p = priority_of (tasks s) p).

Lemma __schedule_from_task s s1 queue forked caller t b :
  task_runs s queue forked → queue ≠ [] → (length forked < fuel)%nat → (length queue < fuel)%nat →
  s1 = set_masked b (set_tasks (alter (λ t, with_preempt_count (s32 (preempt_count t + 1)) t)
                                  (current s) (tasks s)) s) →
  sched_inv s1 queue forked → all_running (tasks s1) →
  tasks s1 !! current s1 = Some t → preempt_count t = 1 →
  ∃ s', __schedule fuel caller s1 = Ret tt s' ∧ rescheduled s s' queue forked caller.
Proof.
  intros Hs Hne Hff Hfq Hs1 Hinv Hrun Ht Hp.
  destruct (__schedule_ok s1 queue forked caller t) as (s' & E & H1 & H2 & H3 & H4 & H5 & H6 & H7); [done..|].
  assert (NoDup forked) as Hnd by (destruct (inv_links _ _ _ Hinv) as [Hnd _]; by apply list.NoDup_cons in Hnd as [_ ?]).
  assert (same_core (tasks s1) (tasks s)) as Hcore by (subst s1; by apply core_alter).
  assert (current s1 = current s) as Hcur by by subst s1.
  exists s'. split; [done|]. split; [by split|]. split; [done|]. split; [|split; [|split; [|split]]].
  - intros p. rewrite (counter_same_core _ _ p H5), counter_alter by done.
    by apply counter_same_core, charged_core.
  - specialize (H5 (current s)). rewrite Hcur, lookup_alter_eq in H5.
    destruct (charged_core forked queue (tasks s1) (tasks s) Hnd Hcore (current s)).
    destruct (tasks s' !! current s) as [t'|], (charged forked queue (tasks s1) !! current s) as [t2|] eqn:Ht2;
      try done; [cbn in H5 |- *; unfold task_core in H5; cbn in H5; injection H5; intros; f_equal; done|].
    destruct (inv_current_task _ _ _ (inv_charged s1 queue forked queue Hinv)) as [t3 Ht3].
    cbn [tasks set_tasks] in Ht3. change (current (set_tasks _ s1)) with (current s1) in Ht3.
    rewrite Hcur in Ht3. congruence.
  - by subst s1.
  - rewrite H7. f_equal. unfold resumed_caller. rewrite Hcur. case_decide; [done|].
    subst s1. cbn [tasks frames set_masked set_tasks]. by rewrite lookup_alter_ne by done.
  - intros p. rewrite (priority_same_core _ _ p H5), priority_alter, priority_charged, (priority_same_core _ _ p Hcore) by done.
    done.
Qed.

Lemma schedule_ok s queue forked :
  task_runs s queue forked → queue ≠ [] → (length forked < fuel)%nat → (length queue < fuel)%nat →
  ∃ s', schedule fuel s = Ret tt s' ∧ rescheduled s s' queue forked In_schedule.
Proof.
  intros Hs Hne Hff Hfq. unfold schedule.
  destruct (preempt_disable_ok s queue forked Hs) as (t & s1 & E & H1 & H2 & H3 & H4 & H5 & H6).
  rewrite (bind_eq _ _ _ _ _ E).
  eapply (__schedule_from_task s s1 queue forked _ t (irqs_masked s)); [done..| |done|done|done|done].
  rewrite H6. by destruct s.
Qed.

Lemma preempt_schedule_irq_eq s queue forked :
  task_runs s queue forked →
  preempt_schedule_irq fuel s
  = (preempt_disable ;; raw_local_irq_enable ;; __schedule fuel In_preempt_schedule_irq) s.
Proof.
  intros Hs. unfold preempt_schedule_irq. unfold get_current at 1. rewrite bind_gets.
  destruct (inv_current_task _ _ _ (tr_inv _ _ _ Hs)) as [tc Htc].
  pose proof (tr_count _ _ _ Hs) as Hpc. unfold preempt_count_of in Hpc. rewrite Htc in Hpc.
  rewrite (bind_eq _ _ _ _ _ (task_eq s _ tc Htc)), Hpc, Z.eqb_refl. cbn [negb when]. by rewrite bind_skip.
Qed.

Lemma preempt_schedule_irq_ok s queue forked :
  task_runs s queue forked → queue ≠ [] → (length forked < fuel)%nat → (length queue < fuel)%nat →
  ∃ s', preempt_schedule_irq fuel s = Ret tt s' ∧ rescheduled s s' queue forked In_preempt_schedule_irq.
Proof.
  intros Hs Hne Hff Hfq. rewrite (preempt_schedule_irq_eq s _ _ Hs).
  destruct (preempt_disable_ok s queue forked Hs) as (t & s1 & E & H1 & H2 & H3 & H4 & H5 & H6).
  rewrite (bind_eq _ _ _ _ _ E). unfold raw_local_irq_enable. rewrite bind_modify.
  eapply (__schedule_from_task s _ queue forked _ t false); [done..| | |done|done|done].
  - by rewrite H6.
  - by destruct H1.
Qed.

(** With an empty run queue the search returns its uninitialised variable. *)
Lemma schedule_rest_empty s forked caller prev :
  sched_inv s [] forked → (0 < fuel)%nat → schedule_rest caller prev s = Fault Uninit.
Proof.
  intros Hinv Hf. unfold schedule_rest, pick_next_task, nop_sched_class, class_pick_next_task, of_option, pick_next_task_nop.
  apply bind_fault. rewrite bind_mret. apply loop_fault; [done|].
  assert (list_for_each fuel g_ready_queue pick_step (-1000, None) s = Ret (-1000, None) s) as Ht0.
  { rewrite (pick_traversal s [] (-1000, None)); [done|apply Hinv|set_solver|cbn; lia]. }
  by rewrite (bind_eq _ _ _ _ _ Ht0).
Qed.

Lemma schedule_empty s forked : task_runs s [] forked → (0 < fuel)%nat → schedule fuel s = Fault Uninit.
Proof.
  intros Hs Hf. destruct (preempt_disable_ok s [] forked Hs) as (t & s1 & E & Hinv & Hrun & Hcur & Ht & Hp & _).
  unfold schedule. rewrite (bind_eq _ _ _ _ _ E), (__schedule_eq s1 In_schedule t) by eauto.
  apply (schedule_rest_empty _ forked); [by destruct Hinv|done].
Qed.

Lemma preempt_schedule_irq_empty s forked :
  task_runs s [] forked → (0 < fuel)%nat → preempt_schedule_irq fuel s = Fault Uninit.
Proof.
  intros Hs Hf. rewrite (preempt_schedule_irq_eq s _ _ Hs).
  destruct (preempt_disable_ok s [] forked Hs) as (t & s1 & E & Hinv & Hrun & Hcur & Ht & Hp & _).
  rewrite (bind_eq _ _ _ _ _ E). unfold raw_local_irq_enable. rewrite bind_modify, (__schedule_eq _ _ t) by eauto.
  apply (schedule_rest_empty _ forked); [by destruct Hinv|done].
Qed.

(** *** The timer tick *)

Definition ticked (t : task_struct) : task_struct :=
  if counter t <=? 1 then with_need_resched 1 (with_counter 0 t) else with_counter (counter t - 1) t.

Lemma tick_eq s t :
  tasks s !! current s = Some t → 0 ≤ counter t < 2 ^ 31 - 1 →
  tick_handle_periodic fuel s
  = Ret tt (set_console (if counter t <=? 1 then
                           console_printk ("pid %d need_resched" +++ nl) [KInt (pid t)] (console s)
                         else console s)
              (set_tasks (alter ticked (current s) (tasks s)) s)).
Proof.
  intros Ht Hc. unfold tick_handle_periodic, get_current. rewrite bind_gets.
  unfold task_tick, nop_sched_class, class_task_tick, of_option. rewrite bind_mret. unfold task_tick_nop.
  rewrite (bind_eq _ _ _ _ _ (set_task_eq s (current s) _ t Ht)).
  set (s1 := set_tasks _ s).
  assert (tasks s1 !! current s = Some (with_counter (counter t - 1) t)) as Ht1.
  { cbn. rewrite lookup_alter_eq, Ht. cbn. by rewrite s32_id by lia. }
  rewrite (bind_eq _ _ _ _ _ (task_eq s1 _ _ Ht1)). cbn [counter with_counter].
  destruct (Z.leb_spec (counter t - 1) 0) as [Hle|Hgt].
  - rewrite (proj2 (Z.leb_le (counter t) 1)) by lia. cbn [when].
    rewrite (bind_eq _ _ _ _ _ (set_task_eq s1 (current s) _ _ Ht1)).
    set (s2 := set_tasks _ s1).
    assert (tasks s2 !! current s = Some (with_counter 0 (with_counter (counter t - 1) t))) as Ht2
      by (cbn [tasks set_tasks s2]; by rewrite lookup_alter_eq, Ht1).
    rewrite (bind_eq _ _ _ _ _ (set_task_eq s2 (current s) _ _ Ht2)).
    set (s3 := set_tasks _ s2).
    assert (tasks s3 !! current s = Some (with_need_resched 1 (with_counter 0 (with_counter (counter t - 1) t)))) as Ht3
      by (cbn [tasks set_tasks s3]; by rewrite lookup_alter_eq, Ht2).
    rewrite (bind_eq _ _ _ _ _ (task_eq s3 _ _ Ht3)). unfold print, modify. f_equal.
    unfold set_console; cbn. f_equal. apply map_eq. intros p. rewrite !lookup_alter.
    repeat case_decide; try congruence. subst. rewrite Ht. cbn. f_equal. unfold ticked.
    by rewrite (proj2 (Z.leb_le (counter t) 1)) by lia.
  - rewrite (proj2 (Z.leb_gt (counter t) 1)) by lia. cbn [when]. unfold skip, mret, M_ret. f_equal.
    destruct s. unfold s1, set_console, set_tasks; cbn in *. f_equal. apply map_eq. intros p.
    rewrite !lookup_alter. case_decide; [subst|done]. rewrite Ht. cbn. f_equal. unfold ticked.
    rewrite (proj2 (Z.leb_gt (counter t) 1)), s32_id by lia. done.
Qed.

Lemma tick_inv s queue forked :
  sched_inv s queue forked →
  ∃ s', tick_handle_periodic fuel s = Ret tt s' ∧ sched_inv s' queue forked ∧ current s' = current s ∧
        preempt_count_of s' (current s) = preempt_count_of s (current s) ∧
        (all_running (tasks s) → all_running (tasks s')) ∧
        same_core (tasks s') (alter ticked (current s) (tasks s)) ∧ irqs_masked s' = irqs_masked s.
Proof.
  intros Hinv. destruct (inv_current_task _ _ _ Hinv) as [t Ht].
  pose proof (wf_counter _ _ (inv_tasks _ _ _ Hinv _ _ (inv_current _ _ _ Hinv) Ht)) as Hc.
  rewrite (tick_eq s t Ht Hc). eexists. split; [done|].
  assert (sched_inv (set_tasks (alter ticked (current s) (tasks s)) s) queue forked) as Hinv'.
  { apply inv_alter; [done|intros t'; unfold ticked; by destruct (_ <=? _)| |by left].
    intros t' []. unfold ticked. destruct (Z.leb_spec (counter t') 1); split; cbn; done || lia. }
  split; [by destruct Hinv'|]. split; [done|]. split.
  - unfold preempt_count_of; cbn [tasks set_console set_tasks]. rewrite lookup_alter_eq, Ht. cbn.
    unfold ticked. by destruct (_ <=? _).
  - split; [|by split; [intros p|]]. apply all_running_alter. intros t'. unfold ticked. by destruct (_ <=? _).
Qed.

(** *** Interrupts *)

(** The timer interrupt of the kernel as the scheduler sees it: irq_enter, the
    tick, irq_exit, and the way out of el1_irq. *)
Definition timer_interrupt : M (sched C) unit :=
  __irq_enter ;; tick_handle_periodic fuel ;; __irq_exit ;; el1_irq_exit fuel.

(** Everything that can happen to the scheduler while task code runs. *)
Inductive task_step : sched C → sched C → Prop :=
  | step_schedule s s' : schedule fuel s = Ret tt s' → task_step s s'
  | step_timer_interrupt s s' : timer_interrupt s = Ret tt s' → task_step s s'
  | step_ret_to_user s s' : ret_to_user fuel s = Ret tt s' → task_step s s'.

Lemma inv_preempt_count s queue forked g :
  sched_inv s queue forked →
  sched_inv (set_tasks (alter (λ t, with_preempt_count (g t) t) (current s) (tasks s)) s) queue forked.
Proof. intros H. apply inv_alter; [done|done|intros t []; by split|by left]. Qed.

(** The way out of el1_irq: the interrupted task goes on, or the scheduler runs. *)
Lemma el1_irq_exit_cases s queue forked t :
  task_runs s queue forked → queue ≠ [] → (length forked < fuel)%nat → (length queue < fuel)%nat →
  tasks s !! current s = Some t →
  ∃ s', el1_irq_exit fuel s = Ret tt s' ∧
    if decide (need_resched t = 0) then s' = s else rescheduled s s' queue forked In_preempt_schedule_irq.
Proof.
  intros Hs Hne Hff Hfq Ht. pose proof (tr_count _ _ _ Hs) as Hp. unfold preempt_count_of in Hp. rewrite Ht in Hp.
  unfold el1_irq_exit, get_current. rewrite bind_gets, (bind_eq _ _ _ _ _ (task_eq s _ t Ht)), Hp.
  cbn [Z.eqb negb]. destruct (Z.eqb_spec (need_resched t) 0); case_decide; try done; [by exists s|].
  by apply preempt_schedule_irq_ok.
Qed.

Lemma el1_irq_exit_ok s queue forked :
  task_runs s queue forked → queue ≠ [] → (length forked < fuel)%nat → (length queue < fuel)%nat →
  ∃ s', el1_irq_exit fuel s = Ret tt s' ∧ task_runs s' queue forked ∧
        (current s' = current s ∨ current s' ∈ queue).
Proof.
  intros Hs Hne Hff Hfq. destruct (inv_current_task _ _ _ (tr_inv _ _ _ Hs)) as [t Ht].
  destruct (el1_irq_exit_cases s queue forked t Hs Hne Hff Hfq Ht) as (s' & -> & H'). exists s'. split; [done|].
  case_decide; [subst; by eauto|]. destruct H' as (H1 & [(l1 & l2 & Hq & _) _] & _).
  split; [done|]. right. rewrite Hq. set_solver.
Qed.

Lemma ticked_core ts ts' p : same_core ts ts' → same_core (alter ticked p ts) (alter ticked p ts').
Proof.
  intros H q. rewrite !lookup_alter. case_decide; [subst|apply H]. specialize (H q).
  destruct (ts !! q) as [t|], (ts' !! q) as [t'|]; try done. cbn in *. unfold task_core in H.
  injection H as H1 H2 H3 H4 H5. unfold task_core, ticked. rewrite H3. by destruct (_ <=? _); cbn; congruence.
Qed.

(** The body of an interrupt, between irq_enter and irq_exit. *)
Definition in_interrupt (body : M (sched C) unit) queue forked s : Prop :=
  ∃ s', body s = Ret tt s' ∧ sched_inv s' queue forked ∧ current s' = current s ∧
    preempt_count_of s' (current s) = preempt_count_of s (current s) ∧ (all_running (tasks s) → all_running (tasks s')).

Lemma irq_bracket s queue forked body :
  task_runs s queue forked → (∀ s1, sched_inv s1 queue forked → in_interrupt body queue forked s1) →
  ∃ s1 s2 s3, __irq_enter s = Ret tt s1 ∧ body s1 = Ret tt s2 ∧ __irq_exit s2 = Ret tt s3 ∧
    task_runs s3 queue forked ∧ sched_inv s1 queue forked ∧ current s1 = current s ∧ current s3 = current s ∧
    same_core (tasks s1) (tasks s) ∧ same_core (tasks s3) (tasks s2) ∧
    irqs_masked s1 = irqs_masked s ∧ irqs_masked s3 = irqs_masked s2.
Proof.
  intros [Hinv Hrun Hp] Hbody. destruct (inv_current_task _ _ _ Hinv) as [t Ht].
  set (s1 := set_tasks (alter (λ t, with_preempt_count (s32 (preempt_count t + HARDIRQ_OFFSET)) t) (current s) (tasks s)) s).
  assert (sched_inv s1 queue forked) as Hinv1 by by apply inv_preempt_count.
  destruct (Hbody s1 Hinv1) as (s2 & E2 & Hinv2 & Hcur2 & Hp2 & Hrun2). change (current s1) with (current s) in *.
  destruct (inv_current_task _ _ _ Hinv2) as [t2 Ht2].
  eexists s1, s2, _. split; [by apply (preempt_add_eq s _ t Ht)|]. split; [done|].
  split; [by apply (preempt_sub_eq s2 _ t2 Ht2)|]. split; [split|].
  - by apply inv_preempt_count.
  - apply all_running_alter; [done|]. apply Hrun2, all_running_alter; done.
  - match goal with |- preempt_count_of ?x _ = _ => change (current x) with (current s2) end.
    unfold preempt_count_of in Hp, Hp2 |- *. cbn [tasks set_tasks]. rewrite lookup_alter_eq, Ht2. cbn.
    rewrite Ht in Hp. rewrite <-Hcur2, Ht2, Hcur2 in Hp2. cbn [tasks set_tasks s1] in Hp2.
    rewrite lookup_alter_eq, Ht in Hp2. cbn in Hp2. by rewrite Hp2, Hp.
  - split; [done|]. split; [done|]. split; [exact Hcur2|]. split; [by apply core_alter|]. split; [by apply core_alter|done].
Qed.

(** The timer interrupt up to the way out: the tick of the current task. *)
Lemma timer_interrupt_tick s queue forked :
  task_runs s queue forked →
  ∃ s', (__irq_enter ;; tick_handle_periodic fuel ;; __irq_exit) s = Ret tt s' ∧
    task_runs s' queue forked ∧ current s' = current s ∧
    same_core (tasks s') (alter ticked (current s) (tasks s)) ∧ irqs_masked s' = irqs_masked s.
Proof.
  intros Hs. destruct (irq_bracket s queue forked (tick_handle_periodic fuel) Hs)
    as (s1 & s2 & s3 & E1 & E2 & E3 & Hs3 & Hi1 & Hc1 & Hc3 & H1 & H3 & M1 & M3).
  { intros x Hx. destruct (tick_inv x queue forked Hx) as (x' & E & H2 & H4 & H5 & H6 & _). by exists x'. }
  destruct (tick_inv s1 queue forked Hi1) as (x & E & _ & _ & _ & _ & H2 & M2). rewrite E2 in E. injection E as <-.
  exists s3. rewrite (bind_eq _ _ _ _ _ E1), (bind_eq _ _ _ _ _ E2). split; [done|]. split; [done|]. split; [done|].
  split; [|congruence]. intros q. rewrite (H3 q), (H2 q), Hc1. by apply ticked_core.
Qed.

(** The tasks that were not interrupted are left as they were. *)
Lemma timer_tick_others s s' queue forked q :
  task_runs s queue forked → (__irq_enter ;; tick_handle_periodic fuel ;; __irq_exit) s = Ret tt s' → q ≠ current s →
  tasks s' !! q = tasks s !! q.
Proof.
  intros [Hinv _ _] E Hq. destruct (inv_current_task _ _ _ Hinv) as [t Ht].
  unfold __irq_enter in E. rewrite (bind_eq _ _ _ _ _ (preempt_add_eq s _ t Ht)) in E.
  match type of E with (_ ≫= _) ?x = _ => set (s1 := x) in E end.
  assert (sched_inv s1 queue forked) as Hinv1 by by apply inv_preempt_count.
  destruct (inv_current_task _ _ _ Hinv1) as [t1 Ht1].
  rewrite (bind_eq _ _ _ _ _ (tick_eq s1 t1 Ht1 (wf_counter _ _ (inv_tasks _ _ _ Hinv1 _ _ (inv_current _ _ _ Hinv1) Ht1)))) in E.
  match type of E with __irq_exit ?x = _ => set (s2 := x) in E end.
  assert (tasks s2 !! current s2 = Some (ticked t1)) as Ht2.
  { change (current s2) with (current s1). cbn [s2 tasks set_console set_tasks]. by rewrite lookup_alter_eq, Ht1. }
  unfold __irq_exit in E. rewrite (preempt_sub_eq s2 _ _ Ht2) in E. injection E as <-.
  change (current s2) with (current s). cbn [tasks set_tasks]. rewrite lookup_alter_ne by done.
  cbn [s2 tasks set_console set_tasks]. change (current s1) with (current s). rewrite lookup_alter_ne by done.
  cbn [s1 tasks set_tasks]. by rewrite lookup_alter_ne by done.
Qed.

Lemma timer_interrupt_eq s s' :
  (__irq_enter ;; tick_handle_periodic fuel ;; __irq_exit) s = Ret tt s' →
  timer_interrupt s = el1_irq_exit fuel s'.
Proof.
  intros ([] & s1 & E1 & ([] & s2 & E2 & E3)%bind_inv)%bind_inv. unfold timer_interrupt.
  by rewrite (bind_eq _ _ _ _ _ E1), (bind_eq _ _ _ _ _ E2), (bind_eq _ _ _ _ _ E3).
Qed.

Lemma timer_interrupt_ok s queue forked :
  task_runs s queue forked → queue ≠ [] → (length forked < fuel)%nat → (length queue < fuel)%nat →
  ∃ s', timer_interrupt s = Ret tt s' ∧ task_runs s' queue forked ∧
        (current s' = current s ∨ current s' ∈ queue).
Proof.
  intros Hs Hne Hff Hfq. destruct (timer_interrupt_tick s queue forked Hs) as (s1 & E & Hs1 & <- & _).
  rewrite (timer_interrupt_eq _ _ E). by apply el1_irq_exit_ok.
Qed.

Lemma ret_to_user_ok s queue forked :
  task_runs s queue forked → queue ≠ [] → (length forked < fuel)%nat → (length queue < fuel)%nat →
  ∃ s', ret_to_user fuel s = Ret tt s' ∧ task_runs s' queue forked ∧
        (current s' = current s ∨ current s' ∈ queue).
Proof.
  intros Hs Hne Hff Hfq. unfold ret_to_user, raw_local_irq_disable, get_current. rewrite bind_modify, bind_gets.
  assert (task_runs (set_masked true s) queue forked) as Hs' by (destruct Hs as [[] ? ?]; split; [split; done|done..]).
  destruct (inv_current_task _ _ _ (tr_inv _ _ _ Hs')) as [t Ht].
  rewrite (bind_eq _ _ _ _ _ (task_eq (set_masked true s) _ t Ht)).
  destruct (negb (need_resched t =? 0)); [|eexists; split; [done|]; split; [done|by left]].
  destruct (schedule_ok (set_masked true s) queue forked) as (s3 & E3 & H1 & [(l1 & l2 & Hq & _) _] & _); [done..|].
  exists s3. split; [done|]. split; [done|]. right. rewrite Hq. set_solver.
Qed.

Lemma task_step_ok s s' queue forked :
  task_runs s queue forked → queue ≠ [] → (length forked < fuel)%nat → (length queue < fuel)%nat →
  task_step s s' → task_runs s' queue forked ∧ (current s' = current s ∨ current s' ∈ queue).
Proof.
  intros Hs Hne Hff Hfq Hstep. revert Hs. destruct Hstep as [s1 s2 E|s1 s2 E|s1 s2 E]; intros Hs.
  - destruct (schedule_ok s1 queue forked) as (s3 & E3 & H1 & [(l1 & l2 & Hq & _) _] & _); [done..|].
    rewrite E3 in E. injection E as <-. split; [done|]. right. rewrite Hq. set_solver.
  - destruct (timer_interrupt_ok s1 queue forked) as (s3 & E3 & H); [done..|].
    rewrite E3 in E. by injection E as <-.
  - destruct (ret_to_user_ok s1 queue forked) as (s3 & E3 & H); [done..|].
    rewrite E3 in E. by injection E as <-.
Qed.

Lemma wake_up_process_ok s queue forked p :
  sched_inv s queue forked → p ∈ forked → p ∉ queue → is_Some (nodes s !! node_of p) →
  node_of p ≠ g_ready_queue → Z.of_nat (length queue) < 2 ^ 32 - 1 →
  ∃ s', wake_up_process fuel p s = Ret tt s' ∧ sched_inv s' (p :: queue) forked ∧
        tasks s' = alter (with_state TASK_RUNNING) p (tasks s) ∧ regs s' = regs s ∧ console s' = console s ∧
        irqs_masked s' = irqs_masked s ∧ frames s' = frames s ∧
        (∀ x, x ∉ node_of p :: g_ready_queue :: map node_of queue → nodes s' !! x = nodes s !! x).
Proof.
  intros Hinv Hp Hpq Hnode Hne Hlen. unfold wake_up_process.
  destruct (links_lookup s forked p) as [t Ht]; [apply Hinv|set_solver|].
  rewrite (bind_eq _ _ _ _ _ (set_task_eq s p _ t Ht)).
  destruct (enqueue_ok (set_tasks (alter (with_state TASK_RUNNING) p (tasks s)) s) queue forked p)
    as (s' & E & H1 & H2 & H); [|done..|].
  - apply inv_alter; [done|done|intros t' []; by split|by right].
  - exists s'. split; [done|]. split; [done|]. split; [done|]. exact H.
Qed.
End lemmas.

(** ** A concrete scheduler

    The init task at 0x80000 and two forked tasks, both on the run queue and
    neither started yet; the init task runs. *)

Module Example_sched.
Definition symbols : SchedSymbols.
Proof. refine {| g_ready_queue := 0x70000; init_task := 0x80000; ret_from_fork := 0x1000;
                 switch_to_return := 0x2000 |}. discriminate. Defined.
#[local] Existing Instance symbols.

Definition forked_task (pid cnt base next prev : Z) : task_struct :=
  TaskStruct TASK_RUNNING 0 pid
    (CpuContext 0x3000 0 0 0 0 0 0 0 0 0 0 (base + 4096 - 320) 0x1000) cnt 2 0 0 next prev.

Definition ts : gmap Z task_struct :=
  <[0x80000 := TaskStruct TASK_RUNNING PF_KTHREAD 0 zero_context 6 20 0 0 0x400000 0x401000]>
  (<[0x400000 := forked_task 1 13 0x400000 0x401000 0x80000]>
  (<[0x401000 := forked_task 2 7 0x401000 0x80000 0x400000]> ∅)).

Definition heap : heap :=
  <[0x70000 := ListHead (node_of 0x401000) (node_of 0x400000)]>
  (<[node_of 0x401000 := ListHead (node_of 0x400000) 0x70000]>
  (<[node_of 0x400000 := ListHead 0x70000 (node_of 0x401000)]> ∅)).

Definition s0 : sched (list (string * list karg)) :=
  Sched ts heap (RunQueue 2 0 0) (CpuContext 0 0 0 0 0 0 0 0 0 0 0 0x80f00 0) false ∅ [].

Definition queue : list Z := [0x401000; 0x400000].
Definition forked : list Z := [0x400000; 0x401000].

Lemma s0_tasks (P : Z → task_struct → Prop) :
  P 0x80000 (TaskStruct TASK_RUNNING PF_KTHREAD 0 zero_context 6 20 0 0 0x400000 0x401000) →
  P 0x400000 (forked_task 1 13 0x400000 0x401000 0x80000) →
  P 0x401000 (forked_task 2 7 0x401000 0x80000 0x400000) →
  ∀ p t, ts !! p = Some t → P p t.
Proof.
  intros H1 H2 H3 p t Ht. unfold ts in Ht.
  repeat (apply lookup_insert_Some in Ht as [[<- <-]|[_ Ht]]; [done|]). by rewrite lookup_empty in Ht.
Qed.

Lemma s0_runs : task_runs s0 queue forked.
Proof.
  split; [split|refine (s0_tasks (λ _ t, state t = TASK_RUNNING) _ _ _); done|done].
  - split; [by_decision|]. cbn. unfold edge. repeat split.
  - done.
  - split; [by_decision|]. cbn. unfold edge. repeat split.
  - intros p Hp. unfold queue, forked in *. set_solver.
  - intros p t _; revert p t. refine (s0_tasks task_wf _ _ _); split; vm_compute; intuition congruence.
  - by_decision.
  - change (current s0) with 0x80000. intros p t _; revert p t. refine (s0_tasks (λ p t, p ≠ 0x80000 → suspended ∅ p t) _ _ _).
    + done.
    + intros _. split; [done|]. left. done.
    + intros _. split; [done|]. left. done.
Qed.
End Example_sched.

(** ** Properties *)

Section properties.
Context `{Hsym : !SchedSymbols} {C : Type} `{Hcon : !Console C} (fuel : nat).
Implicit Types (s : sched C).

(** C6 (safety): called from task code with a task in the run queue, schedule and
    preempt_schedule_irq do not fault and print nothing (with an empty queue the
    scheduler reads an uninitialised variable: schedule_empty above).  When they are back in task code the first task
    with the largest counter of the run queue runs, counters having been
    recharged exactly when every queued task had used its own up; that task is
    preemptible, the caller's need_resched is clear, interrupts are masked
    just when the resumed task is on its way out of el1_irq, and no priority
    changes. *)
Theorem schedule_runs_best s queue forked :
  task_runs s queue forked → queue ≠ [] → (length forked < fuel)%nat → (length queue < fuel)%nat →
  (∃ s', schedule fuel s = Ret tt s' ∧ rescheduled s s' queue forked In_schedule) ∧
  (∃ s', preempt_schedule_irq fuel s = Ret tt s' ∧ rescheduled s s' queue forked In_preempt_schedule_irq).
Proof. intros. split; [by apply schedule_ok|by apply preempt_schedule_irq_ok]. Qed.

(** A timer tick takes one from the counter of the current
    task, not below zero; it sets need_resched and reports the task just when
    the counter is used up, and touches no other task. *)
Theorem tick_handle_periodic_effect s queue forked t :
  sched_inv s queue forked → tasks s !! current s = Some t →
  ∃ s', tick_handle_periodic fuel s = Ret tt s' ∧ sched_inv s' queue forked ∧
    (∀ p, p ≠ current s → tasks s' !! p = tasks s !! p) ∧
    ∃ t', tasks s' !! current s = Some t' ∧ counter t' = Z.max 0 (counter t - 1) ∧
      need_resched t' = (if counter t <=? 1 then 1 else need_resched t) ∧
      console s' = (if counter t <=? 1
                    then console_printk ("pid %d need_resched" +++ nl) [KInt (pid t)] (console s)
                    else console s).
Proof.
  intros Hinv Ht. destruct (tick_inv fuel s queue forked Hinv) as (s1 & E & Hinv1 & _).
  pose proof (wf_counter _ _ (inv_tasks _ _ _ Hinv _ _ (inv_current _ _ _ Hinv) Ht)) as Hc.
  exists s1. split; [done|]. split; [done|]. rewrite (tick_eq fuel s t Ht Hc) in E. injection E as <-.
  cbn [tasks console set_console set_tasks]. split; [intros p Hp; by rewrite lookup_alter_ne|].
  exists (ticked t). rewrite lookup_alter_eq, Ht. split; [done|]. unfold ticked.
  destruct (Z.leb_spec (counter t) 1); cbn; (split; [lia|done]).
Qed.

(** C24 (invariant): the init task is not on the run queue (nothing enqueues it),
    so once another task runs it never runs again: through any sequence of calls
    of schedule, timer interrupts and returns to user space, the scheduler's
    invariant holds and the current task is a forked one. *)
Theorem init_task_never_runs_again s s' queue forked :
  task_runs s queue forked → queue ≠ [] → (length forked < fuel)%nat → (length queue < fuel)%nat →
  current s ≠ init_task → rtc (task_step fuel) s s' →
  task_runs s' queue forked ∧ current s' ≠ init_task.
Proof.
  intros Hs Hne Hff Hfq Hc Hsteps. induction Hsteps as [s|s s1 s2 Hstep _ IH]; [done|].
  destruct (task_step_ok fuel s s1 queue forked Hs Hne Hff Hfq Hstep) as [H1 H2].
  apply IH; [done|]. destruct H2 as [->|Hq]; [done|]. intros Heq. rewrite Heq in Hq.
  destruct (inv_links _ _ _ (tr_inv _ _ _ Hs)) as [Hnd _]. apply list.NoDup_cons in Hnd as [Hnin _].
  by apply Hnin, (inv_queue _ _ _ (tr_inv _ _ _ Hs)).
Qed.

(** With an empty run queue pick_next_task_nop returns its
    uninitialised local variable [next]: schedule has no defined behaviour. *)
Theorem schedule_empty_queue_uninit s forked :
  task_runs s [] forked → (0 < fuel)%nat → schedule fuel s = Fault Uninit.
Proof. apply schedule_empty. Qed.
End properties.

(** ** Instances *)

#[local] Existing Instance Example_sched.symbols.
#[local] Existing Instance log_console.

Lemma schedule_runs_best_witness :
  (∃ s', schedule 3 Example_sched.s0 = Ret tt s' ∧
     rescheduled Example_sched.s0 s' Example_sched.queue Example_sched.forked In_schedule) ∧
  (∃ s', preempt_schedule_irq 3 Example_sched.s0 = Ret tt s' ∧
     rescheduled Example_sched.s0 s' Example_sched.queue Example_sched.forked In_preempt_schedule_irq).
Proof. apply schedule_runs_best; [exact Example_sched.s0_runs|done|cbn; lia|cbn; lia]. Defined.

Lemma tick_handle_periodic_effect_witness :
  ∃ s', tick_handle_periodic 3 Example_sched.s0 = Ret tt s' ∧
    sched_inv s' Example_sched.queue Example_sched.forked ∧
    (∀ p, p ≠ current Example_sched.s0 → tasks s' !! p = tasks Example_sched.s0 !! p) ∧
    ∃ t', tasks s' !! current Example_sched.s0 = Some t' ∧ counter t' = 5 ∧ need_resched t' = 0 ∧ console s' = [].
Proof.
  exact (tick_handle_periodic_effect 3 Example_sched.s0 Example_sched.queue Example_sched.forked _
    (tr_inv _ _ _ Example_sched.s0_runs) eq_refl).
Defined.

Lemma init_task_never_runs_again_witness :
  ∃ s, schedule 3 Example_sched.s0 = Ret tt s ∧ current s = 0x400000 ∧
       task_runs s Example_sched.queue Example_sched.forked ∧
  ∃ s', timer_interrupt 3 s = Ret tt s' ∧
        task_runs s' Example_sched.queue Example_sched.forked ∧ current s' ≠ init_task.
Proof.
  destruct (schedule_ok 3 Example_sched.s0 Example_sched.queue Example_sched.forked)
    as (s & E & Hs & _); [exact Example_sched.s0_runs|done|cbn; lia|cbn; lia|].
  exists s. split; [exact E|].
  assert (current s = 0x400000) as Hc by (vm_compute in E; injection E as <-; reflexivity).
  split; [exact Hc|]. split; [exact Hs|].
  destruct (timer_interrupt_ok 3 s Example_sched.queue Example_sched.forked) as (s' & E' & _); [exact Hs|done|cbn; lia|cbn; lia|].
  exists s'. split; [exact E'|].
  apply (init_task_never_runs_again 3 s s'); [exact Hs|done|cbn; lia|cbn; lia|rewrite Hc; discriminate|].
  apply rtc_once. by apply step_timer_interrupt.
Defined.

Lemma schedule_empty_queue_uninit_witness :
  schedule 3 (set_rq (RunQueue 0 0 0) (lput (<[0x70000 := ListHead 0x70000 0x70000]> ∅) Example_sched.s0))
  = Fault Uninit.
Proof.
  apply (schedule_empty_queue_uninit 3 _ Example_sched.forked); [|lia].
  destruct Example_sched.s0_runs as [[] ? ?]. split; [split|..]; try done.
  - split; [apply NoDup_singleton|]. cbn. unfold edge. by split.
  - set_solver.
Defined.
