(* ===== verification/Fair.v ===== *)
(** * Fairness of the scheduler (kernel/sched.c, kernel/sched_nop.c)

    Liveness under the timer: however the counters are distributed, every task of
    the run queue gets to run within a number of timer interrupts that the counters
    and priorities bound.  The measure is the sum of the counters: a tick takes one
    from it, and it is only raised when every queued task, the waiting one included,
    is given a fresh counter. *)

From S2P Require Import Prelude Mmio Printk KList Sched.

(** The timer interrupts [n] times, the tasks doing nothing else. *)
Fixpoint timer_interrupts `{!SchedSymbols} {C} `{!Console C} (fuel n : nat) : M (sched C) unit :=
  match n with
  | O => skip
  | S n => timer_interrupt fuel ;; timer_interrupts fuel n
  end.

Fixpoint zsum (f : Z → Z) (l : list Z) : Z :=
  match l with [] => 0 | p :: l => f p + zsum f l end.

(** All the ticks the tasks have left, and those a recharge gives. *)
Definition load (ts : gmap Z task_struct) (l : list Z) : Z := zsum (counter_of ts) l.
Definition full_load (ts : gmap Z task_struct) (l : list Z) : Z := zsum (λ p, DEF_COUNTER + priority_of ts p) l.

Lemma zsum_ext f g l : (∀ p, p ∈ l → f p = g p) → zsum f l = zsum g l.
Proof.
  intros H. induction l as [|p l IH]; [done|]. cbn. rewrite (H p) by by apply elem_of_cons; left.
  f_equal. apply IH. intros q Hq. apply H. apply elem_of_cons. by right.
Qed.

Lemma zsum_nonneg f l : Forall (λ q, 0 ≤ f q) l → 0 ≤ zsum f l.
Proof. induction 1; cbn; lia. Qed.

Lemma zsum_ge f l p : Forall (λ q, 0 ≤ f q) l → p ∈ l → f p ≤ zsum f l.
Proof.
  induction 1 as [|q l Hq Hl IH]; intros Hp; [by apply elem_of_nil in Hp|].
  pose proof (zsum_nonneg f l Hl). cbn. apply elem_of_cons in Hp as [->|Hp]; [lia|]. specialize (IH Hp). lia.
Qed.

Lemma zsum_change f g l p :
  NoDup l → p ∈ l → (∀ q, q ≠ p → g q = f q) → zsum g l = zsum f l - f p + g p.
Proof.
  intros Hnd Hp H. induction Hnd as [|q l Hq Hnd IH]; [by apply elem_of_nil in Hp|]. cbn.
  destruct (decide (q = p)) as [->|Hne].
  - rewrite (zsum_ext g f l); [lia|]. intros x Hx. apply H. by intros ->.
  - rewrite (H q Hne), IH; [lia|]. apply elem_of_cons in Hp as [->|]; done.
Qed.

Section lemmas.
Context `{Hsym : !SchedSymbols} {C : Type} `{Hcon : !Console C} (fuel : nat).
Implicit Types (s : sched C) (p : Z).

(** The counters after a tick of the current task. *)
Definition ticked_counter s p : Z :=
  if decide (p = current s) then Z.max 0 (counter_of (tasks s) p - 1) else counter_of (tasks s) p.

Lemma ticked_counter_eq s p :
  0 ≤ counter_of (tasks s) (current s) →
  counter_of (alter ticked (current s) (tasks s)) p = ticked_counter s p.
Proof.
  unfold ticked_counter, counter_of. rewrite lookup_alter. intros H. repeat case_decide; try congruence; subst.
  destruct (tasks s !! current s) as [t|]; [|done]. cbn. unfold ticked.
  destruct (Z.leb_spec (counter t) 1); cbn; lia.
Qed.

Lemma counter_nonneg s queue forked p :
  sched_inv s queue forked → p ∈ init_task :: forked → 0 ≤ counter_of (tasks s) p.
Proof.
  intros Hs Hp. unfold counter_of. destruct (tasks s !! p) as [t|] eqn:Ht; [|done].
  apply (wf_counter _ _ (inv_tasks _ _ _ Hs _ _ Hp Ht)).
Qed.

Lemma priority_range s queue forked p :
  sched_inv s queue forked → p ∈ init_task :: forked → 0 ≤ priority_of (tasks s) p < 2 ^ 31 - 1 - DEF_COUNTER.
Proof.
  intros Hs Hp. unfold priority_of. destruct (tasks s !! p) as [t|] eqn:Ht; [|done].
  apply (wf_priority _ _ (inv_tasks _ _ _ Hs _ _ Hp Ht)).
Qed.

(** The counters a choice of the next task leaves. *)
Lemma charged_cases s queue forked p :
  sched_inv s queue forked →
  counter_of (charged forked queue (tasks s)) p
  = if decide (Forall (λ q, counter_of (tasks s) q = 0) queue ∧ p ∈ forked)
    then DEF_COUNTER + priority_of (tasks s) p else counter_of (tasks s) p.
Proof.
  intros Hs. destruct (forked_nodup s queue forked Hs) as [Hnd _]. unfold charged. case_bool_decide as Hz; cycle 1.
  { rewrite decide_False; [done|]. by intros [? _]. }
  destruct (decide (p ∈ forked)) as [Hp|Hp].
  - rewrite decide_True by done. destruct (links_lookup s forked p) as [t Ht]; [apply Hs|set_solver|].
    unfold priority_of. rewrite Ht. eapply counter_recharge; [done..|].
    eapply wf_priority, (inv_tasks _ _ _ Hs); [|done]. set_solver.
  - rewrite decide_False by by intros [_ ?]. unfold counter_of. rewrite lookup_recharge, decide_False by done.
    by rewrite option_fmap_id.
Qed.

(** What the choice of the next task promises: it has ticks left. *)
Lemma best_has_ticks s s' queue forked caller :
  sched_inv s queue forked → queue ≠ [] → rescheduled s s' queue forked caller →
  1 ≤ counter_of (tasks s') (current s').
Proof.
  intros Hs Hne (_ & [_ Hmax] & Hc & _).
  assert (∃ q, q ∈ queue ∧ 1 ≤ counter_of (charged forked queue (tasks s)) q) as (q & Hq & H1);
    [|specialize (Hmax q Hq); rewrite (Hc q) in Hmax; lia].
  destruct (decide (Forall (λ q, counter_of (tasks s) q = 0) queue)) as [Hz|Hz].
  - destruct queue as [|q l]; [done|]. exists q. split; [by apply elem_of_cons; left|].
    assert (q ∈ forked) as Hqf by (apply (inv_queue _ _ _ Hs), elem_of_cons; by left).
    rewrite (charged_cases s _ forked) by done. rewrite decide_True by done.
    pose proof (priority_range s _ forked q Hs ltac:(apply elem_of_cons; by right)).
    change DEF_COUNTER with 25. lia.
  - pose proof Hz as Hz'. apply (not_Forall_Exists _), list.Exists_exists in Hz' as (q & Hq & Hq0).
    exists q. split; [done|]. rewrite (charged_cases s _ forked) by done. rewrite decide_False by by intros [? _].
    pose proof (counter_nonneg s _ forked q Hs ltac:(apply elem_of_cons; right; by apply (inv_queue _ _ _ Hs))). cbn in Hq0. lia.
Qed.

(** One timer interrupt: a tick is taken from the current task; when every task of the
    queue is then without ticks, and only then, all are given new ones. *)
Lemma tick_cases s queue forked :
  task_runs s queue forked → queue ≠ [] → (length forked < fuel)%nat → (length queue < fuel)%nat →
  ∃ s', timer_interrupt fuel s = Ret tt s' ∧ task_runs s' queue forked ∧
    1 ≤ counter_of (tasks s') (current s') ∧ (∀ p, priority_of (tasks s') p = priority_of (tasks s) p) ∧
    ((∀ p, counter_of (tasks s') p = ticked_counter s p) ∨
     (∀ q, q ∈ queue → ticked_counter s q = 0) ∧
     ∀ p, counter_of (tasks s') p = if decide (p ∈ forked) then DEF_COUNTER + priority_of (tasks s) p
                                    else ticked_counter s p).
Proof.
  intros Hs Hne Hff Hfq. destruct (timer_interrupt_tick fuel s queue forked Hs) as (s1 & E & Hs1 & Hcur & Hcore & _).
  pose proof (tr_inv _ _ _ Hs1) as Hi1. pose proof (tr_inv _ _ _ Hs) as Hi.
  assert (∀ p, counter_of (tasks s1) p = ticked_counter s p) as Hc1.
  { intros p. rewrite (counter_same_core _ _ p Hcore). apply ticked_counter_eq, (counter_nonneg s queue forked); [done|apply Hi]. }
  assert (∀ p, priority_of (tasks s1) p = priority_of (tasks s) p) as Hp1.
  { intros p. rewrite (priority_same_core _ _ p Hcore). apply priority_alter. intros t. unfold ticked. by case_match. }
  destruct (inv_current_task _ _ _ Hi1) as [t Ht].
  destruct (el1_irq_exit_cases fuel s1 queue forked t Hs1 Hne Hff Hfq Ht) as (s' & E' & H'). rewrite <-(timer_interrupt_eq _ _ _ E) in E'.
  exists s'. split; [done|]. case_decide as Hnr.
  - subst s'. split; [done|]. split; [|split; [done|by left]].
    unfold counter_of. rewrite Ht. specialize (Hcore (current s1)). rewrite Ht, Hcur, lookup_alter_eq in Hcore.
    destruct (tasks s !! current s) as [t0|]; [|done]. cbn in Hcore. injection Hcore as _ _ Hc _ Hr.
    rewrite Hc. rewrite Hr in Hnr. unfold ticked in *. destruct (Z.leb_spec (counter t0) 1); [done|cbn; lia].
  - pose proof (best_has_ticks _ _ _ _ _ Hi1 Hne H') as Hb. destruct H' as (Hs' & _ & Hc & _ & _ & _ & Hp).
    split; [done|]. split; [done|]. split; [intros p; by rewrite Hp|].
    destruct (decide (Forall (λ q, counter_of (tasks s1) q = 0) queue)) as [Hz|Hz].
    + right. split; [intros q Hq; rewrite <-Hc1; by eapply list.Forall_forall in Hz|].
      intros p. rewrite Hc, (charged_cases s1 queue forked p Hi1), Hp1, Hc1. repeat case_decide; naive_solver.
    + left. intros p. by rewrite Hc, (charged_cases s1 queue forked p Hi1), decide_False by by intros [? _].
Qed.

(** *** The measure *)

Definition total s forked : Z := load (tasks s) (init_task :: forked).

Lemma total_ticked s s' queue forked :
  sched_inv s queue forked → (∀ p, counter_of (tasks s') p = ticked_counter s p) →
  total s' forked = total s forked - Z.min 1 (counter_of (tasks s) (current s)).
Proof.
  intros Hs H. destruct (inv_links _ _ _ Hs) as [Hnd _]. unfold total, load.
  rewrite (zsum_change (counter_of (tasks s)) _ _ (current s)) by
    (done || apply Hs || (intros q Hq; rewrite H; unfold ticked_counter; by rewrite decide_False)).
  rewrite H. unfold ticked_counter. rewrite decide_True by done.
  pose proof (counter_nonneg s queue forked (current s) Hs (inv_current _ _ _ Hs)). lia.
Qed.

Lemma total_recharged s s' queue forked :
  sched_inv s queue forked →
  (∀ p, counter_of (tasks s') p = if decide (p ∈ forked) then DEF_COUNTER + priority_of (tasks s) p
                                 else ticked_counter s p) →
  total s' forked ≤ counter_of (tasks s) init_task + full_load (tasks s) forked.
Proof.
  intros Hs H. destruct (forked_nodup s queue forked Hs) as [_ Hni]. unfold total, load, full_load. cbn [zsum].
  rewrite (zsum_ext (counter_of (tasks s')) (λ p, DEF_COUNTER + priority_of (tasks s) p) forked)
    by (intros q Hq; by rewrite H, decide_True).
  rewrite H, decide_False by done. unfold ticked_counter. case_decide as Hi; [|lia].
  pose proof (counter_nonneg s queue forked init_task Hs ltac:(apply elem_of_cons; by left)). lia.
Qed.

Lemma total_ge s queue forked : sched_inv s queue forked → counter_of (tasks s) (current s) ≤ total s forked.
Proof.
  intros Hs. apply zsum_ge; [|apply Hs]. apply list.Forall_forall. intros q Hq. by eapply counter_nonneg.
Qed.

Lemma full_load_same ts ts' l : (∀ p, priority_of ts' p = priority_of ts p) → full_load ts' l = full_load ts l.
Proof. intros H. apply zsum_ext. intros p _. by rewrite H. Qed.

(** [p] runs after at most [k] timer interrupts. *)
Definition runs_within (k : Z) s (queue forked : list Z) p : Prop :=
  ∃ n s', Z.of_nat n ≤ k ∧ timer_interrupts fuel n s = Ret tt s' ∧ task_runs s' queue forked ∧ current s' = p.

Lemma runs_now k s queue forked p : 0 ≤ k → task_runs s queue forked → current s = p → runs_within k s queue forked p.
Proof. intros Hk Hs Hp. by exists 0%nat, s. Qed.

Lemma runs_after k s s' queue forked p :
  timer_interrupt fuel s = Ret tt s' → runs_within k s' queue forked p → runs_within (k + 1) s queue forked p.
Proof.
  intros E (n & s2 & Hn & E2 & H). exists (S n), s2. split; [lia|]. split; [|done].
  cbn [timer_interrupts]. by rewrite (bind_eq _ _ _ _ _ E).
Qed.

Lemma runs_within_mono k k' s queue forked p : k ≤ k' → runs_within k s queue forked p → runs_within k' s queue forked p.
Proof. intros Hk (n & s' & Hn & H). exists n, s'. split; [lia|done]. Qed.

Section waiting.
Context (queue forked : list Z) (p : Z) (Hp : p ∈ queue).
Context (Hff : (length forked < fuel)%nat) (Hfq : (length queue < fuel)%nat).

Lemma queue_nonempty : queue ≠ [].
Proof. intros ->. by apply elem_of_nil in Hp. Qed.

Lemma other_ticked s : p ≠ current s → ticked_counter s p = counter_of (tasks s) p.
Proof. intros H. unfold ticked_counter. by rewrite decide_False. Qed.

(** A task that has ticks left waits for those of the others at most. *)
Lemma waits_with_ticks k s :
  task_runs s queue forked → 1 ≤ counter_of (tasks s) (current s) → 1 ≤ counter_of (tasks s) p →
  total s forked ≤ Z.of_nat k → runs_within (Z.of_nat k) s queue forked p.
Proof.
  revert s; induction k as [|k IH]; intros s Hs Hc Hcp Hk; pose proof (tr_inv _ _ _ Hs) as Hi;
    pose proof (total_ge s queue forked Hi); [lia|].
  destruct (decide (p = current s)) as [->|Hne]; [apply runs_now; [lia|done|done]|].
  destruct (tick_cases s queue forked Hs queue_nonempty Hff Hfq) as (s' & E & Hs' & Hc' & _ & [Ht|[Hz _]]); cycle 1.
  { specialize (Hz p Hp). rewrite other_ticked in Hz by done. lia. }
  rewrite Nat2Z.inj_succ. apply (runs_after _ s s'); [done|]. apply IH; [done|done| |].
  - by rewrite Ht, other_ticked.
  - rewrite (total_ticked s s' queue forked Hi Ht). lia.
Qed.

(** Any other waits for those of the others, and then for the ones they are given with it. *)
Lemma waits_for_recharge R k s :
  task_runs s queue forked → 1 ≤ counter_of (tasks s) (current s) → total s forked ≤ Z.of_nat k →
  counter_of (tasks s) init_task + full_load (tasks s) forked ≤ R → 0 ≤ R →
  runs_within (Z.of_nat k + R) s queue forked p.
Proof.
  revert s; induction k as [|k IH]; intros s Hs Hc Hk HR HR0; pose proof (tr_inv _ _ _ Hs) as Hi;
    pose proof (total_ge s queue forked Hi); [lia|].
  destruct (decide (p = current s)) as [->|Hne]; [apply runs_now; [lia|done|done]|].
  assert (p ∈ forked) as Hpf by by apply (inv_queue _ _ _ Hi).
  assert (0 ≤ counter_of (tasks s) (current s)) as Hc0 by lia.
  destruct (tick_cases s queue forked Hs queue_nonempty Hff Hfq) as (s' & E & Hs' & Hc' & Hpr & [Ht|[_ Ht]]).
  - replace (Z.of_nat (S k) + R) with (Z.of_nat k + R + 1) by lia. apply (runs_after _ s s'); [done|].
    apply IH; [done|done| | |done].
    + rewrite (total_ticked s s' queue forked Hi Ht). lia.
    + rewrite (full_load_same _ _ forked Hpr), Ht. unfold ticked_counter.
      pose proof (counter_nonneg s queue forked init_task Hi ltac:(apply elem_of_cons; by left)). case_decide; lia.
  - apply (runs_within_mono (R + 1)); [lia|]. apply (runs_after _ s s'); [done|].
    rewrite <-(Z2Nat.id R) by done. apply waits_with_ticks; [done|done| |].
    + rewrite Ht, decide_True by done. change DEF_COUNTER with 25.
      pose proof (priority_range s queue forked p Hi ltac:(apply elem_of_cons; by right)). lia.
    + pose proof (total_recharged s s' queue forked Hi Ht). lia.
Qed.
End waiting.

(** The wait from any state: the first tick, whatever the current task has left. *)
Lemma waits_at_most queue forked p s :
  task_runs s queue forked → p ∈ queue → (length forked < fuel)%nat → (length queue < fuel)%nat →
  runs_within (1 + total s forked + counter_of (tasks s) init_task + full_load (tasks s) forked) s queue forked p.
Proof.
  intros Hs Hp Hff Hfq. pose proof (tr_inv _ _ _ Hs) as Hi.
  assert (queue ≠ []) as Hne by (intros ->; by apply elem_of_nil in Hp).
  destruct (tick_cases s queue forked Hs Hne Hff Hfq) as (s' & E & Hs' & Hc' & Hpr & Ht).
  assert (0 ≤ counter_of (tasks s) init_task) as H0 by (eapply counter_nonneg; [done|apply elem_of_cons; by left]).
  assert (0 ≤ full_load (tasks s) forked) as Hf0.
  { apply zsum_nonneg, list.Forall_forall. intros q Hq. change DEF_COUNTER with 25.
    pose proof (priority_range s queue forked q Hi ltac:(apply elem_of_cons; by right)). lia. }
  assert (0 ≤ total s forked) as Ht0.
  { apply zsum_nonneg, list.Forall_forall. intros q Hq. by eapply counter_nonneg. }
  set (R := counter_of (tasks s) init_task + full_load (tasks s) forked).
  destruct (decide (p = current s)) as [->|Hpc]; [apply runs_now; [lia|done|done]|].
  apply (runs_within_mono (total s forked + R + 1)); [lia|]. apply (runs_after _ s s'); [done|].
  destruct Ht as [Ht|[_ Ht]].
  - rewrite <-(Z2Nat.id (total s forked)) by done.
    pose proof (counter_nonneg s queue forked (current s) Hi (inv_current _ _ _ Hi)).
    apply waits_for_recharge; [done..| | |lia].
    + rewrite (total_ticked s s' queue forked Hi Ht). lia.
    + rewrite (full_load_same _ _ forked Hpr), Ht. unfold ticked_counter. case_decide; lia.
  - apply (runs_within_mono R); [lia|]. rewrite <-(Z2Nat.id R) by lia.
    apply waits_with_ticks; [done..| |].
    + rewrite Ht, decide_True by by apply (inv_queue _ _ _ Hi). change DEF_COUNTER with 25.
      pose proof (priority_range s queue forked p Hi ltac:(apply elem_of_cons; right; by apply (inv_queue _ _ _ Hi))). lia.
    + pose proof (total_recharged s s' queue forked Hi Ht). lia.
Qed.
End lemmas.

(** ** Properties *)

(** No task of the run queue starves: from any state in which task code
    runs it is the current task after a number of timer interrupts bounded by the
    ticks all tasks have left and those a recharge gives them. *)
Theorem no_starvation `{!SchedSymbols} {C} `{!Console C} fuel (s : sched C) queue forked p :
  task_runs s queue forked → p ∈ queue → (length forked < fuel)%nat → (length queue < fuel)%nat →
  ∃ n s', Z.of_nat n ≤ 1 + total s forked + counter_of (tasks s) init_task + full_load (tasks s) forked ∧
    timer_interrupts fuel n s = Ret tt s' ∧ task_runs s' queue forked ∧ current s' = p.
Proof. intros. by apply waits_at_most. Qed.

(** ** Instances *)

#[local] Existing Instance Example_sched.symbols.
#[local] Existing Instance log_console.

Lemma no_starvation_witness :
  ∃ n s', Z.of_nat n ≤ 87 ∧ timer_interrupts 3 n Example_sched.s0 = Ret tt s' ∧
    task_runs s' Example_sched.queue Example_sched.forked ∧ current s' = 0x401000.
Proof.
  exact (no_starvation 3 Example_sched.s0 Example_sched.queue Example_sched.forked 0x401000 Example_sched.s0_runs
    ltac:(apply elem_of_cons; by left) ltac:(cbn; lia) ltac:(cbn; lia)).
Defined.
