(* ===== verification/Fork.v ===== *)
(** * kernel/fork.c: creating tasks

    do_fork, kernel_thread and move_to_user_space on top of the page allocator
    and the scheduler.  The exception frame at the top of a task's stack
    ([struct pt_regs], include/asm/system.h) is kept in a map by address. *)

From S2P Require Import Prelude Memory CString Format Printk PageAlloc KList Sched.

(** ** Data *)

(** [arch/arm64/include/asm/system.h:27-42] pt_regs *)
Record pt_regs : Type := PtRegs {
  gregs : list Z;                   (* x0 .. x30 *)
  regs_sp : Z;
  regs_pc : Z;
  pstate : Z;
  orig_x0 : Z;
  syscallno : Z;
  unused2 : Z;
  orig_addr_limit : Z;
  unused : Z;
  stackframe : Z * Z;
}.

Definition zero_regs : pt_regs := PtRegs (replicate 31 0) 0 0 0 0 0 0 0 0 (0, 0).

(** [arch/arm64/include/asm/asm-offsets.h:4-4] S_FRAME_SIZE, sizeof(struct pt_regs) *)
Definition sizeof_pt_regs : Z := 320.

(** [arch/arm64/include/asm/system.h:15-15] PSR_MODE_EL0t *)
Definition PSR_MODE_EL0t : Z := 0.
(** [arch/arm64/include/asm/system.h:17-17] PSR_MODE_EL1h *)
Definition PSR_MODE_EL1h : Z := 5.

(** [include/sched.h:11-11] NR_TASKS *)
Definition NR_TASKS : Z := 128.

(** [kernel/fork.c:8-11] g_task: the variables of the file; init_task is in [tasks] *)
Record fork_state (C : Type) : Type := ForkState {
  f_sched : sched C;
  f_pages : pages;
  f_regs : gmap Z pt_regs;
  g_task : list Z;
  total_forks : Z;
}.
Arguments ForkState {C}. Arguments f_sched {C}. Arguments f_pages {C}.
Arguments f_regs {C}. Arguments g_task {C}. Arguments total_forks {C}.

#[export] Program Instance lens_f_sched C : Lens (fork_state C) (sched C) := {|
  lget := f_sched;
  lput := λ x s, ForkState x (f_pages s) (f_regs s) (g_task s) (total_forks s);
|}.
Solve All Obligations with by intros; repeat match goal with p : fork_state _ |- _ => destruct p end.

#[export] Program Instance lens_f_pages C : Lens (fork_state C) pages := {|
  lget := f_pages;
  lput := λ x s, ForkState (f_sched s) x (f_regs s) (g_task s) (total_forks s);
|}.
Solve All Obligations with by intros; repeat match goal with p : fork_state _ |- _ => destruct p end.

Definition set_gregs i v (r : pt_regs) : pt_regs :=
  PtRegs (<[i := v]> (gregs r)) (regs_sp r) (regs_pc r) (pstate r) (orig_x0 r) (syscallno r)
    (unused2 r) (orig_addr_limit r) (unused r) (stackframe r).
Definition set_regs_sp v (r : pt_regs) : pt_regs :=
  PtRegs (gregs r) v (regs_pc r) (pstate r) (orig_x0 r) (syscallno r)
    (unused2 r) (orig_addr_limit r) (unused r) (stackframe r).
Definition set_regs_pc v (r : pt_regs) : pt_regs :=
  PtRegs (gregs r) (regs_sp r) v (pstate r) (orig_x0 r) (syscallno r)
    (unused2 r) (orig_addr_limit r) (unused r) (stackframe r).
Definition set_pstate v (r : pt_regs) : pt_regs :=
  PtRegs (gregs r) (regs_sp r) (regs_pc r) v (orig_x0 r) (syscallno r)
    (unused2 r) (orig_addr_limit r) (unused r) (stackframe r).

(** A zeroed [struct task_struct]. *)
Definition zero_task : task_struct := TaskStruct TASK_RUNNING 0 0 zero_context 0 0 0 0 0 0.

(** ** The code *)

Section fork.
Context `{Hsym : !SchedSymbols} {C : Type} `{Hcon : !Console C} (fuel : nat).
Implicit Types (s : fork_state C) (p : Z).
Abbreviation F := (M (fork_state C)).

(** Accesses to the exception frame at an address. *)
Definition load_regs (a : Z) : F pt_regs := λ s,
  match f_regs s !! a with Some r => Ret r s | None => Fault (WildAddr a) end.
Definition store_regs (a : Z) (r : pt_regs) : F unit := λ s,
  Ret tt (ForkState (f_sched s) (f_pages s) (<[a := r]> (f_regs s)) (g_task s) (total_forks s)).
Definition update_regs (a : Z) (f : pt_regs → pt_regs) : F unit := r ← load_regs a; store_regs a (f r).

(** [kernel/fork.c:13-19] SET_LINKS *)
Definition SET_LINKS (p : Z) : M (sched C) unit :=
  set_task p (with_next_task init_task) ;;
  i ← task init_task;
  set_task p (with_prev_task (prev_task i)) ;;
  i ← task init_task;
  set_task (prev_task i) (with_next_task p) ;;
  set_task init_task (with_prev_task p).

(** [kernel/fork.c:21-31] find_empty_task *)
Definition find_empty_task : F Z :=
  gets (λ s, match find_free (map (λ a, negb (a =? 0)) (g_task s)) 0 with Some i => i | None => -1 end).

(** [kernel/fork.c:33-38] task_pt_regs *)
Definition task_pt_regs (tsk : Z) : Z := u64 (u64 (tsk + THREAD_SIZE) - sizeof_pt_regs).

(** A store to a page.  Forks run with the MMU on, and the tables paging_init made map no
    page from TOTAL_MEMORY on (past_memory_unmapped of Mmu.v), although the allocator has
    such pages: a store there aborts. *)
Definition touch_page (p : Z) : F unit := if p <? TOTAL_MEMORY then skip else throw (WildAddr p).

(** memset(p, 0, sizeof( *p)) on a page that becomes a task structure: the
    structure and its list node are zero. *)
Definition zero_task_struct (p : Z) : F unit :=
  touch_page p ;;
  zoom (modify (λ s : sched C, lput (<[p + RUN_LIST := ListHead 0 0]> (nodes s))
                                    (set_tasks (<[p := zero_task]> (tasks s)) s))).

(** [kernel/fork.c:40-66] copy_thread *)
Definition copy_thread (clone_flags p stack arg : Z) : F Z :=
  let childregs := task_pt_regs p in
  store_regs childregs zero_regs ;;
  zoom (set_task p (with_context zero_context)) ;;
  ok ← (if negb (Z.land clone_flags PF_KTHREAD =? 0) then
          update_regs childregs (set_pstate PSR_MODE_EL1h) ;;
          zoom (set_task p (λ t, with_context (set_x19 stack (context t)) t)) ;;
          zoom (set_task p (λ t, with_context (set_x20 arg (context t)) t)) ;;
          mret true
        else
          c ← zoom get_current;
          r ← load_regs (task_pt_regs c);
          store_regs childregs r ;;
          update_regs childregs (set_gregs 0 0) ;;
          if stack =? 0 then mret true
          else if negb (Z.land stack 15 =? 0) then mret false
          else update_regs childregs (set_regs_sp stack) ;; mret true);
  if negb ok then mret (-1) else
  zoom (set_task p (λ t, with_context (set_pc ret_from_fork (context t)) t)) ;;
  zoom (set_task p (λ t, with_context (set_sp childregs (context t)) t)) ;;
  mret 0.

(** [kernel/fork.c:74-112] do_fork; free_task ([kernel/fork.c:68-71]) only
    clears its own copy of the pointer *)
Definition do_fork (clone_flags stack arg : Z) : F Z :=
  p ← zoom get_free_page;
  if p =? 0 then mret (-1) else
  zero_task_struct p ;;
  pid ← find_empty_task;
  if pid <? 0 then zoom (free_page p) ;; mret (-1) else
  failed ← copy_thread clone_flags p stack arg;
  if negb (failed =? 0) then zoom (free_page p) ;; mret (-1) else
  zoom (set_task p (with_state TASK_RUNNING)) ;;
  zoom (set_task p (with_pid pid)) ;;
  c ← zoom get_current; t ← zoom (task c);
  zoom (set_task p (with_counter (Z.shiftr (s32 (counter t + 1)) 1))) ;;
  zoom (set_task c (λ t, with_counter (Z.shiftr (counter t) 1) t)) ;;
  zoom (set_task p (with_need_resched 0)) ;;
  zoom (set_task p (with_preempt_count 0)) ;;
  zoom (set_task p (with_priority 2)) ;;
  modify (λ s, ForkState (f_sched s) (f_pages s) (f_regs s) (g_task s) (u64 (total_forks s + 1))) ;;
  modify (λ s, ForkState (f_sched s) (f_pages s) (f_regs s) (<[Z.to_nat pid := p]> (g_task s)) (total_forks s)) ;;
  zoom (SET_LINKS p) ;;
  zoom (wake_up_process fuel p) ;;
  mret pid.

(** [kernel/fork.c:114-121] start_user_thread *)
Definition start_user_thread (regs pc sp : Z) : F unit :=
  store_regs regs zero_regs ;;
  update_regs regs (set_regs_pc pc) ;;
  update_regs regs (set_pstate PSR_MODE_EL0t) ;;
  update_regs regs (set_regs_sp sp).

(** [kernel/fork.c:123-126] kernel_thread *)
Definition kernel_thread (fn arg flags : Z) : F Z := do_fork (Z.lor flags PF_KTHREAD) fn arg.

(** [kernel/fork.c:128-142] move_to_user_space; the new stack page, cleared
    with memset, holds no object the model keeps, but it has to be mapped *)
Definition move_to_user_space (pc : Z) : F Z :=
  c ← zoom get_current;
  stack ← zoom get_free_page;
  if stack =? 0 then mret (-1) else
  touch_page stack ;;
  start_user_thread (task_pt_regs c) pc (u64 (stack + PAGE_SIZE)) ;;
  mret 0.
End fork.

(** ** The invariant *)

(** Each forked task owns the page it is in; the kernel image, with the init task
    and the run queue, lies below the pages; the table of tasks holds exactly
    the init task and the forked ones. *)
Record fork_inv `{!SchedSymbols} {C} (s : fork_state C) (queue forked : list Z) : Prop := {
  fi_runs : task_runs (f_sched s) queue forked;
  fi_pages : pages_ok (f_pages s);
  fi_used : ∀ p, p ∈ forked → page_used (f_pages s) p;
  fi_layout : 0 < init_task < LOW_MEMORY ∧ g_ready_queue < LOW_MEMORY;
  fi_table : length (g_task s) = Z.to_nat NR_TASKS;
  fi_tasks : filter (λ a, a ≠ 0) (g_task s) ≡ₚ init_task :: forked;
}.

(** ** Lemmas *)

Section lemmas.
Context `{Hsym : !SchedSymbols} {C : Type} `{Hcon : !Console C} (fuel : nat).
Implicit Types (s : fork_state C) (p : Z).

(** The state with the task structure [x] at [p]. *)
Definition with_child p x ts s : fork_state C := lput (set_tasks (<[p := x]> ts) (f_sched s)) s.
Definition with_frame a r s : fork_state C :=
  ForkState (f_sched s) (f_pages s) (<[a := r]> (f_regs s)) (g_task s) (total_forks s).

Lemma alter_insert_self p x f (ts : gmap Z task_struct) : alter f p (<[p := x]> ts) = <[p := f x]> ts.
Proof. apply map_eq. intros q. rewrite lookup_alter, !lookup_insert. by repeat case_decide. Qed.

Lemma alter_insert_other p q x f (ts : gmap Z task_struct) :
  q ≠ p → alter f q (<[p := x]> ts) = <[p := x]> (alter f q ts).
Proof.
  intros Hne. apply map_eq. intros r. rewrite lookup_alter, !lookup_insert, lookup_alter.
  repeat case_decide; congruence.
Qed.

Lemma bind_set_child {B} p x ts s f (k : unit → M (fork_state C) B) :
  (zoom (set_task p f) ≫= k) (with_child p x ts s) = k tt (with_child p (f x) ts s).
Proof.
  apply bind_eq. rewrite (zoom_eq _ _ tt (set_tasks (<[p := f x]> ts) (f_sched s))); [done|].
  cbn. rewrite (set_task_eq _ p f x) by (cbn; by rewrite lookup_insert_eq). cbn.
  by rewrite alter_insert_self.
Qed.

Lemma bind_set_other {B} p x ts s q t f (k : unit → M (fork_state C) B) :
  q ≠ p → ts !! q = Some t →
  (zoom (set_task q f) ≫= k) (with_child p x ts s) = k tt (with_child p x (alter f q ts) s).
Proof.
  intros Hne Ht. apply bind_eq.
  rewrite (zoom_eq _ _ tt (set_tasks (<[p := x]> (alter f q ts)) (f_sched s))); [done|].
  cbn. rewrite (set_task_eq _ q f t) by (cbn [tasks set_tasks]; rewrite lookup_insert_ne by congruence; exact Ht). cbn.
  by rewrite alter_insert_other.
Qed.

Lemma bind_store_regs {B} p x ts s a r (k : unit → M (fork_state C) B) :
  (store_regs a r ≫= k) (with_child p x ts s) = k tt (with_child p x ts (with_frame a r s)).
Proof. done. Qed.

Lemma bind_update_regs {B} p x ts s a r f (k : unit → M (fork_state C) B) :
  (update_regs a f ≫= k) (with_child p x ts (with_frame a r s))
  = k tt (with_child p x ts (with_frame a (f r) s)).
Proof.
  apply bind_eq. unfold update_regs, load_regs, store_regs, mbind, M_bind. cbn.
  rewrite lookup_insert_eq. unfold with_child, with_frame; cbn. by rewrite insert_insert_eq.
Qed.

Lemma task_pt_regs_eq p : 0 < p < 2 ^ 64 - THREAD_SIZE → task_pt_regs p = p + 3776.
Proof.
  unfold task_pt_regs, sizeof_pt_regs. change THREAD_SIZE with 4096. intros Hp.
  rewrite (u64_id (p + 4096)), u64_id by lia. lia.
Qed.

Lemma page_stack_base p : page_ok p → stack_base p = p ∧ stack_base (p + 3776) = p ∧ 0 < p < 2 ^ 64 - THREAD_SIZE.
Proof.
  intros [Hm Hr]. unfold stack_base. change THREAD_SIZE with (2 ^ 12).
  autorewrite with page_consts in *. rewrite !land_mask_down by lia.
  change (2 ^ 12) with 4096. pose proof (Z.div_mod p 4096). split; [|split; [|lia]].
  - lia.
  - rewrite <-(Z.div_unique (p + 3776) 4096 (p / 4096) 3776) by lia. lia.
Qed.

(** The memset calls of fork.c clear exactly the object they name. *)
Lemma fork_memsets p m :
  page_ok p →
  memset p 0 sizeof_task_struct m = Ret p (fill p sizeof_task_struct 0 m) ∧
  memset (p + THREAD_CPU_CONTEXT) 0 (13 * 8) m
    = Ret (p + THREAD_CPU_CONTEXT) (fill (p + THREAD_CPU_CONTEXT) (13 * 8) 0 m) ∧
  memset (task_pt_regs p) 0 sizeof_pt_regs m
    = Ret (task_pt_regs p) (fill (task_pt_regs p) sizeof_pt_regs 0 m).
Proof.
  intros Hp. destruct (page_stack_base p Hp) as (_ & _ & Hr). rewrite task_pt_regs_eq by done.
  destruct Hp as [Hm _]. change THREAD_SIZE with 4096 in Hr. autorewrite with page_consts in Hm.
  assert (p mod 16 = 0 ∧ (p + 16) mod 16 = 0 ∧ (p + 3776) mod 16 = 0) as (H1 & H2 & H3).
  { pose proof (Z.div_mod p 4096). replace p with (p / 4096 * 256 * 16) by lia.
    replace (p / 4096 * 256 * 16 + 16) with ((p / 4096 * 256 + 1) * 16) by lia.
    replace (p / 4096 * 256 * 16 + 3776) with ((p / 4096 * 256 + 236) * 16) by lia.
    by rewrite !Z.mod_mul. }
  change THREAD_CPU_CONTEXT with 16. unfold sizeof_task_struct, sizeof_pt_regs.
  split; [|split]; rewrite memset_extent_fill by lia; unfold memset_extent; rewrite ?H1, ?H2, ?H3; done.
Qed.

Lemma zero_task_struct_eq p s :
  p < TOTAL_MEMORY →
  zero_task_struct p s = Ret tt (lput (lput (<[p + RUN_LIST := ListHead 0 0]> (nodes (f_sched s)))
                                    (set_tasks (<[p := zero_task]> (tasks (f_sched s))) (f_sched s))) s).
Proof. intros Hp. unfold zero_task_struct, touch_page. by rewrite (proj2 (Z.ltb_lt _ _) Hp). Qed.

(** *** SET_LINKS *)

Lemma links_next_of ts q : next_of (task_links ts) q = next_task <$> ts !! q.
Proof. unfold next_of, task_links. rewrite lookup_fmap. by destruct (ts !! q). Qed.
Lemma links_prev_of ts q : prev_of (task_links ts) q = prev_task <$> ts !! q.
Proof. unfold prev_of, task_links. rewrite lookup_fmap. by destruct (ts !! q). Qed.

Definition no_links (t : task_struct) : task_struct := with_next_task 0 (with_prev_task 0 t).

Definition linked_tasks (ts : gmap Z task_struct) (l p : Z) (x : task_struct) : gmap Z task_struct :=
  alter (with_prev_task p) init_task (alter (with_next_task p) l
    (<[p := with_prev_task l (with_next_task init_task x)]> ts)).

Lemma SET_LINKS_eq (sc : sched C) ts forked p x :
  ring (task_links ts) init_task forked → p ∉ init_task :: forked →
  SET_LINKS p (set_tasks (<[p := x]> ts) sc)
  = Ret tt (set_tasks (linked_tasks ts (last_of init_task forked) p x) sc).
Proof.
  intros Hr Hp. pose proof (seg_last _ _ _ _ (proj2 Hr)) as [Hl1 Hl2].
  rewrite links_next_of in Hl1. rewrite links_prev_of in Hl2.
  set (l := last_of init_task forked) in *.
  destruct (ts !! init_task) as [it|] eqn:Hi; [|done]. injection Hl2 as Hl2.
  destruct (ts !! l) as [lt|] eqn:Hlt; [|done].
  assert (p ≠ init_task) by set_solver. assert (p ≠ l).
  { intros ->. apply Hp, last_of_in. }
  unfold SET_LINKS.
  rewrite (bind_eq _ _ _ _ _ (set_task_eq (set_tasks (<[p := x]> ts) sc) p _ x ltac:(cbn; by rewrite lookup_insert_eq))).
  cbn [tasks set_tasks]. rewrite alter_insert_self.
  match goal with |- (task _ ≫= _) ?y = _ => set (s1 := y) end.
  rewrite (bind_eq _ _ _ _ _ (task_eq s1 init_task it ltac:(unfold s1; cbn; by rewrite lookup_insert_ne))), Hl2.
  rewrite (bind_eq _ _ _ _ _ (set_task_eq s1 p _ _ ltac:(unfold s1; cbn; by rewrite lookup_insert_eq))).
  cbn [tasks set_tasks s1]. rewrite alter_insert_self.
  match goal with |- (task _ ≫= _) ?y = _ => set (s2 := y) end.
  rewrite (bind_eq _ _ _ _ _ (task_eq s2 init_task it ltac:(unfold s2; cbn; by rewrite lookup_insert_ne))), Hl2.
  rewrite (bind_eq _ _ _ _ _ (set_task_eq s2 l _ lt ltac:(unfold s2; cbn; by rewrite lookup_insert_ne))).
  match goal with |- set_task _ _ ?y = _ => set (s3 := y) end.
  assert (is_Some (tasks s3 !! init_task)) as [it3 Hit3].
  { unfold s3; cbn [tasks set_tasks s2]. rewrite lookup_alter.
    case_decide as Hd; rewrite ?Hd, lookup_insert_ne, Hi by done; eauto. }
  by rewrite (set_task_eq s3 init_task _ it3 Hit3).
Qed.

Lemma linked_tasks_ring ts forked p x :
  ring (task_links ts) init_task forked → p ∉ init_task :: forked →
  let ts' := linked_tasks ts (last_of init_task forked) p x in
  ring (task_links ts') init_task (forked ++ [p]) ∧
  no_links <$> ts' !! p = Some (no_links x) ∧
  ∀ q, q ≠ p → no_links <$> ts' !! q = no_links <$> ts !! q.
Proof.
  intros Hr Hp ts'. pose proof (last_of_in init_task forked) as Hin.
  pose proof (seg_last _ _ _ _ (proj2 Hr)) as [Hl1 Hl2].
  rewrite links_next_of in Hl1. rewrite links_prev_of in Hl2.
  set (l := last_of init_task forked) in *.
  destruct (ts !! init_task) as [it|] eqn:Hi; [|done].
  destruct (ts !! l) as [lt|] eqn:Hlt; [|done].
  assert (p ≠ init_task) by set_solver. assert (p ≠ l) by (intros ->; by apply Hp).
  assert (∀ q, ts' !! q = (if decide (init_task = q) then with_prev_task p else id) <$>
    ((if decide (l = q) then with_next_task p else id) <$>
     (if decide (p = q) then Some (with_prev_task l (with_next_task init_task x)) else ts !! q))) as Hlk.
  { intros q. unfold ts', linked_tasks. rewrite !lookup_alter, !lookup_insert.
    repeat case_decide; subst; rewrite ?option_fmap_id; congruence. }
  destruct (ring_nodup _ _ _ Hr) as [Hnd1 Hnd2]. destruct Hr as [_ Hr].
  rewrite <-(app_nil_r forked) in Hr, Hnd1.
  split; [split|split].
  - rewrite app_comm_cons. apply list.NoDup_app. rewrite app_nil_r in Hnd1.
    split; [done|]. split; [set_solver|apply NoDup_singleton].
  - eapply (seg_insert (task_links ts) _ init_task forked p []); [..|exact Hr].
    + intros q. rewrite !links_next_of, Hlk. fold l. cbn [first_of].
      repeat case_decide; subst; try congruence; rewrite ?Hlt, ?Hi in *; cbn; try done; by destruct (ts !! q).
    + intros q. rewrite !links_prev_of, Hlk. fold l. cbn [first_of].
      repeat case_decide; subst; try congruence; rewrite ?Hlt, ?Hi in *; cbn; try done; by destruct (ts !! q).
    + done.
    + by rewrite app_nil_l.
    + cbn. set_solver.
  - rewrite Hlk, (decide_False (P := init_task = p)), (decide_False (P := l = p)), decide_True by done. done.
  - intros q Hq. rewrite Hlk, (decide_False (P := p = q)) by done.
    destruct (ts !! q); repeat case_decide; done.
Qed.

(** *** copy_thread *)

(** The context of a task that has not run yet. *)
Definition fork_context (fn arg p : Z) : cpu_context :=
  CpuContext fn arg 0 0 0 0 0 0 0 0 0 (task_pt_regs p) ret_from_fork.

Lemma with_frame_twice a r r' s : with_frame a r' (with_frame a r s) = with_frame a r' s.
Proof. unfold with_frame; cbn. by rewrite insert_insert_eq. Qed.

Lemma copy_thread_kernel flags stack arg p x ts s :
  Z.land flags PF_KTHREAD ≠ 0 →
  copy_thread flags p stack arg (with_child p x ts s)
  = Ret 0 (with_child p (with_context (fork_context stack arg p) x) ts
             (with_frame (task_pt_regs p) (set_pstate PSR_MODE_EL1h zero_regs) s)).
Proof.
  intros Hf. unfold copy_thread. rewrite bind_store_regs, bind_set_child.
  rewrite (proj2 (Z.eqb_neq _ _) Hf). cbn [negb].
  rewrite (bind_assoc (update_regs _ _) _ _ _), bind_update_regs.
  rewrite (bind_assoc (zoom _) _ _ _), bind_set_child.
  rewrite (bind_assoc (zoom _) _ _ _), bind_set_child. rewrite bind_mret. cbn [negb].
  by rewrite !bind_set_child.
Qed.

(** The frame of a task cloned from user space. *)
Definition user_frame (stack : Z) (r : pt_regs) : pt_regs :=
  if stack =? 0 then set_gregs 0 0 r else set_regs_sp stack (set_gregs 0 0 r).

Lemma copy_thread_user flags stack arg p ts s r :
  Z.land flags PF_KTHREAD = 0 → Z.land stack 15 = 0 →
  f_regs s !! task_pt_regs (current (f_sched s)) = Some r →
  task_pt_regs (current (f_sched s)) ≠ task_pt_regs p →
  copy_thread flags p stack arg (with_child p zero_task ts s)
  = Ret 0 (with_child p (with_context (fork_context 0 0 p) zero_task) ts
             (with_frame (task_pt_regs p) (user_frame stack r) s)).
Proof.
  intros Hf Hs Hr Hne. unfold copy_thread. rewrite bind_store_regs, bind_set_child, Hf.
  cbn [Z.eqb negb].
  match goal with |- (_ ≫= _) ?y = _ => set (s1 := y) end.
  rewrite (bind_assoc (zoom get_current) _ _ s1).
  assert (zoom get_current s1 = Ret (current (f_sched s)) s1) as Hc by done.
  rewrite (bind_eq _ _ _ _ _ Hc), (bind_assoc (load_regs _) _ _ s1).
  assert (load_regs (task_pt_regs (current (f_sched s))) s1 = Ret r s1) as Hl.
  { unfold load_regs. cbn. by rewrite lookup_insert_ne, Hr by done. }
  rewrite (bind_eq _ _ _ _ _ Hl). unfold s1.
  rewrite (bind_assoc (store_regs _ _) _ _ _), bind_store_regs, with_frame_twice.
  rewrite (bind_assoc (update_regs _ _) _ _ _), bind_update_regs. unfold user_frame.
  destruct (stack =? 0).
  - rewrite bind_mret. cbn [negb]. by rewrite !bind_set_child.
  - rewrite Hs. cbn [Z.eqb negb].
    rewrite (bind_assoc (update_regs _ _) _ _ _), bind_update_regs, bind_mret. cbn [negb].
    by rewrite !bind_set_child.
Qed.

Lemma copy_thread_misaligned flags stack arg p ts s r :
  Z.land flags PF_KTHREAD = 0 → Z.land stack 15 ≠ 0 →
  f_regs s !! task_pt_regs (current (f_sched s)) = Some r →
  task_pt_regs (current (f_sched s)) ≠ task_pt_regs p →
  copy_thread flags p stack arg (with_child p zero_task ts s)
  = Ret (-1) (with_child p zero_task ts (with_frame (task_pt_regs p) (set_gregs 0 0 r) s)).
Proof.
  intros Hf Hs Hr Hne. unfold copy_thread. rewrite bind_store_regs, bind_set_child, Hf.
  cbn [Z.eqb negb].
  match goal with |- (_ ≫= _) ?y = _ => set (s1 := y) end.
  rewrite (bind_assoc (zoom get_current) _ _ s1).
  assert (zoom get_current s1 = Ret (current (f_sched s)) s1) as Hc by done.
  rewrite (bind_eq _ _ _ _ _ Hc), (bind_assoc (load_regs _) _ _ s1).
  assert (load_regs (task_pt_regs (current (f_sched s))) s1 = Ret r s1) as Hl.
  { unfold load_regs. cbn. by rewrite lookup_insert_ne, Hr by done. }
  rewrite (bind_eq _ _ _ _ _ Hl). unfold s1.
  rewrite (bind_assoc (store_regs _ _) _ _ _), bind_store_regs, with_frame_twice.
  rewrite (bind_assoc (update_regs _ _) _ _ _), bind_update_regs.
  destruct (Z.eqb_spec stack 0) as [->|]; [done|].
  rewrite (proj2 (Z.eqb_neq _ _) Hs). cbn [negb]. by rewrite bind_mret.
Qed.

(** *** The scheduler's invariant after SET_LINKS *)

Lemma wf_no_links p t t' : no_links t = no_links t' → task_wf p t' → task_wf p t.
Proof. destruct t, t'. unfold no_links; cbn. intros [= ]; subst. intros []; by split. Qed.

Lemma suspended_no_links fs p t t' : no_links t = no_links t' → suspended fs p t' → suspended fs p t.
Proof. destruct t, t'. unfold no_links, suspended; cbn. intros [= ]; subst. done. Qed.

Lemma no_links_lookup (ts ts' : gmap Z task_struct) q t :
  no_links <$> ts' !! q = no_links <$> ts !! q → ts' !! q = Some t →
  ∃ t', ts !! q = Some t' ∧ no_links t = no_links t'.
Proof. intros H Ht. rewrite Ht in H. destruct (ts !! q) as [t'|]; [|done]. exists t'. split; [done|]. by apply (inj Some). Qed.

Lemma link_child_inv (sc : sched C) ts queue forked p x n :
  task_runs (set_tasks ts sc) queue forked → page_ok p → p ∉ init_task :: forked →
  node_of p ≠ g_ready_queue →
  state x = TASK_RUNNING → 0 ≤ counter x < 2 ^ 31 - 1 → 0 ≤ priority x < 2 ^ 31 - 1 - DEF_COUNTER →
  preempt_count x = 0 → context x = fork_context (x19 (context x)) (x20 (context x)) p →
  task_runs (lput (<[node_of p := n]> (nodes sc))
    (set_tasks (linked_tasks ts (last_of init_task forked) p x) sc)) queue (forked ++ [p]).
Proof.
  intros [[Hr Hn Hl Hq Hwf Hc Hs] Hrun Hpc] Hp Hpn Hne Hst Hcnt Hpri Hpre Hctx.
  destruct (linked_tasks_ring ts forked p x Hl Hpn) as (Hl' & Hx & Hother).
  set (ts' := linked_tasks ts (last_of init_task forked) p x) in *.
  destruct (page_stack_base p Hp) as (Hb1 & Hb2 & Hb3).
  cbn [tasks set_tasks] in *. change (current (set_tasks ts sc)) with (current sc) in *.
  assert (current sc ≠ p) as Hcp by (intros Heq; by rewrite Heq in Hc).
  assert (∀ t, ts' !! p = Some t → no_links t = no_links x) as Hxp by (intros t Ht; rewrite Ht in Hx; by apply (inj Some)).
  split; [split|..]; cbn [tasks nodes rq frames lput lens_nodes set_tasks].
  - eapply ring_frame; [|exact Hr]. intros y Hy. rewrite lookup_insert_ne; [done|]. intros <-.
    apply elem_of_cons in Hy as [Hy|Hy]; [done|].
    apply (list_elem_of_fmap_1 node_of queue) in Hy as (q & Heq & Hin).
    apply (inj node_of) in Heq as ->. apply Hpn. specialize (Hq _ Hin). set_solver.
  - done.
  - done.
  - intros q Hin. specialize (Hq q Hin). set_solver.
  - intros q t Hin Ht. destruct (decide (q = p)) as [->|Hqp].
    + apply (wf_no_links p t x); [by apply Hxp|by split].
    + destruct (no_links_lookup ts ts' q t (Hother q Hqp) Ht) as (t' & Ht' & He).
      apply (wf_no_links q t t'); [done|]. apply Hwf; [set_solver|done].
  - change (current sc ∈ init_task :: forked ++ [p]). set_solver.
  - change (current (lput _ _)) with (current sc). intros q t Hin Ht Hqc. destruct (decide (q = p)) as [->|Hqp].
    + apply (suspended_no_links _ p t x); [by apply Hxp|]. split; rewrite Hctx; cbn [sp pc fork_context].
      * by rewrite task_pt_regs_eq.
      * by left.
    + destruct (no_links_lookup ts ts' q t (Hother q Hqp) Ht) as (t' & Ht' & He).
      apply (suspended_no_links _ q t t'); [done|]. apply Hs; [set_solver|done..].
  - intros q t Ht. cbn in Ht. destruct (decide (q = p)) as [->|Hqp].
    + specialize (Hxp t Ht). apply (f_equal state) in Hxp. cbn in Hxp. by rewrite Hxp.
    + destruct (no_links_lookup ts ts' q t (Hother q Hqp) Ht) as (t' & Ht' & He).
      specialize (Hrun q t' Ht'). apply (f_equal state) in He. cbn in He. by rewrite He.
  - change (match ts' !! current sc with Some t => preempt_count t | None => 0 end = 0).
    change (match ts !! current sc with Some t => preempt_count t | None => 0 end = 0) in Hpc.
    specialize (Hother _ Hcp). destruct (ts' !! current sc) as [t|], (ts !! current sc) as [t'|]; try done.
    apply (inj Some), (f_equal preempt_count) in Hother. cbn in Hother. by rewrite Hother.
Qed.

(** *** The table of tasks *)

Lemma filter_table (l : list Z) i p :
  l !! i = Some 0 → p ≠ 0 → filter (λ a, a ≠ 0) (<[i := p]> l) ≡ₚ p :: filter (λ a, a ≠ 0) l.
Proof.
  intros Hi Hp. rewrite insert_take_drop by (by eapply lookup_lt_Some).
  rewrite <-(take_drop_middle l i 0 Hi) at 3. rewrite !list.filter_app.
  rewrite filter_cons_True by done. rewrite filter_cons_False by (intros H; by apply H).
  by rewrite Permutation_middle.
Qed.

Lemma find_empty_task_eq s i :
  find_free (map (λ a, negb (a =? 0)) (g_task s)) 0 = Some i →
  find_empty_task s = Ret i s ∧ 0 ≤ i < Z.of_nat (length (g_task s)) ∧
  g_task s !! Z.to_nat i = Some 0 ∧
  (∀ k, 0 ≤ k < i → ∃ a, g_task s !! Z.to_nat k = Some a ∧ a ≠ 0).
Proof.
  intros H. split; [unfold find_empty_task, gets; by rewrite H|].
  apply find_free_Some in H as (Hi0 & Hi & Hk). rewrite Z.sub_0_r in Hi.
  rewrite (list_lookup_fmap (λ a, negb (a =? 0)) (g_task s)) in Hi.
  apply fmap_Some in Hi as (a & Ha & He). split; [|split].
  - apply lookup_lt_Some in Ha. lia.
  - rewrite Ha. f_equal. destruct (Z.eqb_spec a 0); done.
  - intros k Hki. specialize (Hk k Hki). rewrite Z.sub_0_r in Hk.
    rewrite (list_lookup_fmap (λ a, negb (a =? 0)) (g_task s)) in Hk.
    apply fmap_Some in Hk as (b & Hb & He'). exists b. split; [done|].
    by destruct (Z.eqb_spec b 0).
Qed.

Lemma find_empty_task_none s :
  find_free (map (λ a, negb (a =? 0)) (g_task s)) 0 = None → find_empty_task s = Ret (-1) s.
Proof. intros H. unfold find_empty_task, gets. by rewrite H. Qed.

(** *** do_fork *)

(** Up to copy_thread: a page was found and cleared, and a table slot. *)
Lemma do_fork_start s queue forked :
  fork_inv s queue forked → (0 < nr_mapped (f_pages s))%nat →
  ∃ p pages', get_free_page (f_pages s) = Ret p pages' ∧ pages_ok pages' ∧ page_ok p ∧
    ¬ page_used (f_pages s) p ∧ (∀ q, page_used pages' q ↔ q = p ∨ page_used (f_pages s) q) ∧
    nr_mapped pages' = (nr_mapped (f_pages s) - 1)%nat ∧
    p ∉ init_task :: forked ∧ node_of p ≠ g_ready_queue ∧ 0 < p < TOTAL_MEMORY.
Proof.
  intros [Hruns Hpages Hused [Hlay1 Hlay2] _ _] Hfree.
  destruct (get_free_page_mapped (f_pages s) Hpages Hfree) as (p & pages' & E & H1 & H2 & Hlt & H3 & H4 & H5).
  exists p, pages'. repeat (split; [done|]).
  assert (LOW_MEMORY ≤ p) by (destruct H2; lia).
  split; [|split].
  - intros [->|Hin]%elem_of_cons; [lia|]. by apply H3, Hused.
  - unfold node_of, RUN_LIST, THREAD_CPU_CONTEXT. lia.
  - page_lia.
Qed.

(** SET_LINKS and wake_up_process on a new task. *)
Lemma link_and_wake (sc : sched C) ts queue forked p x n :
  task_runs (set_tasks ts sc) queue forked → page_ok p → p ∉ init_task :: forked →
  node_of p ≠ g_ready_queue → (length queue < 127)%nat →
  state x = TASK_RUNNING → 0 ≤ counter x < 2 ^ 31 - 1 → 0 ≤ priority x < 2 ^ 31 - 1 - DEF_COUNTER →
  preempt_count x = 0 → context x = fork_context (x19 (context x)) (x20 (context x)) p →
  ∃ sc', (SET_LINKS p ;; wake_up_process fuel p)
           (lput (<[node_of p := n]> (nodes sc)) (set_tasks (<[p := x]> ts) sc)) = Ret tt sc' ∧
    task_runs sc' (p :: queue) (forked ++ [p]) ∧
    no_links <$> tasks sc' !! p = Some (no_links x) ∧
    (∀ q, q ≠ p → no_links <$> tasks sc' !! q = no_links <$> ts !! q) ∧
    regs sc' = regs sc ∧ console sc' = console sc ∧ irqs_masked sc' = irqs_masked sc.
Proof.
  intros Hruns Hp Hpn Hpq Hlen Hst Hcnt Hpri Hpre Hctx.
  pose proof (inv_links _ _ _ (tr_inv _ _ _ Hruns)) as Hl. cbn [tasks set_tasks] in Hl.
  destruct (linked_tasks_ring ts forked p x Hl Hpn) as (_ & Hx & Hother).
  set (sc1 := lput (<[node_of p := n]> (nodes sc)) sc).
  change (lput (<[node_of p := n]> (nodes sc)) (set_tasks (<[p := x]> ts) sc)) with (set_tasks (<[p := x]> ts) sc1).
  rewrite (bind_eq _ _ _ _ _ (SET_LINKS_eq sc1 ts forked p x Hl Hpn)).
  set (ts' := linked_tasks ts (last_of init_task forked) p x) in *.
  assert (task_runs (set_tasks ts' sc1) queue (forked ++ [p])) as [Hs2 Hrun2 Hpc2]
    by (apply (link_child_inv sc ts queue forked p x n); done).
  destruct (wake_up_process_ok fuel (set_tasks ts' sc1) queue (forked ++ [p]) p)
    as (sc' & E & H1 & H2 & H3 & H4 & H5 & H6 & _); [done|set_solver| |..|done| |].
  - intros Hin. apply Hpn. apply elem_of_cons. right. by apply (inv_queue _ _ _ (tr_inv _ _ _ Hruns)).
  - cbn. rewrite lookup_insert_eq. by eexists.
  - lia.
  - assert (current sc' = current sc) as Hcur by (unfold current; by rewrite H3).
    exists sc'. split; [done|]. split; [|split; [|split; [|done]]].
    + split; [done| |].
      * rewrite H2. intros q t. rewrite lookup_alter_Some. intros [(-> & t' & _ & ->)|[_ Ht]]; [done|by eapply Hrun2].
      * rewrite Hcur. unfold preempt_count_of in *. rewrite H2.
        change (current (set_tasks ts' sc1)) with (current sc) in Hpc2. rewrite lookup_alter.
        case_decide; [subst|done]. cbn [tasks set_tasks] in *. by destruct (ts' !! current sc).
    + rewrite H2, lookup_alter_eq. cbn [tasks set_tasks]. destruct (ts' !! p) as [t|]; [|done].
      apply (inj Some) in Hx. cbn [fmap option_fmap option_map]. f_equal. rewrite <-Hx.
      apply (f_equal state) in Hx. cbn in Hx. rewrite Hst in Hx. destruct t; cbn in *. by subst.
    + intros q Hq. rewrite H2, lookup_alter_ne by done. by apply Hother.
Qed.

(** The fields of a new task, but for its links. *)
Definition child_task (pid cnt : Z) (ctx : cpu_context) : task_struct :=
  TaskStruct TASK_RUNNING 0 pid ctx cnt 2 0 0 0 0.

Definition halve_counter (t : task_struct) : task_struct := with_counter (Z.shiftr (counter t) 1) t.

(** The child gets the larger half of the counter, the parent keeps the rest. *)
Lemma counter_halves c :
  0 ≤ c < 2 ^ 31 - 1 →
  Z.shiftr (s32 (c + 1)) 1 = (c + 1) / 2 ∧ Z.shiftr c 1 = c / 2 ∧ (c + 1) / 2 + c / 2 = c ∧
  0 ≤ (c + 1) / 2 < 2 ^ 31 - 1 ∧ 0 ≤ c / 2 < 2 ^ 31 - 1.
Proof.
  intros Hc. rewrite s32_id, !Z.shiftr_div_pow2 by lia. change (2 ^ 1) with 2.
  pose proof (Z.div_mod c 2). pose proof (Z.div_mod (c + 1) 2).
  pose proof (Z.mod_pos_bound c 2). pose proof (Z.mod_pos_bound (c + 1) 2). lia.
Qed.

Lemma halved_runs (sc : sched C) queue forked :
  task_runs sc queue forked → task_runs (set_tasks (alter halve_counter (current sc) (tasks sc)) sc) queue forked.
Proof.
  intros [Hs Hrun Hpc]. split.
  - apply inv_alter; [done|done| |by left]. intros t' []. split; try done. cbn.
    destruct (counter_halves (counter t')) as (_ & -> & _ & _ & ?); done.
  - by apply all_running_alter.
  - destruct (inv_current_task _ _ _ Hs) as [t Ht]. unfold preempt_count_of in *.
    change (current (set_tasks _ sc)) with (current sc). cbn [tasks set_tasks].
    rewrite lookup_alter_eq, Ht. by rewrite Ht in Hpc.
Qed.

(** do_fork up to SET_LINKS, when nothing fails: the state it has then built. *)
Lemma do_fork_fills s flags stack arg p pages' t i frame ctx :
  get_free_page (f_pages s) = Ret p pages' → page_ok p → 0 < p < TOTAL_MEMORY → p ≠ current (f_sched s) →
  tasks (f_sched s) !! current (f_sched s) = Some t →
  find_free (map (λ a, negb (a =? 0)) (g_task s)) 0 = Some i →
  (∀ s', f_regs s' = f_regs s → current (f_sched s') = current (f_sched s) →
     copy_thread flags p stack arg (with_child p zero_task (tasks (f_sched s)) s')
     = Ret 0 (with_child p (with_context ctx zero_task) (tasks (f_sched s)) (with_frame (task_pt_regs p) frame s'))) →
  do_fork fuel flags stack arg s
  = (zoom (SET_LINKS p) ;; zoom (wake_up_process fuel p) ;; mret i)
      (ForkState (lput (<[node_of p := ListHead 0 0]> (nodes (f_sched s)))
                    (set_tasks (<[p := child_task i (Z.shiftr (s32 (counter t + 1)) 1) ctx]>
                                  (alter halve_counter (current (f_sched s)) (tasks (f_sched s)))) (f_sched s)))
         pages' (<[task_pt_regs p := frame]> (f_regs s)) (<[Z.to_nat i := p]> (g_task s)) (u64 (total_forks s + 1))).
Proof.
  intros E Hp Hp0 Hcp Ht Hfind Hcopy. set (c := current (f_sched s)) in *. set (ts := tasks (f_sched s)) in *.
  assert (zoom get_free_page s = Ret p (lput pages' s)) as E0 by (unfold zoom; cbn; by rewrite E).
  unfold do_fork. rewrite (bind_eq _ _ _ _ _ E0), (proj2 (Z.eqb_neq p 0)) by lia.
  set (s1 := lput (T:=sched C) (lput (<[p + RUN_LIST := ListHead 0 0]> (nodes (f_sched s))) (f_sched s)) (lput pages' s)).
  assert (zero_task_struct p (lput pages' s) = Ret tt (with_child p zero_task ts s1)) as E1
    by (by apply zero_task_struct_eq; apply Hp0).
  rewrite (bind_eq _ _ _ _ _ E1).
  destruct (find_empty_task_eq (with_child p zero_task ts s1) i Hfind) as (E2 & Hi & _).
  rewrite (bind_eq _ _ _ _ _ E2), (proj2 (Z.ltb_ge i 0)) by lia.
  rewrite (bind_eq _ _ _ _ _ (Hcopy s1 eq_refl eq_refl)). cbn [Z.eqb negb].
  set (s2 := with_frame (task_pt_regs p) frame s1). rewrite !bind_set_child.
  assert (∀ x, zoom get_current (with_child p x ts s2) = Ret c (with_child p x ts s2)) as Hgc by done.
  rewrite (bind_eq _ _ _ _ _ (Hgc _)).
  assert (∀ x, zoom (task c) (with_child p x ts s2) = Ret t (with_child p x ts s2)) as Htc.
  { intros x. unfold zoom. cbn. rewrite (task_eq _ c t); [done|]. cbn. rewrite lookup_insert_ne by done. exact Ht. }
  rewrite (bind_eq _ _ _ _ _ (Htc _)). rewrite bind_set_child.
  rewrite (bind_set_other p _ ts s2 c t) by done. rewrite !bind_set_child. by rewrite !bind_modify.
Qed.

Lemma do_fork_ok s queue forked flags stack arg t i frame ctx :
  fork_inv s queue forked → (0 < nr_mapped (f_pages s))%nat →
  tasks (f_sched s) !! current (f_sched s) = Some t →
  find_free (map (λ a, negb (a =? 0)) (g_task s)) 0 = Some i → (length forked < 127)%nat →
  (length queue < 127)%nat →
  (∀ p s', f_regs s' = f_regs s → current (f_sched s') = current (f_sched s) → page_ok p →
     p ≠ current (f_sched s) → copy_thread flags p stack arg (with_child p zero_task (tasks (f_sched s)) s')
     = Ret 0 (with_child p (with_context (ctx p) zero_task) (tasks (f_sched s))
                (with_frame (task_pt_regs p) frame s'))) →
  (∀ p, ctx p = fork_context (x19 (ctx p)) (x20 (ctx p)) p) →
  ∃ p s', do_fork fuel flags stack arg s = Ret i s' ∧
    fork_inv s' (p :: queue) (forked ++ [p]) ∧ ¬ page_used (f_pages s) p ∧ page_ok p ∧ p ∉ init_task :: forked ∧
    g_task s' = <[Z.to_nat i := p]> (g_task s) ∧ f_regs s' = <[task_pt_regs p := frame]> (f_regs s) ∧
    no_links <$> tasks (f_sched s') !! p
      = Some (child_task i (Z.shiftr (s32 (counter t + 1)) 1) (ctx p)) ∧
    (∀ q, q ≠ p → no_links <$> tasks (f_sched s') !! q
                  = no_links <$> alter halve_counter (current (f_sched s)) (tasks (f_sched s)) !! q) ∧
    regs (f_sched s') = regs (f_sched s) ∧ console (f_sched s') = console (f_sched s) ∧
    irqs_masked (f_sched s') = irqs_masked (f_sched s) ∧
    S (nr_mapped (f_pages s')) = nr_mapped (f_pages s).
Proof.
  intros Hinv Hfree Ht Hfind Hlen Hlenq Hcopy Hctx.
  destruct (do_fork_start s queue forked Hinv Hfree)
    as (p & pages' & E & Hpok & Hp & Hnu & Hu & Hnf & Hpn & Hpq & Hp0).
  pose proof (fi_runs _ _ _ Hinv) as [Hs Hrun Hpc].
  set (c := current (f_sched s)) in *. set (ts := tasks (f_sched s)) in *.
  assert (p ≠ c) as Hcp by (intros Heq; apply Hpn; rewrite Heq; apply Hs).
  destruct (find_empty_task_eq s i Hfind) as (_ & Hi & Hi0 & _).
  rewrite (do_fork_fills s flags stack arg p pages' t i frame (ctx p)) by eauto.
  match goal with |- context [(zoom (SET_LINKS p) ≫= _) ?y] => set (s3 := y) end. fold c ts in s3.
  set (cnt := Z.shiftr (s32 (counter t + 1)) 1) in *. set (x := child_task i cnt (ctx p)) in *.
  set (ts1 := alter halve_counter c ts) in *.
  assert (0 ≤ counter t < 2 ^ 31 - 1) as Hct
    by (apply (wf_counter c), (inv_tasks _ _ _ Hs); [apply Hs|done]).
  destruct (counter_halves (counter t) Hct) as (Hcnt & _ & _ & Hcnt' & _). fold cnt in Hcnt. rewrite <-Hcnt in Hcnt'.
  pose proof (halved_runs (f_sched s) queue forked (fi_runs _ _ _ Hinv)) as Hruns1. fold c ts ts1 in Hruns1.
  destruct (link_and_wake (f_sched s) ts1 queue forked p x (ListHead 0 0))
    as (sc' & Hlw & Hruns' & Hchild & Hother & Hregs & Hconsole & Hmasked);
    [done..| |done|exact (Hctx p)|]; [by vm_compute|].
  exists p, (lput sc' s3).
  assert ((zoom (SET_LINKS p) ;; zoom (wake_up_process fuel p)) s3 = Ret tt (lput sc' s3)) as Hz.
  { apply zoom_seq. exact Hlw. }
  split; [by rewrite <-(bind_assoc (zoom (SET_LINKS p)) (λ _, zoom (wake_up_process fuel p)) (λ _, mret i) s3),
            (bind_eq _ _ _ _ _ Hz)|].
  split; [|repeat (split; [done|]); change (f_pages (lput sc' s3)) with pages'; lia].
  destruct Hinv as [_ _ Hused Hlay Htab Hperm]. split; try done.
  - intros q [Hq|Hq%list_elem_of_singleton]%elem_of_app; apply Hu; [right; by apply Hused|by left].
  - cbn. by rewrite length_insert.
  - cbn. rewrite filter_table by (done || lia). rewrite Hperm, (Permutation_app_comm forked [p]). apply Permutation_swap.
Qed.

(** *** Failures *)

(** A cleared page that no list and no queue knows changes nothing. *)
Lemma scratch_task_runs (sc : sched C) queue forked p x n :
  task_runs sc queue forked → p ∉ init_task :: forked → node_of p ≠ g_ready_queue →
  state x = TASK_RUNNING →
  task_runs (lput (<[node_of p := n]> (nodes sc)) (set_tasks (<[p := x]> (tasks sc)) sc)) queue forked.
Proof.
  intros [[Hr Hn Hl Hq Hwf Hc Hs] Hrun Hpc] Hpn Hne Hst.
  assert (∀ q, q ∈ init_task :: forked → <[p := x]> (tasks sc) !! q = tasks sc !! q) as Hsame
    by (intros q Hin; apply lookup_insert_ne; by intros ->).
  split; [split|..]; cbn [tasks nodes rq frames lput lens_nodes set_tasks]; try done.
  - eapply ring_frame; [|exact Hr]. intros y Hy. apply lookup_insert_ne. intros <-.
    apply elem_of_cons in Hy as [Hy|Hy]; [done|].
    apply (list_elem_of_fmap_1 node_of queue) in Hy as (q & Heq & Hin).
    apply (inj node_of) in Heq as ->. apply Hpn. specialize (Hq _ Hin). set_solver.
  - eapply ring_frame; [|exact Hl]. intros q Hin. unfold task_links. by rewrite !lookup_fmap, Hsame.
  - intros q t Hin. rewrite Hsame by done. by apply Hwf.
  - intros q t Hin. rewrite Hsame by done. by apply Hs.
  - intros q t [[<- <-]|[_ Ht]]%lookup_insert_Some; [done|by eapply Hrun].
  - change (match <[p := x]> (tasks sc) !! current sc with Some t => preempt_count t | None => 0 end = 0).
    by rewrite Hsame.
Qed.

(** What a fork that fails leaves behind: the page it took, and gave back, may have been
    written to; nothing else is different. *)
Definition left_alone s s' (forked : list Z) : Prop :=
  f_pages s' = f_pages s ∧ g_task s' = g_task s ∧ total_forks s' = total_forks s ∧
  rq (f_sched s') = rq (f_sched s) ∧ regs (f_sched s') = regs (f_sched s) ∧
  irqs_masked (f_sched s') = irqs_masked (f_sched s) ∧ frames (f_sched s') = frames (f_sched s) ∧
  console (f_sched s') = console (f_sched s) ∧
  ∃ p, ¬ page_used (f_pages s) p ∧ p ∉ init_task :: forked ∧
    (∀ q, q ≠ p → tasks (f_sched s') !! q = tasks (f_sched s) !! q) ∧
    (∀ a, a ≠ node_of p → nodes (f_sched s') !! a = nodes (f_sched s) !! a) ∧
    (∀ a, a ≠ task_pt_regs p → f_regs s' !! a = f_regs s !! a).

(** The state after such a fork, from the page it took. *)
Definition scratched p n (rs : gmap Z pt_regs) s : fork_state C :=
  ForkState (lput (<[node_of p := n]> (nodes (f_sched s)))
               (set_tasks (<[p := zero_task]> (tasks (f_sched s))) (f_sched s)))
    (f_pages s) rs (g_task s) (total_forks s).

Lemma scratched_alone p n rs s queue forked :
  fork_inv s queue forked → ¬ page_used (f_pages s) p → p ∉ init_task :: forked → node_of p ≠ g_ready_queue →
  (∀ a, a ≠ task_pt_regs p → rs !! a = f_regs s !! a) →
  fork_inv (scratched p n rs s) queue forked ∧ left_alone s (scratched p n rs s) forked.
Proof.
  intros Hinv Hu Hp Hn Hrs. split.
  - pose proof (scratch_task_runs (f_sched s) queue forked p zero_task n (fi_runs _ _ _ Hinv) Hp Hn eq_refl).
    destruct Hinv. by split.
  - do 8 (split; [done|]). exists p. split; [done|]. split; [done|]. split; [|split; [|done]].
    + intros q Hq. apply lookup_insert_ne. congruence.
    + intros a Ha. apply lookup_insert_ne. congruence.
Qed.

Lemma free_page_back s p pages' :
  pages_ok (f_pages s) → get_free_page (f_pages s) = Ret p pages' → p ≠ 0 →
  free_page p pages' = Ret tt (f_pages s).
Proof. apply free_page_restores. Qed.

Lemma do_fork_no_page s flags stack arg :
  nr_free (mem_map (f_pages s)) = 0%nat → do_fork fuel flags stack arg s = Ret (-1) s.
Proof.
  intros H0. unfold do_fork.
  assert (zoom get_free_page s = Ret 0 s) as E by (unfold zoom; cbn; rewrite get_free_page_none by done; by destruct s).
  by rewrite (bind_eq _ _ _ _ _ E).
Qed.

Lemma do_fork_table_full s queue forked flags stack arg :
  fork_inv s queue forked → (0 < nr_mapped (f_pages s))%nat →
  find_free (map (λ a, negb (a =? 0)) (g_task s)) 0 = None →
  ∃ s', do_fork fuel flags stack arg s = Ret (-1) s' ∧ fork_inv s' queue forked ∧ left_alone s s' forked ∧
        f_regs s' = f_regs s.
Proof.
  intros Hinv Hfree Hnone.
  destruct (do_fork_start s queue forked Hinv Hfree) as (p & pages' & E & Hpok & Hp & Hu & _ & _ & Hpn & Hpq & Hp0).
  exists (scratched p (ListHead 0 0) (f_regs s) s).
  split; [|by destruct (scratched_alone p (ListHead 0 0) (f_regs s) s queue forked)].
  set (sc' := f_sched (scratched p (ListHead 0 0) (f_regs s) s)).
  assert (zoom get_free_page s = Ret p (lput pages' s)) as E0 by (unfold zoom; cbn; by rewrite E).
  unfold do_fork. rewrite (bind_eq _ _ _ _ _ E0), (proj2 (Z.eqb_neq p 0)) by lia.
  set (s1 := ForkState sc' pages' (f_regs s) (g_task s) (total_forks s)).
  assert (zero_task_struct p (lput pages' s) = Ret tt s1) as E1 by (by apply zero_task_struct_eq; apply Hp0).
  rewrite (bind_eq _ _ _ _ _ E1), (bind_eq _ _ _ _ _ (find_empty_task_none s1 Hnone)).
  assert (zoom (free_page p) s1 = Ret tt (ForkState sc' (f_pages s) (f_regs s) (g_task s) (total_forks s))) as E2.
  { unfold zoom; cbn. rewrite (free_page_back s p pages' (fi_pages _ _ _ Hinv) E); [done|lia]. }
  change (-1 <? 0) with true. cbn iota. by rewrite (bind_eq _ _ _ _ _ E2).
Qed.

Lemma do_fork_misaligned s queue forked flags stack arg r i :
  fork_inv s queue forked → (0 < nr_mapped (f_pages s))%nat →
  find_free (map (λ a, negb (a =? 0)) (g_task s)) 0 = Some i →
  Z.land flags PF_KTHREAD = 0 → Z.land stack 15 ≠ 0 →
  f_regs s !! task_pt_regs (current (f_sched s)) = Some r →
  ∃ s', do_fork fuel flags stack arg s = Ret (-1) s' ∧ fork_inv s' queue forked ∧ left_alone s s' forked ∧
        ∃ a frame, f_regs s' = <[a := frame]> (f_regs s).
Proof.
  intros Hinv Hfree Hfind Hf Hal Hr.
  destruct (do_fork_start s queue forked Hinv Hfree) as (p & pages' & E & Hpok & Hp & Hu & _ & _ & Hpn & Hpq & Hp0).
  pose proof (tr_inv _ _ _ (fi_runs _ _ _ Hinv)) as Hs.
  assert (task_pt_regs (current (f_sched s)) ≠ task_pt_regs p) as Hne.
  { destruct (inv_current_task _ _ _ Hs) as [t Ht].
    pose proof (wf_range _ _ (inv_tasks _ _ _ Hs _ _ (inv_current _ _ _ Hs) Ht)).
    destruct (page_stack_base p Hp) as (_ & _ & ?). rewrite !task_pt_regs_eq by done.
    intros Heq. apply Hpn. replace p with (current (f_sched s)) by lia. apply Hs. }
  set (rs := <[task_pt_regs p := set_gregs 0 0 r]> (f_regs s)).
  exists (scratched p (ListHead 0 0) rs s).
  split; [|destruct (scratched_alone p (ListHead 0 0) rs s queue forked) as [H1 H2]; [done..| |split; [done|split; [done|by do 2 eexists]]];
           intros a Ha; by apply lookup_insert_ne].
  set (sc' := f_sched (scratched p (ListHead 0 0) rs s)).
  assert (zoom get_free_page s = Ret p (lput pages' s)) as E0 by (unfold zoom; cbn; by rewrite E).
  unfold do_fork. rewrite (bind_eq _ _ _ _ _ E0), (proj2 (Z.eqb_neq p 0)) by lia.
  set (s1 := ForkState (lput (<[node_of p := ListHead 0 0]> (nodes (f_sched s))) (f_sched s))
               pages' (f_regs s) (g_task s) (total_forks s)).
  assert (zero_task_struct p (lput pages' s) = Ret tt (with_child p zero_task (tasks (f_sched s)) s1)) as E1
    by (by apply zero_task_struct_eq; apply Hp0).
  rewrite (bind_eq _ _ _ _ _ E1).
  destruct (find_empty_task_eq (with_child p zero_task (tasks (f_sched s)) s1) i Hfind) as (E2 & Hi & _).
  rewrite (bind_eq _ _ _ _ _ E2), (proj2 (Z.ltb_ge i 0)) by lia.
  rewrite (bind_eq _ _ _ _ _ (copy_thread_misaligned flags stack arg p (tasks (f_sched s)) s1 r Hf Hal Hr Hne)).
  cbn [Z.eqb negb].
  match goal with |- (zoom (free_page p) ≫= _) ?y = _ => set (s2 := y) end.
  assert (zoom (free_page p) s2 = Ret tt (ForkState sc' (f_pages s) rs (g_task s) (total_forks s))) as E3.
  { unfold zoom; cbn. rewrite (free_page_back s p pages' (fi_pages _ _ _ Hinv) E); [done|lia]. }
  by rewrite (bind_eq _ _ _ _ _ E3).
Qed.

(** With the mapped pages gone and others left, a fork gets one it cannot write to. *)
Lemma do_fork_page_past s flags stack arg :
  pages_ok (f_pages s) → nr_mapped (f_pages s) = 0%nat → nr_free (mem_map (f_pages s)) ≠ 0%nat →
  ∃ p, do_fork fuel flags stack arg s = Fault (WildAddr p) ∧ page_ok p ∧ TOTAL_MEMORY ≤ p.
Proof.
  intros Hok H0 Hne. destruct (get_free_page_past (f_pages s) Hok H0 Hne) as (p & pages' & E & Hp & Hpt).
  exists p. split; [|done]. unfold do_fork.
  assert (zoom get_free_page s = Ret p (lput pages' s)) as E0 by (unfold zoom; cbn; by rewrite E).
  rewrite (bind_eq _ _ _ _ _ E0), (proj2 (Z.eqb_neq p 0)) by page_lia. apply bind_fault, bind_fault.
  unfold touch_page. by rewrite (proj2 (Z.ltb_ge _ _) Hpt).
Qed.
End lemmas.

(** ** Properties *)

Section properties.
Context `{Hsym : !SchedSymbols} {C : Type} `{Hcon : !Console C} (fuel : nat).
Implicit Types (s : fork_state C).

(** The state [s'] has the new task [p] with [pid] and [ctx], which took half of
    the current task's counter; it is at the head of the run queue and at the
    end of the ring of tasks, and every other task is as it was. *)
Definition created s s' (queue forked : list Z) (p new_pid : Z) (ctx : cpu_context) : Prop :=
  fork_inv s' (p :: queue) (forked ++ [p]) ∧ page_ok p ∧ ¬ page_used (f_pages s) p ∧
  g_task s !! Z.to_nat new_pid = Some 0 ∧ g_task s' = <[Z.to_nat new_pid := p]> (g_task s) ∧
  (∃ t child parent,
     tasks (f_sched s) !! current (f_sched s) = Some t ∧
     tasks (f_sched s') !! p = Some child ∧ tasks (f_sched s') !! current (f_sched s) = Some parent ∧
     pid child = new_pid ∧ context child = ctx ∧ priority child = 2 ∧
     counter child + counter parent = counter t ∧ counter parent = counter t / 2 ∧
     need_resched parent = need_resched t) ∧
  ∀ q, q ≠ p → q ≠ current (f_sched s) →
       no_links <$> tasks (f_sched s') !! q = no_links <$> tasks (f_sched s) !! q.

Lemma created_intro s s' queue forked p i t ctx :
  fork_inv s' (p :: queue) (forked ++ [p]) → page_ok p → ¬ page_used (f_pages s) p →
  g_task s !! Z.to_nat i = Some 0 → g_task s' = <[Z.to_nat i := p]> (g_task s) →
  sched_inv (f_sched s) queue forked → p ≠ current (f_sched s) →
  tasks (f_sched s) !! current (f_sched s) = Some t →
  no_links <$> tasks (f_sched s') !! p = Some (child_task i (Z.shiftr (s32 (counter t + 1)) 1) ctx) →
  (∀ q, q ≠ p → no_links <$> tasks (f_sched s') !! q
                = no_links <$> alter halve_counter (current (f_sched s)) (tasks (f_sched s)) !! q) →
  created s s' queue forked p i ctx.
Proof.
  intros Hinv Hp Hu Hi Hg Hs Hne Ht Hchild Hother. repeat (split; [done|]). split.
  - pose proof (wf_counter _ _ (inv_tasks _ _ _ Hs _ _ (inv_current _ _ _ Hs) Ht)) as Hc.
    destruct (counter_halves (counter t) Hc) as (H1 & H2 & H3 & _).
    destruct (tasks (f_sched s') !! p) as [child|]; [|done].
    specialize (Hother _ (not_eq_sym Hne)). rewrite lookup_alter_eq, Ht in Hother.
    destruct (tasks (f_sched s') !! current (f_sched s)) as [parent|]; [|done].
    apply (inj Some) in Hchild. apply (inj Some) in Hother.
    exists t, child, parent. repeat (split; [done|]).
    pose proof (f_equal pid Hchild) as Hpid. pose proof (f_equal context Hchild) as Hctx.
    pose proof (f_equal priority Hchild) as Hpri. pose proof (f_equal counter Hchild) as Hcnt.
    pose proof (f_equal counter Hother) as Hcnt'. cbn in Hpid, Hctx, Hpri, Hcnt, Hcnt'.
    rewrite Hcnt, Hcnt', H1, H2. pose proof (f_equal need_resched Hother). done.
  - intros q Hq Hqc. rewrite (Hother q Hq), lookup_alter_ne by done. done.
Qed.

(** A fork with PF_KTHREAD set. *)
Lemma do_fork_kernel_ok s queue forked flags fn arg i :
  fork_inv s queue forked → (0 < nr_mapped (f_pages s))%nat →
  find_free (map (λ a, negb (a =? 0)) (g_task s)) 0 = Some i →
  (length forked < 127)%nat → (length queue < 127)%nat → Z.land flags PF_KTHREAD ≠ 0 →
  ∃ p s', do_fork fuel flags fn arg s = Ret i s' ∧
    created s s' queue forked p i (CpuContext fn arg 0 0 0 0 0 0 0 0 0 (p + THREAD_SIZE - sizeof_pt_regs) ret_from_fork) ∧
    f_regs s' = <[p + THREAD_SIZE - sizeof_pt_regs := set_pstate PSR_MODE_EL1h zero_regs]> (f_regs s) ∧
    regs (f_sched s') = regs (f_sched s) ∧ console (f_sched s') = console (f_sched s) ∧
    irqs_masked (f_sched s') = irqs_masked (f_sched s) ∧
    S (nr_mapped (f_pages s')) = nr_mapped (f_pages s).
Proof.
  intros Hinv Hfree Hfind Hl Hlq Hk. pose proof (tr_inv _ _ _ (fi_runs _ _ _ Hinv)) as Hs.
  destruct (inv_current_task _ _ _ Hs) as [t Ht].
  destruct (do_fork_ok fuel s queue forked flags fn arg t i
    (set_pstate PSR_MODE_EL1h zero_regs) (fork_context fn arg)) as (p & s' & E & H1 & H2 & H3 & Hpn & H4 & H5 & H6 & H7 & Hrest);
    [done..| |done|].
  { intros p s' _ _ _ _. by apply copy_thread_kernel. }
  destruct (page_stack_base p H3) as (_ & _ & Hr).
  destruct (find_empty_task_eq s i Hfind) as (_ & _ & Hi & _).
  unfold sizeof_pt_regs. change THREAD_SIZE with 4096 in *. rewrite (task_pt_regs_eq p) in H5 by done.
  exists p, s'. replace (p + 4096 - 320) with (p + 3776) by lia. split; [done|]. split; [|done].
  eapply created_intro; try done.
  - intros Heq. apply Hpn. rewrite Heq. apply Hs.
  - rewrite H6. unfold fork_context. by rewrite task_pt_regs_eq.
Qed.

(** A fork from user space. *)
Lemma do_fork_user_ok s queue forked flags stack arg i r :
  fork_inv s queue forked → (0 < nr_mapped (f_pages s))%nat →
  find_free (map (λ a, negb (a =? 0)) (g_task s)) 0 = Some i →
  (length forked < 127)%nat → (length queue < 127)%nat →
  Z.land flags PF_KTHREAD = 0 → Z.land stack 15 = 0 →
  f_regs s !! task_pt_regs (current (f_sched s)) = Some r →
  ∃ p s', do_fork fuel flags stack arg s = Ret i s' ∧
    created s s' queue forked p i (CpuContext 0 0 0 0 0 0 0 0 0 0 0 (task_pt_regs p) ret_from_fork) ∧
    task_pt_regs p ≠ task_pt_regs (current (f_sched s)) ∧
    f_regs s' = <[task_pt_regs p := user_frame stack r]> (f_regs s) ∧
    S (nr_mapped (f_pages s')) = nr_mapped (f_pages s).
Proof.
  intros Hinv Hfree Hfind Hl Hlq Hf Hal Hr. pose proof (tr_inv _ _ _ (fi_runs _ _ _ Hinv)) as Hs.
  destruct (inv_current_task _ _ _ Hs) as [t Ht].
  pose proof (wf_range _ _ (inv_tasks _ _ _ Hs _ _ (inv_current _ _ _ Hs) Ht)) as Hcr.
  destruct (do_fork_ok fuel s queue forked flags stack arg t i (user_frame stack r) (fork_context 0 0))
    as (p & s' & E & H1 & H2 & H3 & Hpn & H4 & H5 & H6 & H7 & _ & _ & _ & Hav); [done..| |done|].
  { intros p s' Hfr Hc Hp Hne. apply copy_thread_user; [done..|by rewrite Hfr, Hc|].
    rewrite Hc. destruct (page_stack_base p Hp) as (_ & _ & ?). rewrite !task_pt_regs_eq by done. lia. }
  destruct (find_empty_task_eq s i Hfind) as (_ & _ & Hi & _).
  assert (p ≠ current (f_sched s)) as Hne by (intros ->; apply Hpn, Hs).
  exists p, s'. split; [done|]. split; [by eapply created_intro|]. split; [|by split].
  destruct (page_stack_base p H3) as (_ & _ & ?). rewrite !task_pt_regs_eq by done. lia.
Qed.

(** *** Every outcome of do_fork *)

(** The table bounds the tasks there are. *)
Lemma fork_inv_lengths s queue forked :
  fork_inv s queue forked → (length forked ≤ 127)%nat ∧ (length queue ≤ length forked)%nat.
Proof.
  intros Hinv. pose proof (tr_inv _ _ _ (fi_runs _ _ _ Hinv)) as Hs. split.
  - pose proof (Permutation_length (fi_tasks _ _ _ Hinv)) as Hl. cbn in Hl.
    pose proof (length_filter (λ a, a ≠ 0) (g_task s)) as Hf. rewrite (fi_table _ _ _ Hinv) in Hf.
    change (Z.to_nat NR_TASKS) with 128%nat in Hf. lia.
  - apply submseteq_length, NoDup_submseteq; [|apply Hs].
    destruct (inv_ring _ _ _ Hs) as [Hnd _]. apply list.NoDup_cons in Hnd as [_ Hnd].
    by apply NoDup_fmap_1 in Hnd.
Qed.

Lemma fork_inv_slot s queue forked i :
  fork_inv s queue forked → find_free (map (λ a, negb (a =? 0)) (g_task s)) 0 = Some i → (length forked < 127)%nat.
Proof.
  intros Hinv Hi. destruct (find_empty_task_eq s i Hi) as (_ & Hr & Hl & _).
  pose proof (Permutation_length (fi_tasks _ _ _ Hinv)) as Hp.
  rewrite <-(take_drop_middle _ _ _ Hl), list.filter_app, filter_cons_False, length_app in Hp by (intros H; by apply H).
  pose proof (length_filter (λ a, a ≠ 0) (take (Z.to_nat i) (g_task s))).
  pose proof (length_filter (λ a, a ≠ 0) (drop (S (Z.to_nat i)) (g_task s))).
  rewrite length_take, length_drop in *. rewrite (fi_table _ _ _ Hinv) in *.
  change (Z.to_nat NR_TASKS) with 128%nat in *. cbn in Hp. lia.
Qed.

(** Whatever it is asked for, do_fork returns, and keeps the invariant; a queue that
    had tasks still has them, and at most one page is used up. *)
Lemma do_fork_returns s queue forked flags stack arg :
  fork_inv s queue forked → supply 1 (f_pages s) →
  is_Some (f_regs s !! task_pt_regs (current (f_sched s))) ∨ Z.land flags PF_KTHREAD ≠ 0 →
  returns (do_fork fuel flags stack arg) (λ _ s', ∃ queue' forked',
    fork_inv s' queue' forked' ∧ queue ⊆ queue' ∧ (∀ a, is_Some (f_regs s !! a) → is_Some (f_regs s' !! a)) ∧
    ∀ n, supply (S n) (f_pages s) → supply n (f_pages s')) s.
Proof.
  intros Hinv Hroom Hr. destruct (fork_inv_lengths _ _ _ Hinv) as [_ Hlq].
  destruct (decide (nr_free (mem_map (f_pages s)) = 0%nat)) as [H0|Hne].
  { eapply returns_ret; [by apply do_fork_no_page|]. exists queue, forked. do 3 (split; [done|]). intros n Hn. by eapply supply_less, Nat.le_succ_diag_r. }
  destruct Hroom as [Hfree|]; [|done].
  assert (∀ s', S (nr_mapped (f_pages s')) = nr_mapped (f_pages s) → ∀ n, supply (S n) (f_pages s) → supply n (f_pages s')) as Hsup
    by (intros s' Hav n [?|?]; [left; lia|done]).
  assert (∀ (rs : gmap Z pt_regs) a x b, is_Some (rs !! b) → is_Some (<[a := x]> rs !! b)) as Hins
    by (intros rs a x b Hb; apply lookup_insert_is_Some; destruct (decide (a = b)); [by left|by right]).
  destruct (find_free (map (λ a, negb (a =? 0)) (g_task s)) 0) as [i|] eqn:Hfind; cycle 1.
  { destruct (do_fork_table_full fuel s queue forked flags stack arg Hinv Hfree Hfind) as (s' & E & H1 & [Hpg _] & Hreg).
    eapply returns_ret; [exact E|]. exists queue, forked. rewrite Hreg, Hpg.
    do 3 (split; [done|]). intros n Hn. by eapply supply_less, Nat.le_succ_diag_r. }
  pose proof (fork_inv_slot _ _ _ _ Hinv Hfind) as Hl. assert (length queue < 127)%nat as Hlq' by lia.
  destruct (decide (Z.land flags PF_KTHREAD = 0)) as [Hk|Hk].
  - destruct Hr as [[r Hr]|]; [|done]. destruct (decide (Z.land stack 15 = 0)) as [Hal|Hal].
    + destruct (do_fork_user_ok s queue forked flags stack arg i r) as (p & s' & E & [H1 _] & _ & Hreg & Hav); [done|lia|done..|].
      eapply returns_ret; [exact E|]. exists (p :: queue), (forked ++ [p]).
      split; [done|]. split; [set_solver|]. split; [|by apply Hsup]. intros a Ha. rewrite Hreg. by apply Hins.
    + destruct (do_fork_misaligned fuel s queue forked flags stack arg r i) as (s' & E & H1 & H2 & b & x & Hreg); [done|lia|done..|].
      eapply returns_ret; [exact E|]. exists queue, forked. split; [done|]. split; [done|].
      split; [|destruct H2 as [-> _]; intros n Hn; by eapply supply_less, Nat.le_succ_diag_r]. intros a Ha. rewrite Hreg. by apply Hins.
  - destruct (do_fork_kernel_ok s queue forked flags stack arg i) as (p & s' & E & [H1 _] & Hreg & _ & _ & _ & Hav); [done|lia|done..|].
    eapply returns_ret; [exact E|]. exists (p :: queue), (forked ++ [p]).
    split; [done|]. split; [set_solver|]. split; [|by apply Hsup]. intros a Ha. rewrite Hreg. by apply Hins.
Qed.


(** A clone from user space gives the child a copy of the caller's
    exception frame in which x0 is 0 and, when a stack is given, sp is that
    stack; the child starts in ret_from_fork with x19 = 0, so it returns to
    user space after the call. *)
Theorem do_fork_clones_user s queue forked flags stack arg i r :
  fork_inv s queue forked → (0 < nr_mapped (f_pages s))%nat →
  find_free (map (λ a, negb (a =? 0)) (g_task s)) 0 = Some i →
  (length forked < 127)%nat → (length queue < 127)%nat →
  Z.land flags PF_KTHREAD = 0 → Z.land stack 15 = 0 →
  f_regs s !! task_pt_regs (current (f_sched s)) = Some r →
  ∃ p s' child_regs, do_fork fuel flags stack arg s = Ret i s' ∧
    created s s' queue forked p i (CpuContext 0 0 0 0 0 0 0 0 0 0 0 (task_pt_regs p) ret_from_fork) ∧
    f_regs s' !! task_pt_regs p = Some child_regs ∧
    gregs child_regs = <[0%nat := 0]> (gregs r) ∧ regs_pc child_regs = regs_pc r ∧
    pstate child_regs = pstate r ∧ regs_sp child_regs = (if stack =? 0 then regs_sp r else stack).
Proof.
  intros Hinv Hfree Hfind Hl Hlq Hf Hal Hr.
  destruct (do_fork_user_ok s queue forked flags stack arg i r) as (p & s' & E & Hc & _ & Hreg & _); [done..|].
  exists p, s', (user_frame stack r). split; [done|]. split; [done|]. rewrite Hreg, lookup_insert_eq.
  split; [done|]. unfold user_frame. by destruct (stack =? 0).
Qed.

(** C23 (error): do_fork fails with -1 when no page is free at all and, if it gets a page
    it can write to, when the table of tasks is full and when a user stack is not 16-byte
    aligned.  It then leaves the page allocator, the table of tasks, the count of forks,
    the run queue, the interrupt mask, the registers, the console and every task, list
    node and exception frame exactly as they were: only the page it took and gave back,
    which no task is in, may have been written to. *)
Theorem do_fork_fails_cleanly s queue forked flags stack arg :
  fork_inv s queue forked →
  nr_free (mem_map (f_pages s)) = 0%nat ∨
  (0 < nr_mapped (f_pages s))%nat ∧
  (find_free (map (λ a, negb (a =? 0)) (g_task s)) 0 = None ∨
   Z.land flags PF_KTHREAD = 0 ∧ Z.land stack 15 ≠ 0 ∧
     is_Some (f_regs s !! task_pt_regs (current (f_sched s)))) →
  ∃ s', do_fork fuel flags stack arg s = Ret (-1) s' ∧ fork_inv s' queue forked ∧ left_alone s s' forked.
Proof.
  intros Hinv [H0|[Hfree Hcase]].
  { exists s. split; [by apply do_fork_no_page|]. split; [done|]. do 8 (split; [done|]). exists 0.
    assert (¬ page_ok 0) as H0' by (intros [_ ?]; page_lia).
    split; [intros [? _]; by apply H0'|]. split; [|done].
    pose proof (fi_layout _ _ _ Hinv). intros [?|Hin]%elem_of_cons; [lia|].
    by destruct (fi_used _ _ _ Hinv _ Hin) as [? _]. }
  destruct (find_free (map (λ a, negb (a =? 0)) (g_task s)) 0) as [i|] eqn:Hfind.
  - destruct Hcase as [?|(Hf & Hal & [r Hr])]; [done|].
    destruct (do_fork_misaligned fuel s queue forked flags stack arg r i) as (s' & E & H1 & H2 & _); [done..|].
    by exists s'.
  - destruct (do_fork_table_full fuel s queue forked flags stack arg Hinv Hfree Hfind) as (s' & E & H1 & H2 & _). by exists s'.
Qed.

(** The allocator's last 1024 pages are past the end of memory: when only they are free, a
    fork takes one and aborts when it clears it. *)
Theorem do_fork_past_memory s flags stack arg :
  pages_ok (f_pages s) → nr_mapped (f_pages s) = 0%nat → nr_free (mem_map (f_pages s)) ≠ 0%nat →
  ∃ p, do_fork fuel flags stack arg s = Fault (WildAddr p) ∧ TOTAL_MEMORY ≤ p < TOTAL_MEMORY + 1024 * PAGE_SIZE.
Proof.
  intros Hok H0 Hne. destruct (do_fork_page_past fuel s flags stack arg Hok H0 Hne) as (p & E & [_ Hp] & Hpt).
  exists p. split; [done|]. page_lia.
Qed.

(** Move_to_user_space replaces the exception frame at the top of
    the current task's stack by one that enters [pc] at EL0 with every register
    zero and the stack pointer at the end of a fresh page; without a free page
    it returns -1 and changes nothing. *)
Theorem move_to_user_space_frame s pc :
  pages_ok (f_pages s) → supply 1 (f_pages s) →
  ∃ ret s', move_to_user_space pc s = Ret ret s' ∧ f_sched s' = f_sched s ∧
    (∀ queue forked, fork_inv s queue forked → fork_inv s' queue forked) ∧
    if decide (nr_free (mem_map (f_pages s)) = 0%nat) then ret = -1 ∧ s' = s
    else ret = 0 ∧ ∃ stack, page_ok stack ∧ ¬ page_used (f_pages s) stack ∧ page_used (f_pages s') stack ∧
         f_regs s' = <[task_pt_regs (current (f_sched s)) :=
                        PtRegs (replicate 31 0) (stack + PAGE_SIZE) pc PSR_MODE_EL0t 0 0 0 0 0 (0, 0)]> (f_regs s).
Proof.
  intros Hok Hroom. unfold move_to_user_space.
  assert (zoom get_current s = Ret (current (f_sched s)) s) as Ec by (by destruct s).
  rewrite (bind_eq _ _ _ _ _ Ec). case_decide as H0.
  - assert (zoom get_free_page s = Ret 0 s) as E by (unfold zoom; cbn; rewrite get_free_page_none by done; by destruct s).
    rewrite (bind_eq _ _ _ _ _ E). by exists (-1), s.
  - destruct Hroom as [Hfree|]; [|done].
    destruct (get_free_page_mapped (f_pages s) Hok Hfree) as (p & pages' & E & H1 & H2 & Hlt & H3 & H4 & H5).
    assert (zoom get_free_page s = Ret p (lput pages' s)) as E0 by (unfold zoom; cbn; by rewrite E).
    assert (0 < p < 2 ^ 63) by (destruct H2; page_lia).
    rewrite (bind_eq _ _ _ _ _ E0), (proj2 (Z.eqb_neq p 0)) by lia.
    eexists 0, _. split.
    + unfold touch_page. rewrite (proj2 (Z.ltb_lt _ _) Hlt), bind_skip. unfold start_user_thread, update_regs, load_regs, store_regs, mbind, M_bind. cbn.
      rewrite !lookup_insert_eq. cbn. rewrite !lookup_insert_eq. cbn. rewrite !lookup_insert_eq. cbn. done.
    + cbn [f_sched f_regs f_pages]. split; [done|]. split; [|split; [done|]; exists p].
      { intros queue forked []. split; cbn; auto. intros q Hq. apply H4. right. auto. }
      split; [done|]. split; [done|].
      split; [by apply H4; left|]. rewrite !insert_insert_eq. unfold set_regs_sp, set_pstate, set_regs_pc, zero_regs; cbn.
      rewrite u64_id by page_lia. done.
Qed.
End properties.

(** ** Instances: the first forks of the boot *)

#[local] Existing Instance Example_sched.symbols.
#[local] Existing Instance log_console.

Module Example_fork.
Definition sched0 : sched (list (string * list karg)) :=
  Sched (<[0x80000 := INIT_TASK 0x80000]> ∅) (<[0x70000 := ListHead 0x70000 0x70000]> ∅)
    (RunQueue 0 0 0) (CpuContext 0 0 0 0 0 0 0 0 0 0 0 0x80f00 0) false ∅ [].
Definition user_regs : pt_regs := PtRegs (replicate 31 7) 0x9000 0x85000 PSR_MODE_EL0t 0 0 0 0 0 (0, 0).
Definition boot : fork_state (list (string * list karg)) :=
  ForkState sched0 pages_boot (<[task_pt_regs 0x80000 := user_regs]> ∅) (0x80000 :: replicate 127 0) 0.

Lemma boot_inv : fork_inv boot [] [].
Proof.
  assert (∀ p t, tasks sched0 !! p = Some t → p = 0x80000 ∧ t = INIT_TASK 0x80000) as Hts.
  { intros p t Ht. cbn [tasks sched0] in Ht.
    apply lookup_insert_Some in Ht as [[<- <-]|[_ Ht]]; [done|by rewrite lookup_empty in Ht]. }
  split; [split; [split|..]|..].
  - split; [apply NoDup_singleton|]. cbn. unfold edge. by split.
  - done.
  - split; [apply NoDup_singleton|]. cbn. unfold edge. by split.
  - set_solver.
  - intros p t _ [-> ->]%Hts. split; vm_compute; intuition congruence.
  - by apply elem_of_cons; left.
  - by intros p t _ [-> ->]%Hts.
  - by intros p t [-> ->]%Hts.
  - done.
  - exact pages_boot_ok.
  - set_solver.
  - by vm_compute.
  - done.
  - by_decision.
Qed.

Lemma boot_free : (0 < nr_mapped (f_pages boot))%nat.
Proof. pose proof nr_mapped_boot. change (f_pages boot) with pages_boot. lia. Qed.
End Example_fork.


Lemma do_fork_clones_user_witness :
  ∃ p s' child_regs, do_fork 200 0 0xa000 0 Example_fork.boot = Ret 1 s' ∧
    created Example_fork.boot s' [] [] p 1 (CpuContext 0 0 0 0 0 0 0 0 0 0 0 (task_pt_regs p) ret_from_fork) ∧
    f_regs s' !! task_pt_regs p = Some child_regs ∧
    gregs child_regs = 0 :: replicate 30 7 ∧ regs_pc child_regs = 0x85000 ∧
    pstate child_regs = PSR_MODE_EL0t ∧ regs_sp child_regs = 0xa000.
Proof.
  apply (do_fork_clones_user 200 Example_fork.boot [] [] 0 0xa000 0 1 Example_fork.user_regs);
    [exact Example_fork.boot_inv|exact Example_fork.boot_free|reflexivity|cbn; lia|cbn; lia|reflexivity..].
Defined.

Lemma do_fork_fails_cleanly_witness :
  ∃ s', do_fork 200 0 0xa008 0 Example_fork.boot = Ret (-1) s' ∧ fork_inv s' [] [] ∧
        left_alone Example_fork.boot s' [].
Proof.
  apply (do_fork_fails_cleanly 200 Example_fork.boot [] [] 0 0xa008 0 Example_fork.boot_inv).
  right. split; [exact Example_fork.boot_free|]. right. split; [reflexivity|split; [discriminate|]].
  exists Example_fork.user_regs. reflexivity.
Defined.

(** Every page before the end of memory in use. *)
Lemma do_fork_past_memory_witness :
  let s := ForkState Example_fork.sched0 (first_used MAPPED_PAGES) ∅ (0x80000 :: replicate 127 0) 0 in
  ∃ p, do_fork 200 PF_KTHREAD 0x85000 0 s = Fault (WildAddr p) ∧ TOTAL_MEMORY ≤ p.
Proof.
  intros s. pose proof MAPPED_PAGES_eq as Hm.
  destruct (do_fork_past_memory 200 s PF_KTHREAD 0x85000 0) as (p & E & Hp & _); [| | |exact (ex_intro _ p (conj E Hp))].
  - unfold pages_ok, s. cbn [f_pages first_used mem_map]. rewrite length_app, !length_replicate. page_lia.
  - unfold nr_mapped, s. cbn [f_pages first_used mem_map]. rewrite take_app_le by by rewrite length_replicate.
    rewrite take_replicate, Nat.min_id. by apply nr_free_0, Forall_replicate.
  - intros H0%nr_free_0. unfold s in H0. cbn [f_pages first_used mem_map] in H0. apply Forall_app in H0 as [_ H0].
    replace (Z.to_nat NR_PAGES - MAPPED_PAGES)%nat with (S 1023) in H0 by page_lia.
    cbn [replicate] in H0. apply Forall_inv in H0. done.
Defined.

Lemma move_to_user_space_frame_witness :
  pages_ok (f_pages Example_fork.boot) ∧
  ∃ ret s', move_to_user_space 0x85000 Example_fork.boot = Ret ret s' ∧
            f_sched s' = f_sched Example_fork.boot.
Proof.
  split; [exact pages_boot_ok|].
  destruct (move_to_user_space_frame Example_fork.boot 0x85000 pages_boot_ok (or_introl Example_fork.boot_free)) as (ret & s' & E & H & _).
  exists ret, s'. split; [exact E|exact H].
Defined.
