(* ===== verification/PgTable.v ===== *)
(** * include/asm/pgtable*.h: page-table descriptors, and what they mean

    The index, descriptor and boundary macros of the headers on 64-bit values,
    the hardware's translation of an address through the four levels of tables
    in memory ([translate], the specification the mapping code is verified
    against), and the abstraction used to verify it: [table_rep] relates memory
    to the entries of the tables keyed by level and virtual prefix. *)

From S2P Require Import Prelude Memory Mmio PageAlloc.

(** ** Constants *)

(** [arch/arm64/include/asm/mm.h:14-15] VA_BITS *)
Definition VA_BITS : Z := 48.
(** [arch/arm64/include/asm/pgtable_hwdef.h:8-9] PGDIR_SHIFT *)
Definition PGDIR_SHIFT : Z := 39.
(** [arch/arm64/include/asm/pgtable_hwdef.h:14-15] PUD_SHIFT *)
Definition PUD_SHIFT : Z := 30.
(** [arch/arm64/include/asm/pgtable_hwdef.h:20-21] PMD_SHIFT *)
Definition PMD_SHIFT : Z := 21.
(** [arch/arm64/include/asm/pgtable_hwdef.h:11-11] PTRS_PER_PGD *)
Definition PTRS_PER_PGD : Z := Z.shiftl 1 (VA_BITS - PGDIR_SHIFT).
(** [arch/arm64/include/asm/pgtable_hwdef.h:17-17] PTRS_PER_PUD *)
Definition PTRS_PER_PUD : Z := Z.shiftl 1 (PGDIR_SHIFT - PUD_SHIFT).
(** [arch/arm64/include/asm/pgtable_hwdef.h:23-23] PTRS_PER_PMD *)
Definition PTRS_PER_PMD : Z := Z.shiftl 1 (PUD_SHIFT - PMD_SHIFT).
(** [arch/arm64/include/asm/pgtable_hwdef.h:26-29] PTRS_PER_PTE *)
Definition PTRS_PER_PTE : Z := Z.shiftl 1 (PMD_SHIFT - 12).
(** [arch/arm64/include/asm/pgtable_hwdef.h:31-34] PG_SECTION_MASK *)
Definition PG_SECTION_MASK : Z := u64 (Z.lnot (Z.shiftl 1 PMD_SHIFT - 1)).
(** [arch/arm64/include/asm/pgtable_hwdef.h:41-41] PUD_TYPE_TABLE *)
Definition PUD_TYPE_TABLE : Z := 3.
(** [arch/arm64/include/asm/pgtable_hwdef.h:43-43] PUD_TYPE_MASK *)
Definition PUD_TYPE_MASK : Z := 3.
(** [arch/arm64/include/asm/pgtable_hwdef.h:44-44] PUD_TYPE_SECT *)
Definition PUD_TYPE_SECT : Z := 1.
(** [arch/arm64/include/asm/pgtable_hwdef.h:49-49] PMD_TYPE_MASK *)
Definition PMD_TYPE_MASK : Z := 3.
(** [arch/arm64/include/asm/pgtable_hwdef.h:51-51] PMD_TYPE_TABLE *)
Definition PMD_TYPE_TABLE : Z := 3.
(** [arch/arm64/include/asm/pgtable_hwdef.h:52-52] PMD_TYPE_SECT *)
Definition PMD_TYPE_SECT : Z := 1.
(** [arch/arm64/include/asm/pgtable_hwdef.h:79-79] PTE_TYPE_PAGE *)
Definition PTE_TYPE_PAGE : Z := 3.
(** [arch/arm64/include/asm/pgtable_hwdef.h:80-80] PTE_TABLE_BIT *)
Definition PTE_TABLE_BIT : Z := Z.shiftl 1 1.
(** [arch/arm64/include/asm/pgtable_hwdef.h:81-81] PTE_USER *)
Definition PTE_USER : Z := Z.shiftl 1 6.
(** [arch/arm64/include/asm/pgtable_hwdef.h:82-82] PTE_RDONLY *)
Definition PTE_RDONLY : Z := Z.shiftl 1 7.
(** [arch/arm64/include/asm/pgtable_hwdef.h:83-83] PTE_SHARED *)
Definition PTE_SHARED : Z := Z.shiftl 3 8.
(** [arch/arm64/include/asm/pgtable_hwdef.h:84-84] PTE_AF *)
Definition PTE_AF : Z := Z.shiftl 1 10.
(** [arch/arm64/include/asm/pgtable_hwdef.h:85-85] PTE_NG *)
Definition PTE_NG : Z := Z.shiftl 1 11.
(** [arch/arm64/include/asm/pgtable_hwdef.h:86-86] PTE_DBM *)
Definition PTE_DBM : Z := Z.shiftl 1 51.
(** [arch/arm64/include/asm/pgtable_hwdef.h:87-87] PTE_CONT *)
Definition PTE_CONT : Z := Z.shiftl 1 52.
(** [arch/arm64/include/asm/pgtable_hwdef.h:88-88] PTE_PXN *)
Definition PTE_PXN : Z := Z.shiftl 1 53.
(** [arch/arm64/include/asm/pgtable_hwdef.h:89-89] PTE_UXN *)
Definition PTE_UXN : Z := Z.shiftl 1 54.
(** [arch/arm64/include/asm/pgtable_hwdef.h:92-93] PTE_ADDR_MASK *)
Definition PTE_ADDR_MASK : Z := Z.shiftl (Z.shiftl 1 (48 - 12) - 1) 12.
(** [arch/arm64/include/asm/pgtable_hwdef.h:99-99] PTE_ATTRINDX *)
Definition PTE_ATTRINDX (t : Z) : Z := Z.shiftl t 2.
(** [arch/arm64/include/asm/mm.h:20-20] MT_DEVICE_nGnRnE *)
Definition MT_DEVICE_nGnRnE : Z := 0.
(** [arch/arm64/include/asm/mm.h:21-21] MT_DEVICE_nGnRE *)
Definition MT_DEVICE_nGnRE : Z := 1.
(** [arch/arm64/include/asm/mm.h:22-22] MT_DEVICE_GRE *)
Definition MT_DEVICE_GRE : Z := 2.
(** [arch/arm64/include/asm/mm.h:23-23] MT_NORMAL_NC *)
Definition MT_NORMAL_NC : Z := 3.
(** [arch/arm64/include/asm/mm.h:24-24] MT_NORMAL *)
Definition MT_NORMAL : Z := 4.
(** [arch/arm64/include/asm/mm.h:25-25] MT_NORMAL_WT *)
Definition MT_NORMAL_WT : Z := 5.
(** [arch/arm64/include/asm/pgtable_prot.h:11-11] PTE_WRITE *)
Definition PTE_WRITE : Z := PTE_DBM.
(** [arch/arm64/include/asm/pgtable_prot.h:10-10] PTE_VALID *)
Definition PTE_VALID : Z := 1.
(** [arch/arm64/include/asm/pgtable_prot.h:12-12] PTE_DIRTY *)
Definition PTE_DIRTY : Z := Z.shiftl 1 55.
(** [arch/arm64/include/asm/pgtable_prot.h:16-17] PROT_DEFAULT *)
Definition PROT_DEFAULT : Z := Z.lor (Z.lor PTE_TYPE_PAGE PTE_AF) PTE_SHARED.
(** [arch/arm64/include/asm/pgtable_prot.h:19-23] PROT_DEVICE_nGnRnE and PROT_NORMAL,
    by memory type *)
Definition PROT_OF (mt : Z) : Z :=
  Z.lor (Z.lor (Z.lor (Z.lor (Z.lor PROT_DEFAULT PTE_PXN) PTE_UXN) PTE_DIRTY) PTE_WRITE) (PTE_ATTRINDX mt).
Definition PROT_DEVICE_nGnRnE : Z := PROT_OF MT_DEVICE_nGnRnE.
Definition PROT_NORMAL : Z := PROT_OF MT_NORMAL.
(** [arch/arm64/include/asm/pgtable_prot.h:26-26] PAGE_KERNEL_ROX *)
Definition PAGE_KERNEL_ROX : Z :=
  Z.lor (Z.land PROT_NORMAL (Z.lnot (Z.lor PTE_WRITE PTE_PXN))) PTE_RDONLY.
(** [arch/arm64/include/asm/pgtable_prot.h:28-28] PAGE_KERNEL *)
Definition PAGE_KERNEL : Z := PROT_NORMAL.

(** ** Macros *)

(** [arch/arm64/include/asm/pgtable.h:10-11] pgd_index *)
Definition pgd_index (addr : Z) : Z := Z.land (Z.shiftr addr PGDIR_SHIFT) (PTRS_PER_PGD - 1).
(** [arch/arm64/include/asm/pgtable.h:46-46] pud_index *)
Definition pud_index (addr : Z) : Z := Z.land (Z.shiftr addr PUD_SHIFT) (PTRS_PER_PUD - 1).
(** [arch/arm64/include/asm/pgtable.h:54-54] pmd_index *)
Definition pmd_index (addr : Z) : Z := Z.land (Z.shiftr addr PMD_SHIFT) (PTRS_PER_PMD - 1).
(** [arch/arm64/include/asm/pgtable.h:64-64] pte_index *)
Definition pte_index (addr : Z) : Z := Z.land (Z.shiftr addr 12) (PTRS_PER_PTE - 1).

(** The three boundary macros differ in the size of what one entry maps. *)
Definition addr_end (shift addr end' : Z) : Z :=
  let size := Z.shiftl 1 shift in
  let boundary := Z.land (u64 (addr + size)) (u64 (Z.lnot (size - 1))) in
  if u64 (boundary - 1) <? u64 (end' - 1) then boundary else end'.
(** [arch/arm64/include/asm/pgtable.h:16-19] pgd_addr_end *)
Definition pgd_addr_end : Z → Z → Z := addr_end PGDIR_SHIFT.
(** [arch/arm64/include/asm/pgtable.h:21-24] pud_addr_end *)
Definition pud_addr_end : Z → Z → Z := addr_end PUD_SHIFT.
(** [arch/arm64/include/asm/pgtable.h:26-29] pmd_addr_end *)
Definition pmd_addr_end : Z → Z → Z := addr_end PMD_SHIFT.

(** [arch/arm64/include/asm/pgtable.h:31-34] pgd_none, pud_none, pmd_none, pte_none *)
Definition pgd_none (e : Z) : bool := e =? 0.
(** [arch/arm64/include/asm/pgtable.h:36-39] pmd_sect, pud_sect *)
Definition pmd_sect (e : Z) : bool := Z.land e PMD_TYPE_MASK =? PMD_TYPE_SECT.

(** [arch/arm64/include/asm/pgtable.h:41-44] pgd_page_paddr; pud_page_paddr (49-52)
    and pmd_page_paddr (59-62) are the same *)
Definition pgd_page_paddr (e : Z) : Z := Z.land e PTE_ADDR_MASK.

(** [arch/arm64/include/asm/pgtable.h:13-14] pgd_offset_raw *)
Definition pgd_offset_raw (pgd addr : Z) : Z := pgd + 8 * pgd_index addr.
(** [arch/arm64/include/asm/pgtable.h:47-52] pud_offset_phys, of the entry it dereferences *)
Definition pud_offset_phys (pgd addr : Z) : Z := pgd_page_paddr pgd + pud_index addr * 8.
(** [arch/arm64/include/asm/pgtable.h:55-55] pmd_offset_phys *)
Definition pmd_offset_phys (pud addr : Z) : Z := pgd_page_paddr pud + pmd_index addr * 8.
(** [arch/arm64/include/asm/pgtable.h:59-65] pte_offset_phys *)
Definition pte_offset_phys (pmd addr : Z) : Z := pgd_page_paddr pmd + pte_index addr * 8.

(** [arch/arm64/include/asm/pgtable.h:57-57] pfn_pmd *)
Definition pfn_pmd (pfn prot : Z) : Z := Z.lor (u64 (Z.shiftl pfn PMD_SHIFT)) prot.
(** [arch/arm64/include/asm/pgtable.h:67-67] pfn_pte *)
Definition pfn_pte (pfn prot : Z) : Z := Z.lor (u64 (Z.shiftl pfn 12)) prot.

(** [arch/arm64/include/asm/pgtable.h:102-105] mk_sect_prot *)
Definition mk_sect_prot (prot : Z) : Z := Z.land prot (u64 (Z.lnot PTE_TABLE_BIT)).

(** [arch/arm64/include/asm/pgtable.h:96-100] set_pte_bit *)
Definition set_pte_bit (pte bit : Z) : Z := Z.lor pte bit.
(** [arch/arm64/include/asm/pgtable.h:107-110] pte_mkyoung *)
Definition pte_mkyoung (pte : Z) : Z := set_pte_bit pte PTE_AF.
(** [arch/arm64/include/asm/pgtable.h:112-116] clear_pte_bit; the bit is an [int] *)
Definition clear_pte_bit (pte bit : Z) : Z := Z.land pte (u64 (Z.lnot (s32 bit))).
(** [arch/arm64/include/asm/pgtable.h:118-123] pte_mkwrite *)
Definition pte_mkwrite (pte : Z) : Z := clear_pte_bit (set_pte_bit pte PTE_WRITE) PTE_RDONLY.

(** ** Translation

    What the memory management unit does with an address below 2^48: descriptors
    with low bits 3 point to the next table (or, in the last level, map a page),
    those with low bits 1 map a block in the second and third level, and the
    others map nothing.  The answer is the physical address and the attributes. *)

Definition desc_type (e : Z) : Z := Z.land e 3.
Definition desc_attrs (e : Z) : Z := Z.land e (u64 (Z.lnot (Z.lor PTE_ADDR_MASK 3))).
(** A block or page of [2^shift] bytes. *)
Definition desc_maps (e shift va : Z) : Z * Z :=
  (Z.land e (Z.land PTE_ADDR_MASK (u64 (Z.lnot (2 ^ shift - 1)))) + va mod 2 ^ shift, desc_attrs e).

Definition translate (m : memory) (pgd va : Z) : option (Z * Z) :=
  e0 ← ld64 m (pgd + 8 * pgd_index va);
  if negb (desc_type e0 =? 3) then None else
  e1 ← ld64 m (pud_offset_phys e0 va);
  if desc_type e1 =? 1 then Some (desc_maps e1 PUD_SHIFT va)
  else if negb (desc_type e1 =? 3) then None else
  e2 ← ld64 m (pmd_offset_phys e1 va);
  if desc_type e2 =? 1 then Some (desc_maps e2 PMD_SHIFT va)
  else if negb (desc_type e2 =? 3) then None else
  e3 ← ld64 m (pte_offset_phys e2 va);
  if desc_type e3 =? 3 then Some (desc_maps e3 12 va) else None.

(** ** The abstract tables

    An entry is keyed by its level (0 is the PGD, 3 the last level) and the bits
    of the virtual address above what it maps; [tables] locates the table of
    each level and prefix, [ents] gives the value of each entry. *)

Abbreviation table_map := (gmap (Z * Z) Z).
Abbreviation entries := (Z → Z → Z).

(** log2 of the bytes one entry of a level maps. *)
Definition level_shift (l : Z) : Z := 39 - 9 * l.
Definition key (l va : Z) : Z := va / 2 ^ level_shift l.

Definition upd (ents : entries) (l k v : Z) : entries :=
  λ l' k', if decide (l' = l ∧ k' = k) then v else ents l' k'.
(** A new table, all zero, below entry [k] of level [l]. *)
Definition clear (ents : entries) (l k : Z) : entries :=
  λ l' k', if decide (l' = l + 1 ∧ k' / 512 = k) then 0 else ents l' k'.

Definition entry_addr (a k : Z) : Z := a + 8 * (k mod 512).

Definition translate_ents (ents : entries) (va : Z) : option (Z * Z) :=
  if negb (desc_type (ents 0 (key 0 va)) =? 3) then None else
  if desc_type (ents 1 (key 1 va)) =? 1 then Some (desc_maps (ents 1 (key 1 va)) PUD_SHIFT va)
  else if negb (desc_type (ents 1 (key 1 va)) =? 3) then None else
  if desc_type (ents 2 (key 2 va)) =? 1 then Some (desc_maps (ents 2 (key 2 va)) PMD_SHIFT va)
  else if negb (desc_type (ents 2 (key 2 va)) =? 3) then None else
  if desc_type (ents 3 (key 3 va)) =? 3 then Some (desc_maps (ents 3 (key 3 va)) 12 va) else None.

(** A page that can hold a table. *)
Definition table_page (a : Z) : Prop := a mod PAGE_SIZE = 0 ∧ 0 ≤ a < 2 ^ 48 - PAGE_SIZE.

Record table_rep (m : memory) (pgd : Z) (tables : table_map) (ents : entries) : Prop := {
  tr_root : tables !! (0, 0) = Some pgd;
  tr_read : ∀ l k a, tables !! (l, k / 512) = Some a → ld64 m (entry_addr a k) = Some (ents l k);
  tr_levels : ∀ l i a, tables !! (l, i) = Some a → 0 ≤ l ≤ 3 ∧ (l = 0 → i = 0);
  tr_pages : ∀ x a, tables !! x = Some a → table_page a;
  tr_inj : ∀ x y a, tables !! x = Some a → tables !! y = Some a → x = y;
  tr_parent : ∀ l k a, 0 ≤ l → tables !! (l + 1, k) = Some a → is_Some (tables !! (l, k / 512));
  tr_next : ∀ l k a, l < 3 → tables !! (l, k / 512) = Some a →
    match tables !! (l + 1, k) with
    | Some t => ents l k = Z.lor t 3
    | None => ents l k = 0 ∨ l = 2 ∧ desc_type (ents l k) = 1
    end;
}.

(** ** Arithmetic of descriptors *)

Lemma desc_type_mod e : desc_type e = e mod 4.
Proof. unfold desc_type. change 3 with (2 ^ 2 - 1). by rewrite land_low. Qed.

Lemma PTE_ADDR_MASK_ones : PTE_ADDR_MASK = Z.ldiff (Z.ones 48) (Z.ones 12).
Proof. reflexivity. Qed.

Lemma land_addr_mask e : Z.land e PTE_ADDR_MASK = e mod 2 ^ 48 / 2 ^ 12 * 2 ^ 12.
Proof.
  rewrite PTE_ADDR_MASK_ones, Z.ldiff_land, Z.land_assoc, Z.land_ones by lia.
  by apply land_lnot_ones.
Qed.

Lemma table_entry t : table_page t → Z.lor t 3 = t + 3 ∧ desc_type (Z.lor t 3) = 3 ∧ Z.land (Z.lor t 3) PTE_ADDR_MASK = t.
Proof.
  intros [Hm Hr]. autorewrite with page_consts in *.
  rewrite (lor_low t 3 12) by (try done; lia). split; [done|].
  pose proof (Z.div_mod t 4096). rewrite desc_type_mod, land_addr_mask. split.
  - replace (t + 3) with (3 + (t / 4096 * 1024) * 4) by lia. by rewrite Z.mod_add by lia.
  - rewrite Z.mod_small by lia. change (2 ^ 12) with 4096.
    rewrite <-(Z.div_unique (t + 3) 4096 (t / 4096) 3) by lia. lia.
Qed.

Lemma index_key shift va : 0 ≤ shift → Z.land (Z.shiftr va shift) (2 ^ 9 - 1) = va / 2 ^ shift mod 512.
Proof. intros Hs. rewrite land_low, Z.shiftr_div_pow2 by lia. done. Qed.

Lemma key_up l va : 0 ≤ l < 3 → key (l + 1) va / 512 = key l va.
Proof.
  intros Hl. unfold key, level_shift. change 512 with (2 ^ 9).
  rewrite Z.div_div by (try apply Z.pow_nonzero; lia). f_equal. rewrite <-Z.pow_add_r by lia. f_equal. lia.
Qed.

Lemma key_root va : 0 ≤ va < 2 ^ 48 → key 0 va / 512 = 0.
Proof.
  intros Hv. unfold key, level_shift. change (39 - 9 * 0) with 39.
  rewrite Z.div_div by lia. apply Z.div_small. change (2 ^ 39 * 512) with (2 ^ 48). lia.
Qed.

(** The offsets the macros compute are those of the abstract entries. *)
Lemma pgd_offset_key pgd va : pgd_offset_raw pgd va = entry_addr pgd (key 0 va).
Proof. unfold pgd_offset_raw, pgd_index, entry_addr. by rewrite (index_key 39). Qed.
Lemma pud_offset_key t va : table_page t → pud_offset_phys (Z.lor t 3) va = entry_addr t (key 1 va).
Proof.
  intros Ht. unfold pud_offset_phys, pgd_page_paddr, pud_index, entry_addr.
  destruct (table_entry t Ht) as (_ & _ & ->). rewrite (index_key 30) by lia.
  change (key 1 va) with (va / 2 ^ 30). lia.
Qed.
Lemma pmd_offset_key t va : table_page t → pmd_offset_phys (Z.lor t 3) va = entry_addr t (key 2 va).
Proof.
  intros Ht. unfold pmd_offset_phys, pgd_page_paddr, pmd_index, entry_addr.
  destruct (table_entry t Ht) as (_ & _ & ->). rewrite (index_key 21) by lia.
  change (key 2 va) with (va / 2 ^ 21). lia.
Qed.
Lemma pte_offset_key t va : table_page t → pte_offset_phys (Z.lor t 3) va = entry_addr t (key 3 va).
Proof.
  intros Ht. unfold pte_offset_phys, pgd_page_paddr, pte_index, entry_addr.
  destruct (table_entry t Ht) as (_ & _ & ->). rewrite (index_key 12) by lia.
  change (key 3 va) with (va / 2 ^ 12). lia.
Qed.

(** ** Memory refines the abstract tables *)

Section rep.
Context (m : memory) (pgd : Z) (tables : table_map) (ents : entries).
Hypothesis Hrep : table_rep m pgd tables ents.

(** The two cases of an entry of a table that exists, above the last level. *)
Lemma rep_entry l k a :
  0 ≤ l < 3 → tables !! (l, k / 512) = Some a →
  (∃ t, tables !! (l + 1, k) = Some t ∧ table_page t ∧ ents l k = Z.lor t 3 ∧ desc_type (ents l k) = 3) ∨
  (tables !! (l + 1, k) = None ∧ (ents l k = 0 ∨ l = 2 ∧ desc_type (ents l k) = 1)).
Proof.
  intros Hl Ha. pose proof (tr_next _ _ _ _ Hrep l k a ltac:(lia) Ha) as H.
  destruct (tables !! (l + 1, k)) as [t|] eqn:Ht; [left|right; done].
  pose proof (tr_pages _ _ _ _ Hrep _ _ Ht) as Hp. exists t. rewrite H.
  by destruct (table_entry t Hp) as (_ & ? & _).
Qed.

Lemma translate_rep va : 0 ≤ va < 2 ^ 48 → translate m pgd va = translate_ents ents va.
Proof.
  intros Hva. unfold translate, translate_ents.
  change (pgd + 8 * pgd_index va) with (pgd_offset_raw pgd va). rewrite pgd_offset_key.
  assert (tables !! (0, key 0 va / 512) = Some pgd) as H0 by (rewrite key_root by done; apply Hrep).
  rewrite (tr_read _ _ _ _ Hrep 0 _ _ H0). cbn [mbind option_bind].
  destruct (rep_entry 0 _ _ ltac:(lia) H0) as [(t1 & H1 & Hp1 & He0 & Hd0)|[_ [He0|[? _]]]]; [| |lia]; cycle 1.
  { rewrite He0. done. }
  rewrite Hd0. cbn [negb Z.eqb Pos.eqb]. rewrite He0, pud_offset_key by done.
  rewrite <-(key_up 0) in H1 by lia. change (0 + 1) with 1 in H1.
  rewrite (tr_read _ _ _ _ Hrep 1 _ _ H1). cbn [mbind option_bind].
  destruct (rep_entry 1 _ _ ltac:(lia) H1) as [(t2 & H2 & Hp2 & He1 & Hd1)|[_ [He1|[? _]]]]; [| |lia]; cycle 1.
  { rewrite He1. done. }
  rewrite Hd1. cbn [negb Z.eqb Pos.eqb]. rewrite He1, pmd_offset_key by done.
  rewrite <-(key_up 1) in H2 by lia. change (1 + 1) with 2 in H2.
  rewrite (tr_read _ _ _ _ Hrep 2 _ _ H2). cbn [mbind option_bind].
  destruct (rep_entry 2 _ _ ltac:(lia) H2) as [(t3 & H3 & Hp3 & He2 & Hd2)|[_ [He2|[_ Hd2]]]].
  - rewrite Hd2. cbn [negb Z.eqb Pos.eqb]. rewrite He2, pte_offset_key by done.
    rewrite <-(key_up 2) in H3 by lia. change (2 + 1) with 3 in H3.
    by rewrite (tr_read _ _ _ _ Hrep 3 _ _ H3).
  - by rewrite He2.
  - by rewrite Hd2.
Qed.
End rep.

(** *** Writing entries *)

Lemma entry_in_page a k : table_page a → a ≤ entry_addr a k ∧ entry_addr a k + 8 ≤ a + PAGE_SIZE.
Proof. intros _. unfold entry_addr. pose proof (Z.mod_pos_bound k 512). page_lia. Qed.

Lemma table_pages_disjoint a b :
  table_page a → table_page b → a ≠ b → a + PAGE_SIZE ≤ b ∨ b + PAGE_SIZE ≤ a.
Proof.
  intros [Ha _] [Hb _] Hne. autorewrite with page_consts in *.
  pose proof (Z.div_mod a 4096). pose proof (Z.div_mod b 4096). lia.
Qed.

Lemma entry_addr_ne a k k' : k / 512 = k' / 512 → k ≠ k' →
  entry_addr a k + 8 ≤ entry_addr a k' ∨ entry_addr a k' + 8 ≤ entry_addr a k.
Proof. unfold entry_addr. pose proof (Z.div_mod k 512). pose proof (Z.div_mod k' 512). lia. Qed.

Section rep_write.
Context (m : memory) (pgd : Z) (tables : table_map) (ents : entries).
Hypothesis Hrep : table_rep m pgd tables ents.

(** Entries of two different keys do not overlap. *)
Lemma entries_disjoint l k a l' k' a' :
  tables !! (l, k / 512) = Some a → tables !! (l', k' / 512) = Some a' → (l', k') ≠ (l, k) →
  entry_addr a k + 8 ≤ entry_addr a' k' ∨ entry_addr a' k' + 8 ≤ entry_addr a k.
Proof.
  intros Ha Ha' Hne. destruct (decide (a = a')) as [->|Hpa].
  - pose proof (tr_inj _ _ _ _ Hrep _ _ _ Ha Ha') as Heq. injection Heq as -> Hk.
    apply entry_addr_ne; [done|]. congruence.
  - pose proof (tr_pages _ _ _ _ Hrep _ _ Ha) as Hp. pose proof (tr_pages _ _ _ _ Hrep _ _ Ha') as Hp'.
    destruct (entry_in_page a k Hp), (entry_in_page a' k' Hp'), (table_pages_disjoint a a' Hp Hp' Hpa); lia.
Qed.

(** A store to a page that holds no table leaves the tables alone. *)
Lemma rep_store_elsewhere p b v :
  table_page p → (∀ x a, tables !! x = Some a → a ≠ p) → p ≤ b → b + 8 ≤ p + PAGE_SIZE →
  table_rep (st64 m b v) pgd tables ents.
Proof.
  intros Hp Hne Hlo Hhi. destruct Hrep. split; try done. intros l k a Ha. rewrite ld64_st64_ne; [by apply tr_read0|].
  pose proof (tr_pages0 _ _ Ha) as Hpa. destruct (entry_in_page a k Hpa).
  destruct (table_pages_disjoint a p Hpa Hp (Hne _ _ Ha)); lia.
Qed.

Lemma rep_set_leaf l k a v :
  tables !! (l, k / 512) = Some a → 0 ≤ v < 2 ^ 64 → l = 3 ∨ l = 2 ∧ desc_type v = 1 →
  table_rep (st64 m (entry_addr a k) v) pgd (delete (l + 1, k) tables) (upd ents l k v).
Proof.
  intros Ha Hv Hl. split.
  - rewrite lookup_delete_ne; [apply Hrep|]. intros [= Heq]. lia.
  - intros l' k' a' [_ Ha']%lookup_delete_Some. unfold upd. destruct (decide (l' = l ∧ k' = k)) as [[-> ->]|Hne].
    + rewrite Ha in Ha'. injection Ha' as <-. by apply ld64_st64_eq.
    + rewrite ld64_st64_ne; [by apply Hrep|].
      apply (entries_disjoint l k a l' k' a' Ha Ha'). intros [= -> ->]. by apply Hne.
  - intros l' i a' [_ Ha']%lookup_delete_Some. by apply (tr_levels _ _ _ _ Hrep l' i a').
  - intros x b [_ Hb]%lookup_delete_Some. by apply (tr_pages _ _ _ _ Hrep x).
  - intros x y b [_ Hx]%lookup_delete_Some [_ Hy]%lookup_delete_Some. by apply (tr_inj _ _ _ _ Hrep x y b).
  - intros l' k' b H0 [Hne Hb]%lookup_delete_Some. rewrite lookup_delete_ne; [by apply (tr_parent _ _ _ _ Hrep l' k' b)|].
    intros [= Heq Hk]. pose proof (tr_levels _ _ _ _ Hrep _ _ _ Hb). lia.
  - intros l' k' a' Hl' [_ Ha']%lookup_delete_Some. unfold upd.
    pose proof (tr_next _ _ _ _ Hrep l' k' a' Hl' Ha') as Hnext.
    destruct (decide (l' = l ∧ k' = k)) as [[-> ->]|Hne].
    + rewrite lookup_delete_eq. destruct Hl as [->|[-> Hd]]; [lia|by right].
    + rewrite lookup_delete_ne by (intros [= ? ?]; apply Hne; split; lia). done.
Qed.

Lemma rep_new_table l k a p :
  0 ≤ l < 3 → tables !! (l, k / 512) = Some a → ents l k = 0 → table_page p →
  (∀ x b, tables !! x = Some b → b ≠ p) →
  table_rep (st64 (fill p PAGE_SIZE 0 m) (entry_addr a k) (Z.lor p 3)) pgd (<[(l + 1, k) := p]> tables)
    (upd (clear ents l k) l k (Z.lor p 3)).
Proof.
  intros Hl Ha H0 Hp Hfresh. destruct (table_entry p Hp) as (Hlor & Hd & _).
  assert (tables !! (l + 1, k) = None) as Hnone.
  { destruct (rep_entry _ _ _ _ Hrep l k a Hl Ha) as [(t & _ & _ & _ & Ht)|[? _]]; [|done].
    rewrite H0 in Ht. discriminate. }
  assert (∀ l' k' a', tables !! (l', k') = Some a' → (l', k') ≠ (l + 1, k)) as Hold by congruence.
  assert (0 ≤ Z.lor p 3 < 2 ^ 64) by (destruct Hp as [_ ?]; page_lia).
  split.
  - rewrite lookup_insert_ne; [apply Hrep|]. intros [= Heq]. lia.
  - intros l' k' a' Ha'. unfold upd, clear. destruct (decide (l' = l ∧ k' = k)) as [[-> ->]|Hne].
    { rewrite lookup_insert_ne in Ha' by (intros [= Heq]; lia). rewrite Ha in Ha'. injection Ha' as <-.
      by apply ld64_st64_eq. }
    apply lookup_insert_Some in Ha' as [[[= <- <-] <-]|[Hne' Ha']].
    + rewrite decide_True by done. destruct (entry_in_page p k' Hp).
      assert (a ≠ p) as Hap by by eapply Hfresh.
      pose proof (tr_pages _ _ _ _ Hrep _ _ Ha) as Hpa. destruct (entry_in_page a k Hpa).
      pose proof (table_pages_disjoint a p Hpa Hp Hap).
      rewrite ld64_st64_ne by lia. by apply ld64_fill_zero.
    + assert (a' ≠ p) as Hap by by eapply Hfresh.
      pose proof (tr_pages _ _ _ _ Hrep _ _ Ha') as Hpa. destruct (entry_in_page a' k' Hpa).
      rewrite decide_False by (intros [-> <-]; done).
      rewrite ld64_st64_ne by (apply (entries_disjoint l k a l' k' a' Ha Ha'); intros [= -> ->]; by apply Hne).
      rewrite <-(tr_read _ _ _ _ Hrep l' k' a' Ha'). apply ld64_ext. intros x Hx.
      rewrite lookup_fill, decide_False; [done|]. destruct (table_pages_disjoint a' p Hpa Hp Hap); lia.
  - intros l' i a' [[[= <- <-] <-]|[_ Ha']]%lookup_insert_Some; [lia|by apply (tr_levels _ _ _ _ Hrep l' i a')].
  - intros x b [[<- <-]|[_ Hb]]%lookup_insert_Some; [done|by apply (tr_pages _ _ _ _ Hrep x)].
  - intros x y b [[<- <-]|[_ Hx]]%lookup_insert_Some [[<- ?]|[_ Hy]]%lookup_insert_Some; try done.
    + by apply Hfresh in Hy.
    + subst b. by apply Hfresh in Hx.
    + by apply (tr_inj _ _ _ _ Hrep x y b).
  - intros l' k' b Hl' [[[= Heq <-] <-]|[Hne Hb]]%lookup_insert_Some.
    + assert (l' = l) as -> by lia. destruct (decide ((l + 1, k) = (l, k / 512))) as [[= ?]|Hne]; [lia|].
      rewrite lookup_insert_ne by done. by exists a.
    + destruct (tr_parent _ _ _ _ Hrep l' k' b Hl' Hb) as [c Hc].
      destruct (decide ((l + 1, k) = (l', k' / 512))) as [<-|Hne2]; [rewrite lookup_insert_eq; by eexists|].
      rewrite lookup_insert_ne by done. by exists c.
  - intros l' k' a' Hl' Ha'. unfold upd, clear. destruct (decide (l' = l ∧ k' = k)) as [[-> ->]|Hne].
    { rewrite lookup_insert_eq. done. }
    apply lookup_insert_Some in Ha' as [[[= <- Hk] <-]|[Hne' Ha']].
    + rewrite decide_True by done. rewrite lookup_insert_ne by (intros [= Heq]; lia).
      destruct (tables !! (l + 1 + 1, k')) as [t|] eqn:Ht; [|by left].
      destruct (tr_parent _ _ _ _ Hrep (l + 1) k' t ltac:(lia) Ht) as [c Hc]. congruence.
    + rewrite decide_False by (intros [-> <-]; done).
      rewrite lookup_insert_ne by (intros [= ? ?]; apply Hne; split; lia).
      by apply (tr_next _ _ _ _ Hrep l' k' a').
Qed.
End rep_write.

(** ** What an update of the tables maps *)

(** The address is reached through tables down to level [l]. *)
Definition reached (ents : entries) (l va : Z) : Prop :=
  ∀ l', 0 ≤ l' < l → desc_type (ents l' (key l' va)) = 3.

(** [ents'] maps [lo, hi) to the addresses from [phys] on and is [ents] elsewhere. *)
Definition maps_range (ents ents' : entries) (lo hi phys attrs : Z) : Prop :=
  ∀ va, 0 ≤ va < 2 ^ 48 →
    translate_ents ents' va
    = if decide (lo ≤ va < hi) then Some (phys + (va - lo), attrs) else translate_ents ents va.

Definition unmapped (ents : entries) (lo hi : Z) : Prop :=
  ∀ va, 0 ≤ va < 2 ^ 48 → lo ≤ va < hi → translate_ents ents va = None.

Lemma maps_range_app e1 e2 e3 lo mid hi phys attrs :
  lo ≤ mid ≤ hi → maps_range e1 e2 lo mid phys attrs →
  maps_range e2 e3 mid hi (phys + (mid - lo)) attrs → maps_range e1 e3 lo hi phys attrs.
Proof.
  intros Hm H1 H2 va Hva. rewrite H2, H1 by done.
  repeat case_decide; try lia; do 2 f_equal; lia.
Qed.

Lemma maps_range_nil e lo phys attrs : maps_range e e lo lo phys attrs.
Proof. intros va Hva. by rewrite decide_False by lia. Qed.

Lemma maps_range_same e e1 e2 lo hi phys attrs :
  (∀ va, 0 ≤ va < 2 ^ 48 → translate_ents e1 va = translate_ents e va) →
  maps_range e1 e2 lo hi phys attrs → maps_range e e2 lo hi phys attrs.
Proof. intros Hs H va Hva. rewrite H by done. case_decide; [done|by apply Hs]. Qed.

Lemma unmapped_after e1 e2 lo mid hi phys attrs :
  maps_range e1 e2 lo mid phys attrs → unmapped e1 mid hi → unmapped e2 mid hi.
Proof. intros H Hu va Hva Hr. rewrite H, decide_False by lia. by apply Hu. Qed.

Lemma unmapped_sub e lo lo' hi hi' : unmapped e lo hi → lo ≤ lo' → hi' ≤ hi → unmapped e lo' hi'.
Proof. intros H ? ? va Hva Hr. apply H; lia. Qed.

Lemma upd_same ents l k v : upd ents l k v l k = v.
Proof. unfold upd. by rewrite decide_True. Qed.
Lemma upd_other ents l k v l' k' : l' ≠ l ∨ k' ≠ k → upd ents l k v l' k' = ents l' k'.
Proof. intros H. unfold upd. rewrite decide_False; [done|]. lia. Qed.

Lemma translate_ents_ext e1 e2 va :
  (∀ l, 0 ≤ l ≤ 3 → e1 l (key l va) = e2 l (key l va)) → translate_ents e1 va = translate_ents e2 va.
Proof. intros H. unfold translate_ents. by rewrite !H by lia. Qed.

Lemma key_range l k va : 0 ≤ l ≤ 3 → key l va = k ↔ k * 2 ^ level_shift l ≤ va < (k + 1) * 2 ^ level_shift l.
Proof.
  intros Hl. unfold key. assert (0 < 2 ^ level_shift l) as Hp by (apply Z.pow_pos_nonneg; unfold level_shift; lia).
  pose proof (Z.div_mod va (2 ^ level_shift l)). pose proof (Z.mod_pos_bound va (2 ^ level_shift l) Hp).
  split; [intros <-; nia|]. intros Hr. symmetry. apply (Z.div_unique_pos _ _ _ (va - k * 2 ^ level_shift l)); lia.
Qed.

(** A new, empty table maps nothing more. *)
Lemma translate_new_table ents l k t va :
  0 ≤ l < 3 → 0 ≤ va < 2 ^ 48 → ents l k = 0 → desc_type t = 3 →
  translate_ents (upd (clear ents l k) l k t) va = translate_ents ents va.
Proof.
  intros Hl Hva H0 Ht. destruct (decide (key l va = k)) as [<-|Hne].
  - assert (∀ l', 0 ≤ l' < l → upd (clear ents l (key l va)) l (key l va) t l' (key l' va) = ents l' (key l' va)) as Hup.
    { intros l' Hl'. rewrite upd_other by lia. unfold clear. by rewrite decide_False by lia. }
    assert (upd (clear ents l (key l va)) l (key l va) t (l + 1) (key (l + 1) va) = 0) as Hz.
    { rewrite upd_other by lia. unfold clear. rewrite decide_True; [done|]. split; [done|]. by apply key_up. }
    assert (l = 0 ∨ l = 1 ∨ l = 2) as [-> |[-> | ->]] by lia; unfold translate_ents;
      change (0 + 1) with 1 in *; change (1 + 1) with 2 in *; change (2 + 1) with 3 in *;
      rewrite ?Hup, ?upd_same, ?Ht, ?Hz, ?H0 by lia; cbn; try done;
      repeat case_match; done.
  - apply translate_ents_ext. intros l' Hl'. rewrite upd_other.
    + unfold clear. rewrite decide_False; [done|]. intros [-> Hk]. rewrite key_up in Hk by lia. done.
    + destruct (decide (l' = l)) as [->|]; [by right|by left].
Qed.

(** Writing a page descriptor. *)
Lemma translate_set_page ents k v va :
  reached ents 3 va → desc_type v = 3 → key 3 va = k →
  translate_ents (upd ents 3 k v) va = Some (desc_maps v 12 va).
Proof.
  intros Hr Hv <-. unfold translate_ents. rewrite !(upd_other _ _ _ _ 0), !(upd_other _ _ _ _ 1),
    !(upd_other _ _ _ _ 2), upd_same by lia.
  rewrite (Hr 0), (Hr 1), (Hr 2) by lia. cbn. by rewrite Hv.
Qed.

(** Writing a block descriptor. *)
Lemma translate_set_section ents k v va :
  reached ents 2 va → desc_type v = 1 → key 2 va = k →
  translate_ents (upd ents 2 k v) va = Some (desc_maps v PMD_SHIFT va).
Proof.
  intros Hr Hv <-. unfold translate_ents. rewrite !(upd_other _ _ _ _ 0), !(upd_other _ _ _ _ 1), upd_same by lia.
  rewrite (Hr 0), (Hr 1) by lia. cbn. by rewrite Hv.
Qed.

Lemma translate_set_other ents l k v va : key l va ≠ k → translate_ents (upd ents l k v) va = translate_ents ents va.
Proof.
  intros Hne. apply translate_ents_ext. intros l' Hl'. apply upd_other.
  destruct (decide (l' = l)) as [->|]; [by right|by left].
Qed.

(** ** The descriptors the kernel writes *)

(** A protection: the bits of a page descriptor that are not the address. *)
Definition prot_ok (prot : Z) : Prop :=
  0 ≤ prot < 2 ^ 64 ∧ desc_type prot = 3 ∧ Z.land prot PTE_ADDR_MASK = 0.

Lemma land_addr_page phys : 0 ≤ phys < 2 ^ 48 → phys mod 2 ^ 12 = 0 → Z.land phys PTE_ADDR_MASK = phys.
Proof.
  intros Hp Hm. rewrite land_addr_mask, Z.mod_small by done. pose proof (Z.div_mod phys (2 ^ 12)). lia.
Qed.

(** An address has no bits outside the address field. *)
Lemma land_addr_other phys x :
  0 ≤ phys < 2 ^ 48 → phys mod 2 ^ 12 = 0 → Z.land PTE_ADDR_MASK x = 0 → Z.land phys x = 0.
Proof.
  intros Hp Hm Hx. rewrite <-(land_addr_page phys) by done. by rewrite <-Z.land_assoc, Hx, Z.land_0_r.
Qed.

Lemma lor_range a b : 0 ≤ a < 2 ^ 64 → 0 ≤ b < 2 ^ 64 → 0 ≤ Z.lor a b < 2 ^ 64.
Proof.
  intros Ha Hb. split; [apply Z.lor_nonneg; lia|].
  rewrite <-(Z.mod_small a (2 ^ 64)), <-(Z.mod_small b (2 ^ 64)) by done.
  rewrite <-!Z.land_ones, <-Z.land_lor_distr_l, Z.land_ones by lia. by apply Z.mod_pos_bound.
Qed.

Lemma land_range a b : 0 ≤ a < 2 ^ 64 → 0 ≤ Z.land a b < 2 ^ 64.
Proof.
  intros Ha. rewrite <-(Z.mod_small a (2 ^ 64)) by done.
  rewrite <-Z.land_ones, <-Z.land_assoc, (Z.land_comm (Z.ones 64)), Z.land_assoc, Z.land_ones by lia.
  by apply Z.mod_pos_bound.
Qed.

Lemma shift_back phys n : 0 ≤ n → 0 ≤ phys < 2 ^ 48 → phys mod 2 ^ n = 0 → u64 (Z.shiftl (Z.shiftr phys n) n) = phys.
Proof.
  intros Hn Hp Hm. rewrite Z.shiftr_div_pow2, Z.shiftl_mul_pow2 by done.
  assert (0 < 2 ^ n) by (by apply Z.pow_pos_nonneg).
  pose proof (Z.div_mod phys (2 ^ n)). replace (phys / 2 ^ n * 2 ^ n) with phys by lia. rewrite u64_id; lia.
Qed.

Lemma page_descriptor phys prot va :
  0 ≤ phys < 2 ^ 48 → phys mod 2 ^ 12 = 0 → prot_ok prot →
  let v := pfn_pte (Z.shiftr phys 12) prot in
  0 ≤ v < 2 ^ 64 ∧ desc_type v = 3 ∧ desc_maps v 12 va = (phys + va mod 2 ^ 12, desc_attrs prot).
Proof.
  intros Hp Hm (Hr & Hd & Ha) v. subst v. unfold pfn_pte. rewrite shift_back by (done || lia).
  split; [apply lor_range; lia|]. unfold desc_maps, desc_attrs, desc_type in *. rewrite !Z.land_lor_distr_l.
  change (Z.land PTE_ADDR_MASK (u64 (Z.lnot (2 ^ 12 - 1)))) with PTE_ADDR_MASK.
  rewrite Ha, land_addr_page, !(land_addr_other phys), Z.lor_0_r by done.
  split; [by rewrite Hd|done].
Qed.

Definition sect_prot (prot : Z) : Z := Z.lor PMD_TYPE_SECT (mk_sect_prot prot).

Lemma section_descriptor phys prot va :
  0 ≤ phys < 2 ^ 48 → phys mod 2 ^ 21 = 0 → prot_ok prot →
  let v := pfn_pmd (Z.shiftr phys PMD_SHIFT) (sect_prot prot) in
  0 ≤ v < 2 ^ 64 ∧ desc_type v = 1 ∧ desc_maps v PMD_SHIFT va = (phys + va mod 2 ^ 21, desc_attrs prot).
Proof.
  intros Hp Hm (Hr & Hd & Ha) v. subst v. unfold pfn_pmd. change PMD_SHIFT with 21. rewrite shift_back by (done || lia).
  assert (phys mod 2 ^ 12 = 0) as Hm12.
  { apply Z.mod_divide; [done|]. apply Z.mod_divide in Hm as [q ->]; [|done]. exists (q * 2 ^ 9). lia. }
  unfold sect_prot, mk_sect_prot. set (n := u64 (Z.lnot PTE_TABLE_BIT)).
  assert (0 ≤ Z.land prot n < 2 ^ 64) as Hr'.
  { by apply land_range. }
  split; [repeat apply lor_range; done || lia|].
  unfold desc_maps, desc_attrs, desc_type in *. rewrite !Z.land_lor_distr_l, <-!(Z.land_assoc prot n).
  change (Z.land n (u64 (Z.lnot (Z.lor PTE_ADDR_MASK 3)))) with (u64 (Z.lnot (Z.lor PTE_ADDR_MASK 3))).
  change (Z.land n 3) with (Z.land 3 1). rewrite (Z.land_assoc prot 3 1), Hd.
  set (b := Z.land PTE_ADDR_MASK (u64 (Z.lnot (2 ^ 21 - 1)))).
  change (Z.land n b) with (Z.land PTE_ADDR_MASK b). rewrite (Z.land_assoc prot), Ha, Z.land_0_l.
  change (Z.land PMD_TYPE_SECT b) with 0.
  rewrite (land_addr_other phys 3), (land_addr_other phys (u64 (Z.lnot (Z.lor PTE_ADDR_MASK 3)))) by done.
  split; [done|].
  unfold b. rewrite Z.land_assoc, (land_addr_page phys) by done. rewrite land_mask_down by lia.
  pose proof (Z.div_mod phys (2 ^ 21)). replace (phys / 2 ^ 21 * 2 ^ 21) with phys by lia. by rewrite !Z.lor_0_r.
Qed.

(** ** Boundaries *)

(** The end of the entry an address is in, or the end of the range. *)
Lemma addr_end_min shift addr end' :
  0 ≤ shift ≤ 39 → 0 ≤ addr < end' → end' ≤ 2 ^ 48 →
  addr_end shift addr end' = Z.min ((addr / 2 ^ shift + 1) * 2 ^ shift) end'.
Proof.
  intros Hs Ha He. unfold addr_end. rewrite Z.shiftl_1_l. cbv zeta.
  assert (0 < 2 ^ shift ≤ 2 ^ 39) as Hp by (split; [apply Z.pow_pos_nonneg; lia|apply Z.pow_le_mono_r; lia]).
  rewrite (u64_id (addr + 2 ^ shift)) by lia. rewrite land_mask_down by lia.
  replace ((addr + 2 ^ shift) / 2 ^ shift) with (addr / 2 ^ shift + 1)
    by (rewrite <-(Z.mul_1_l (2 ^ shift)) at 2; by rewrite Z.div_add by lia).
  pose proof (Z.div_mod addr (2 ^ shift)). pose proof (Z.mod_pos_bound addr (2 ^ shift)).
  assert (0 ≤ addr / 2 ^ shift * 2 ^ shift) by (apply Z.mul_nonneg_nonneg; [apply Z.div_pos|]; lia).
  rewrite Z.mul_add_distr_r, Z.mul_1_l. set (b := addr / 2 ^ shift * 2 ^ shift) in *.
  rewrite !u64_id by lia. destruct (Z.ltb_spec (b + 2 ^ shift - 1) (end' - 1)); lia.
Qed.
