(* ===== verification/Mmu.v ===== *)
(** * arch/arm64/mach-rpi/mmu.c: building the page tables, enabling the MMU

    The state is physical memory, the page allocator (any implementation of
    [PageAllocator]), and the trace of barriers and system-register accesses.
    The main theorem is that __create_pgd_mapping maps exactly the range it is
    asked to, for the hardware's own walk of the tables it builds. *)

From S2P Require Import Prelude Memory CString Mmio Uart Format Printk PageAlloc PgTable.

(** ** State *)

Record mmu_state (A : Type) : Type := MmuState {
  mem : memory;
  allocator : A;
  mtrace : trace;
}.
Arguments MmuState {A}. Arguments mem {A}. Arguments allocator {A}. Arguments mtrace {A}.

#[export] Program Instance lens_mem A : Lens (mmu_state A) memory := {|
  lget := mem; lput := λ x s, MmuState x (allocator s) (mtrace s);
|}.
Solve All Obligations with by intros; repeat match goal with p : mmu_state _ |- _ => destruct p end.
#[export] Program Instance lens_allocator A : Lens (mmu_state A) A := {|
  lget := allocator; lput := λ x s, MmuState (mem s) x (mtrace s);
|}.
Solve All Obligations with by intros; repeat match goal with p : mmu_state _ |- _ => destruct p end.
#[export] Program Instance lens_mtrace A : Lens (mmu_state A) trace := {|
  lget := mtrace; lput := λ x s, MmuState (mem s) (allocator s) x;
|}.
Solve All Obligations with by intros; repeat match goal with p : mmu_state _ |- _ => destruct p end.

(** [arch/arm64/mach-rpi/mach/base.h:25-25] DEVICE_SIZE *)
Definition DEVICE_SIZE : Z := 0x2000000.

(** [arch/arm64/mach-rpi/mmu.c:12-12] NO_BLOCK_MAPPINGS *)
Definition NO_BLOCK_MAPPINGS : Z := Z.shiftl 1 0.

(** Symbols of the linker script. *)
Class MmuSymbols : Type := {
  idmap_pgd_dir : Z;
  _text_boot_start : Z;
  _text_end : Z;
}.

(** ** The code *)

Section mmu.
Context {A : Type} (get_free_page : M A Z).
Abbreviation K := (M (mmu_state A)).

Definition deref (p : Z) : K Z := zoom (load64 p).

(** A descriptor is written and the write is made visible to the walker. *)
Definition set_entry (p v : Z) : K unit :=
  zoom (store64 p v) ;; zoom (barrier "dsb ishst").
(** [arch/arm64/include/asm/pgtable.h:69-74] set_pgd *)
Definition set_pgd : Z → Z → K unit := set_entry.
(** [arch/arm64/include/asm/pgtable.h:76-81] set_pud *)
Definition set_pud : Z → Z → K unit := set_entry.
(** [arch/arm64/include/asm/pgtable.h:83-88] set_pmd *)
Definition set_pmd : Z → Z → K unit := set_entry.
(** [arch/arm64/include/asm/pgtable.h:90-94] set_pte *)
Definition set_pte : Z → Z → K unit := set_entry.

(** [arch/arm64/mach-rpi/mmu.c:19-25] early_pgtable_alloc *)
Definition early_pgtable_alloc : K Z :=
  phys ← zoom get_free_page;
  zoom (memset phys 0 PAGE_SIZE) ;;
  mret phys.

(** [arch/arm64/mach-rpi/mmu.c:27-47] alloc_init_pte *)
Definition alloc_init_pte (pmdp addr end' phys prot : Z) (alloc_pgtable : K Z) (flags : Z) : K unit :=
  pmd ← deref pmdp;
  when (pgd_none pmd) (pte_phys ← alloc_pgtable; set_pmd pmdp (Z.lor pte_phys PMD_TYPE_TABLE)) ;;
  pmd ← deref pmdp;
  loop (Z.to_nat PTRS_PER_PTE) (λ '(ptep, addr, phys),
    set_pte ptep (pfn_pte (Z.shiftr phys 12) prot) ;;
    let phys := u64 (phys + PAGE_SIZE) in
    let addr := u64 (addr + PAGE_SIZE) in
    if addr =? end' then mret (inr tt) else mret (inl (ptep + 8, addr, phys)))
    (pte_offset_phys pmd addr, addr, phys).

(** [arch/arm64/mach-rpi/mmu.c:49-54] pmd_set_section *)
Definition pmd_set_section (pmdp phys prot : Z) : K unit :=
  set_pmd pmdp (pfn_pmd (Z.shiftr phys PMD_SHIFT) (sect_prot prot)).

(** [arch/arm64/mach-rpi/mmu.c:76-77] alloc_init_pmd: the range is whole sections, in
    virtual and in physical memory, and sections are allowed *)
Definition section_mapping (addr next phys flags : Z) : bool :=
  (Z.land (Z.lor (Z.lor addr next) phys) (u64 (Z.lnot PG_SECTION_MASK)) =? 0) &&
  (Z.land flags NO_BLOCK_MAPPINGS =? 0).

(** [arch/arm64/mach-rpi/mmu.c:56-84] alloc_init_pmd *)
Definition alloc_init_pmd (pudp addr end' phys prot : Z) (alloc_pgtable : K Z) (flags : Z) : K unit :=
  pud ← deref pudp;
  when (pgd_none pud) (pmd_phys ← alloc_pgtable; set_pud pudp (Z.lor pmd_phys PUD_TYPE_TABLE)) ;;
  pud ← deref pudp;
  loop (Z.to_nat PTRS_PER_PMD) (λ '(pmdp, addr, phys),
    let next := pmd_addr_end addr end' in
    (if section_mapping addr next phys flags then pmd_set_section pmdp phys prot
     else alloc_init_pte pmdp addr next phys prot alloc_pgtable flags) ;;
    let phys := u64 (phys + (next - addr)) in
    if next =? end' then mret (inr tt) else mret (inl (pmdp + 8, next, phys)))
    (pmd_offset_phys pud addr, addr, phys).

(** [arch/arm64/mach-rpi/mmu.c:86-109] alloc_init_pud *)
Definition alloc_init_pud (pgdp addr end' phys prot : Z) (alloc_pgtable : K Z) (flags : Z) : K unit :=
  pgd ← deref pgdp;
  when (pgd_none pgd) (pud_phys ← alloc_pgtable; set_pgd pgdp (Z.lor pud_phys PUD_TYPE_TABLE)) ;;
  pgd ← deref pgdp;
  loop (Z.to_nat PTRS_PER_PUD) (λ '(pudp, addr, phys),
    let next := pud_addr_end addr end' in
    alloc_init_pmd pudp addr next phys prot alloc_pgtable flags ;;
    let phys := u64 (phys + (next - addr)) in
    if next =? end' then mret (inr tt) else mret (inl (pudp + 8, next, phys)))
    (pud_offset_phys pgd addr, addr, phys).

(** [arch/arm64/mach-rpi/mmu.c:111-129] __create_pgd_mapping *)
Definition __create_pgd_mapping (pgdir phys virt size prot : Z) (alloc_pgtable : K Z) (flags : Z) : K unit :=
  let pgdp := pgd_offset_raw pgdir virt in
  let phys := Z.land phys (u64 PAGE_MASK) in
  let addr := Z.land virt (u64 PAGE_MASK) in
  let end' := PAGE_ALIGN (u64 (virt + size)) in
  loop (Z.to_nat PTRS_PER_PGD) (λ '(pgdp, addr, phys),
    let next := pgd_addr_end addr end' in
    alloc_init_pud pgdp addr next phys prot alloc_pgtable flags ;;
    let phys := u64 (phys + (next - addr)) in
    if next =? end' then mret (inr tt) else mret (inl (pgdp + 8, next, phys)))
    (pgdp, addr, phys).

(** [arch/arm64/mach-rpi/mmu.c:131-151] create_identity_mapping *)
Definition create_identity_mapping `{!MmuSymbols} : K unit :=
  let start := _text_boot_start in
  let end' := _text_end in
  __create_pgd_mapping idmap_pgd_dir start start (u64 (end' - start)) PAGE_KERNEL_ROX early_pgtable_alloc 0 ;;
  let start := PAGE_ALIGN _text_end in
  let end' := TOTAL_MEMORY in
  __create_pgd_mapping idmap_pgd_dir start start (u64 (end' - start)) PAGE_KERNEL early_pgtable_alloc 0.

(** [arch/arm64/mach-rpi/mmu.c:153-159] create_mmio_mapping *)
Definition create_mmio_mapping `{!MmuSymbols} : K unit :=
  __create_pgd_mapping idmap_pgd_dir PBASE PBASE DEVICE_SIZE PROT_DEVICE_nGnRnE early_pgtable_alloc 0.
End mmu.

Section enable.
Context (P : platform).

(** [arch/arm64/include/asm/mm.h:27-27] MAIR *)
Definition MAIR (attr mt : Z) : Z := Z.shiftl attr (mt * 8).
(** [arch/arm64/include/asm/pgtable_hwdef.h:105-109] TCR_TxSZ *)
Definition TCR_TxSZ (x : Z) : Z := Z.lor (Z.shiftl (64 - x) 0) (Z.shiftl (64 - x) 16).
(** [arch/arm64/include/asm/pgtable_hwdef.h:167-176] TCR_TG0_4K, TCR_TG1_4K *)
Definition TCR_TG1_4K : Z := Z.shiftl 2 30.
(** [arch/arm64/include/asm/pgtable_hwdef.h:189-189] TCR_TG_FLAGS *)
Definition TCR_TG_FLAGS : Z := Z.lor (Z.shiftl 0 14) TCR_TG1_4K.
(** [arch/arm64/include/asm/pgtable_hwdef.h:179-179] TCR_IPS_SHIFT *)
Definition TCR_IPS_SHIFT : Z := 32.
(** [arch/arm64/include/asm/pgtable_hwdef.h:211-211] ID_AA64MMFR0_PARANGE_48 *)
Definition ID_AA64MMFR0_PARANGE_48 : Z := 5.
(** [arch/arm64/include/asm/pgtable_hwdef.h:196-196] ID_AA64MMFR0_TGRAN4_SHIFT *)
Definition ID_AA64MMFR0_TGRAN4_SHIFT : Z := 28.
(** [arch/arm64/include/asm/pgtable_hwdef.h:206-206] ID_AA64MMFR0_TGRAN4_SUPPORTED *)
Definition ID_AA64MMFR0_TGRAN4_SUPPORTED : Z := 0.
(** [arch/arm64/include/asm/sysregs.h:10-10] SCTLR_ELx_M *)
Definition SCTLR_ELx_M : Z := Z.shiftl 1 0.

Definition mair_value : Z :=
  Z.lor (Z.lor (Z.lor (Z.lor (Z.lor (MAIR 0x00 MT_DEVICE_nGnRnE) (MAIR 0x04 MT_DEVICE_nGnRE))
    (MAIR 0x0c MT_DEVICE_GRE)) (MAIR 0x44 MT_NORMAL_NC)) (MAIR 0xff MT_NORMAL)) (MAIR 0xbb MT_NORMAL_WT).

(** [arch/arm64/mach-rpi/mmu.c:161-192] cpu_init *)
Definition cpu_init : M trace unit :=
  barrier "tlbi vmalle1" ;;
  barrier "dsb nsh" ;;
  write_sysreg (Z.shiftl 3 20) "cpacr_el1" ;;
  write_sysreg (Z.shiftl 1 12) "mdscr_el1" ;;
  write_sysreg mair_value "mair_el1" ;;
  let tcr := Z.lor (TCR_TxSZ VA_BITS) TCR_TG_FLAGS in
  tmp ← read_sysreg P "ID_AA64MMFR0_EL1";
  let parang := Z.land tmp 0xf in
  let parang := if ID_AA64MMFR0_PARANGE_48 <? parang then ID_AA64MMFR0_PARANGE_48 else parang in
  let tcr := Z.lor tcr (Z.shiftl parang TCR_IPS_SHIFT) in
  write_sysreg tcr "tcr_el1".

(** [arch/arm64/mach-rpi/mmu.c:194-214] enable_mmu *)
Definition enable_mmu `{!MmuSymbols} : M trace Z :=
  tmp ← read_sysreg P "ID_AA64MMFR0_EL1";
  let tgran4 := Z.land (Z.shiftr tmp ID_AA64MMFR0_TGRAN4_SHIFT) 0xf in
  if negb (tgran4 =? ID_AA64MMFR0_TGRAN4_SUPPORTED) then mret (-1) else
  write_sysreg idmap_pgd_dir "ttbr0_el1" ;;
  barrier "isb" ;;
  write_sysreg SCTLR_ELx_M "sctlr_el1" ;;
  barrier "isb" ;;
  barrier "ic iallu" ;;
  barrier "dsb nsh" ;;
  barrier "isb" ;;
  mret 0.

(** [arch/arm64/mach-rpi/mmu.c:216-225] paging_init *)
Definition paging_init `{!MmuSymbols} {A C : Type} (get_free_page : M A Z) `{!Console C} : M (mmu_state A * C) unit :=
  zoom (zoom (T:=memory) (S:=mmu_state A) (memset idmap_pgd_dir 0 PAGE_SIZE)) ;;
  zoom (create_identity_mapping get_free_page) ;;
  zoom (create_mmio_mapping get_free_page) ;;
  zoom (zoom (T:=trace) (S:=mmu_state A) cpu_init) ;;
  zoom (zoom (T:=trace) (S:=mmu_state A) enable_mmu) ;;
  zoom (modify (console_printk ("Enable mmu done" +++ nl) [])).
End enable.

(** ** Correctness of the mapping code *)

(** The tables in memory, and the allocator that owns their pages (the PGD itself
    may lie outside the allocator's range). *)
Record mmu_ok {A : Type} {get_free_page : M A Z} `{!PageAllocator A get_free_page} (s : mmu_state A) (pgd : Z)
    (tables : table_map) (ents : entries) : Prop := {
  mo_rep : table_rep (mem s) pgd tables ents;
  mo_alloc : pa_ok (allocator s);
  mo_owned : ∀ x a, tables !! x = Some a → pa_used (allocator s) a ∨ a = pgd ∧ ¬ page_ok a;
}.

(** How many entries of [2^shift] bytes a range touches: at most that many
    tables are allocated below them. *)
Definition touched (shift lo hi : Z) : Z := (hi - 1) / 2 ^ shift - lo / 2 ^ shift + 1.
Definition need (l lo hi : Z) : Z :=
  (if l <=? 0 then touched 39 lo hi else 0) + (if l <=? 1 then touched 30 lo hi else 0) + touched 21 lo hi.

Lemma page_ok_table p : page_ok p → table_page p.
Proof. intros [Hm Hr]. split; [done|]. page_lia. Qed.

Section correct.
Context {A : Type} {get_free_page : M A Z} `{!PageAllocator A get_free_page}.
Context (pgd prot : Z) (Hprot : prot_ok prot).
Implicit Types (s : mmu_state A).
Abbreviation early := (early_pgtable_alloc get_free_page).

Definition avail s : Z := Z.of_nat (pa_avail (allocator s)).

Lemma deref_eq s tables ents l k a :
  mmu_ok s pgd tables ents → tables !! (l, k / 512) = Some a →
  deref (entry_addr a k) s = Ret (ents l k) s.
Proof.
  intros Hok Ha. unfold deref. rewrite (zoom_eq (load64 (entry_addr a k)) s (ents l k) (mem s)).
  - by destruct s.
  - apply load64_eq. by apply (mo_rep _ _ _ _ Hok).
Qed.

Lemma set_entry_eq p v s :
  set_entry p v s = Ret tt (MmuState (st64 (mem s) p v) (allocator s) (Barrier "dsb ishst" :: mtrace s)).
Proof. done. Qed.

Lemma early_alloc_ok s tables ents :
  mmu_ok s pgd tables ents → 0 < avail s →
  ∃ p a', early s = Ret p (MmuState (fill p PAGE_SIZE 0 (mem s)) a' (mtrace s)) ∧
    pa_ok a' ∧ page_ok p ∧ (∀ x b, tables !! x = Some b → b ≠ p) ∧
    (∀ q, pa_used a' q ↔ q = p ∨ pa_used (allocator s) q) ∧ Z.of_nat (pa_avail a') = avail s - 1.
Proof.
  intros [Hrep Hpa Hown] Hav. unfold avail in *.
  destruct (pa_alloc (allocator s) Hpa ltac:(lia)) as (p & a' & E & H1 & H2 & H3 & H4 & H5).
  exists p, a'. split; [|split; [done|split; [done|split; [|split; [done|lia]]]]].
  - unfold early_pgtable_alloc.
    assert (zoom get_free_page s = Ret p (lput a' s)) as E0 by (unfold zoom; cbn; by rewrite E).
    rewrite (bind_eq _ _ _ _ _ E0). destruct H2 as [Hm Hr].
    assert (zoom (memset p 0 PAGE_SIZE) (lput a' s) = Ret p (MmuState (fill p PAGE_SIZE 0 (mem s)) a' (mtrace s))) as E1.
    { assert (p mod 16 = 0) as H16.
      { autorewrite with page_consts in Hm. pose proof (Z.div_mod p 4096).
        replace p with (p / 4096 * 256 * 16) by lia. by rewrite Z.mod_mul. }
      unfold zoom; cbn. rewrite memset_extent_fill by page_lia. unfold memset_extent. by rewrite H16. }
    by rewrite (bind_eq _ _ _ _ _ E1).
  - intros x b Hb ->. destruct (Hown x p Hb) as [|[_ ?]]; done.
Qed.

(** The entry of a table that is about to be descended into: the next table exists
    afterwards, and no translation has changed. *)
Lemma ensure_table {B} s tables ents l k a (body : Z → M (mmu_state A) B) :
  mmu_ok s pgd tables ents → 0 ≤ l < 3 → tables !! (l, k / 512) = Some a →
  (l = 2 → desc_type (ents l k) ≠ 1) → 0 < avail s →
  ∃ s' tables' ents' t,
    (e ← deref (entry_addr a k);
     when (pgd_none e) (p ← early; set_entry (entry_addr a k) (Z.lor p 3)) ;;
     e ← deref (entry_addr a k); body e) s = body (Z.lor t 3) s' ∧
    mmu_ok s' pgd tables' ents' ∧ tables' !! (l + 1, k) = Some t ∧ table_page t ∧
    (∀ x b, tables !! x = Some b → tables' !! x = Some b) ∧
    (∀ l' k', l' < l → ents' l' k' = ents l' k') ∧ ents' l k = Z.lor t 3 ∧
    (∀ va, 0 ≤ va < 2 ^ 48 → translate_ents ents' va = translate_ents ents va) ∧
    avail s - 1 ≤ avail s'.
Proof.
  intros Hok Hl Ha Hsec Hav. rewrite (bind_eq _ _ _ _ _ (deref_eq s _ _ _ _ _ Hok Ha)).
  destruct (rep_entry _ _ _ _ (mo_rep _ _ _ _ Hok) l k a Hl Ha) as [(t & Ht & Hp & He & Hd)|[Hnone [He|[-> Hd]]]];
    [..|by apply Hsec in Hd].
  - assert (pgd_none (ents l k) = false) as ->.
    { unfold pgd_none. apply Z.eqb_neq. intros H0. rewrite H0 in Hd. discriminate. }
    cbn [when]. rewrite bind_skip, (bind_eq _ _ _ _ _ (deref_eq s _ _ _ _ _ Hok Ha)), He.
    exists s, tables, ents, t. repeat (split; [done|]). unfold avail in *. lia.
  - rewrite He. cbn [pgd_none Z.eqb when].
    destruct (early_alloc_ok s tables ents Hok Hav) as (p & a' & E & H1 & H2 & H3 & H4 & H5).
    rewrite (bind_assoc early _ _ s), (bind_eq _ _ _ _ _ E).
    rewrite (bind_eq _ _ _ _ _ (set_entry_eq (entry_addr a k) (Z.lor p 3) _)). cbn [mem allocator mtrace].
    set (s' := MmuState _ _ _). pose proof (page_ok_table p H2) as Hp.
    destruct (table_entry p Hp) as (_ & Hd & _).
    assert (mmu_ok s' pgd (<[(l + 1, k) := p]> tables) (upd (clear ents l k) l k (Z.lor p 3))) as Hok'.
    { split; [by apply (rep_new_table _ _ _ _ (mo_rep _ _ _ _ Hok))|done|].
      intros x b [[<- <-]|[_ Hb]]%lookup_insert_Some; cbn; rewrite H4; [by left; left|].
      destruct (mo_owned _ _ _ _ Hok x b Hb); [by left; right|by right]. }
    assert ((<[(l + 1, k) := p]> tables) !! (l, k / 512) = Some a) as Ha'
      by (rewrite lookup_insert_ne; [done|intros [= ?]; lia]).
    rewrite (bind_eq _ _ _ _ _ (deref_eq s' _ _ _ _ _ Hok' Ha')), upd_same.
    eexists s', _, _, p. split; [done|]. split; [done|]. split; [by rewrite lookup_insert_eq|]. split; [done|].
    split; [|split; [|split; [apply upd_same|split]]].
    + intros x b Hb. rewrite lookup_insert_ne; [done|]. intros <-. congruence.
    + intros l' k' Hl'. rewrite upd_other by lia. unfold clear. by rewrite decide_False by lia.
    + intros va Hva. by apply translate_new_table.
    + unfold avail in *. cbn. lia.
Qed.
(** What one call that maps [addr, next) below one entry of level [l] does. *)
Definition maps_below (l : Z) (body : Z → Z → Z → Z → M (mmu_state A) unit) : Prop :=
  ∀ s tables ents a addr next phys,
    mmu_ok s pgd tables ents → tables !! (l, key l addr / 512) = Some a →
    0 ≤ addr < next → next ≤ (key l addr + 1) * 2 ^ level_shift l → next ≤ 2 ^ 48 →
    addr mod PAGE_SIZE = 0 → next mod PAGE_SIZE = 0 → phys mod PAGE_SIZE = 0 →
    0 ≤ phys → phys + (next - addr) ≤ 2 ^ 48 →
    (∀ va, key l va = key l addr → reached ents l va) → unmapped ents addr next →
    need l addr next ≤ avail s →
    ∃ s' tables' ents',
      body (entry_addr a (key l addr)) addr next phys s = Ret tt s' ∧ mmu_ok s' pgd tables' ents' ∧
      (∀ l' i b, l' ≤ l → tables !! (l', i) = Some b → tables' !! (l', i) = Some b) ∧
      (∀ l' k', l' < l → ents' l' k' = ents l' k') ∧
      maps_range ents ents' addr next phys (desc_attrs prot) ∧
      avail s ≤ avail s' + need l addr next.

(** *** The last level *)

Lemma page_key3 addr va : addr mod PAGE_SIZE = 0 → key 3 va = key 3 addr ↔ addr ≤ va < addr + PAGE_SIZE.
Proof.
  intros Hm. rewrite key_range by lia. unfold key, level_shift. change (39 - 9 * 3) with 12.
  autorewrite with page_consts in *. change (2 ^ 12) with 4096. pose proof (Z.div_mod addr 4096). lia.
Qed.

Lemma key3_next addr : addr mod PAGE_SIZE = 0 → key 3 (addr + PAGE_SIZE) = key 3 addr + 1.
Proof.
  intros _. unfold key, level_shift. change (39 - 9 * 3) with 12. change PAGE_SIZE with (1 * 2 ^ 12).
  by rewrite Z.div_add.
Qed.

Lemma reached_ext ents ents' l va :
  (∀ l' k', l' < l → ents' l' k' = ents l' k') → reached ents l va → reached ents' l va.
Proof. intros He H l' Hl'. rewrite He by lia. by apply H. Qed.

(** One page. *)
Lemma set_pte_ok s tables ents t addr phys :
  mmu_ok s pgd tables ents → tables !! (3, key 3 addr / 512) = Some t →
  addr mod PAGE_SIZE = 0 → phys mod PAGE_SIZE = 0 → 0 ≤ phys < 2 ^ 48 →
  (∀ va, key 3 va = key 3 addr → reached ents 3 va) →
  ∃ s' tables' ents',
    set_pte (entry_addr t (key 3 addr)) (pfn_pte (Z.shiftr phys 12) prot) s = Ret tt s' ∧
    mmu_ok s' pgd tables' ents' ∧
    (∀ l' i b, l' ≤ 3 → tables !! (l', i) = Some b → tables' !! (l', i) = Some b) ∧
    (∀ l' k', l' < 3 → ents' l' k' = ents l' k') ∧
    maps_range ents ents' addr (addr + PAGE_SIZE) phys (desc_attrs prot) ∧ avail s' = avail s.
Proof.
  intros Hok Ht Hm Hpm Hp Hreach.
  destruct (page_descriptor phys prot addr Hp Hpm Hprot) as (Hv & Hd & _).
  eexists _, _, _. split; [apply set_entry_eq|]. split; [|split; [|split; [|split]]].
  - split; cbn; [apply (rep_set_leaf _ _ _ _ (mo_rep _ _ _ _ Hok)); [done|done|by left]|apply Hok|].
    intros x b [_ Hb]%lookup_delete_Some. by apply (mo_owned _ _ _ _ Hok x).
  - intros l' i b Hl' Hb. rewrite lookup_delete_ne; [done|]. intros [= ? ?]. lia.
  - intros l' k' Hl'. by rewrite upd_other by lia.
  - intros va Hva. case_decide as Hr; [|apply translate_set_other; by rewrite page_key3].
    apply (page_key3 addr va Hm) in Hr as Hk. rewrite (translate_set_page _ _ _ va (Hreach va Hk) Hd Hk).
    destruct (page_descriptor phys prot va Hp Hpm Hprot) as (_ & _ & ->). do 2 f_equal.
    autorewrite with page_consts in *. change (2 ^ 12) with 4096.
    pose proof (Z.div_mod addr 4096). f_equal. symmetry. apply (Z.mod_unique_pos va 4096 (addr / 4096)); lia.
  - done.
Qed.

(** The loop of alloc_init_pte. *)
Lemma pte_loop_ok n s tables ents t addr end' phys fuel :
  end' = addr + Z.of_nat n * PAGE_SIZE → (0 < n ≤ fuel)%nat →
  mmu_ok s pgd tables ents → tables !! (3, key 3 addr / 512) = Some t →
  0 ≤ addr → end' ≤ (key 2 addr + 1) * 2 ^ 21 → end' ≤ 2 ^ 48 →
  addr mod PAGE_SIZE = 0 → phys mod PAGE_SIZE = 0 → 0 ≤ phys → phys + (end' - addr) ≤ 2 ^ 48 →
  (∀ va, key 2 va = key 2 addr → reached ents 3 va) →
  ∃ s' tables' ents',
    loop fuel (λ '(ptep, addr, phys),
      set_pte ptep (pfn_pte (Z.shiftr phys 12) prot) ;;
      let phys := u64 (phys + PAGE_SIZE) in
      let addr := u64 (addr + PAGE_SIZE) in
      if addr =? end' then mret (inr tt) else mret (inl (ptep + 8, addr, phys)))
      (entry_addr t (key 3 addr), addr, phys) s = Ret tt s' ∧
    mmu_ok s' pgd tables' ents' ∧
    (∀ l' i b, l' ≤ 3 → tables !! (l', i) = Some b → tables' !! (l', i) = Some b) ∧
    (∀ l' k', l' < 3 → ents' l' k' = ents l' k') ∧
    maps_range ents ents' addr end' phys (desc_attrs prot) ∧ avail s' = avail s.
Proof.
  revert s tables ents addr phys fuel. induction n as [|n IH];
    intros s tables ents addr phys fuel Hend Hn Hok Ht Ha Hk He Hm Hpm Hp Hpe Hreach; [lia|].
  destruct fuel as [|fuel]; [lia|].
  assert (∀ va, key 3 va = key 3 addr → key 2 va = key 2 addr) as Hk32.
  { intros va Hva. rewrite <-(key_up 2 va), <-(key_up 2 addr) by lia. change (2 + 1) with 3. by rewrite Hva. }
  assert (0 ≤ phys < 2 ^ 48) as Hpr by page_lia.
  destruct (set_pte_ok s tables ents t addr phys) as (s1 & tables1 & ents1 & E & Hok1 & Hk1 & He1 & Hmap1 & Hav1);
    [done..|by intros va Hva; apply Hreach, Hk32|].
  destruct n as [|n].
  - exists s1, tables1, ents1. split; [|replace end' with (addr + PAGE_SIZE) by page_lia; done].
    apply loop_done. rewrite (bind_eq _ _ _ _ _ E). cbv zeta. rewrite (u64_id (addr + PAGE_SIZE)) by page_lia.
    by replace (addr + PAGE_SIZE =? end') with true by page_lia.
  - assert (key 2 (addr + PAGE_SIZE) = key 2 addr) as Hk2.
    { apply key_range; [lia|]. pose proof (proj1 (key_range 2 (key 2 addr) addr ltac:(lia)) eq_refl).
      unfold level_shift in *. change (39 - 9 * 2) with 21 in *. page_lia. }
    assert (key 3 (addr + PAGE_SIZE) / 512 = key 3 addr / 512) as Hsame.
    { change 3 with (2 + 1). by rewrite !key_up by lia. }
    destruct (IH s1 tables1 ents1 (addr + PAGE_SIZE) (phys + PAGE_SIZE) fuel)
      as (s2 & tables2 & ents2 & E2 & Hok2 & Hk2' & He2 & Hmap2 & Hav2); try done; try page_lia.
    + rewrite Hsame. apply Hk1; [lia|done].
    + rewrite <-Z.add_mod_idemp_l, Hm by done. done.
    + rewrite <-Z.add_mod_idemp_l, Hpm by done. done.
    + intros va Hva. rewrite Hk2 in Hva. by apply (reached_ext ents), Hreach.
    + exists s2, tables2, ents2. split; [|split; [done|split; [|split; [|split; [|by rewrite Hav2]]]]].
      * rewrite <-E2. apply loop_more. rewrite (bind_eq _ _ _ _ _ E). cbv zeta.
        rewrite (u64_id (addr + PAGE_SIZE)), (u64_id (phys + PAGE_SIZE)) by page_lia.
        replace (addr + PAGE_SIZE =? end') with false by page_lia.
        unfold mret, M_ret. do 4 f_equal. unfold entry_addr. rewrite key3_next by done.
        rewrite key3_next in Hsame by done. pose proof (Z.div_mod (key 3 addr) 512). pose proof (Z.div_mod (key 3 addr + 1) 512).
        lia.
      * intros l' i b Hl' Hb. by apply Hk2', Hk1.
      * intros l' k' Hl'. by rewrite He2, He1.
      * eapply maps_range_app; [|exact Hmap1|]; [page_lia|].
        by replace (addr + PAGE_SIZE - addr) with PAGE_SIZE by lia.
Qed.
(** *** Counting tables *)

Lemma touched_app shift lo mid hi :
  0 ≤ shift → mid mod 2 ^ shift = 0 → touched shift lo hi = touched shift lo mid + touched shift mid hi.
Proof.
  intros Hs Hm. unfold touched. assert (0 < 2 ^ shift) by (by apply Z.pow_pos_nonneg).
  assert ((mid - 1) / 2 ^ shift = mid / 2 ^ shift - 1) as ->; [|lia].
  pose proof (Z.div_mod mid (2 ^ shift)). symmetry. apply (Z.div_unique_pos _ _ _ (2 ^ shift - 1)); lia.
Qed.

Lemma touched_pos shift lo hi : 0 ≤ shift → lo < hi → 1 ≤ touched shift lo hi.
Proof.
  intros Hs Hlt. unfold touched. assert (0 < 2 ^ shift) by (by apply Z.pow_pos_nonneg).
  pose proof (Z.div_le_mono lo (hi - 1) (2 ^ shift)). lia.
Qed.

Lemma touched_one shift lo hi :
  0 ≤ shift → lo < hi → hi ≤ (lo / 2 ^ shift + 1) * 2 ^ shift → touched shift lo hi = 1.
Proof.
  intros Hs Hlt Hle. pose proof (touched_pos shift lo hi Hs Hlt). unfold touched in *.
  assert (0 < 2 ^ shift) by (by apply Z.pow_pos_nonneg).
  assert ((hi - 1) / 2 ^ shift < lo / 2 ^ shift + 1) by (apply Z.div_lt_upper_bound; lia). lia.
Qed.

Lemma mod_lower shift shift' a : 0 ≤ shift' ≤ shift → a mod 2 ^ shift = 0 → a mod 2 ^ shift' = 0.
Proof.
  intros Hs Hm. apply Z.mod_divide; [by apply Z.pow_nonzero; lia|].
  apply Z.mod_divide in Hm as [q ->]; [|apply Z.pow_nonzero; lia].
  exists (q * 2 ^ (shift - shift')). rewrite <-Z.mul_assoc, <-Z.pow_add_r by lia. do 2 f_equal. lia.
Qed.

Lemma need_app l lo mid hi :
  0 ≤ l ≤ 2 → mid mod 2 ^ level_shift l = 0 → need l lo hi = need l lo mid + need l mid hi.
Proof.
  intros Hl Hm. unfold need. unfold level_shift in Hm.
  rewrite (touched_app 21 lo mid hi) by (lia || (apply (mod_lower (39 - 9 * l)); [lia|done])).
  destruct (Z.leb_spec l 1); [rewrite (touched_app 30 lo mid hi) by (lia || (apply (mod_lower (39 - 9 * l)); [lia|done]))|];
    (destruct (Z.leb_spec l 0); [rewrite (touched_app 39 lo mid hi) by (lia || (apply (mod_lower (39 - 9 * l)); [lia|done]))|]); lia.
Qed.

Lemma need_pos l lo hi : lo < hi → 1 ≤ need l lo hi.
Proof.
  intros Hlt. unfold need. pose proof (touched_pos 21 lo hi). pose proof (touched_pos 30 lo hi).
  pose proof (touched_pos 39 lo hi). destruct (l <=? 0), (l <=? 1); lia.
Qed.

(** Descending costs one table. *)
Lemma need_down l lo hi :
  0 ≤ l < 2 → lo < hi → hi ≤ (key l lo + 1) * 2 ^ level_shift l → need l lo hi = 1 + need (l + 1) lo hi.
Proof.
  intros Hl Hlt Hle. unfold key, level_shift in Hle. assert (l = 0 ∨ l = 1) as [-> | ->] by lia.
  - change (39 - 9 * 0) with 39 in Hle.
    change (touched 39 lo hi + touched 30 lo hi + touched 21 lo hi = 1 + (0 + touched 30 lo hi + touched 21 lo hi)).
    rewrite (touched_one 39) by (done || lia). lia.
  - change (39 - 9 * 1) with 30 in Hle.
    change (0 + touched 30 lo hi + touched 21 lo hi = 1 + (0 + 0 + touched 21 lo hi)).
    rewrite (touched_one 30) by (done || lia). lia.
Qed.

(** *** alloc_init_pte *)

Lemma not_section ents addr next :
  reached ents 2 addr → unmapped ents addr next → 0 ≤ addr < next → next ≤ 2 ^ 48 →
  desc_type (ents 2 (key 2 addr)) ≠ 1.
Proof.
  intros Hr Hu Ha Hn Hd. specialize (Hu addr ltac:(lia) ltac:(lia)). unfold translate_ents in Hu.
  rewrite (Hr 0), (Hr 1), Hd in Hu by lia. discriminate.
Qed.

Lemma alloc_init_pte_below flags :
  maps_below 2 (λ pmdp addr next phys, alloc_init_pte pmdp addr next phys prot early flags).
Proof.
  intros s tables ents a addr next phys Hok Ha Hr Hnext Hmax Hma Hmn Hmp Hp Hpe Hreach Hun Hneed.
  assert (need 2 addr next = 1) as Hneed1 by (apply (touched_one 21); [done|lia|exact Hnext]).
  destruct (ensure_table s tables ents 2 (key 2 addr) a (λ pmd,
    loop (Z.to_nat PTRS_PER_PTE) (λ '(ptep, addr, phys),
      set_pte ptep (pfn_pte (Z.shiftr phys 12) prot) ;;
      let phys := u64 (phys + PAGE_SIZE) in
      let addr := u64 (addr + PAGE_SIZE) in
      if addr =? next then mret (inr tt) else mret (inl (ptep + 8, addr, phys)))
      (pte_offset_phys pmd addr, addr, phys)) Hok ltac:(lia) Ha)
    as (s1 & tables1 & ents1 & t & E & Hok1 & Ht & Htp & Hkeep & Hupper & Hent & Hsame & Hav); [|lia|].
  { intros _. eapply not_section; [by apply Hreach|done..]. }
  rewrite pte_offset_key in E by done.
  destruct (pte_loop_ok (Z.to_nat ((next - addr) / PAGE_SIZE)) s1 tables1 ents1 t addr next phys (Z.to_nat PTRS_PER_PTE))
    as (s2 & tables2 & ents2 & E2 & Hok2 & Hkeep2 & Hupper2 & Hmap2 & Hav2); try done.
  - autorewrite with page_consts in *. pose proof (Z.div_mod (next - addr) 4096).
    assert ((next - addr) mod 4096 = 0) by (rewrite Zminus_mod, Hma, Hmn; done). lia.
  - pose proof (proj1 (key_range 2 (key 2 addr) addr ltac:(lia)) eq_refl) as Hk.
    unfold level_shift in *. change (39 - 9 * 2) with 21 in *. change PTRS_PER_PTE with 512.
    autorewrite with page_consts in *. pose proof (Z.div_mod (next - addr) 4096).
    assert ((next - addr) mod 4096 = 0) by (rewrite Zminus_mod, Hma, Hmn; done). lia.
  - by rewrite (key_up 2) by lia.
  - lia.
  - intros va Hva l' Hl'. destruct (decide (l' = 2)) as [->|]; [rewrite Hva, Hent; by apply table_entry|].
    rewrite Hupper by lia. apply (Hreach va Hva). lia.
  - exists s2, tables2, ents2. split; [etrans; [exact E|exact E2]|]. split; [done|].
    split; [intros l' i b Hl' Hb; apply Hkeep2; [lia|by apply Hkeep]|].
    split; [intros l' k' Hl'; rewrite Hupper2 by lia; by apply Hupper|].
    split; [by apply (maps_range_same _ ents1)|]. rewrite Hneed1, Hav2. lia.
Qed.
(** *** The loops over the entries of one table *)

Definition level_loop (l end' : Z) (body : Z → Z → Z → Z → M (mmu_state A) unit) (fuel : nat)
    (entryp addr phys : Z) : M (mmu_state A) unit :=
  loop fuel (λ '(entryp, addr, phys),
    let next := addr_end (level_shift l) addr end' in
    body entryp addr next phys ;;
    let phys := u64 (phys + (next - addr)) in
    if next =? end' then mret (inr tt) else mret (inl (entryp + 8, next, phys)))
    (entryp, addr, phys).

(** The boundary after an address. *)
Lemma next_boundary l addr end' :
  0 ≤ l ≤ 2 → 0 ≤ addr < end' → end' ≤ 2 ^ 48 →
  let next := addr_end (level_shift l) addr end' in
  addr < next ≤ end' ∧ next ≤ (key l addr + 1) * 2 ^ level_shift l ∧
  (next ≠ end' → next = (key l addr + 1) * 2 ^ level_shift l ∧ next mod 2 ^ level_shift l = 0 ∧
                 key l next = key l addr + 1 ∧ next mod PAGE_SIZE = 0).
Proof.
  intros Hl Ha He next. assert (0 < 2 ^ level_shift l) as Hp by (apply Z.pow_pos_nonneg; unfold level_shift; lia).
  pose proof (proj1 (key_range l (key l addr) addr ltac:(lia)) eq_refl) as Hk.
  assert (next = Z.min ((key l addr + 1) * 2 ^ level_shift l) end') as Hnext
    by (apply addr_end_min; unfold level_shift; lia).
  split; [lia|]. split; [lia|]. intros Hne. assert (next = (key l addr + 1) * 2 ^ level_shift l) as Heq by lia.
  split; [done|]. assert (next mod 2 ^ level_shift l = 0) as Hm by (rewrite Heq; apply Z.mod_mul; lia).
  split; [done|]. split.
  - rewrite Heq. unfold key at 1. apply Z.div_mul. lia.
  - change PAGE_SIZE with (2 ^ 12). apply (mod_lower (level_shift l)); [unfold level_shift; lia|done].
Qed.

Lemma level_loop_ok l body :
  0 ≤ l ≤ 2 → maps_below l body →
  ∀ n s tables ents a addr end' phys fuel,
    n = Z.to_nat (touched (level_shift l) addr end') → (n ≤ fuel)%nat →
    mmu_ok s pgd tables ents → tables !! (l, key l addr / 512) = Some a →
    0 ≤ addr < end' → end' ≤ 2 ^ 48 → key l (end' - 1) / 512 = key l addr / 512 →
    addr mod PAGE_SIZE = 0 → end' mod PAGE_SIZE = 0 → phys mod PAGE_SIZE = 0 →
    0 ≤ phys → phys + (end' - addr) ≤ 2 ^ 48 →
    (∀ va, key l va / 512 = key l addr / 512 → reached ents l va) → unmapped ents addr end' →
    need l addr end' ≤ avail s →
    ∃ s' tables' ents',
      level_loop l end' body fuel (entry_addr a (key l addr)) addr phys s = Ret tt s' ∧
      mmu_ok s' pgd tables' ents' ∧
      (∀ l' i b, l' ≤ l → tables !! (l', i) = Some b → tables' !! (l', i) = Some b) ∧
      (∀ l' k', l' < l → ents' l' k' = ents l' k') ∧
      maps_range ents ents' addr end' phys (desc_attrs prot) ∧
      avail s ≤ avail s' + need l addr end'.
Proof.
  intros Hl Hbody. induction n as [|n IH];
    intros s tables ents a addr end' phys fuel Hn Hfuel Hok Ha Hr Hmax Hsame Hma Hme Hmp Hp Hpe Hreach Hun Hneed.
  { pose proof (touched_pos (level_shift l) addr end' ltac:(unfold level_shift; lia)). lia. }
  destruct fuel as [|fuel]; [lia|].
  set (next := addr_end (level_shift l) addr end').
  destruct (next_boundary l addr end' Hl Hr Hmax) as (Hn1 & Hn2 & Hn3). fold next in Hn1, Hn2, Hn3.
  destruct (Z.eq_dec next end') as [Heq|Hne].
  - destruct (Hbody s tables ents a addr next phys) as (s1 & tables1 & ents1 & E & Hok1 & Hk1 & Hu1 & Hm1 & Hav1);
      rewrite ?Heq; try done; try lia.
    { intros va Hva. apply Hreach. by rewrite Hva. }
    exists s1, tables1, ents1. rewrite Heq in Hm1, Hav1. split; [|done].
    apply loop_done. cbv zeta. fold next. rewrite (bind_eq _ _ _ _ _ E), Heq, Z.eqb_refl. done.
  - destruct (Hn3 Hne) as (Hb & Hbm & Hkn & Hpm).
    rewrite (need_app l addr next end') in Hneed by done.
    pose proof (need_pos l next end' ltac:(lia)). pose proof (need_pos l addr next ltac:(lia)).
    destruct (Hbody s tables ents a addr next phys) as (s1 & tables1 & ents1 & E & Hok1 & Hk1 & Hu1 & Hm1 & Hav1);
      try done; try lia.
    { intros va Hva. apply Hreach. by rewrite Hva. }
    { eapply unmapped_sub; [exact Hun|lia..]. }
    assert (key l next / 512 = key l addr / 512) as Hgroup.
    { assert (key l next ≤ key l (end' - 1)) by (apply Z.div_le_mono; [apply Z.pow_pos_nonneg; unfold level_shift; lia|lia]).
      pose proof (Z.div_le_mono (key l next) (key l (end' - 1)) 512).
      pose proof (Z.div_le_mono (key l addr) (key l next) 512). lia. }
    destruct (IH s1 tables1 ents1 a next end' (phys + (next - addr)) fuel)
      as (s2 & tables2 & ents2 & E2 & Hok2 & Hk2 & Hu2 & Hm2 & Hav2); try done; try lia.
    + rewrite (touched_app _ addr next end') in Hn by (done || (unfold level_shift; lia)).
      rewrite (touched_one _ addr next) in Hn by (done || (unfold level_shift; lia) || lia). lia.
    + rewrite Hgroup. apply Hk1; [lia|done].
    + rewrite Zplus_mod, Hmp, Zminus_mod, Hpm, Hma. done.
    + intros va Hva. apply (reached_ext ents); [done|]. apply Hreach. by rewrite <-Hgroup.
    + eapply unmapped_after; [exact Hm1|]. eapply unmapped_sub; [exact Hun|lia..].
    + exists s2, tables2, ents2. split; [|split; [done|split; [|split; [|split]]]].
      * rewrite <-E2. apply loop_more. cbv zeta. fold next. rewrite (bind_eq _ _ _ _ _ E).
        rewrite (proj2 (Z.eqb_neq next end') Hne). rewrite (u64_id (phys + (next - addr))) by lia.
        unfold mret, M_ret. do 4 f_equal. unfold entry_addr. rewrite Hkn in *.
        pose proof (Z.div_mod (key l addr) 512). pose proof (Z.div_mod (key l addr + 1) 512). lia.
      * intros l' i b Hl' Hb'. by apply Hk2, Hk1.
      * intros l' k' Hl'. by rewrite Hu2, Hu1.
      * eapply maps_range_app; [|exact Hm1|exact Hm2]. lia.
      * rewrite (need_app l addr next end') by done. lia.
Qed.

(** *** One level down *)

Lemma descend l body (offset : Z → Z → Z) :
  0 ≤ l < 2 → maps_below (l + 1) body →
  (∀ t va, table_page t → offset (Z.lor t 3) va = entry_addr t (key (l + 1) va)) →
  maps_below l (λ entryp addr next phys,
    e ← deref entryp;
    when (pgd_none e) (p ← early; set_entry entryp (Z.lor p 3)) ;;
    e ← deref entryp;
    level_loop (l + 1) next body 512 (offset e addr) addr phys).
Proof.
  intros Hl Hbody Hoff s tables ents a addr next phys Hok Ha Hr Hnext Hmax Hma Hmn Hmp Hp Hpe Hreach Hun Hneed.
  rewrite (need_down l addr next) in Hneed |- * by (lia || exact Hnext).
  pose proof (need_pos (l + 1) addr next ltac:(lia)).
  destruct (ensure_table s tables ents l (key l addr) a
    (λ e, level_loop (l + 1) next body 512 (offset e addr) addr phys) Hok ltac:(lia) Ha)
    as (s1 & tables1 & ents1 & t & E & Hok1 & Ht & Htp & Hkeep & Hupper & Hent & Hsame & Hav); [lia|lia|].
  rewrite Hoff in E by done.
  assert (key l (next - 1) = key l addr) as Hlast.
  { apply key_range; [lia|]. pose proof (proj1 (key_range l (key l addr) addr ltac:(lia)) eq_refl). lia. }
  destruct (level_loop_ok (l + 1) body ltac:(lia) Hbody _ s1 tables1 ents1 t addr next phys 512 eq_refl)
    as (s2 & tables2 & ents2 & E2 & Hok2 & Hk2 & Hu2 & Hm2 & Hav2); try done; try lia.
  - unfold touched. change ((next - 1) / 2 ^ level_shift (l + 1)) with (key (l + 1) (next - 1)).
    change (addr / 2 ^ level_shift (l + 1)) with (key (l + 1) addr).
    pose proof (key_up l (next - 1) ltac:(lia)). pose proof (key_up l addr ltac:(lia)).
    pose proof (Z.div_mod (key (l + 1) (next - 1)) 512). pose proof (Z.div_mod (key (l + 1) addr) 512).
    pose proof (Z.mod_pos_bound (key (l + 1) (next - 1)) 512). pose proof (Z.mod_pos_bound (key (l + 1) addr) 512). lia.
  - by rewrite key_up by lia.
  - rewrite !key_up by lia. done.
  - intros va Hva. rewrite !key_up in Hva by lia. intros l' Hl'.
    destruct (decide (l' = l)) as [->|]; [rewrite Hva, Hent; by apply table_entry|].
    rewrite Hupper by lia. apply (Hreach va Hva). lia.
  - intros va Hva Hva'. rewrite Hsame by done. by apply Hun.
  - exists s2, tables2, ents2. split; [by rewrite E|]. split; [done|].
    split; [intros l' i b Hl' Hb; apply Hk2; [lia|by apply Hkeep]|].
    split; [intros l' k' Hl'; rewrite Hu2 by lia; by apply Hupper|].
    split; [by apply (maps_range_same _ ents1)|]. lia.
Qed.
(** *** Sections *)

Lemma section_mapping_aligned addr next phys flags :
  section_mapping addr next phys flags = true →
  addr mod 2 ^ 21 = 0 ∧ next mod 2 ^ 21 = 0 ∧ phys mod 2 ^ 21 = 0.
Proof.
  intros [H _]%andb_true_iff. apply Z.eqb_eq in H.
  change (u64 (Z.lnot PG_SECTION_MASK)) with (2 ^ 21 - 1) in H.
  rewrite !Z.land_lor_distr_l, !land_low in H by lia.
  apply Z.lor_eq_0_iff in H as [[H1 H2]%Z.lor_eq_0_iff H3]. done.
Qed.

Lemma pmd_set_section_below :
  ∀ s tables ents a addr next phys,
    mmu_ok s pgd tables ents → tables !! (2, key 2 addr / 512) = Some a →
    0 ≤ addr < next → next ≤ (key 2 addr + 1) * 2 ^ 21 →
    addr mod 2 ^ 21 = 0 → next mod 2 ^ 21 = 0 → phys mod 2 ^ 21 = 0 →
    0 ≤ phys → phys + (next - addr) ≤ 2 ^ 48 →
    (∀ va, key 2 va = key 2 addr → reached ents 2 va) →
    ∃ s' tables' ents',
      pmd_set_section (entry_addr a (key 2 addr)) phys prot s = Ret tt s' ∧ mmu_ok s' pgd tables' ents' ∧
      (∀ l' i b, l' ≤ 2 → tables !! (l', i) = Some b → tables' !! (l', i) = Some b) ∧
      (∀ l' k', l' < 2 → ents' l' k' = ents l' k') ∧
      maps_range ents ents' addr next phys (desc_attrs prot) ∧ avail s' = avail s.
Proof.
  intros s tables ents a addr next phys Hok Ha Hr Hnext Hma Hmn Hmp Hp Hpe Hreach.
  assert (addr = key 2 addr * 2 ^ 21 ∧ next = addr + 2 ^ 21) as [Hka Hn].
  { unfold key, level_shift in *. change (39 - 9 * 2) with 21 in *.
    pose proof (Z.div_mod addr (2 ^ 21)). pose proof (Z.div_mod next (2 ^ 21)). lia. }
  assert (0 ≤ phys < 2 ^ 48) as Hpr by lia.
  destruct (section_descriptor phys prot addr Hpr Hmp Hprot) as (Hv & Hd & _).
  eexists _, _, _. split; [apply set_entry_eq|]. split; [|split; [|split; [|split]]].
  - split; cbn; [apply (rep_set_leaf _ _ _ _ (mo_rep _ _ _ _ Hok)); [done|done|by right]|apply Hok|].
    intros x b [_ Hb]%lookup_delete_Some. by apply (mo_owned _ _ _ _ Hok x).
  - intros l' i b Hl' Hb. rewrite lookup_delete_ne; [done|]. intros [= ? ?]. lia.
  - intros l' k' Hl'. by rewrite upd_other by lia.
  - assert (∀ va, key 2 va = key 2 addr ↔ addr ≤ va < next) as Hkr.
    { intros va. rewrite key_range by lia. unfold level_shift. change (39 - 9 * 2) with 21. lia. }
    intros va Hva. case_decide as Hin; [|apply translate_set_other; by rewrite Hkr].
    apply Hkr in Hin as Hk. rewrite (translate_set_section _ _ _ va (Hreach va Hk) Hd Hk).
    destruct (section_descriptor phys prot va Hpr Hmp Hprot) as (_ & _ & ->). do 2 f_equal.
    f_equal. symmetry. apply (Z.mod_unique_pos va (2 ^ 21) (key 2 addr)); lia.
  - done.
Qed.

Lemma pmd_entry_below flags :
  maps_below 2 (λ pmdp addr next phys,
    if section_mapping addr next phys flags then pmd_set_section pmdp phys prot
    else alloc_init_pte pmdp addr next phys prot early flags).
Proof.
  intros s tables ents a addr next phys Hok Ha Hr Hnext Hmax Hma Hmn Hmp Hp Hpe Hreach Hun Hneed.
  destruct (section_mapping addr next phys flags) eqn:Hsec; [|by apply alloc_init_pte_below].
  destruct (section_mapping_aligned _ _ _ _ Hsec) as (H1 & H2 & H3).
  destruct (pmd_set_section_below s tables ents a addr next phys)
    as (s' & tables' & ents' & E & Hok' & Hk & Hu & Hm & Hav); [done..|].
  exists s', tables', ents'. repeat (split; [done|]). rewrite Hav. pose proof (need_pos 2 addr next ltac:(lia)). lia.
Qed.

(** *** The two levels above *)

Lemma alloc_init_pmd_below flags :
  maps_below 1 (λ pudp addr next phys, alloc_init_pmd pudp addr next phys prot early flags).
Proof. exact (descend 1 _ pmd_offset_phys ltac:(lia) (pmd_entry_below flags) pmd_offset_key). Qed.

Lemma alloc_init_pud_below flags :
  maps_below 0 (λ pgdp addr next phys, alloc_init_pud pgdp addr next phys prot early flags).
Proof. exact (descend 0 _ pud_offset_phys ltac:(lia) (alloc_init_pmd_below flags) pud_offset_key). Qed.

(** *** __create_pgd_mapping *)

(** The pages a byte range touches. *)
Definition page_down (a : Z) : Z := a / PAGE_SIZE * PAGE_SIZE.
Definition page_up (a : Z) : Z := (a + PAGE_SIZE - 1) / PAGE_SIZE * PAGE_SIZE.

Lemma page_down_mod a : page_down a mod PAGE_SIZE = 0.
Proof. by apply Z.mod_mul. Qed.

Lemma page_range virt size :
  0 ≤ virt → 0 < size → virt + size ≤ 2 ^ 48 - PAGE_SIZE →
  0 ≤ page_down virt ≤ virt ∧ virt < page_down virt + PAGE_SIZE ∧
  virt + size ≤ page_up (virt + size) < virt + size + PAGE_SIZE.
Proof.
  intros Hv Hs He. unfold page_down, page_up. autorewrite with page_consts in *.
  pose proof (Z.div_mod virt 4096). pose proof (Z.div_mod (virt + size + 4096 - 1) 4096).
  pose proof (Z.mod_pos_bound virt 4096). pose proof (Z.mod_pos_bound (virt + size + 4096 - 1) 4096).
  pose proof (Z.div_pos virt 4096). lia.
Qed.

Lemma create_mapping_ok s tables ents phys virt size flags :
  mmu_ok s pgd tables ents → 0 ≤ virt → 0 < size → virt + size ≤ 2 ^ 48 - PAGE_SIZE →
  0 ≤ phys < 2 ^ 64 → page_down phys + (page_up (virt + size) - page_down virt) ≤ 2 ^ 48 →
  unmapped ents (page_down virt) (page_up (virt + size)) →
  need 0 (page_down virt) (page_up (virt + size)) ≤ avail s →
  ∃ s' tables' ents',
    __create_pgd_mapping pgd phys virt size prot early flags s = Ret tt s' ∧
    mmu_ok s' pgd tables' ents' ∧
    maps_range ents ents' (page_down virt) (page_up (virt + size)) (page_down phys) (desc_attrs prot) ∧
    avail s ≤ avail s' + need 0 (page_down virt) (page_up (virt + size)).
Proof.
  intros Hok Hv Hsz Hmax Hp Hpe Hun Hneed.
  destruct (page_range virt size Hv Hsz Hmax) as (Hd & Hd' & Hu).
  set (lo := page_down virt) in *. set (hi := page_up (virt + size)) in *. set (ph := page_down phys) in *.
  assert (0 ≤ ph) as Hph by (apply Z.mul_nonneg_nonneg; [apply Z.div_pos; page_lia|page_lia]).
  destruct (level_loop_ok 0 _ ltac:(lia) (alloc_init_pud_below flags) _ s tables ents pgd lo hi ph 512 eq_refl)
    as (s' & tables' & ents' & E & Hok' & _ & _ & Hm & Hav); try done; try page_lia.
  - unfold touched. change (level_shift 0) with 39.
    assert ((hi - 1) / 2 ^ 39 < 512) by (apply Z.div_lt_upper_bound; page_lia).
    pose proof (Z.div_pos lo (2 ^ 39)). lia.
  - rewrite key_root by page_lia. apply (mo_rep _ _ _ _ Hok).
  - rewrite !key_root by page_lia. done.
  - apply page_down_mod.
  - by apply Z.mod_mul.
  - apply page_down_mod.
  - intros va _ l' Hl'. lia.
  - exists s', tables', ents'. split; [|done]. unfold __create_pgd_mapping.
    change PAGE_MASK with (Z.lnot (2 ^ 12 - 1)). rewrite !land_mask_down by page_lia.
    rewrite (u64_id (virt + size)), PAGE_ALIGN_up by page_lia.
    rewrite pgd_offset_key. assert (key 0 virt = key 0 lo) as ->; [|exact E].
    apply key_range; [lia|]. pose proof (proj1 (key_range 0 (key 0 lo) lo ltac:(lia)) eq_refl) as Hk.
    change (2 ^ level_shift 0) with (2 ^ 39) in *. assert (lo mod 2 ^ 12 = 0) by apply page_down_mod.
    pose proof (Z.div_mod lo (2 ^ 12)). autorewrite with page_consts in *. split; [lia|].
    assert (virt < lo + 4096) by lia. lia.
Qed.
End correct.

(** *** The empty tables *)

Definition no_entries : entries := λ _ _, 0.

Lemma rep_init m pgd : table_page pgd → table_rep (fill pgd PAGE_SIZE 0 m) pgd {[(0, 0) := pgd]} no_entries.
Proof.
  intros Hp. assert (∀ l i a, ({[(0, 0) := pgd]} : table_map) !! (l, i) = Some a → l = 0 ∧ i = 0 ∧ a = pgd) as Hin.
  { intros l i a [[= <- <-] <-]%lookup_singleton_Some. done. }
  split.
  - apply lookup_singleton_eq.
  - intros l k a (_ & _ & ->)%Hin. destruct (entry_in_page pgd k Hp). by apply ld64_fill_zero.
  - intros l i a (-> & -> & ->)%Hin. done.
  - intros [l i] a (_ & _ & ->)%Hin. done.
  - intros [l i] [l' i'] a (-> & -> & _)%Hin (-> & -> & _)%Hin. done.
  - intros l k a Hl (? & _ & _)%Hin. lia.
  - intros l k a Hl (-> & Hk & ->)%Hin.
    destruct (({[(0, 0) := pgd]} : table_map) !! (0 + 1, k)) as [t|] eqn:Ht; [|by left].
    apply Hin in Ht as (? & _ & _). lia.
Qed.

Lemma translate_no_entries va : translate_ents no_entries va = None.
Proof. done. Qed.

Lemma prots_ok : prot_ok PAGE_KERNEL_ROX ∧ prot_ok PAGE_KERNEL ∧ prot_ok PROT_DEVICE_nGnRnE.
Proof. repeat split; by vm_compute. Qed.

Lemma need_low lo hi : 0 ≤ lo < hi → hi ≤ TOTAL_MEMORY → need 0 lo hi ≤ 258.
Proof.
  intros Hr Hm. unfold need, touched; cbn [Z.leb Z.compare]. autorewrite with page_consts in *.
  assert ((hi - 1) / 2 ^ 39 < 1 ∧ (hi - 1) / 2 ^ 30 < 1 ∧ (hi - 1) / 2 ^ 21 < 256) as (? & ? & ?)
    by (repeat split; apply Z.div_lt_upper_bound; lia).
  pose proof (Z.div_pos lo (2 ^ 39)). pose proof (Z.div_pos lo (2 ^ 30)). pose proof (Z.div_pos lo (2 ^ 21)).
  change (0 <=? 0) with true. change (0 <=? 1) with true. cbn iota. lia.
Qed.

(** The layout of the kernel image and of memory. *)
Record kernel_layout `{!MmuSymbols} : Prop := {
  kl_text : 0 ≤ _text_boot_start < _text_end;
  kl_end : page_up _text_end < TOTAL_MEMORY;
  kl_pgd : table_page idmap_pgd_dir;
  kl_pgd_static : ¬ page_ok idmap_pgd_dir;
}.

(** The attribute bits of the three regions, as the architecture numbers them: UXN is bit
    54 and PXN bit 53, bit 55 is free for software, bit 51 is DBM, bit 10 the access flag,
    bits 9:8 inner shareability, bit 7 (AP[2]) read-only, bit 6 (AP[1]) access from EL0,
    and bits 4:2 the index of the memory type in MAIR_EL1. *)
Definition text_attrs : Z := 2 ^ 55 + 2 ^ 54 + 2 ^ 10 + 3 * 2 ^ 8 + 2 ^ 7 + 4 * 2 ^ 2.
Definition data_attrs : Z := 2 ^ 55 + 2 ^ 54 + 2 ^ 53 + 2 ^ 51 + 2 ^ 10 + 3 * 2 ^ 8 + 4 * 2 ^ 2.
Definition device_attrs : Z := 2 ^ 55 + 2 ^ 54 + 2 ^ 53 + 2 ^ 51 + 2 ^ 10 + 3 * 2 ^ 8 + 0 * 2 ^ 2.

(** What the tables map once paging_init is done: the pages of the kernel's text, the
    memory above it up to the end of memory, and the device window, each to itself; the
    memory below the text, the kernel's load address, is not mapped. *)
Definition kernel_map `{!MmuSymbols} (va : Z) : option (Z * Z) :=
  if decide (page_down _text_boot_start ≤ va < page_up _text_end) then Some (va, text_attrs)
  else if decide (page_up _text_end ≤ va < TOTAL_MEMORY) then Some (va, data_attrs)
  else if decide (PBASE ≤ va < PBASE + DEVICE_SIZE) then Some (va, device_attrs)
  else None.

(** The allocator's pages at and above the end of memory are not mapped. *)
Lemma past_memory_unmapped `{!MmuSymbols} va :
  kernel_layout → TOTAL_MEMORY ≤ va < LOW_MEMORY + TOTAL_MEMORY → kernel_map va = None.
Proof.
  intros [_ Hend _ _] Hva. unfold kernel_map. rewrite !decide_False; [done|..]; unfold PBASE, DEVICE_SIZE; page_lia.
Qed.

(** A page's attributes as the architecture reads them, under a value of MAIR_EL1. *)
Record page_attrs : Type := PageAttrs {
  memory_type : Z;            (* 0xff is normal write-back memory, 0 Device-nGnRnE *)
  from_el0 : bool;
  read_only : bool;
  shareability : Z;           (* 3 is inner shareable *)
  accessed : bool;
  kernel_execute_never : bool;
  user_execute_never : bool;
}.
Definition decode_attrs (mair a : Z) : page_attrs :=
  PageAttrs (mair / 2 ^ (8 * (a / 4 mod 8)) mod 256) (Z.testbit a 6) (Z.testbit a 7) (a / 256 mod 4)
    (Z.testbit a 10) (Z.testbit a 53) (Z.testbit a 54).

(** The last value written to a system register. *)
Definition last_write (reg : string) (l : list (string * Z)) : option Z :=
  foldl (λ v w, if bool_decide (fst w = reg) then Some (snd w) else v) None l.

Section mappings.
Context `{Hsym : !MmuSymbols} (Hlay : kernel_layout).
Context {A : Type} {get_free_page : M A Z} `{!PageAllocator A get_free_page}.
Implicit Types (s : mmu_state A).

Lemma memset_pgd m :
  memset idmap_pgd_dir 0 PAGE_SIZE m = Ret idmap_pgd_dir (fill idmap_pgd_dir PAGE_SIZE 0 m).
Proof.
  destruct Hlay as [_ _ [Hm Hr] _].
  assert (idmap_pgd_dir mod 16 = 0) as H16.
  { autorewrite with page_consts in *. pose proof (Z.div_mod idmap_pgd_dir 4096).
    replace idmap_pgd_dir with (idmap_pgd_dir / 4096 * 256 * 16) by lia. by rewrite Z.mod_mul. }
  rewrite memset_extent_fill by (rewrite ?H16; page_lia). unfold memset_extent. by rewrite H16.
Qed.

Lemma page_up_range a : 0 ≤ a → a ≤ page_up a < a + PAGE_SIZE ∧ page_up a mod PAGE_SIZE = 0 ∧ 0 ≤ page_up a.
Proof.
  intros Ha. unfold page_up. autorewrite with page_consts.
  pose proof (Z.div_mod (a + 4096 - 1) 4096). pose proof (Z.mod_pos_bound (a + 4096 - 1) 4096).
  rewrite Z.mod_mul by lia. lia.
Qed.

Lemma page_exact a : a mod PAGE_SIZE = 0 → page_down a = a ∧ page_up a = a.
Proof.
  unfold page_down, page_up. autorewrite with page_consts. intros Hm. pose proof (Z.div_mod a 4096).
  split; [lia|]. replace (a + 4096 - 1) with (4095 + a / 4096 * 4096) by lia.
  rewrite Z.div_add by lia. change (4095 / 4096) with 0. lia.
Qed.

Lemma identity_maps s tables :
  mmu_ok s idmap_pgd_dir tables no_entries → 600 ≤ avail s →
  ∃ s1 tables1 ents1 s2 tables2 ents2,
    create_identity_mapping get_free_page s = Ret tt s1 ∧
    mmu_ok s1 idmap_pgd_dir tables1 ents1 ∧
    create_mmio_mapping get_free_page s1 = Ret tt s2 ∧
    mmu_ok s2 idmap_pgd_dir tables2 ents2 ∧ avail s ≤ avail s2 + 600 ∧
    ∀ va, 0 ≤ va < 2 ^ 48 → translate_ents ents2 va = kernel_map va.
Proof.
  intros Hok Hav. destruct Hlay as [Htext Hend _ _]. destruct prots_ok as (Hp1 & Hp2 & Hp3).
  set (b := _text_boot_start) in *. set (e := _text_end) in *.
  destruct (page_up_range e ltac:(lia)) as (Hu1 & Hu2 & Hu3). set (u := page_up e) in *.
  assert (TOTAL_MEMORY mod PAGE_SIZE = 0) as Htm by done.
  destruct (page_exact u Hu2) as [Hud Huu]. destruct (page_exact TOTAL_MEMORY Htm) as [_ Htu].
  assert (0 ≤ page_down b ≤ b) as Hbd by (apply (page_range b 1); page_lia).
  assert (b + u64 (e - b) = e) as He by (rewrite u64_id by page_lia; lia).
  assert (u + u64 (TOTAL_MEMORY - u) = TOTAL_MEMORY) as Ht by (rewrite u64_id by page_lia; lia).
  destruct (create_mapping_ok idmap_pgd_dir PAGE_KERNEL_ROX Hp1 s tables no_entries b b (u64 (e - b)) 0 Hok)
    as (s1 & t1 & e1 & E1 & Hok1 & Hm1 & Hav1); rewrite ?He; fold u; try (rewrite ?u64_id; page_lia); try done.
  { pose proof (need_low (page_down b) u). page_lia. }
  rewrite He in Hm1, Hav1. fold u in Hm1, Hav1. pose proof (need_low (page_down b) u) as Hn1.
  destruct (create_mapping_ok idmap_pgd_dir PAGE_KERNEL Hp2 s1 t1 e1 u u (u64 (TOTAL_MEMORY - u)) 0 Hok1)
    as (s2 & t2 & e2 & E2 & Hok2 & Hm2 & Hav2); rewrite ?Ht, ?Hud, ?Htu; try (rewrite ?u64_id; page_lia).
  { intros va Hva Hr. rewrite Hm1, decide_False by lia. done. }
  { pose proof (need_low u TOTAL_MEMORY). page_lia. }
  rewrite Ht, Hud, Htu in Hm2, Hav2. pose proof (need_low u TOTAL_MEMORY) as Hn2.
  destruct (create_mapping_ok idmap_pgd_dir PROT_DEVICE_nGnRnE Hp3 s2 t2 e2 PBASE PBASE DEVICE_SIZE 0 Hok2)
    as (s3 & t3 & e3 & E3 & Hok3 & Hm3 & Hav3); try done.
  { intros va Hva Hr. change (page_down PBASE) with PBASE in Hr. unfold PBASE in Hr.
    rewrite Hm2, decide_False, Hm1, decide_False by page_lia. done. }
  { change (need 0 (page_down PBASE) (page_up (PBASE + DEVICE_SIZE))) with 18. page_lia. }
  change (need 0 (page_down PBASE) (page_up (PBASE + DEVICE_SIZE))) with 18 in Hav3.
  change (page_down PBASE) with PBASE in Hm3. change (page_up (PBASE + DEVICE_SIZE)) with (PBASE + DEVICE_SIZE) in Hm3.
  exists s2, t2, e2, s3, t3, e3. split; [|split; [done|split; [exact E3|split; [done|split; [page_lia|]]]]].
  - unfold create_identity_mapping. rewrite (bind_eq _ _ _ _ _ E1). fold e. rewrite PAGE_ALIGN_up by page_lia.
    exact E2.
  - intros va Hva. rewrite Hm3, Hm2, Hm1 by done. unfold kernel_map. change text_attrs with (desc_attrs PAGE_KERNEL_ROX). change data_attrs with (desc_attrs PAGE_KERNEL).
    change device_attrs with (desc_attrs PROT_DEVICE_nGnRnE). fold b e u.
    unfold PBASE, DEVICE_SIZE. autorewrite with page_consts in *.
    repeat case_decide; try (exfalso; lia); try done; do 2 f_equal; lia.
Qed.
End mappings.

(** ** Properties *)

Section properties.
Context {A : Type} {get_free_page : M A Z} `{!PageAllocator A get_free_page}.
Implicit Types (s : mmu_state A).

(** C5 (functional): given enough free pages, __create_pgd_mapping makes the tables
    translate every address of the pages the range touches, so far unmapped, to
    the corresponding physical address with the protection's attributes, through
    sections and pages alike; every other address translates as before, and at
    most one page per table entry touched is allocated. *)
Theorem create_pgd_mapping_correct s pgd tables ents phys virt size prot flags :
  mmu_ok s pgd tables ents → prot_ok prot →
  0 ≤ virt → 0 < size → virt + size ≤ 2 ^ 48 - PAGE_SIZE → 0 ≤ phys < 2 ^ 64 →
  let lo := page_down virt in
  let hi := page_up (virt + size) in
  page_down phys + (hi - lo) ≤ 2 ^ 48 →
  (∀ va, lo ≤ va < hi → translate (mem s) pgd va = None) →
  need 0 lo hi ≤ avail s →
  ∃ s' tables' ents',
    __create_pgd_mapping pgd phys virt size prot (early_pgtable_alloc get_free_page) flags s = Ret tt s' ∧
    mmu_ok s' pgd tables' ents' ∧ avail s ≤ avail s' + need 0 lo hi ∧
    ∀ va, 0 ≤ va < 2 ^ 48 →
      translate (mem s') pgd va
      = if decide (lo ≤ va < hi) then Some (page_down phys + (va - lo), desc_attrs prot)
        else translate (mem s) pgd va.
Proof.
  intros Hok Hprot Hv Hs Hmax Hp lo hi Hpe Hun Hneed.
  destruct (create_mapping_ok pgd prot Hprot s tables ents phys virt size flags Hok Hv Hs Hmax Hp Hpe)
    as (s' & tables' & ents' & E & Hok' & Hm & Hav); [|done|].
  - intros va Hva Hr. rewrite <-(translate_rep _ _ _ _ (mo_rep _ _ _ _ Hok)) by done. by apply Hun.
  - exists s', tables', ents'. split; [done|]. split; [done|]. split; [done|].
    intros va Hva. rewrite (translate_rep _ _ _ _ (mo_rep _ _ _ _ Hok')), (translate_rep _ _ _ _ (mo_rep _ _ _ _ Hok)) by done.
    by apply Hm.
Qed.

(** The system registers written, oldest first. *)
Fixpoint msr_writes (tr : trace) : list (string * Z) :=
  match tr with
  | [] => []
  | Msr r v :: tr => msr_writes tr ++ [(r, v)]
  | _ :: tr => msr_writes tr
  end.

Lemma cpu_init_eq P tr :
  ∃ tr1 f, cpu_init P tr = Ret tt tr1 ∧
    msr_writes tr1 = msr_writes tr ++
      [("cpacr_el1", Z.shiftl 3 20); ("mdscr_el1", Z.shiftl 1 12); ("mair_el1", 0xbbff440c0400);
       ("tcr_el1", 0x80100010 + Z.min 5 (f mod 16) * 2 ^ 32)].
Proof.
  unfold cpu_init, read_sysreg, write_sysreg, barrier, modify, mbind, M_bind, mret, M_ret.
  set (f := u64 (sysreg_read P _ "ID_AA64MMFR0_EL1")). eexists _, f. split; [reflexivity|].
  cbn [msr_writes]. rewrite <-!app_assoc. cbn [app]. do 3 f_equal.
  change (u64 mair_value) with 0xbbff440c0400. do 4 f_equal.
  change (Z.lor (TCR_TxSZ VA_BITS) TCR_TG_FLAGS) with 0x80100010.
  change 0xf with (2 ^ 4 - 1). rewrite land_low by lia. change (2 ^ 4) with 16.
  change ID_AA64MMFR0_PARANGE_48 with 5. change TCR_IPS_SHIFT with 32.
  pose proof (Z.mod_pos_bound f 16).
  assert ((if 5 <? f mod 16 then 5 else f mod 16) = Z.min 5 (f mod 16)) as ->
    by (destruct (Z.ltb_spec 5 (f mod 16)); lia).
  rewrite Z.shiftl_mul_pow2, Z.lor_comm, (lor_low _ _ 32); [|lia|by apply Z.mod_mul|lia|lia].
  rewrite u64_id; lia.
Qed.

(** The processor supports 4 KB pages. *)
Definition has_4k_granules (P : platform) : Prop :=
  ∀ tr, u64 (sysreg_read P tr "ID_AA64MMFR0_EL1") / 2 ^ 28 mod 16 = 0.

Lemma enable_mmu_eq `{!MmuSymbols} P tr :
  let f := u64 (sysreg_read P tr "ID_AA64MMFR0_EL1") in
  ∃ tr1 ret, enable_mmu P tr = Ret ret tr1 ∧ (ret = 0 ↔ f / 2 ^ 28 mod 16 = 0) ∧
    msr_writes tr1 = msr_writes tr ++
      (if decide (ret = 0) then [("ttbr0_el1", u64 idmap_pgd_dir); ("sctlr_el1", 1)] else []).
Proof.
  intros f. unfold enable_mmu, read_sysreg, write_sysreg, barrier, modify, mbind, M_bind, mret, M_ret. fold f.
  change 0xf with (2 ^ 4 - 1). rewrite land_low, Z.shiftr_div_pow2 by (unfold ID_AA64MMFR0_TGRAN4_SHIFT; lia).
  change ID_AA64MMFR0_TGRAN4_SHIFT with 28. change ID_AA64MMFR0_TGRAN4_SUPPORTED with 0. change (2 ^ 4) with 16.
  destruct (Z.eqb_spec (f / 2 ^ 28 mod 16) 0) as [Hg|Hg]; cbn [negb]; (eexists _, _; split; [reflexivity|]).
  - split; [done|]. cbn. by rewrite <-app_assoc.
  - split; [done|]. cbn. by rewrite app_nil_r.
Qed.

(** Cpu_init programs the memory types of MAIR_EL1 and a 48-bit
    translation with 4 KB granules in TCR_EL1, the physical address size being
    what the processor reports, at most 48 bits; enable_mmu points TTBR0_EL1 at
    the tables and then sets SCTLR_EL1.M, unless the processor lacks 4 KB
    granules: then it returns -1 and writes nothing. *)
Theorem cpu_init_enable_mmu `{!MmuSymbols} P tr :
  ∃ tr1 tr2 ret,
    cpu_init P tr = Ret tt tr1 ∧ enable_mmu P tr1 = Ret ret tr2 ∧
    (∃ feature, msr_writes tr1 = msr_writes tr ++
      [("cpacr_el1", Z.shiftl 3 20); ("mdscr_el1", Z.shiftl 1 12); ("mair_el1", 0xbbff440c0400);
       ("tcr_el1", 0x80100010 + Z.min 5 (feature mod 16) * 2 ^ 32)]) ∧
    ∃ feature, (ret = 0 ↔ feature / 2 ^ 28 mod 16 = 0) ∧
      msr_writes tr2 = msr_writes tr1 ++
        (if decide (ret = 0) then [("ttbr0_el1", u64 idmap_pgd_dir); ("sctlr_el1", 1)] else []).
Proof.
  destruct (cpu_init_eq P tr) as (tr1 & f & E1 & Hw1). destruct (enable_mmu_eq P tr1) as (tr2 & ret & E2 & Hw2).
  exists tr1, tr2, ret. split; [done|]. split; [done|]. split; [by exists f|by eexists].
Qed.

Lemma paging_init_ok `{!MmuSymbols} {C : Type} `{!Console C} P s (c : C) :
  kernel_layout → pa_ok (allocator s) → 600 ≤ avail s →
  ∃ s', paging_init P get_free_page (s, c) = Ret tt (s', console_printk ("Enable mmu done" +++ nl) [] c) ∧
    pa_ok (allocator s') ∧ avail s ≤ avail s' + 600 ∧
    (∀ va, 0 ≤ va < 2 ^ 48 → translate (mem s') idmap_pgd_dir va = kernel_map va) ∧
    (has_4k_granules P → ∃ w, msr_writes (mtrace s') = w ++ [("ttbr0_el1", u64 idmap_pgd_dir); ("sctlr_el1", 1)]) ∧
    last_write "mair_el1" (msr_writes (mtrace s')) = Some 0xbbff440c0400 ∧
    ∃ tables ents, mmu_ok s' idmap_pgd_dir tables ents.
Proof.
  intros Hlay Hpa Hav.
  set (s0 := MmuState (fill idmap_pgd_dir PAGE_SIZE 0 (mem s)) (allocator s) (mtrace s)).
  assert (mmu_ok s0 idmap_pgd_dir {[(0, 0) := idmap_pgd_dir]} no_entries) as Hok.
  { split; [apply rep_init, Hlay|done|].
    intros [l i] a [_ <-]%lookup_singleton_Some. right. split; [done|apply Hlay]. }
  destruct (identity_maps Hlay s0 _ Hok Hav) as (s1 & t1 & e1 & s2 & t2 & e2 & E1 & _ & E2 & Hok2 & Hav2 & Hmap).
  destruct (cpu_init_eq P (mtrace s2)) as (tr3 & feature & E3 & Hw3).
  destruct (enable_mmu_eq P tr3) as (tr4 & ret & E4 & Hret & Hw4).
  exists (MmuState (mem s2) (allocator s2) tr4). split; [|split; [exact (mo_alloc _ _ _ _ Hok2)|split; [exact Hav2|split; [|split; [|split]]]]].
  - unfold paging_init.
    assert (zoom (S:=mmu_state A * C) (zoom (T:=memory) (S:=mmu_state A) (memset idmap_pgd_dir 0 PAGE_SIZE)) (s, c)
            = Ret idmap_pgd_dir (s0, c)) as Z0 by (unfold zoom; cbn; by rewrite (memset_pgd Hlay)).
    assert (zoom (create_identity_mapping get_free_page) (s0, c) = Ret tt (s1, c)) as Z1
      by (unfold zoom; cbn; by rewrite E1).
    assert (zoom (create_mmio_mapping get_free_page) (s1, c) = Ret tt (s2, c)) as Z2
      by (unfold zoom; cbn; by rewrite E2).
    assert (zoom (S:=mmu_state A * C) (zoom (T:=trace) (S:=mmu_state A) (cpu_init P)) (s2, c)
            = Ret tt (MmuState (mem s2) (allocator s2) tr3, c)) as Z3 by (unfold zoom; cbn; by rewrite E3).
    assert (zoom (S:=mmu_state A * C) (zoom (T:=trace) (S:=mmu_state A) (enable_mmu P)) (MmuState (mem s2) (allocator s2) tr3, c)
            = Ret ret (MmuState (mem s2) (allocator s2) tr4, c)) as Z4 by (unfold zoom; cbn; by rewrite E4).
    by rewrite (bind_eq _ _ _ _ _ Z0), (bind_eq _ _ _ _ _ Z1), (bind_eq _ _ _ _ _ Z2), (bind_eq _ _ _ _ _ Z3),
      (bind_eq _ _ _ _ _ Z4).
  - intros va Hva. cbn [mem]. rewrite (translate_rep _ _ _ _ (mo_rep _ _ _ _ Hok2)) by done. by apply Hmap.
  - intros Hg. exists (msr_writes tr3). cbn [mtrace]. by rewrite Hw4, decide_True by apply Hret, Hg.
  - cbn [mtrace]. rewrite Hw4, Hw3. unfold last_write. rewrite !foldl_app. by case_decide.
  - exists t2, e2. by destruct Hok2.
Qed.

(** C8 (safety): after paging_init, for any state of memory before, the tables map every
    page of the kernel's text to itself, as memory that is read-only and that only the
    kernel can execute; the memory from there to the end of the 512 MB to itself, as
    memory the kernel can read and write and nobody can execute; and the device window to
    itself, as device memory without gathering, reordering or early acknowledgement that
    the kernel can read and write.  EL0 has no access to any of it, the access flags are
    set, and the memory types are those of the value written to MAIR_EL1.  Nothing else is
    mapped: not the memory below the text, nor anything past the end of memory.  This
    needs the linker script's layout (kernel_layout) and 600 free pages for the tables;
    the message follows whether or not the MMU could be enabled. *)
Theorem paging_init_identity_map `{!MmuSymbols} {C : Type} `{!Console C} P s (c : C) :
  kernel_layout → pa_ok (allocator s) → 600 ≤ avail s →
  ∃ s' mair, paging_init P get_free_page (s, c) = Ret tt (s', console_printk ("Enable mmu done" +++ nl) [] c) ∧
    last_write "mair_el1" (msr_writes (mtrace s')) = Some mair ∧
    ∀ va, 0 ≤ va < 2 ^ 48 →
      if decide (page_down _text_boot_start ≤ va < page_up _text_end) then
        ∃ a, translate (mem s') idmap_pgd_dir va = Some (va, a) ∧ decode_attrs mair a =
             {| memory_type := 0xff; from_el0 := false; read_only := true; shareability := 3; accessed := true;
                kernel_execute_never := false; user_execute_never := true |}
      else if decide (page_up _text_end ≤ va < TOTAL_MEMORY) then
        ∃ a, translate (mem s') idmap_pgd_dir va = Some (va, a) ∧ decode_attrs mair a =
             {| memory_type := 0xff; from_el0 := false; read_only := false; shareability := 3; accessed := true;
                kernel_execute_never := true; user_execute_never := true |}
      else if decide (PBASE ≤ va < PBASE + DEVICE_SIZE) then
        ∃ a, translate (mem s') idmap_pgd_dir va = Some (va, a) ∧ decode_attrs mair a =
             {| memory_type := 0; from_el0 := false; read_only := false; shareability := 3; accessed := true;
                kernel_execute_never := true; user_execute_never := true |}
      else translate (mem s') idmap_pgd_dir va = None.
Proof.
  intros Hlay Hpa Hav. destruct (paging_init_ok P s c Hlay Hpa Hav) as (s' & E & _ & _ & Hmap & _ & Hmair & _).
  exists s', 0xbbff440c0400. split; [exact E|]. split; [exact Hmair|]. intros va Hva. rewrite (Hmap va Hva).
  unfold kernel_map. repeat case_decide; [by eexists..|done].
Qed.

(** When no page is free, early_pgtable_alloc clears the page at physical
    address 0 and returns 0, and nobody checks it: alloc_init_pte makes page 0
    the page table, and maps the page with a descriptor written into it. *)
Theorem early_pgtable_alloc_exhausted `{!PageAllocatorFails A get_free_page} s entryp addr phys prot flags :
  pa_ok (allocator s) → pa_avail (allocator s) = 0%nat →
  ld64 (mem s) entryp = Some 0 → PAGE_SIZE ≤ entryp →
  0 ≤ addr < 2 ^ 48 - PAGE_SIZE →
  alloc_init_pte entryp addr (addr + PAGE_SIZE) phys prot (early_pgtable_alloc get_free_page) flags s
  = Ret tt (MmuState
      (st64 (st64 (fill 0 PAGE_SIZE 0 (mem s)) entryp PMD_TYPE_TABLE)
         (8 * (addr / PAGE_SIZE mod 512)) (pfn_pte (Z.shiftr phys 12) prot))
      (allocator s) (Barrier "dsb ishst" :: Barrier "dsb ishst" :: mtrace s)).
Proof.
  intros Hpa Hav Hent Hlow Ha. unfold alloc_init_pte.
  assert (∀ v m (a : A) tr, ld64 m entryp = Some v → deref entryp (MmuState m a tr) = Ret v (MmuState m a tr)) as Hd
    by (intros v m a tr Hm; unfold deref, zoom; cbn; by rewrite (load64_eq m entryp v)).
  destruct s as [m a tr]; cbn [mem allocator mtrace] in *.
  rewrite (bind_eq _ _ _ _ _ (Hd 0 m a tr Hent)). cbn [pgd_none Z.eqb when].
  assert (early_pgtable_alloc get_free_page (MmuState m a tr) = Ret 0 (MmuState (fill 0 PAGE_SIZE 0 m) a tr)) as Ea.
  { unfold early_pgtable_alloc.
    assert (zoom get_free_page (MmuState m a tr) = Ret 0 (MmuState m a tr)) as E0
      by (unfold zoom; cbn; by rewrite (pa_exhausted a Hpa Hav)).
    rewrite (bind_eq _ _ _ _ _ E0).
    assert (zoom (memset 0 0 PAGE_SIZE) (MmuState m a tr) = Ret 0 (MmuState (fill 0 PAGE_SIZE 0 m) a tr)) as E1
      by (unfold zoom; cbn; rewrite memset_extent_fill by (rewrite ?Zmod_0_l; page_lia); done).
    by rewrite (bind_eq _ _ _ _ _ E1). }
  rewrite (bind_assoc (early_pgtable_alloc get_free_page) _ _ _), (bind_eq _ _ _ _ _ Ea).
  rewrite (bind_eq _ _ _ _ _ (set_entry_eq entryp (Z.lor 0 PMD_TYPE_TABLE) _)). cbn [mem allocator mtrace].
  change (Z.lor 0 PMD_TYPE_TABLE) with 3. change PMD_TYPE_TABLE with 3.
  rewrite (bind_eq _ _ _ _ _ (Hd 3 _ _ _ (ld64_st64_eq _ entryp 3 ltac:(lia)))).
  assert (table_page 0) as Ht0 by (split; [done|page_lia]).
  pose proof (pte_offset_key 0 addr Ht0) as Hk. change (Z.lor 0 3) with 3 in Hk. rewrite Hk.
  apply (loop_done 511). rewrite (bind_eq _ _ _ _ _ (set_entry_eq _ _ _)). cbn [mem allocator mtrace].
  cbv zeta. rewrite (u64_id (addr + PAGE_SIZE)), Z.eqb_refl by page_lia.
  change (entry_addr 0 (key 3 addr)) with (8 * (addr / PAGE_SIZE mod 512)). done.
Qed.
End properties.

(** ** Witnesses *)

Module Example_mmu.
Definition symbols : MmuSymbols := {|
  idmap_pgd_dir := 0x86000; _text_boot_start := 0x80000; _text_end := 0x85123;
|}.
#[export] Existing Instance symbols.
Definition board : platform := {| dev_read := λ _ _, 0; sysreg_read := λ _ _, 0 |}.
Definition boot : mmu_state pages := MmuState ∅ pages_boot [].

Lemma layout : kernel_layout.
Proof. split; [by_decision|by vm_compute|by split; [|by_decision]|]. intros [_ [? _]]. by vm_compute in H. Qed.

Lemma boot_avail : avail boot = 131072.
Proof.
  change (avail boot) with (Z.of_nat (nr_free (replicate (Z.to_nat NR_PAGES) false))).
  rewrite nr_free_replicate. page_lia.
Qed.

(** An empty table, at the address the linker script gives it. *)
Definition empty_pgd : mmu_state pages := MmuState (fill 0x86000 PAGE_SIZE 0 ∅) pages_boot [].

Lemma empty_pgd_avail : avail empty_pgd = 131072.
Proof.
  change (avail empty_pgd) with (Z.of_nat (nr_free (replicate (Z.to_nat NR_PAGES) false))).
  rewrite nr_free_replicate. page_lia.
Qed.

Lemma empty_pgd_ok : mmu_ok empty_pgd 0x86000 {[(0, 0) := 0x86000]} no_entries.
Proof.
  split; [apply rep_init, layout|apply pages_boot_ok|].
  intros [l i] a [_ <-]%lookup_singleton_Some. right. split; [done|apply layout].
Qed.
End Example_mmu.

#[local] Existing Instance Example_mmu.symbols.
#[local] Existing Instance log_console.

(** 3 MB from 0x1ff000 are mapped to 1 GB: one page, one section, and 255 pages. *)
Lemma create_pgd_mapping_correct_witness :
  ∃ s' tables' ents',
    __create_pgd_mapping 0x86000 0x40000000 0x1ff000 0x300000 PAGE_KERNEL (early_pgtable_alloc get_free_page) 0
      Example_mmu.empty_pgd = Ret tt s' ∧
    mmu_ok s' 0x86000 tables' ents' ∧
    avail Example_mmu.empty_pgd ≤ avail s' + 5 ∧
    ∀ va, 0 ≤ va < 2 ^ 48 →
      translate (mem s') 0x86000 va
      = if decide (0x1ff000 ≤ va < 0x4ff000) then Some (0x40000000 + (va - 0x1ff000), desc_attrs PAGE_KERNEL)
        else translate (mem Example_mmu.empty_pgd) 0x86000 va.
Proof.
  apply (create_pgd_mapping_correct Example_mmu.empty_pgd 0x86000 _ _ 0x40000000 0x1ff000 0x300000 PAGE_KERNEL 0
           Example_mmu.empty_pgd_ok); [apply prots_ok|by_decision..| |].
  - intros va Hva. rewrite (translate_rep _ _ _ _ (mo_rep _ _ _ _ Example_mmu.empty_pgd_ok)); [done|].
    change (page_down 0x1ff000) with 0x1ff000 in Hva.
    change (page_up (0x1ff000 + 0x300000)) with 0x4ff000 in Hva. lia.
  - change (need 0 (page_down 0x1ff000) (page_up (0x1ff000 + 0x300000))) with 5.
    rewrite Example_mmu.empty_pgd_avail. lia.
Defined.

Lemma paging_init_identity_map_witness :
  ∃ s' a, paging_init (C:=list (string * list karg)) Example_mmu.board get_free_page (Example_mmu.boot, [])
        = Ret tt (s', [("Enable mmu done" +++ nl, [])]) ∧
    translate (mem s') 0x86000 0x82000 = Some (0x82000, a) ∧ Z.testbit a 7 = true ∧
    translate (mem s') 0x86000 0x1000 = None.
Proof.
  destruct (paging_init_identity_map Example_mmu.board Example_mmu.boot
           ([] : list (string * list karg)) Example_mmu.layout) as (s' & mair & E & _ & Hmap).
  - apply pages_boot_ok.
  - rewrite Example_mmu.boot_avail. lia.
  - destruct (Hmap 0x82000 ltac:(lia)) as (a & Ha & Hd). exists s', a. split; [exact E|]. split; [exact Ha|].
    split; [exact (f_equal read_only Hd)|exact (Hmap 0x1000 ltac:(lia))].
Defined.

Lemma first_used_all_ok : pa_ok (first_used (Z.to_nat NR_PAGES)).
Proof. apply first_used_ok. rewrite Z2Nat.id; [by vm_compute|by_decision]. Qed.

Lemma first_used_all_avail : pa_avail (first_used (Z.to_nat NR_PAGES)) = 0%nat.
Proof.
  change (nr_free (mem_map (first_used (Z.to_nat NR_PAGES))) = 0%nat). apply nr_free_0.
  unfold first_used; cbn [mem_map]. rewrite Nat.sub_diag. change (replicate 0 false) with (@nil bool).
  rewrite app_nil_r. by apply Forall_replicate.
Qed.

Lemma early_pgtable_alloc_exhausted_witness :
  let s := MmuState (st64 ∅ 0x400ff8 0) (first_used (Z.to_nat NR_PAGES)) [] in
  ∃ s', alloc_init_pte 0x400ff8 0x5000 0x6000 0x9000 PAGE_KERNEL (early_pgtable_alloc get_free_page) 0 s = Ret tt s' ∧
    mem s' = st64 (st64 (fill 0 PAGE_SIZE 0 (mem s)) 0x400ff8 3) 0x28 (pfn_pte 9 PAGE_KERNEL).
Proof.
  intros s. eexists. split.
  - apply (early_pgtable_alloc_exhausted s 0x400ff8 0x5000 0x9000 PAGE_KERNEL 0);
      [apply first_used_all_ok|apply first_used_all_avail|by vm_compute|by_decision..].
  - done.
Defined.
