(* ===== verification/Access.v ===== *)
(** * What the page tables permit

    The permission half of translation: which loads, stores and instruction fetches the
    attributes of a descriptor allow at EL0 and at EL1, the address an access reaches
    through the tables, and what that is under the map paging_init builds. *)

From S2P Require Import Prelude Memory Mmio Uart PageAlloc PgTable Mmu.

(** ** The architecture's permissions

    Stage 1 of the EL1&0 translation, as the kernel configures it: no WXN (SCTLR_EL1 is
    written with its M bit alone), no hardware update of the dirty state and no
    permissions in table descriptors (their upper bits are zero).  AP[1] (bit 6) admits
    EL0, AP[2] (bit 7) forbids stores, PXN and UXN (bits 53 and 54) forbid fetches at EL1
    and at EL0, and a descriptor whose access flag (bit 10) is clear faults. *)

Inductive el : Type := EL0 | EL1.
Inductive access : Type := Loads | Stores | Fetches.

#[export] Instance el_eq_dec : EqDecision el.
Proof. solve_decision. Defined.
#[export] Instance access_eq_dec : EqDecision access.
Proof. solve_decision. Defined.

Definition permits (attrs : Z) (e : el) (a : access) : bool :=
  let user := Z.testbit attrs 6 in
  let read_only := Z.testbit attrs 7 in
  Z.testbit attrs 10 &&
  match a, e with
  | Loads, EL0 => user
  | Loads, EL1 => true
  | Stores, EL0 => user && negb read_only
  | Stores, EL1 => negb read_only
  | Fetches, EL0 => negb (Z.testbit attrs 54)
  | Fetches, EL1 => negb (Z.testbit attrs 53) && negb (user && negb read_only)
  end.

(** The physical address an access to [va] reaches, if it is allowed. *)
Definition mem_access (m : memory) (pgd : Z) (e : el) (a : access) (va : Z) : option Z :=
  '(pa, attrs) ← translate m pgd va;
  if permits attrs e a then Some pa else None.

(** ** The kernel's map *)

Section kernel_map.
Context `{Hsym : !MmuSymbols}.

(** The regions of the map. *)
Definition in_text (va : Z) : Prop := page_down _text_boot_start ≤ va < page_up _text_end.
Definition in_data (va : Z) : Prop :=
  page_up _text_end ≤ va < TOTAL_MEMORY ∨ PBASE ≤ va < PBASE + DEVICE_SIZE.
#[export] Instance in_text_dec va : Decision (in_text va).
Proof. unfold in_text. apply _. Defined.
#[export] Instance in_data_dec va : Decision (in_data va).
Proof. unfold in_data. apply _. Defined.

(** What the kernel may do: execute and read its text, read and write its data and its
    devices, and nothing else; user code may do nothing. *)
Definition kernel_access (e : el) (a : access) (va : Z) : option Z :=
  match e with
  | EL0 => None
  | EL1 =>
      if decide (in_text va) then match a with Stores => None | _ => Some va end
      else if decide (in_data va) then match a with Fetches => None | _ => Some va end
      else None
  end.

Lemma kernel_map_access m e a va :
  translate m idmap_pgd_dir va = kernel_map va →
  mem_access m idmap_pgd_dir e a va = kernel_access e a va.
Proof.
  intros E. unfold mem_access. rewrite E. unfold kernel_map, kernel_access, in_text, in_data.
  repeat case_decide; try tauto; try done; by destruct e, a.
Qed.

(** No address can be both written and executed, by anybody. *)
Lemma kernel_access_w_xor_x e e' va :
  is_Some (kernel_access e Stores va) → kernel_access e' Fetches va = None.
Proof.
  unfold kernel_access. intros [pa H]. destruct e, e'; try done. repeat case_decide; done.
Qed.

(** An access that succeeds reaches the address it names. *)
Lemma kernel_access_identity e a va pa : kernel_access e a va = Some pa → pa = va.
Proof. unfold kernel_access. intros H. destruct e; [done|]. repeat case_decide; destruct a; naive_solver. Qed.
End kernel_map.
