(* ===== verification/Irq.v ===== *)
(** * kernel/irq.c: interrupt descriptors, domains and dispatch

    The descriptor table, the domains and the architecture's handler; the code
    calls through function pointers kept in data structures (a chip's operations,
    a descriptor's handler, a domain's map).  A function pointer, and a pointer
    to a structure of function pointers, is a symbol name; [IrqCode] says what
    code the symbols stand for.  A descriptor pointer is an index of the table. *)

From S2P Require Import Prelude Mmio Format Printk PageAlloc KList Sched.

(** ** Data *)

(** [include/irq.h:9-9] NR_IRQS *)
Definition NR_IRQS : Z := 256.

(** [include/irq.h:32-46] irq_desc *)
Record irq_desc : Type := IrqDesc {
  d_name : option string;
  d_virq : Z;
  d_hwirq : Z;
  d_chip : option string;
  d_domain : Z;
  chip_data : Z;
  refcount : Z;
  handler : option string;
  param : Z;
}.

Definition zero_desc : irq_desc := IrqDesc None 0 0 None 0 0 0 None 0.

(** [include/irq.h:53-61] irq_domain *)
Record irq_domain : Type := IrqDomain {
  dom_name : option string;
  dom_ops : option string;
  hwirq_max : Z;
  host_data : Z;
}.

(** [kernel/irq.c:9-11] arch_irq_handler, irq_desc; the domains live in pages of
    their own, the key is the page *)
Record irq_state : Type := IrqState {
  irq_descs : list irq_desc;
  arch_irq_handler : option string;
  domains : gmap Z irq_domain;
}.

(** At boot .bss is zero. *)
Definition irq_boot : irq_state := IrqState (replicate (Z.to_nat NR_IRQS) zero_desc) None ∅.

(** [drivers/irqchip/gicv2.c:8-14] gic_chip_data_t *)
Record gic_chip_data : Type := GicChipData {
  raw_dist_base : Z;
  raw_cpu_base : Z;
  gic_domain : Z;
  gic_chip : option string;
  gic_irqs : Z;
}.

(** The machine the interrupt code runs on: its own state, the interrupt
    controllers', the timer's, the trace of device and system register accesses,
    the page allocator and the scheduler (which holds the console). *)
Record machine (A C : Type) : Type := Machine {
  irqs : irq_state;
  gic_data : list gic_chip_data;
  arch_timer_rate : Z;
  hw : trace;
  palloc : A;
  schd : sched C;
}.
Arguments Machine {A C}. Arguments irqs {A C}. Arguments gic_data {A C}. Arguments arch_timer_rate {A C}.
Arguments hw {A C}. Arguments palloc {A C}. Arguments schd {A C}.

#[export] Program Instance lens_irqs A C : Lens (machine A C) irq_state := {|
  lget := irqs;
  lput := λ x s, Machine x (gic_data s) (arch_timer_rate s) (hw s) (palloc s) (schd s);
|}.
Solve All Obligations with by intros; repeat match goal with p : machine _ _ |- _ => destruct p end.
#[export] Program Instance lens_hw A C : Lens (machine A C) trace := {|
  lget := hw;
  lput := λ x s, Machine (irqs s) (gic_data s) (arch_timer_rate s) x (palloc s) (schd s);
|}.
Solve All Obligations with by intros; repeat match goal with p : machine _ _ |- _ => destruct p end.
#[export] Program Instance lens_palloc A C : Lens (machine A C) A := {|
  lget := palloc;
  lput := λ x s, Machine (irqs s) (gic_data s) (arch_timer_rate s) (hw s) x (schd s);
|}.
Solve All Obligations with by intros; repeat match goal with p : machine _ _ |- _ => destruct p end.
#[export] Program Instance lens_schd A C : Lens (machine A C) (sched C) := {|
  lget := schd;
  lput := λ x s, Machine (irqs s) (gic_data s) (arch_timer_rate s) (hw s) (palloc s) x;
|}.
Solve All Obligations with by intros; repeat match goal with p : machine _ _ |- _ => destruct p end.

Definition set_gic_data {A C} g (s : machine A C) : machine A C :=
  Machine (irqs s) g (arch_timer_rate s) (hw s) (palloc s) (schd s).
Definition set_timer_rate {A C} r (s : machine A C) : machine A C :=
  Machine (irqs s) (gic_data s) r (hw s) (palloc s) (schd s).

(** [include/irq.h:17-25] irq_chip: [None] is a null pointer *)
Record irq_chip (A C : Type) : Type := IrqChip {
  chip_name : option string;
  chip_irq_enable : option (Z → M (machine A C) unit);
  chip_irq_disable : option (Z → M (machine A C) unit);
  chip_irq_ack : option (Z → M (machine A C) unit);
  chip_irq_mask : option (Z → M (machine A C) unit);
  chip_irq_unmask : option (Z → M (machine A C) unit);
  chip_irq_eoi : option (Z → M (machine A C) unit);
}.
Arguments IrqChip {A C}. Arguments chip_irq_enable {A C}. Arguments chip_irq_disable {A C}.
Arguments chip_irq_mask {A C}. Arguments chip_irq_unmask {A C}. Arguments chip_irq_eoi {A C}.

(** [include/irq.h:48-51] irq_domain_ops *)
Record irq_domain_ops (A C : Type) : Type := IrqDomainOps {
  ops_map : option (Z → Z → Z → M (machine A C) Z);
  ops_unmap : option (Z → Z → M (machine A C) unit);
}.
Arguments IrqDomainOps {A C}. Arguments ops_map {A C}. Arguments ops_unmap {A C}.

(** The structures and functions behind the symbols. *)
Class IrqCode (A C : Type) : Type := {
  chip_at : string → irq_chip A C;
  ops_at : string → irq_domain_ops A C;
  handler_at : string → Z → Z → M (machine A C) Z;   (* int handler(int irq, void * param) *)
}.
Class ArchIrqCode (A C : Type) : Type := arch_handler_at : string → M (machine A C) unit.

(** Field updates. *)
Definition with_descs f (s : irq_state) : irq_state := IrqState (f (irq_descs s)) (arch_irq_handler s) (domains s).
Definition with_refcount n (d : irq_desc) : irq_desc :=
  IrqDesc (d_name d) (d_virq d) (d_hwirq d) (d_chip d) (d_domain d) (chip_data d) n (handler d) (param d).
Definition with_handler h p (d : irq_desc) : irq_desc :=
  IrqDesc (d_name d) (d_virq d) (d_hwirq d) (d_chip d) (d_domain d) (chip_data d) (refcount d) h p.
Definition with_name n (d : irq_desc) : irq_desc :=
  IrqDesc n (d_virq d) (d_hwirq d) (d_chip d) (d_domain d) (chip_data d) (refcount d) (handler d) (param d).
Definition with_domain hw' dom (d : irq_desc) : irq_desc :=
  IrqDesc (d_name d) (d_virq d) hw' (d_chip d) dom (chip_data d) (refcount d) (handler d) (param d).
Definition with_chip hw' chip data (d : irq_desc) : irq_desc :=
  IrqDesc (d_name d) (d_virq d) hw' chip (d_domain d) data (refcount d) (handler d) (param d).

(** ** The code *)

Section irq.
Context {A C : Type} `{Hcon : !Console C} `{Hsym : !SchedSymbols} (get_free_page : M A Z).
Context (code : IrqCode A C).
Abbreviation K := (M (machine A C)).

(** [kernel/irq.c:13-16] irq_to_desc *)
Definition irq_to_desc (irq : Z) : option Z :=
  if irq <? NR_IRQS then Some irq else None.

(** Reading and writing through a descriptor pointer. *)
Definition desc_at (p : option Z) : M irq_state irq_desc := λ s,
  match p with
  | None => Fault NullDeref
  | Some i => match irq_descs s !! Z.to_nat i with Some d => Ret d s | None => Fault (IndexRange i) end
  end.
Definition set_desc (p : option Z) (f : irq_desc → irq_desc) : M irq_state unit := λ s,
  match p with
  | None => Fault NullDeref
  | Some i => match irq_descs s !! Z.to_nat i with
              | Some _ => Ret tt (with_descs (alter f (Z.to_nat i)) s)
              | None => Fault (IndexRange i)
              end
  end.

(** [kernel/irq.c:18-27] irq_alloc_descs *)
Definition irq_alloc_descs (start count : Z) : M irq_state Z :=
  for_range (Z.to_nat count) 0 (λ i,
    let desc := irq_to_desc (u32 (start + i)) in
    set_desc desc (λ d, with_refcount (u32 (refcount d + 1)) d)) ;;
  mret (s32 start).

(** [kernel/irq.c:29-33] irq_find_mapping *)
Definition irq_find_mapping (domain hwirq : Z) : Z := hwirq.

(** The chip of a descriptor, and a call of one of its operations: a null
    pointer is called in both cases. *)
Definition desc_chip (p : option Z) : K (irq_chip A C) :=
  d ← zoom (desc_at p); c ← of_option NullDeref (d_chip d); mret (chip_at c).
Definition call_op (op : option (Z → K unit)) (p : option Z) : K unit :=
  f ← of_option NullDeref op; i ← of_option NullDeref p; f i.

(** [kernel/irq.c:35-41] irq_enable *)
Definition irq_enable (desc : option Z) : K unit :=
  chip ← desc_chip desc;
  match chip_irq_enable chip with
  | Some f => call_op (Some f) desc
  | None => call_op (chip_irq_unmask chip) desc
  end.

(** [kernel/irq.c:43-49] irq_disable *)
Definition irq_disable (desc : option Z) : K unit :=
  chip ← desc_chip desc;
  match chip_irq_disable chip with
  | Some f => call_op (Some f) desc
  | None => call_op (chip_irq_mask chip) desc
  end.

(** [kernel/irq.c:51-69] request_irq *)
Definition request_irq (irq : Z) (h : option string) (name : string) (par : Z) : K Z :=
  match irq_to_desc irq with
  | None => mret (-1)
  | Some i =>
      match h with
      | None => mret (-1)
      | Some _ =>
          zoom (set_desc (Some i) (with_handler h par)) ;;
          zoom (set_desc (Some i) (with_name (Some name))) ;;
          irq_enable (Some i) ;;
          mret 0
      end
  end.

(** [kernel/irq.c:71-77] free_irq *)
Definition free_irq (irq : Z) : K unit :=
  zoom (set_desc (irq_to_desc irq) (with_handler None 0)).

Definition kprint (fmt : string) (args : list karg) : K unit := zoom (T:=sched C) (print fmt args).

Definition domain_at (p : Z) : M irq_state irq_domain := λ s,
  match domains s !! p with Some d => Ret d s | None => Fault (WildAddr p) end.
Definition set_domain (p : Z) (d : irq_domain) : M irq_state unit :=
  modify (λ s, IrqState (irq_descs s) (arch_irq_handler s) (<[p := d]> (domains s))).

(** [kernel/irq.c:79-98] irq_domain_map_irq *)
Definition irq_domain_map_irq (domain virq hwirq : Z) : K Z :=
  zoom (set_desc (irq_to_desc virq) (with_domain hwirq domain)) ;;
  dom ← zoom (domain_at domain);
  ops ← of_option NullDeref (dom_ops dom);
  match ops_map (ops_at ops) with
  | Some map =>
      ret ← map domain virq hwirq;
      if negb (ret =? 0) then
        dom ← zoom (domain_at domain);
        kprint ("%s didn't like hwirq %d to virq %d mapping" +++ nl)
          [KStr (chars <$> dom_name dom); KInt hwirq; KInt virq] ;;
        mret ret
      else mret 0
  | None => mret 0
  end.

(** [kernel/irq.c:100-115] generic_handle_irq *)
Definition generic_handle_irq (virq : Z) : K Z :=
  match irq_to_desc virq with
  | None => mret (-1)
  | Some i =>
      d ← zoom (desc_at (Some i));
      match handler d with
      | None => mret (-1)
      | Some h =>
          ret ← handler_at h (s32 virq) (param d);
          chip ← desc_chip (Some i);
          match chip_irq_eoi chip with
          | Some f => f i ;; mret ret
          | None => mret ret
          end
      end
  end.

(** [kernel/irq.c:117-123] handle_domain_irq *)
Definition handle_domain_irq (domain hwirq : Z) : K Z :=
  let virq := irq_find_mapping domain hwirq in
  generic_handle_irq virq ;;
  mret 0.

(** [kernel/irq.c:125-147] irq_domain_add: the new page becomes a domain, all zero
    after memset *)
Definition irq_domain_add (virq hwirq count : Z) (ops : string) (data : Z) : K Z :=
  domain ← zoom get_free_page;
  if domain =? 0 then mret 0 else
  zoom (set_domain domain (IrqDomain None None 0 0)) ;;
  zoom (set_domain domain (IrqDomain None (Some ops) (u32 (hwirq + count)) data)) ;;
  for_range (Z.to_nat count) 0 (λ i,
    irq_domain_map_irq domain (u32 (virq + i)) (u32 (hwirq + i)) ;; skip) ;;
  mret domain.

(** [kernel/irq.c:149-162] irq_domain_set_hwirq_chip *)
Definition irq_domain_set_hwirq_chip (domain virq hwirq : Z) (chip : string) (data : Z) : M irq_state Z :=
  match irq_to_desc virq with
  | None => mret (-1)
  | Some i => set_desc (Some i) (with_chip hwirq (Some chip) data) ;; mret 0
  end.

(** [kernel/irq.c:164-170] set_handle_irq *)
Definition set_handle_irq (handle_irq : string) : M irq_state unit :=
  h ← gets arch_irq_handler;
  match h with
  | Some _ => skip
  | None => modify (λ s, IrqState (irq_descs s) (Some handle_irq) (domains s))
  end.

(** [kernel/irq.c:172-177] irq_handler *)
Definition irq_handler `{!ArchIrqCode A C} : K unit :=
  zoom (T:=sched C) __irq_enter ;;
  h ← gets (arch_irq_handler ∘ irqs);
  h ← of_option NullDeref h;
  arch_handler_at h ;;
  zoom (T:=sched C) __irq_exit.

(** [arch/arm64/kernel/entry.S:255-276] el1_irq: an interrupt taken in the kernel *)
Definition el1_irq `{!ArchIrqCode A C} (fuel : nat) : K unit :=
  irq_handler ;;
  zoom (T:=sched C) (el1_irq_exit fuel).
End irq.

(** ** Lemmas *)

(** [f i] applied to the descriptors [i] of a range of [n]. *)
Fixpoint alter_range (f : nat → irq_desc → irq_desc) (i n : nat) (l : list irq_desc) : list irq_desc :=
  match n with
  | O => l
  | S n => alter_range f (S i) n (alter (f i) i l)
  end.

Lemma lookup_alter_range f i n l j :
  alter_range f i n l !! j = if decide (i ≤ j < i + n)%nat then f j <$> l !! j else l !! j.
Proof.
  revert i l; induction n as [|n IH]; intros i l; cbn [alter_range].
  { rewrite decide_False by lia. done. }
  rewrite IH. destruct (decide (i = j)) as [<-|Hne].
  - rewrite decide_False by lia. rewrite decide_True by lia. apply list_lookup_alter_eq.
  - rewrite list_lookup_alter_ne by done. by repeat case_decide; try lia.
Qed.

Lemma length_alter_range f i n l : length (alter_range f i n l) = length l.
Proof. revert i l; induction n as [|n IH]; intros i l; [done|]. cbn. by rewrite IH, length_alter. Qed.

Lemma alter_range_app f i n l : alter_range f i (S n) l = alter (f (i + n)%nat) (i + n)%nat (alter_range f i n l).
Proof.
  revert i l; induction n as [|n IH]; intros i l; [by rewrite Nat.add_0_r|].
  change (alter_range f i (S (S n)) l) with (alter_range f (S i) (S n) (alter (f i) i l)).
  rewrite IH. cbn [alter_range]. by replace (S i + n)%nat with (i + S n)%nat by lia.
Qed.

Lemma list_alter_twice (f g : irq_desc → irq_desc) (i : nat) (l : list irq_desc) : alter g i (alter f i l) = alter (λ d, g (f d)) i l.
Proof.
  apply list_eq. intros j. destruct (decide (i = j)) as [<-|Hne].
  - rewrite !list_lookup_alter_eq. by destruct (l !! i).
  - by rewrite !list_lookup_alter_ne.
Qed.

(** The descriptor table has its size. *)
Definition irq_ok (s : irq_state) : Prop := length (irq_descs s) = Z.to_nat NR_IRQS.

Lemma irq_lookup s irq : irq_ok s → 0 ≤ irq < NR_IRQS → is_Some (irq_descs s !! Z.to_nat irq).
Proof. intros Hs Hi. apply lookup_lt_is_Some_2. rewrite Hs. unfold NR_IRQS in *. lia. Qed.

Lemma irq_ok_alter s f i : irq_ok s → irq_ok (with_descs (alter f i) s).
Proof. unfold irq_ok. cbn. by rewrite length_alter. Qed.

Lemma desc_at_eq s i d : irq_descs s !! Z.to_nat i = Some d → desc_at (Some i) s = Ret d s.
Proof. intros H. unfold desc_at. by rewrite H. Qed.

Lemma set_desc_eq s i f :
  is_Some (irq_descs s !! Z.to_nat i) → set_desc (Some i) f s = Ret tt (with_descs (alter f (Z.to_nat i)) s).
Proof. intros [d H]. unfold set_desc. by rewrite H. Qed.

Lemma irq_to_desc_in irq : irq < NR_IRQS → irq_to_desc irq = Some irq.
Proof. intros H. unfold irq_to_desc. by destruct (Z.ltb_spec irq NR_IRQS); [|lia]. Qed.
Lemma irq_to_desc_out irq : NR_IRQS ≤ irq → irq_to_desc irq = None.
Proof. intros H. unfold irq_to_desc. by destruct (Z.ltb_spec irq NR_IRQS); [lia|]. Qed.

(** A loop over consecutive interrupts, each of which changes its descriptor. *)
Lemma for_range_descs {S} (body : Z → M S unit) (st : list irq_desc → S) f start n l :
  0 ≤ start →
  (∀ k l', 0 ≤ k < Z.of_nat n → length l' = length l →
     body k (st l') = Ret tt (st (alter (f (Z.to_nat (start + k))) (Z.to_nat (start + k)) l'))) →
  for_range n 0 body (st l) = Ret tt (st (alter_range f (Z.to_nat start) n l)).
Proof.
  intros Hs Hb.
  destruct (for_range_inv (λ j s, s = st (alter_range f (Z.to_nat start) (Z.to_nat j) l)) n 0 body (st l))
    as (s' & E & Hs'); [done| |by rewrite E, Hs', Z.add_0_l, Nat2Z.id].
  intros j s Hj ->. eexists. split; [apply Hb; [lia|by rewrite length_alter_range]|].
  replace (Z.to_nat (j + 1)) with (Datatypes.S (Z.to_nat j)) by lia. rewrite alter_range_app.
  by replace (Z.to_nat start + Z.to_nat j)%nat with (Z.to_nat (start + j)) by lia.
Qed.

Lemma irq_alloc_descs_eq s start count :
  irq_ok s → 0 ≤ start → 0 ≤ count → start + count ≤ NR_IRQS →
  irq_alloc_descs start count s
  = Ret start (with_descs (alter_range (λ _ d, with_refcount (u32 (refcount d + 1)) d)
                             (Z.to_nat start) (Z.to_nat count)) s).
Proof.
  intros Hs H1 H2 H3. unfold irq_alloc_descs, NR_IRQS in *. destruct s as [l h ds]. cbn [irq_descs] in Hs.
  rewrite (bind_eq _ _ _ tt (IrqState (alter_range (λ _ d, with_refcount (u32 (refcount d + 1)) d)
     (Z.to_nat start) (Z.to_nat count) l) h ds)).
  { unfold with_descs; cbn. unfold mret, M_ret. f_equal. apply s32_id. lia. }
  apply (for_range_descs _ (λ l, IrqState l h ds) (λ _ d, with_refcount (u32 (refcount d + 1)) d)); [done|].
  intros k l' Hk Hl. rewrite u32_id, irq_to_desc_in by (unfold NR_IRQS; lia).
  rewrite set_desc_eq; [done|]. apply irq_lookup; [unfold irq_ok; cbn; by rewrite Hl|unfold NR_IRQS; lia].
Qed.

(** Past the end of the table a null pointer is dereferenced. *)
Lemma irq_alloc_descs_too_many s start count :
  irq_ok s → 0 ≤ start → start < NR_IRQS → NR_IRQS < start + count → start + count ≤ 2 ^ 31 →
  irq_alloc_descs start count s = Fault NullDeref.
Proof.
  intros Hs H1 H2 H3 H4. unfold irq_alloc_descs. apply bind_fault.
  remember (Z.to_nat (NR_IRQS - start)) as k eqn:Hk. unfold NR_IRQS in *.
  assert (∀ j i s, irq_ok s → start + i + Z.of_nat j = 256 → 0 ≤ i → (j < Z.to_nat count - Z.to_nat i)%nat →
    for_range (Z.to_nat count - Z.to_nat i) i (λ i, set_desc (irq_to_desc (u32 (start + i)))
      (λ d, with_refcount (u32 (refcount d + 1)) d)) s = Fault NullDeref) as Hloop.
  { clear - H1 H3 H4. induction j as [|j IH]; intros i s Hs Hi Hi0 Hlt.
    - destruct (Z.to_nat count - Z.to_nat i)%nat; [lia|]. cbn [for_range].
      apply bind_fault. rewrite u32_id, irq_to_desc_out by (unfold NR_IRQS; lia). done.
    - destruct (Z.to_nat count - Z.to_nat i)%nat as [|n] eqn:En; [lia|]. cbn [for_range].
      rewrite u32_id, irq_to_desc_in by (unfold NR_IRQS; lia).
      rewrite (bind_eq _ _ _ _ _ (set_desc_eq s (start + i) _ (irq_lookup s (start + i) Hs ltac:(unfold NR_IRQS; lia)))).
      replace n with (Z.to_nat count - Z.to_nat (i + 1))%nat by lia.
      apply IH; [by apply irq_ok_alter|lia..]. }
  rewrite <-(Nat.sub_0_r (Z.to_nat count)). apply (Hloop k 0 s Hs); lia.
Qed.

(** The first handler set stays. *)
Lemma set_handle_irq_eq h s :
  set_handle_irq h s = Ret tt (IrqState (irq_descs s) (Some (default h (arch_irq_handler s))) (domains s)).
Proof. destruct s as [l [h'|] ds]; done. Qed.
