(* ===== verification/Gic.v ===== *)
(** * drivers/irqchip/gicv2.c and arch/arm64/kernel/arm64_irq.c: the interrupt controller

    The GIC's registers are behind [readl] and [writel]; which interrupt is
    pending and how many lines there are is the platform's answer to a read.
    A pointer into [gic_data], as host_data and chip_data hold it, is its index. *)

From S2P Require Import Prelude Mmio Uart Format Printk PageAlloc KList Sched Irq.

(** ** Registers *)

(** [include/arm-gic.h:4-4] GIC_CPU_CTRL *)
Definition GIC_CPU_CTRL : Z := 0x00.
(** [include/arm-gic.h:5-5] GIC_CPU_PRIMASK *)
Definition GIC_CPU_PRIMASK : Z := 0x04.
(** [include/arm-gic.h:7-7] GIC_CPU_INTACK *)
Definition GIC_CPU_INTACK : Z := 0x0c.
(** [include/arm-gic.h:8-8] GIC_CPU_EOI *)
Definition GIC_CPU_EOI : Z := 0x10.
(** [include/arm-gic.h:15-15] GICC_ENABLE *)
Definition GICC_ENABLE : Z := 0x1.
(** [include/arm-gic.h:16-16] GICC_INT_PRI_THRESHOLD *)
Definition GICC_INT_PRI_THRESHOLD : Z := 0xf0.
(** [include/arm-gic.h:17-17] GICC_IAR_INT_ID_MASK *)
Definition GICC_IAR_INT_ID_MASK : Z := 0x3ff.
(** [include/arm-gic.h:21-21] GIC_DIST_CTRL *)
Definition GIC_DIST_CTRL : Z := 0x000.
(** [include/arm-gic.h:22-22] GIC_DIST_CTR *)
Definition GIC_DIST_CTR : Z := 0x004.
(** [include/arm-gic.h:24-24] GIC_DIST_ENABLE_SET *)
Definition GIC_DIST_ENABLE_SET : Z := 0x100.
(** [include/arm-gic.h:25-25] GIC_DIST_ENABLE_CLEAR *)
Definition GIC_DIST_ENABLE_CLEAR : Z := 0x180.
(** [include/arm-gic.h:29-29] GIC_DIST_ACTIVE_CLEAR *)
Definition GIC_DIST_ACTIVE_CLEAR : Z := 0x380.
(** [include/arm-gic.h:30-30] GIC_DIST_PRI *)
Definition GIC_DIST_PRI : Z := 0x400.
(** [include/arm-gic.h:31-31] GIC_DIST_TARGET *)
Definition GIC_DIST_TARGET : Z := 0x800.
(** [include/arm-gic.h:32-32] GIC_DIST_CONFIG *)
Definition GIC_DIST_CONFIG : Z := 0xc00.
(** [include/arm-gic.h:37-37] GICD_ENABLE *)
Definition GICD_ENABLE : Z := 0x1.
(** [include/arm-gic.h:38-38] GICD_DISABLE *)
Definition GICD_DISABLE : Z := 0x0.
(** [include/arm-gic.h:39-39] GICD_INT_ACTLOW_LVLTRIG *)
Definition GICD_INT_ACTLOW_LVLTRIG : Z := 0x0.
(** [include/arm-gic.h:40-40] GICD_INT_EN_CLR_X32 *)
Definition GICD_INT_EN_CLR_X32 : Z := 0xffffffff.
(** [include/arm-gic.h:41-41] GICD_INT_EN_SET_SGI *)
Definition GICD_INT_EN_SET_SGI : Z := 0x0000ffff.
(** [drivers/irqchip/gicv2.c:19-19] ARM_GIC_MAX_NR *)
Definition ARM_GIC_MAX_NR : Z := 1.
(** [drivers/irqchip/gicv2.c:23-23] HW_IRQ_START *)
Definition HW_IRQ_START : Z := 16.

(** At boot the controllers' data is zero. *)
Definition gic_data_boot : list gic_chip_data :=
  replicate (Z.to_nat ARM_GIC_MAX_NR) (GicChipData 0 0 0 None 0).

(** ** The code *)

Section gic.
Context {A C : Type} `{Hcon : !Console C} `{Hsym : !SchedSymbols} (P : platform) (get_free_page : M A Z).
Abbreviation K := (M (machine A C)).

(** [for (i = from; i < to; i += step) body i]. *)
Definition for_up (from to step : Z) (body : Z → K unit) : K unit :=
  loop (S (Z.to_nat (to - from))) (λ i,
    if i <? to then body i ;; mret (inl (i + step)) else mret (inr tt)) from.

Definition gic_at (chip : Z) : K gic_chip_data := λ s,
  match gic_data s !! Z.to_nat chip with Some g => Ret g s | None => Fault (IndexRange chip) end.
Definition set_gic (chip : Z) (f : gic_chip_data → gic_chip_data) : K unit := λ s,
  match gic_data s !! Z.to_nat chip with
  | Some _ => Ret tt (set_gic_data (alter f (Z.to_nat chip) (gic_data s)) s)
  | None => Fault (IndexRange chip)
  end.

(** [drivers/irqchip/gicv2.c:16-16] gic_dist_base *)
Definition gic_dist_base (g : gic_chip_data) : Z := raw_dist_base g.
(** [drivers/irqchip/gicv2.c:17-17] gic_cpu_base *)
Definition gic_cpu_base (g : gic_chip_data) : Z := raw_cpu_base g.

(** [drivers/irqchip/gicv2.c:25-28] gic_irq *)
Definition gic_irq (d : Z) : K Z := d ← zoom (desc_at (Some d)); mret (d_hwirq d).

(** [drivers/irqchip/gicv2.c:30-34] gic_get_cpu_base *)
Definition gic_get_cpu_base : K Z := g ← gic_at 0; mret (gic_cpu_base g).
(** [drivers/irqchip/gicv2.c:36-40] gic_get_dist_base *)
Definition gic_get_dist_base : K Z := g ← gic_at 0; mret (gic_dist_base g).

(** [drivers/irqchip/gicv2.c:42-56] gic_get_cpumask *)
Definition gic_get_cpumask (g : gic_chip_data) : K Z :=
  let base := gic_dist_base g in
  loop 9 (λ '(i, mask),
    if i <? 32 then
      mask ← zoom (readl P (u64 (base + GIC_DIST_TARGET + i)));
      let mask := Z.lor mask (Z.shiftr mask 16) in
      let mask := Z.lor mask (Z.shiftr mask 8) in
      if negb (mask =? 0) then mret (inr mask) else mret (inl (i + 4, mask))
    else mret (inr mask)) (0, 0).

(** [drivers/irqchip/gicv2.c:58-62] gic_set_irq *)
Definition gic_set_irq (d offset : Z) : K unit :=
  irq ← gic_irq d;
  let mask := u32 (Z.shiftl 1 (irq mod 32)) in
  base ← gic_get_dist_base;
  zoom (writel mask (u64 (base + offset + irq / 32 * 4))).

(** [drivers/irqchip/gicv2.c:64-67] gicv2_eoi_irq *)
Definition gicv2_eoi_irq (d : Z) : K unit :=
  irq ← gic_irq d; base ← gic_get_cpu_base; zoom (writel irq (u64 (base + GIC_CPU_EOI))).
(** [drivers/irqchip/gicv2.c:69-72] gicv2_mask_irq *)
Definition gicv2_mask_irq (d : Z) : K unit := gic_set_irq d GIC_DIST_ENABLE_CLEAR.
(** [drivers/irqchip/gicv2.c:74-77] gicv2_unmask_irq *)
Definition gicv2_unmask_irq (d : Z) : K unit := gic_set_irq d GIC_DIST_ENABLE_SET.

(** [drivers/irqchip/gicv2.c:79-84] gicv2_chip *)
Definition gicv2_chip : irq_chip A C :=
  IrqChip (Some "arm gicv2") None None None (Some gicv2_mask_irq) (Some gicv2_unmask_irq) (Some gicv2_eoi_irq).

(** [drivers/irqchip/gicv2.c:86-94] gicv2_irq_map *)
Definition gicv2_irq_map (d virq hwirq : Z) : K Z :=
  when (16 <=? hwirq) (
    dom ← zoom (domain_at d);
    zoom (irq_domain_set_hwirq_chip d virq hwirq "gicv2_chip" (host_data dom)) ;; skip) ;;
  mret 0.

(** [drivers/irqchip/gicv2.c:96-98] gicv2_irq_domain_ops *)
Definition gicv2_irq_domain_ops : irq_domain_ops A C := IrqDomainOps (Some gicv2_irq_map) None.

(** [drivers/irqchip/gicv2.c:100-133] gic_dist_init *)
Definition gic_dist_init (g : gic_chip_data) : K unit :=
  let base := gic_dist_base g in
  let gic_irqs := gic_irqs g in
  zoom (writel GICD_DISABLE (u64 (base + GIC_DIST_CTRL))) ;;
  cpumask ← gic_get_cpumask g;
  let cpumask := Z.lor cpumask (u32 (Z.shiftl cpumask 8)) in
  let cpumask := Z.lor cpumask (u32 (Z.shiftl cpumask 16)) in
  for_up 32 gic_irqs 4 (λ i, zoom (writel cpumask (u64 (base + GIC_DIST_TARGET + i * 4 / 4)))) ;;
  for_up 32 gic_irqs 16 (λ i, zoom (writel GICD_INT_ACTLOW_LVLTRIG (u64 (base + GIC_DIST_CONFIG + i / 4)))) ;;
  for_up 0 gic_irqs 32 (λ i,
    zoom (writel GICD_INT_EN_CLR_X32 (u64 (base + GIC_DIST_ACTIVE_CLEAR + i / 8))) ;;
    zoom (writel GICD_INT_EN_CLR_X32 (u64 (base + GIC_DIST_ENABLE_CLEAR + i / 8)))) ;;
  zoom (writel GICD_INT_EN_SET_SGI (u64 (base + GIC_DIST_ENABLE_SET))) ;;
  zoom (writel GICD_ENABLE (u64 (base + GIC_DIST_CTRL))).

(** [drivers/irqchip/gicv2.c:135-155] gic_handle_irq *)
Definition gic_handle_irq (code : IrqCode A C) : K unit :=
  g ← gic_at 0;
  let base := gic_cpu_base g in
  irqstat ← zoom (readl P (u64 (base + GIC_CPU_INTACK)));
  let irqnr := Z.land irqstat GICC_IAR_INT_ID_MASK in
  when ((15 <? irqnr) && (irqnr <? 1021)) (handle_domain_irq code (gic_domain g) irqnr ;; skip).

(** [drivers/irqchip/gicv2.c:157-169] gic_cpu_init *)
Definition gic_cpu_init (g : gic_chip_data) : K unit :=
  let base := gic_cpu_base g in
  let dist_base := gic_dist_base g in
  for_up 0 32 4 (λ i, zoom (writel 0xA0A0A0A0 (u64 (dist_base + GIC_DIST_PRI + i * 4 / 4)))) ;;
  zoom (writel GICC_INT_PRI_THRESHOLD (u64 (base + GIC_CPU_PRIMASK))) ;;
  zoom (writel GICC_ENABLE (u64 (base + GIC_CPU_CTRL))).

(** [drivers/irqchip/gicv2.c:171-205] gic_init *)
Definition gic_init (code : IrqCode A C) (chip dist_base cpu_base : Z) : K Z :=
  set_gic chip (λ g, GicChipData dist_base cpu_base (gic_domain g) (Some "gicv2_chip") (gic_irqs g)) ;;
  g ← gic_at chip;
  ctr ← zoom (readl P (u64 (gic_dist_base g + GIC_DIST_CTR)));
  let n := (Z.land ctr 0x1F + 1) * 32 in
  let n := if 1020 <? n then 1020 else n in
  set_gic chip (λ g, GicChipData (raw_dist_base g) (raw_cpu_base g) (gic_domain g) (gic_chip g) n) ;;
  let count := n - HW_IRQ_START in
  virq_base ← zoom (irq_alloc_descs HW_IRQ_START count);
  domain ← irq_domain_add get_free_page code virq_base HW_IRQ_START count "gicv2_irq_domain_ops" chip;
  set_gic chip (λ g, GicChipData (raw_dist_base g) (raw_cpu_base g) domain (gic_chip g) (gic_irqs g)) ;;
  if domain =? 0 then mret (-1) else
  g ← gic_at chip;
  kprint ("%s: cpu_base:0x%x, dist_base:0x%x, gic_irqs:%d" +++ nl)
    [KStr (Some (chars "gic_init")); KInt cpu_base; KInt dist_base; KInt (gic_irqs g)] ;;
  gic_dist_init g ;;
  gic_cpu_init g ;;
  when (chip =? 0) (zoom (set_handle_irq "gic_handle_irq")) ;;
  mret 0.

(** [arch/arm64/mach-rpi/mach/base.h:18-18] ARM_LOCAL_BASE *)
Definition ARM_LOCAL_BASE : Z := 0xff800000.
(** [arch/arm64/mach-rpi/mach/base.h:29-29] GIC_V2_DISTRIBUTOR_BASE *)
Definition GIC_V2_DISTRIBUTOR_BASE : Z := ARM_LOCAL_BASE + 0x00041000.
(** [arch/arm64/mach-rpi/mach/base.h:30-30] GIC_V2_CPU_INTERFACE_BASE *)
Definition GIC_V2_CPU_INTERFACE_BASE : Z := ARM_LOCAL_BASE + 0x00042000.

(** [arch/arm64/kernel/arm64_irq.c:9-15] arch_irq_init *)
Definition arch_irq_init (code : IrqCode A C) : K unit :=
  gic_init code 0 GIC_V2_DISTRIBUTOR_BASE GIC_V2_CPU_INTERFACE_BASE ;; skip.
End gic.

(** ** Device programs

    [emits k ws]: the computation [k] only writes device registers, the [ws] in
    this order, and reads none. *)

Definition emits {A C X} (k : M (machine A C) X) (a : X) (ws : list (Z * Z)) : Prop :=
  ∀ m, ∃ tr, k m = Ret a (lput (T:=trace) tr m) ∧ all_writes tr = all_writes (hw m) ++ ws ∧
    all_reads tr = all_reads (hw m).

(** *** The routing word

    A target register has a byte of processors for each of four interrupts.  The kernel
    reads those of the first 32, of which there is one per processor, to learn which
    processor it runs on. *)

(** The processors in any of the four bytes. *)
Definition byte_or (v : Z) : Z :=
  Z.lor (Z.lor (v mod 256) (v / 2 ^ 8 mod 256)) (Z.lor (v / 2 ^ 16 mod 256) (v / 2 ^ 24 mod 256)).

Lemma byte_or_bit v j : 0 ≤ j → Z.testbit (byte_or v) j =
  (j <? 8) && (Z.testbit v j || Z.testbit v (j + 8) || Z.testbit v (j + 16) || Z.testbit v (j + 24)).
Proof.
  intros Hj. unfold byte_or. change 256 with (2 ^ 8). rewrite !Z.lor_spec, !Z.testbit_mod_pow2, !Z.div_pow2_bits by lia.
  destruct (j <? 8); [|done]. cbn [andb]. by rewrite !orb_assoc.
Qed.
Lemma byte_or_range v : 0 ≤ byte_or v < 256.
Proof.
  assert (byte_or v = byte_or v mod 2 ^ 8) as ->; [|by apply Z.mod_pos_bound].
  apply Z.bits_inj'. intros j Hj. rewrite Z.testbit_mod_pow2, byte_or_bit by done. by destruct (j <? 8).
Qed.
Lemma spread_byte o : 0 ≤ o < 256 → o * 0x01010101 = Z.lor (Z.lor o (Z.shiftl o 8)) (Z.shiftl (Z.lor o (Z.shiftl o 8)) 16).
Proof.
  intros Ho. assert (forallb (λ n, let o := Z.of_nat n in o * 0x01010101 =? Z.lor (Z.lor o (Z.shiftl o 8)) (Z.shiftl (Z.lor o (Z.shiftl o 8)) 16)) (seq 0 256) = true) as H by (by vm_compute).
  rewrite forallb_forall in H. specialize (H (Z.to_nat o)). rewrite Z2Nat.id in H by lia. apply Z.eqb_eq, H, in_seq. lia.
Qed.

(** Bits of shifted words, by the lemmas in the context on the bits of their parts. *)
Ltac word_bits :=
  repeat match goal with
  | |- context [?a <=? ?b] => first [rewrite (proj2 (Z.leb_le a b)) by lia | rewrite (proj2 (Z.leb_gt a b)) by lia]
  | |- context [?a <? ?b] => first [rewrite (proj2 (Z.ltb_lt a b)) by lia | rewrite (proj2 (Z.ltb_ge a b)) by lia]
  | _ => progress cbn [andb orb]
  | _ => progress rewrite ?orb_false_r
  | H : ∀ k, 0 ≤ k < 32 → Z.testbit _ k = _ |- _ => rewrite H by lia
  | H : ∀ k, 0 ≤ k → Z.testbit _ k = _ |- _ => rewrite H by lia
  | _ => rewrite byte_or_bit by lia
  | _ => progress rewrite ?Z.lor_spec
  | H : ∀ a j k, 0 ≤ j → 0 ≤ k → _ |- _ => rewrite H by lia
  end.
(** The bits of [v] at [r] plus a multiple of 8; those from 32 on are zero. *)
Ltac word_args v r Hhi :=
  repeat match goal with
  | |- context [Z.testbit v ?e] =>
      lazymatch e with r => fail | r + 8 => fail | r + 16 => fail | r + 24 => fail | _ => idtac end;
      first [rewrite (Hhi e) by lia | replace e with r by lia | replace e with (r + 8) by lia
            | replace e with (r + 16) by lia | replace e with (r + 24) by lia]
  end.

(** gic_get_cpumask's and gic_dist_init's shifts: the processors in all four bytes. *)
Lemma route_word v :
  0 ≤ v < 2 ^ 32 →
  let m := Z.lor v (Z.shiftr v 16) in let m := Z.lor m (Z.shiftr m 8) in
  let c := Z.lor m (u32 (Z.shiftl m 8)) in
  (m = 0 ↔ v = 0) ∧ u32 (Z.lor c (u32 (Z.shiftl c 16))) = byte_or v * 0x01010101.
Proof.
  intros Hv m0 m c.
  assert (∀ k, 32 ≤ k → Z.testbit v k = false) as Hhi.
  { intros k Hk. rewrite <-(Z.mod_small v (2 ^ 32)) by done. by apply Z.mod_pow2_bits_high; lia. }
  split.
  - subst m m0. rewrite !Z.lor_eq_0_iff. split; [tauto|]. by intros ->.
  - rewrite (spread_byte _ (byte_or_range v)). apply Z.bits_inj'. intros n Hn. unfold u32.
    rewrite !Z.testbit_mod_pow2 by lia. destruct (Z.ltb_spec n 32) as [Hlt|Hge]; cycle 1.
    + cbn [andb]. rewrite !Z.lor_spec, !Z.shiftl_spec, !Z.lor_spec, !Z.shiftl_spec by lia.
      by word_bits.
    + cbn [andb].
      assert (∀ a j k, 0 ≤ j → 0 ≤ k → Z.testbit (Z.shiftl a j) k = (j <=? k) && Z.testbit a (k - j)) as Hsh.
      { intros a j k Hj Hk. rewrite Z.shiftl_spec by done. destruct (Z.leb_spec j k); [done|]. by rewrite Z.testbit_neg_r by lia. }
      assert (∀ k, 0 ≤ k → Z.testbit m k = Z.testbit v k || Z.testbit v (k + 8) || Z.testbit v (k + 16) || Z.testbit v (k + 24)) as Hm.
      { intros k Hk. unfold m, m0. rewrite !Z.lor_spec, !Z.shiftr_spec, !Z.lor_spec, !Z.shiftr_spec by lia.
        replace (k + 8 + 16) with (k + 24) by lia. by destruct (Z.testbit v k), (Z.testbit v (k + 8)), (Z.testbit v (k + 16)), (Z.testbit v (k + 24)). }
      assert (∀ k, 0 ≤ k < 32 → Z.testbit c k = Z.testbit m k || (8 <=? k) && Z.testbit m (k - 8)) as Hc.
      { intros k Hk. unfold c, u32. rewrite Z.lor_spec, Z.testbit_mod_pow2, Hsh by lia. by rewrite (proj2 (Z.ltb_lt k 32)) by lia. }
      rewrite !Z.lor_spec, Z.testbit_mod_pow2, !Hsh, !Z.lor_spec, (proj2 (Z.ltb_lt n 32)) by lia. cbn [andb].
      set (r := n mod 8). assert (0 ≤ r < 8) as Hr by by apply Z.mod_pos_bound.
      assert (n = r ∨ n = r + 8 ∨ n = r + 16 ∨ n = r + 24) as Hn4 by (unfold r; Z.to_euclidean_division_equations; lia).
      clearbody r. destruct Hn4 as [->|[->|[->| ->]]]; word_bits; word_args v r Hhi;
        destruct (Z.testbit v r), (Z.testbit v (r + 8)), (Z.testbit v (r + 16)), (Z.testbit v (r + 24)); done.
Qed.

(** [rs] are the reads of the target registers from the [k]-th on up to the first that is
    not zero, if any, and [mask] routes an interrupt to the processors found there. *)
Definition target_zeros (base : Z) (k n : nat) : list (Z * Z) :=
  map (λ i, (u64 (base + GIC_DIST_TARGET + 4 * Z.of_nat i), 0)) (seq k n).
Definition routed (base : Z) (rs : list (Z * Z)) (mask : Z) : Prop :=
  (∃ k v, (k < 8)%nat ∧ 0 < v < 2 ^ 32 ∧
     rs = target_zeros base 0 k ++ [(u64 (base + GIC_DIST_TARGET + 4 * Z.of_nat k), v)] ∧ mask = byte_or v * 0x01010101) ∨
  rs = target_zeros base 0 8 ∧ mask = 0.

(** The values of [i] in [for (i = from; i < to; i += step)]. *)
Fixpoint up_to (fuel : nat) (i to step : Z) : list Z :=
  match fuel with
  | O => []
  | S fuel => if i <? to then i :: up_to fuel (i + step) to step else []
  end.
Definition up (from to step : Z) : list Z := up_to (S (Z.to_nat (to - from))) from to step.

Section emits.
Context {A C : Type}.
Implicit Types (m : machine A C).

Lemma emits_bind {X Y} (k : M (machine A C) X) (h : X → M (machine A C) Y) a b ws1 ws2 :
  emits k a ws1 → emits (h a) b ws2 → emits (k ≫= h) b (ws1 ++ ws2).
Proof.
  intros H1 H2 m. destruct (H1 m) as (tr1 & E1 & W1 & R1). destruct (H2 (lput tr1 m)) as (tr2 & E2 & W2 & R2).
  exists tr2. rewrite (bind_eq _ _ _ _ _ E1), E2, lput_lput. split; [done|].
  change (hw (lput tr1 m)) with tr1 in *. by rewrite W2, W1, app_assoc, R2.
Qed.

Lemma emits_seq {X Y} (k : M (machine A C) X) (h : M (machine A C) Y) a b ws1 ws2 :
  emits k a ws1 → emits h b ws2 → emits (k ;; h) b (ws1 ++ ws2).
Proof. intros H1 H2. by apply (emits_bind k (λ _, h) a). Qed.

Lemma emits_mret {X} (a : X) : emits (mret a : M (machine A C) X) a [].
Proof. intros m. exists (hw m). split; [by destruct m|by rewrite app_nil_r]. Qed.

Lemma emits_writel v a : emits (zoom (writel v a) : M (machine A C) unit) tt [(a, u32 v)].
Proof. intros m. by eexists. Qed.

Lemma emits_for_up from to step body ws :
  0 < step → (∀ i, from ≤ i < to → emits (body i : M (machine A C) unit) tt (ws i)) →
  emits (for_up from to step body) tt (up from to step ≫= ws).
Proof.
  intros Hs Hb. unfold for_up, up.
  assert (∀ n i, from ≤ i → (0 < n)%nat → to - i < Z.of_nat n →
    emits (loop n (λ i, if i <? to then body i ;; mret (inl (i + step)) else mret (inr tt)) i) tt
      (up_to n i to step ≫= ws)) as Hloop; [|apply Hloop; lia].
  induction n as [|n IH]; intros i Hi H0 Hn m; [lia|]. cbn [up_to].
  destruct (Z.ltb_spec i to) as [Hlt|Hge].
  - destruct (Hb i ltac:(lia) m) as (tr1 & E1 & W1 & R1).
    destruct (IH (i + step) ltac:(lia) ltac:(lia) ltac:(lia) (lput tr1 m)) as (tr2 & E2 & W2 & R2).
    exists tr2. split.
    + rewrite (loop_more n _ i (i + step) m (lput tr1 m)); [by rewrite E2, lput_lput|].
      destruct (Z.ltb_spec i to); [|lia]. by rewrite (bind_eq _ _ _ _ _ E1).
    + change (hw (lput tr1 m)) with tr1 in *. rewrite W2, W1, R2. cbn. by rewrite <-app_assoc.
  - exists (hw m). split; [|cbn; by rewrite app_nil_r].
    apply loop_done. destruct (Z.ltb_spec i to); [lia|]. by destruct m.
Qed.

(** What gic_get_cpumask makes of a target register. *)
Definition cpumask_of (v : Z) : Z := let m := Z.lor v (Z.shiftr v 16) in Z.lor m (Z.shiftr m 8).

Lemma gic_get_cpumask_loop (P : platform) base n : ∀ k mask m, (8 - k < n)%nat → (k ≤ 8)%nat → (k = 8%nat → mask = 0) →
  ∃ mask' tr rs,
    loop n (λ '(i, mask),
      if i <? 32 then
        mask ← zoom (readl P (u64 (base + GIC_DIST_TARGET + i)));
        let mask := Z.lor mask (Z.shiftr mask 16) in
        let mask := Z.lor mask (Z.shiftr mask 8) in
        if negb (mask =? 0) then mret (inr mask) else mret (inl (i + 4, mask))
      else mret (inr mask)) (4 * Z.of_nat k, mask) m = Ret mask' (lput (T:=trace) tr m) ∧
    all_writes tr = all_writes (hw m) ∧ all_reads tr = all_reads (hw m) ++ rs ∧
    ((∃ j v, (k + j < 8)%nat ∧ 0 < v < 2 ^ 32 ∧
        rs = target_zeros base k j ++ [(u64 (base + GIC_DIST_TARGET + 4 * Z.of_nat (k + j)), v)] ∧ mask' = cpumask_of v) ∨
     rs = target_zeros base k (8 - k) ∧ mask' = 0).
Proof.
  induction n as [|n IH]; intros k mask m Hn Hk Hmask; [lia|].
  destruct (decide (k = 8%nat)) as [->|Hk8].
  { exists mask, (hw m), []. rewrite Hmask, app_nil_r by done.
    split; [by apply loop_done; destruct m|]. split; [done|]. split; [done|by right]. }
  set (a := u64 (base + GIC_DIST_TARGET + 4 * Z.of_nat k)). set (v := u32 (dev_read P (hw m) a)).
  assert (0 ≤ v < 2 ^ 32) as Hv by apply u32_range. destruct (route_word v Hv) as [Hzero _].
  change (Z.lor (Z.lor v (Z.shiftr v 16)) (Z.shiftr (Z.lor v (Z.shiftr v 16)) 8)) with (cpumask_of v) in Hzero.
  assert ((4 * Z.of_nat k <? 32) = true) as Hlt by (apply Z.ltb_lt; lia).
  destruct (Z.eqb_spec (cpumask_of v) 0) as [Hz|Hz].
  - destruct (IH (S k) (cpumask_of v) (lput (Readl a v :: hw m) m)) as (mask' & tr & rs & E & W & R & H); [lia|lia|done|].
    exists mask', tr, ((a, v) :: rs). split; [|split; [by rewrite W|split]].
    + rewrite (loop_more n _ _ (4 * Z.of_nat (S k), cpumask_of v) m (lput (Readl a v :: hw m) m)); [by rewrite E, lput_lput|].
      rewrite Hlt. unfold zoom, readl, mbind, M_bind; cbn [lget lens_hw]. fold a v.
      change (Z.lor (Z.lor v (Z.shiftr v 16)) (Z.shiftr (Z.lor v (Z.shiftr v 16)) 8)) with (cpumask_of v).
      rewrite Hz. cbn [negb Z.eqb]. by replace (4 * Z.of_nat (S k)) with (4 * Z.of_nat k + 4) by lia.
    + rewrite R. cbn. by rewrite <-app_assoc.
    + apply Hzero in Hz as Hv0. rewrite Hv0. destruct H as [(j & v' & Hj & Hv' & -> & ->)|[-> ->]].
      * left. exists (S j), v'. split; [lia|]. split; [done|]. split; [|done]. cbn. by replace (k + S j)%nat with (S k + j)%nat by lia.
      * right. split; [|done]. by replace (8 - k)%nat with (S (8 - S k)) by lia.
  - exists (cpumask_of v), (Readl a v :: hw m), [(a, v)].
    split; [|split; [done|split; [done|left; exists 0%nat, v]]].
    + apply loop_done. rewrite Hlt. unfold zoom, readl, mbind, M_bind; cbn [lget lens_hw]. fold a v.
      change (Z.lor (Z.lor v (Z.shiftr v 16)) (Z.shiftr (Z.lor v (Z.shiftr v 16)) 8)) with (cpumask_of v).
      by destruct (Z.eqb_spec (cpumask_of v) 0).
    + assert (v ≠ 0) by tauto. rewrite Nat.add_0_r. split; [lia|]. split; [lia|done].
Qed.

Lemma gic_get_cpumask_emits (P : platform) g : ∀ m, ∃ mask tr rs,
  gic_get_cpumask P g m = Ret mask (lput (T:=trace) tr m) ∧ all_writes tr = all_writes (hw m) ∧
  all_reads tr = all_reads (hw m) ++ rs ∧
  routed (gic_dist_base g) rs (let c := Z.lor mask (u32 (Z.shiftl mask 8)) in u32 (Z.lor c (u32 (Z.shiftl c 16)))).
Proof.
  intros m. destruct (gic_get_cpumask_loop P (gic_dist_base g) 9 0 0 m) as (mask & tr & rs & E & W & R & H); [lia|lia|done|].
  exists mask, tr, rs. split; [exact E|]. split; [done|]. split; [done|].
  destruct H as [(j & v & Hj & Hv & -> & ->)|[-> ->]]; [left|by right].
  exists j, v. split; [done|]. split; [done|]. split; [done|]. exact (proj2 (route_word v ltac:(lia))).
Qed.

(** The writes of gic_dist_init and gic_cpu_init, in order. *)
Definition dist_writes (base n mask : Z) : list (Z * Z) :=
  [(u64 (base + GIC_DIST_CTRL), 0)] ++
  (i ← up 32 n 4; [(u64 (base + GIC_DIST_TARGET + i), mask)]) ++
  (i ← up 32 n 16; [(u64 (base + GIC_DIST_CONFIG + i / 4), 0)]) ++
  (i ← up 0 n 32; [(u64 (base + GIC_DIST_ACTIVE_CLEAR + i / 8), 0xffffffff);
                   (u64 (base + GIC_DIST_ENABLE_CLEAR + i / 8), 0xffffffff)]) ++
  [(u64 (base + GIC_DIST_ENABLE_SET), 0xffff); (u64 (base + GIC_DIST_CTRL), 1)].
Definition cpu_writes (base cpu : Z) : list (Z * Z) :=
  (i ← up 0 32 4; [(u64 (base + GIC_DIST_PRI + i), 0xA0A0A0A0)]) ++
  [(u64 (cpu + GIC_CPU_PRIMASK), 0xf0); (u64 (cpu + GIC_CPU_CTRL), 1)].

Lemma gic_dist_init_emits (P : platform) g m : ∃ mask tr rs,
  gic_dist_init P g m = Ret tt (lput (T:=trace) tr m) ∧
  all_writes tr = all_writes (hw m) ++ dist_writes (gic_dist_base g) (gic_irqs g) mask ∧
  all_reads tr = all_reads (hw m) ++ rs ∧ routed (gic_dist_base g) rs mask.
Proof.
  unfold gic_dist_init. destruct (emits_writel GICD_DISABLE (u64 (gic_dist_base g + GIC_DIST_CTRL)) m) as (tr1 & E1 & W1 & R1).
  rewrite (bind_eq _ _ _ _ _ E1).
  destruct (gic_get_cpumask_emits P g (lput tr1 m)) as (mask & tr2 & rs & E2 & W2 & R2 & Hr).
  rewrite (bind_eq _ _ _ _ _ E2), lput_lput. change (hw (lput tr1 m)) with tr1 in *.
  set (mask1 := Z.lor mask (u32 (Z.shiftl mask 8))) in *. exists (u32 (Z.lor mask1 (u32 (Z.shiftl mask1 16)))).
  cbv zeta in *. fold mask1. set (mask2 := Z.lor mask1 _) in *.
  assert (emits (for_up (A:=A) (C:=C) 32 (gic_irqs g) 4 (λ i, zoom (writel mask2 (u64 (gic_dist_base g + GIC_DIST_TARGET + i * 4 / 4))))) tt
    (i ← up 32 (gic_irqs g) 4; [(u64 (gic_dist_base g + GIC_DIST_TARGET + i), u32 mask2)])) as L1.
  { apply emits_for_up; [lia|]. intros i _. rewrite Z.div_mul by lia. apply emits_writel. }
  assert (emits (for_up (A:=A) (C:=C) 32 (gic_irqs g) 16 (λ i, zoom (writel GICD_INT_ACTLOW_LVLTRIG (u64 (gic_dist_base g + GIC_DIST_CONFIG + i / 4))))) tt
    (i ← up 32 (gic_irqs g) 16; [(u64 (gic_dist_base g + GIC_DIST_CONFIG + i / 4), 0)])) as L2.
  { apply emits_for_up; [lia|]. intros i _. apply emits_writel. }
  assert (emits (for_up (A:=A) (C:=C) 0 (gic_irqs g) 32 (λ i,
      zoom (writel GICD_INT_EN_CLR_X32 (u64 (gic_dist_base g + GIC_DIST_ACTIVE_CLEAR + i / 8))) ;;
      zoom (writel GICD_INT_EN_CLR_X32 (u64 (gic_dist_base g + GIC_DIST_ENABLE_CLEAR + i / 8))))) tt
    (i ← up 0 (gic_irqs g) 32; [(u64 (gic_dist_base g + GIC_DIST_ACTIVE_CLEAR + i / 8), 0xffffffff);
                   (u64 (gic_dist_base g + GIC_DIST_ENABLE_CLEAR + i / 8), 0xffffffff)])) as L3.
  { apply emits_for_up; [lia|]. intros i _. apply (emits_seq _ _ tt tt [_] [_]); apply emits_writel. }
  pose proof (emits_writel GICD_INT_EN_SET_SGI (u64 (gic_dist_base g + GIC_DIST_ENABLE_SET))) as L4.
  pose proof (emits_writel GICD_ENABLE (u64 (gic_dist_base g + GIC_DIST_CTRL))) as L5.
  destruct (emits_seq _ _ _ _ _ _ L1 (emits_seq _ _ _ _ _ _ L2 (emits_seq _ _ _ _ _ _ L3
    (emits_seq _ _ _ _ _ _ L4 L5))) (lput tr2 m)) as (tr3 & E3 & W3 & R3).
  exists tr3, rs. split; [by rewrite E3, lput_lput|]. change (hw (lput tr2 m)) with tr2 in *. rewrite W3, W2, W1.
  split; [unfold dist_writes; by rewrite <-app_assoc|]. split; [by rewrite R3, R2, R1|done].
Qed.

Lemma gic_cpu_init_emits g : emits (A:=A) (C:=C) (gic_cpu_init g) tt (cpu_writes (gic_dist_base g) (gic_cpu_base g)).
Proof.
  unfold gic_cpu_init, cpu_writes.
  apply (emits_seq _ _ tt tt); [|apply (emits_seq _ _ tt tt [_] [_]); apply emits_writel].
  apply emits_for_up; [lia|]. intros i _. rewrite Z.div_mul by lia. apply emits_writel.
Qed.
End emits.

(** ** Descriptors of the controller's interrupts *)

(** The kernel's code has the controller's chip and domain operations. *)
Class GicCode {A C : Type} (code : IrqCode A C) : Prop := {
  gc_chip : chip_at "gicv2_chip" = gicv2_chip;
  gc_ops : ops_at "gicv2_irq_domain_ops" = gicv2_irq_domain_ops;
}.

(** What gic_init makes of the descriptor of interrupt [i] before it counts the
    reference, and after. *)
Definition gic_mapped (dom : Z) (i : nat) (d : irq_desc) : irq_desc :=
  with_chip (Z.of_nat i) (Some "gicv2_chip") 0 (with_domain (Z.of_nat i) dom d).
Definition gic_desc (dom : Z) (i : nat) (d : irq_desc) : irq_desc :=
  gic_mapped dom i (with_refcount (u32 (refcount d + 1)) d).

Section descs.
Context {A C : Type} `{Hcon : !Console C} `{Hsym : !SchedSymbols}.
Context {get_free_page : M A Z} `{!PageAllocator A get_free_page}.
Context (code : IrqCode A C) `{!GicCode code}.
Implicit Types (m : machine A C).

Lemma zoom_irqs {X} (k : M irq_state X) m a s' :
  k (irqs m) = Ret a s' → zoom k m = Ret a (lput s' m).
Proof. exact (zoom_eq (S:=machine A C) (T:=irq_state) k m a s'). Qed.

Lemma gic_map_irq m dom k n mx :
  irq_ok (irqs m) → 16 ≤ k < NR_IRQS →
  domains (irqs m) !! dom = Some (IrqDomain n (Some "gicv2_irq_domain_ops") mx 0) →
  irq_domain_map_irq code dom k k m
  = Ret 0 (lput (with_descs (alter (gic_mapped dom (Z.to_nat k)) (Z.to_nat k)) (irqs m)) m).
Proof.
  intros Hok Hk Hdom. unfold irq_domain_map_irq. rewrite irq_to_desc_in by lia.
  assert (is_Some (irq_descs (irqs m) !! Z.to_nat k)) as Hd by (apply irq_lookup; [done|lia]).
  rewrite (bind_eq _ _ _ _ _ (zoom_irqs _ m _ _ (set_desc_eq _ k _ Hd))).
  set (s1 := with_descs _ _). set (m1 := lput s1 m).
  assert (zoom (domain_at dom) m1 = Ret (IrqDomain n (Some "gicv2_irq_domain_ops") mx 0) m1) as E1
    by (unfold zoom, domain_at; cbn; by rewrite Hdom).
  rewrite (bind_eq _ _ _ _ _ E1). cbn [of_option dom_ops]. rewrite bind_mret, gc_ops.
  unfold gicv2_irq_domain_ops; cbn [ops_map]. unfold gicv2_irq_map.
  destruct (Z.leb_spec 16 k); [|lia]. cbn [when].
  assert (is_Some (irq_descs s1 !! Z.to_nat k)) as Hd1.
  { apply irq_lookup; [by apply irq_ok_alter|lia]. }
  assert (zoom (irq_domain_set_hwirq_chip dom k k "gicv2_chip" 0) m1
    = Ret 0 (lput (with_descs (alter (with_chip k (Some "gicv2_chip") 0) (Z.to_nat k)) s1) m1)) as E2.
  { unfold irq_domain_set_hwirq_chip. rewrite irq_to_desc_in by lia. apply zoom_irqs. cbn [irqs lput lens_irqs m1].
    by rewrite (bind_eq _ _ _ _ _ (set_desc_eq s1 k _ Hd1)). }
  unfold mbind, M_bind in *. rewrite E1. cbn [host_data]. rewrite E2. cbn.
  unfold mret, M_ret. f_equal. subst m1 s1. unfold with_descs; cbn. do 2 f_equal.
  rewrite list_alter_twice. unfold gic_mapped. by rewrite Z2Nat.id by lia.
Qed.

(** Adding the controller's domain maps all its interrupts. *)
Lemma gic_domain_add m count :
  irq_ok (irqs m) → 0 ≤ count → 16 + count ≤ NR_IRQS → pa_ok (palloc m) → (0 < pa_avail (palloc m))%nat →
  ∃ dom a', irq_domain_add get_free_page code 16 16 count "gicv2_irq_domain_ops" 0 m
    = Ret dom (lput (IrqState (alter_range (gic_mapped dom) 16 (Z.to_nat count) (irq_descs (irqs m)))
                       (arch_irq_handler (irqs m))
                       (<[dom := IrqDomain None (Some "gicv2_irq_domain_ops") (16 + count) 0]> (domains (irqs m))))
                (lput (T:=A) a' m)) ∧ page_ok dom ∧ pa_ok a' ∧ pa_avail a' = (pa_avail (palloc m) - 1)%nat.
Proof.
  intros Hok Hc Hn Hpa Hav. destruct (pa_alloc (palloc m) Hpa Hav) as (dom & a' & E & Ha1 & Hdom & _ & _ & Ha2).
  exists dom, a'. split; [|done]. unfold irq_domain_add.
  assert (zoom get_free_page m = Ret dom (lput (T:=A) a' m)) as E0 by (unfold zoom; cbn; by rewrite E).
  rewrite (bind_eq _ _ _ _ _ E0). destruct (Z.eqb_spec dom 0) as [->|_]; [destruct Hdom; page_lia|].
  unfold NR_IRQS in *. rewrite (u32_id (16 + count)) by lia.
  set (D := IrqDomain None (Some "gicv2_irq_domain_ops") (16 + count) 0).
  set (st := λ l, lput (IrqState l (arch_irq_handler (irqs m)) (<[dom := D]> (domains (irqs m)))) (lput (T:=A) a' m)).
  unfold mbind, M_bind, set_domain, modify, zoom; cbn. rewrite insert_insert_eq.
  match goal with |- context [for_range _ _ _ ?s] => change s with (st (irq_descs (irqs m))) end.
  rewrite (for_range_descs _ st (gic_mapped dom) 16 (Z.to_nat count)); [done|lia|].
  intros k l' Hk Hl. rewrite u32_id by lia.
  rewrite (gic_map_irq (st l') dom (16 + k) None (16 + count)).
  - done.
  - unfold irq_ok; cbn. by rewrite Hl.
  - unfold NR_IRQS; lia.
  - cbn. by rewrite lookup_insert_eq.
Qed.

(** gic_init up to the allocation of the descriptors. *)
Definition gic_probed (m : machine A C) (g : gic_chip_data) (dist cpu n v : Z) : machine A C :=
  lput (T:=trace) (Readl (u64 (dist + GIC_DIST_CTR)) v :: hw m)
    (set_gic_data [GicChipData dist cpu (gic_domain g) (Some "gicv2_chip") n] m).

Definition gic_init_rest (chip dist cpu n : Z) (P : platform) : M (machine A C) Z :=
  virq_base ← zoom (irq_alloc_descs HW_IRQ_START (n - HW_IRQ_START));
  domain ← irq_domain_add get_free_page code virq_base HW_IRQ_START (n - HW_IRQ_START) "gicv2_irq_domain_ops" chip;
  set_gic chip (λ g, GicChipData (raw_dist_base g) (raw_cpu_base g) domain (gic_chip g) (gic_irqs g)) ;;
  if domain =? 0 then mret (-1) else
  g ← gic_at chip;
  kprint ("%s: cpu_base:0x%x, dist_base:0x%x, gic_irqs:%d" +++ nl)
    [KStr (Some (chars "gic_init")); KInt cpu; KInt dist; KInt (gic_irqs g)] ;;
  gic_dist_init P g ;;
  gic_cpu_init g ;;
  when (chip =? 0) (zoom (set_handle_irq "gic_handle_irq")) ;;
  mret 0.

Definition gic_lines (P : platform) (m : machine A C) (dist : Z) : Z :=
  (u32 (dev_read P (hw m) (u64 (dist + GIC_DIST_CTR))) mod 32 + 1) * 32.

Lemma set_gic_eq m g f : gic_data m = [g] → set_gic 0 f m = Ret tt (set_gic_data [f g] m).
Proof. intros Hg. unfold set_gic. by rewrite Hg. Qed.
Lemma gic_at_eq m g : gic_data m = [g] → gic_at 0 m = Ret g m.
Proof. intros Hg. unfold gic_at. by rewrite Hg. Qed.

Lemma gic_init_probe P m g dist cpu :
  gic_data m = [g] →
  gic_init P get_free_page code 0 dist cpu m
  = gic_init_rest 0 dist cpu (Z.min 1020 (gic_lines P m dist)) P
      (gic_probed m g dist cpu (Z.min 1020 (gic_lines P m dist)) (u32 (dev_read P (hw m) (u64 (dist + GIC_DIST_CTR))))).
Proof.
  intros Hg. unfold gic_init. rewrite (bind_eq _ _ _ _ _ (set_gic_eq m g _ Hg)).
  set (m1 := set_gic_data _ m). rewrite (bind_eq _ _ _ _ _ (gic_at_eq m1 _ eq_refl)).
  cbn [gic_dist_base raw_dist_base]. set (v := u32 _).
  assert (zoom (readl P (u64 (dist + GIC_DIST_CTR))) m1 = Ret v (lput (Readl (u64 (dist + GIC_DIST_CTR)) v :: hw m) m1))
    as E by done.
  rewrite (bind_eq _ _ _ _ _ E). set (m2 := lput _ m1). cbv zeta.
  change 0x1F with (2 ^ 5 - 1). rewrite land_low by lia. change (2 ^ 5) with 32.
  change ((v mod 32 + 1) * 32) with (gic_lines P m dist).
  replace (if 1020 <? gic_lines P m dist then 1020 else gic_lines P m dist) with (Z.min 1020 (gic_lines P m dist))
    by (destruct (Z.ltb_spec 1020 (gic_lines P m dist)); lia).
  by rewrite (bind_eq _ _ _ _ _ (set_gic_eq m2 _ _ eq_refl)).
Qed.

Lemma gic_lines_range P m dist : 32 ≤ gic_lines P m dist ≤ 1024.
Proof. unfold gic_lines. pose proof (Z.mod_pos_bound (u32 (dev_read P (hw m) (u64 (dist + GIC_DIST_CTR)))) 32). lia. Qed.

Lemma lookup_gic_descs dom n l i :
  alter_range (gic_mapped dom) 16 n (alter_range (λ _ d, with_refcount (u32 (refcount d + 1)) d) 16 n l) !! i
  = if decide (16 ≤ i < 16 + n)%nat then gic_desc dom i <$> l !! i else l !! i.
Proof. rewrite !lookup_alter_range. case_decide; [|done]. by destruct (l !! i). Qed.
(** One bit of one register of a bank. *)
Definition irq_write (base off irq : Z) : Z * Z := (base + off + irq / 32 * 4, 2 ^ (irq mod 32)).
Definition record_write (w : Z * Z) (m : machine A C) : machine A C :=
  lput (T:=trace) (Writel (u64 (fst w)) (snd w) :: hw m) m.

Lemma gic_irq_eq m d desc : irq_descs (irqs m) !! Z.to_nat d = Some desc → gic_irq d m = Ret (d_hwirq desc) m.
Proof.
  intros Hd. unfold gic_irq. rewrite (bind_eq _ _ _ _ _ (zoom_irqs _ m _ _ (desc_at_eq _ _ _ Hd))).
  by destruct m.
Qed.

Lemma gic_set_irq_eq m g d desc off :
  gic_data m = [g] → irq_descs (irqs m) !! Z.to_nat d = Some desc →
  gic_set_irq d off m = Ret tt (record_write (irq_write (raw_dist_base g) off (d_hwirq desc)) m).
Proof.
  intros Hg Hd. unfold gic_set_irq, gic_get_dist_base. rewrite (bind_eq _ _ _ _ _ (gic_irq_eq m d desc Hd)).
  unfold mbind, M_bind. rewrite (gic_at_eq m g Hg). cbn.
  unfold zoom, writel, record_write, irq_write; cbn. do 4 f_equal.
  pose proof (Z.mod_pos_bound (d_hwirq desc) 32 ltac:(lia)). rewrite Z.shiftl_mul_pow2, Z.mul_1_l by lia.
  assert (0 < 2 ^ (d_hwirq desc mod 32) < 2 ^ 32) as ?
    by (split; [apply Z.pow_pos_nonneg; lia|apply Z.pow_lt_mono_r; lia]).
  by rewrite !(u32_id (2 ^ (d_hwirq desc mod 32))) by lia.
Qed.

Lemma gicv2_eoi_irq_eq m g d desc :
  gic_data m = [g] → irq_descs (irqs m) !! Z.to_nat d = Some desc →
  gicv2_eoi_irq d m = Ret tt (record_write (raw_cpu_base g + GIC_CPU_EOI, u32 (d_hwirq desc)) m).
Proof.
  intros Hg Hd. unfold gicv2_eoi_irq, gic_get_cpu_base. rewrite (bind_eq _ _ _ _ _ (gic_irq_eq m d desc Hd)).
  unfold mbind, M_bind. by rewrite (gic_at_eq m g Hg).
Qed.

Lemma irq_write_inj base off off' i j :
  off = GIC_DIST_ENABLE_SET ∨ off = GIC_DIST_ENABLE_CLEAR →
  off' = GIC_DIST_ENABLE_SET ∨ off' = GIC_DIST_ENABLE_CLEAR →
  0 ≤ i < 1020 → 0 ≤ j < 1020 → irq_write base off i = irq_write base off' j → off = off' ∧ i = j.
Proof.
  unfold irq_write, GIC_DIST_ENABLE_SET, GIC_DIST_ENABLE_CLEAR. intros Ho Ho' Hi Hj [= Ha Hv].
  apply Z.pow_inj_r in Hv; [|lia|apply Z.mod_pos_bound; lia..].
  pose proof (Z.div_mod i 32 ltac:(lia)). pose proof (Z.div_mod j 32 ltac:(lia)).
  pose proof (Z.mod_pos_bound i 32 ltac:(lia)). pose proof (Z.mod_pos_bound j 32 ltac:(lia)). lia.
Qed.

Lemma desc_chip_eq m i d c :
  irq_descs (irqs m) !! Z.to_nat i = Some d → d_chip d = Some c → desc_chip code (Some i) m = Ret (chip_at c) m.
Proof.
  intros Hd Hc. unfold desc_chip. rewrite (bind_eq _ _ _ _ _ (zoom_irqs _ m _ _ (desc_at_eq _ _ _ Hd))).
  rewrite Hc. by destruct m.
Qed.

Lemma generic_handle_irq_none m n :
  irq_ok (irqs m) → 0 ≤ n →
  (∀ d, irq_descs (irqs m) !! Z.to_nat n = Some d → handler d = None) → generic_handle_irq code n m = Ret (-1) m.
Proof.
  intros Hok Hn Hd. unfold generic_handle_irq. destruct (decide (n < NR_IRQS)).
  - rewrite irq_to_desc_in by done. destruct (irq_lookup (irqs m) n Hok) as [d E]; [lia|].
    rewrite (bind_eq _ _ _ _ _ (zoom_irqs _ m _ _ (desc_at_eq _ _ _ E))). rewrite (Hd d E). by destruct m.
  - by rewrite irq_to_desc_out by lia.
Qed.

Lemma generic_handle_irq_eq m n d h r m2 d2 g2 :
  0 ≤ n < NR_IRQS → irq_descs (irqs m) !! Z.to_nat n = Some d → handler d = Some h →
  handler_at h n (param d) m = Ret r m2 →
  irq_descs (irqs m2) !! Z.to_nat n = Some d2 → d_chip d2 = Some "gicv2_chip" → gic_data m2 = [g2] →
  generic_handle_irq code n m = Ret r (record_write (raw_cpu_base g2 + GIC_CPU_EOI, u32 (d_hwirq d2)) m2).
Proof.
  intros Hn Hd Hh Hr Hd2 Hc Hg. unfold generic_handle_irq. unfold NR_IRQS in Hn.
  rewrite irq_to_desc_in by (unfold NR_IRQS; lia).
  rewrite (bind_eq _ _ _ _ _ (zoom_irqs _ m _ _ (desc_at_eq _ _ _ Hd))). rewrite Hh, s32_id by lia.
  replace (lput (irqs m) m) with m by (by destruct m).
  rewrite (bind_eq _ _ _ _ _ Hr), (bind_eq _ _ _ _ _ (desc_chip_eq m2 n d2 _ Hd2 Hc)), gc_chip.
  cbn [gicv2_chip chip_irq_eoi]. by rewrite (bind_eq _ _ _ _ _ (gicv2_eoi_irq_eq m2 g2 n d2 Hg Hd2)).
Qed.

(** The interrupt acknowledged by reading the processor interface. *)
Definition acked (P : platform) (m : machine A C) (g : gic_chip_data) : Z :=
  u32 (dev_read P (hw m) (u64 (raw_cpu_base g + GIC_CPU_INTACK))) mod 1024.
Definition ack (P : platform) (m : machine A C) (g : gic_chip_data) : machine A C :=
  let a := u64 (raw_cpu_base g + GIC_CPU_INTACK) in
  lput (T:=trace) (Readl a (u32 (dev_read P (hw m) a)) :: hw m) m.

Lemma gic_handle_irq_step P m g :
  gic_data m = [g] →
  gic_handle_irq P code m
  = when ((15 <? acked P m g) && (acked P m g <? 1021)) (generic_handle_irq code (acked P m g) ;; skip) (ack P m g).
Proof.
  intros Hg. unfold gic_handle_irq. rewrite (bind_eq _ _ _ _ _ (gic_at_eq m g Hg)). cbn [gic_cpu_base].
  assert (zoom (readl P (u64 (raw_cpu_base g + GIC_CPU_INTACK))) m
    = Ret (u32 (dev_read P (hw m) (u64 (raw_cpu_base g + GIC_CPU_INTACK)))) (ack P m g)) as E by done.
  rewrite (bind_eq _ _ _ _ _ E). cbv zeta. change GICC_IAR_INT_ID_MASK with (2 ^ 10 - 1).
  rewrite land_low by lia. change (u32 _ mod 2 ^ 10) with (acked P m g).
  destruct (_ && _); [|done]. cbn [when]. unfold handle_domain_irq, irq_find_mapping, mbind, M_bind.
  by destruct (generic_handle_irq code (acked P m g) (ack P m g)).
Qed.
End descs.

(** ** Properties *)

Section properties.
Context {A C : Type} `{Hcon : !Console C} `{Hsym : !SchedSymbols}.
Context {get_free_page : M A Z} `{!PageAllocator A get_free_page}.
Context (P : platform) (code : IrqCode A C) `{!GicCode code}.
Implicit Types (m : machine A C).

(** What a successful gic_init has done. *)
Record gic_initialised (m m' : machine A C) (dist cpu n dom mask : Z) : Prop := {
  gi_descs : ∀ i, irq_descs (irqs m') !! i
    = if decide (16 ≤ Z.of_nat i < n) then gic_desc dom i <$> irq_descs (irqs m) !! i
      else irq_descs (irqs m) !! i;
  gi_domains : domains (irqs m') = <[dom := IrqDomain None (Some "gicv2_irq_domain_ops") n 0]> (domains (irqs m));
  gi_handler : arch_irq_handler (irqs m') = Some (default "gic_handle_irq" (arch_irq_handler (irqs m)));
  gi_data : gic_data m' = [GicChipData dist cpu dom (Some "gicv2_chip") n];
  gi_writes : all_writes (hw m') = all_writes (hw m) ++ dist_writes dist n mask ++ cpu_writes dist cpu;
  gi_routed : ∃ ctr rs, all_reads (hw m') = all_reads (hw m) ++ (u64 (dist + GIC_DIST_CTR), ctr) :: rs ∧ routed dist rs mask;
  gi_palloc : pa_ok (palloc m') ∧ pa_avail (palloc m') = (pa_avail (palloc m) - 1)%nat;
  gi_schd : ∃ c, schd m' = set_console c (schd m);
}.

Lemma gic_init_ok m g dist cpu :
  irq_ok (irqs m) → gic_data m = [g] → pa_ok (palloc m) → (0 < pa_avail (palloc m))%nat →
  let n := gic_lines P m dist in
  n ≤ NR_IRQS →
  ∃ m' dom mask, gic_init P get_free_page code 0 dist cpu m = Ret 0 m' ∧ page_ok dom ∧
    gic_initialised m m' dist cpu n dom mask.
Proof.
  intros Hok Hg Hpa Hav n Hn. unfold NR_IRQS in *. pose proof (gic_lines_range P m dist) as Hl. fold n in Hl.
  rewrite (gic_init_probe code P m g dist cpu Hg). fold n. rewrite Z.min_r by lia.
  set (m1 := gic_probed m g dist cpu n _). unfold gic_init_rest.
  assert (irq_ok (irqs m1)) as Hok1 by done.
  assert (16 + (n - 16) ≤ NR_IRQS) as Hn1 by (unfold NR_IRQS; lia).
  rewrite (bind_eq _ _ _ _ _ (zoom_irqs _ m1 _ _ (irq_alloc_descs_eq _ 16 (n - 16) Hok1 ltac:(lia) ltac:(lia) Hn1))).
  set (s2 := with_descs _ _). set (m2 := lput s2 m1).
  assert (irq_ok (irqs m2)) as Hok2 by (unfold irq_ok; cbn; by rewrite length_alter_range).
  destruct (gic_domain_add code m2 (n - 16)) as (dom & a' & E & Hdom & Ha); [done|lia|done|done..|].
  rewrite (bind_eq _ _ _ _ _ E). set (m3 := lput _ (lput _ m2)).
  rewrite (bind_eq _ _ _ _ _ (set_gic_eq m3 _ _ eq_refl)). set (m4 := set_gic_data _ m3).
  destruct (Z.eqb_spec dom 0) as [->|_]; [destruct Hdom; page_lia|].
  rewrite (bind_eq _ _ _ _ _ (gic_at_eq m4 _ eq_refl)). cbn [gic_irqs raw_dist_base raw_cpu_base gic_chip].
  set (g' := GicChipData dist cpu dom (Some "gicv2_chip") n).
  unfold kprint, print at 1.
  set (msg := console_printk _ _). set (m5 := lput (T:=sched C) (set_console (msg (console (schd m4))) (schd m4)) m4).
  assert (zoom (T:=sched C) (modify (λ s, set_console (msg (console s)) s)) m4 = Ret tt m5) as E5 by done.
  rewrite (bind_eq _ _ _ _ _ E5).
  destruct (gic_dist_init_emits P g' m5) as (mask & tr6 & rs & E6 & W6 & R6 & Hr). rewrite (bind_eq _ _ _ _ _ E6).
  destruct (gic_cpu_init_emits g' (lput tr6 m5)) as (tr7 & E7 & W7 & R7). rewrite (bind_eq _ _ _ _ _ E7).
  set (m7 := lput tr7 _). change (0 =? 0) with true. cbn [when].
  exists (lput (T:=irq_state) (IrqState (irq_descs (irqs m7))
      (Some (default "gic_handle_irq" (arch_irq_handler (irqs m)))) (domains (irqs m7))) m7), dom, mask.
  split; [|split; [done|split; [| |done|done| | |exact Ha|by eexists]]].
  - rewrite (bind_eq _ _ _ tt _ (zoom_irqs _ m7 _ _ (set_handle_irq_eq "gic_handle_irq" (irqs m7)))). done.
  - intros i. cbn [irqs irq_descs lput lens_irqs]. change (irq_descs (irqs m7)) with
      (alter_range (gic_mapped dom) 16 (Z.to_nat (n - 16))
         (alter_range (λ _ d, with_refcount (u32 (refcount d + 1)) d) 16 (Z.to_nat (n - 16)) (irq_descs (irqs m)))).
    rewrite lookup_gic_descs. by repeat case_decide; try lia.
  - cbn. by replace (16 + (n - 16)) with n by lia.
  - change (hw (lput _ m7)) with tr7. rewrite W7. change (hw (lput tr6 m5)) with tr6. rewrite W6, <-app_assoc. done.
  - eexists _, rs. split; [|exact Hr]. change (hw (lput _ m7)) with tr7. rewrite R7. change (hw (lput tr6 m5)) with tr6.
    rewrite R6. change (hw m5) with (hw m1). cbn. by rewrite <-app_assoc.
Qed.

(** C28 (functional): when the controller has no more lines than the kernel has
    descriptors and a page is free, gic_init gives every line from 16 on (the private
    interrupts 16 to 31 too) a descriptor with its own number, this chip, the new domain
    and one more reference, keeps the other descriptors and an interrupt handler that was
    already set, and programs the controller: disabled first; every line from 32 on routed
    to the processors named in the first target register that does not read as zero, in
    any of its four bytes, and to none when all eight read as zero; level triggered,
    inactive and disabled; then the 16 software interrupts and the controller enabled,
    then the priorities and the processor interface.  It reads the number of lines and
    those target registers, and nothing else. *)
Theorem gic_init_correct m g dist cpu :
  irq_ok (irqs m) → gic_data m = [g] → pa_ok (palloc m) → (0 < pa_avail (palloc m))%nat →
  gic_lines P m dist ≤ NR_IRQS →
  ∃ m' dom mask, gic_init P get_free_page code 0 dist cpu m = Ret 0 m' ∧ page_ok dom ∧
    gic_initialised m m' dist cpu (gic_lines P m dist) dom mask.
Proof. apply gic_init_ok. Qed.

(** C36 (error): gic_init does not bound the number of lines by the table it fills:
    a controller with more than 256 makes irq_alloc_descs dereference the null
    pointer of irq_to_desc.  Without a free page for the domain it returns -1,
    has not programmed the controller and has set no handler. *)
Theorem gic_init_failures `{!PageAllocatorFails A get_free_page} m g dist cpu :
  irq_ok (irqs m) → gic_data m = [g] →
  (NR_IRQS < gic_lines P m dist → gic_init P get_free_page code 0 dist cpu m = Fault NullDeref) ∧
  (gic_lines P m dist ≤ NR_IRQS → pa_ok (palloc m) → pa_avail (palloc m) = 0%nat →
   ∃ m', gic_init P get_free_page code 0 dist cpu m = Ret (-1) m' ∧
     all_writes (hw m') = all_writes (hw m) ∧ arch_irq_handler (irqs m') = arch_irq_handler (irqs m) ∧
     palloc m' = palloc m).
Proof.
  intros Hok Hg. rewrite (gic_init_probe code P m g dist cpu Hg).
  pose proof (gic_lines_range P m dist) as Hl. set (n := gic_lines P m dist) in *.
  set (m1 := gic_probed m g dist cpu _ _). unfold gic_init_rest, NR_IRQS in *.
  assert (irq_ok (irqs m1)) as Hok1 by done. split.
  - intros Hn. apply bind_fault. unfold zoom; cbn [lget lens_irqs].
    rewrite irq_alloc_descs_too_many; [done|done|unfold HW_IRQ_START, NR_IRQS; lia..].
  - intros Hn Hpa Hav. rewrite (Z.min_r 1020 n) by lia.
    assert (16 + (n - 16) ≤ NR_IRQS) as Hn1 by (unfold NR_IRQS; lia).
    rewrite (bind_eq _ _ _ _ _ (zoom_irqs _ m1 _ _ (irq_alloc_descs_eq _ 16 (n - 16) Hok1 ltac:(lia) ltac:(lia) Hn1))).
    set (m2 := lput (with_descs _ _) m1).
    assert (irq_domain_add get_free_page code 16 HW_IRQ_START (n - HW_IRQ_START) "gicv2_irq_domain_ops" 0 m2 = Ret 0 m2) as E.
    { unfold irq_domain_add.
      assert (zoom get_free_page m2 = Ret 0 m2) as E0
        by (unfold zoom; cbn; by rewrite (pa_exhausted (palloc m) Hpa Hav)).
      by rewrite (bind_eq _ _ _ _ _ E0). }
    rewrite (bind_eq _ _ _ _ _ E), (bind_eq _ _ _ _ _ (set_gic_eq m2 _ _ eq_refl)).
    eexists. split; [reflexivity|done].
Qed.

(** Masking and unmasking an interrupt each write one register of the
    distributor, once, and no two of them coincide: the write identifies the
    operation and the interrupt, for all 1020 of the architecture. *)
Theorem gic_mask_unmask_exact m g d desc :
  gic_data m = [g] → irq_descs (irqs m) !! Z.to_nat d = Some desc → 0 ≤ d_hwirq desc < 1020 →
  gicv2_unmask_irq d m = Ret tt (record_write (irq_write (raw_dist_base g) GIC_DIST_ENABLE_SET (d_hwirq desc)) m) ∧
  gicv2_mask_irq d m = Ret tt (record_write (irq_write (raw_dist_base g) GIC_DIST_ENABLE_CLEAR (d_hwirq desc)) m) ∧
  ∀ off off' j, off = GIC_DIST_ENABLE_SET ∨ off = GIC_DIST_ENABLE_CLEAR →
    off' = GIC_DIST_ENABLE_SET ∨ off' = GIC_DIST_ENABLE_CLEAR → 0 ≤ j < 1020 →
    irq_write (raw_dist_base g) off (d_hwirq desc) = irq_write (raw_dist_base g) off' j → off = off' ∧ d_hwirq desc = j.
Proof.
  intros Hg Hd Hr. split; [by apply gic_set_irq_eq|]. split; [by apply gic_set_irq_eq|].
  intros off off' j Ho Ho' Hj. by apply irq_write_inj.
Qed.

Lemma request_irq_installed m irq h name par d :
  irq_descs (irqs m) !! Z.to_nat irq = Some d → irq < NR_IRQS →
  request_irq code irq (Some h) name par m
  = (irq_enable code (Some irq) ;; mret 0)
      (lput (with_descs (alter (λ d, with_name (Some name) (with_handler (Some h) par d)) (Z.to_nat irq)) (irqs m)) m).
Proof.
  intros Hd Hlt. unfold request_irq. rewrite irq_to_desc_in by done.
  rewrite (bind_eq _ _ _ _ _ (zoom_irqs _ m _ _ (set_desc_eq _ irq _ (mk_is_Some _ _ Hd)))).
  set (f1 := with_handler _ _). set (m1 := lput _ m).
  assert (irq_descs (irqs m1) !! Z.to_nat irq = Some (f1 d)) as Hd1 by (cbn; by rewrite list_lookup_alter_eq, Hd).
  rewrite (bind_eq _ _ _ _ _ (zoom_irqs _ m1 _ _ (set_desc_eq _ irq _ (mk_is_Some _ _ Hd1)))).
  unfold m1, with_descs; cbn [lput lens_irqs irqs irq_descs arch_irq_handler domains gic_data arch_timer_rate hw palloc schd].
  by rewrite list_alter_twice.
Qed.

Lemma lookup_installed m irq h name par d :
  irq_descs (irqs m) !! Z.to_nat irq = Some d →
  irq_descs (irqs (lput (with_descs (alter (λ d, with_name (Some name) (with_handler (Some h) par d)) (Z.to_nat irq)) (irqs m)) m))
    !! Z.to_nat irq = Some (with_name (Some name) (with_handler (Some h) par d)).
Proof. intros Hd. cbn. by rewrite list_lookup_alter_eq, Hd. Qed.

Lemma request_irq_ok m g irq h name par d :
  irq_descs (irqs m) !! Z.to_nat irq = Some d → irq < NR_IRQS → gic_data m = [g] → d_chip d = Some "gicv2_chip" →
  request_irq code irq (Some h) name par m
  = Ret 0 (record_write (irq_write (raw_dist_base g) GIC_DIST_ENABLE_SET (d_hwirq d))
      (lput (with_descs (alter (λ d, with_name (Some name) (with_handler (Some h) par d)) (Z.to_nat irq)) (irqs m)) m)).
Proof.
  intros Hd Hlt Hg Hc. rewrite (request_irq_installed m irq h name par d Hd Hlt).
  pose proof (lookup_installed m irq h name par d Hd) as Hd2. set (m2 := lput _ m) in *. unfold irq_enable.
  assert (desc_chip code (Some irq) m2 = Ret gicv2_chip m2) as E
    by (rewrite (desc_chip_eq code m2 irq _ "gicv2_chip" Hd2 Hc); by rewrite gc_chip).
  unfold mbind, M_bind. rewrite E. cbn [chip_irq_enable gicv2_chip]. unfold call_op, mbind, M_bind; cbn.
  unfold gicv2_unmask_irq. by rewrite (gic_set_irq_eq m2 g irq _ _ Hg Hd2).
Qed.

(** Request_irq refuses an interrupt without a descriptor and a null
    handler, changing nothing; for an interrupt of the controller it installs the
    handler and enables exactly that interrupt; for an interrupt no chip drives
    (the software interrupts, the lines above the controller's) it dereferences
    the descriptor's null chip, after the handler is in place. *)
Theorem request_irq_effect m g irq h name par :
  irq_ok (irqs m) → gic_data m = [g] → 0 ≤ irq →
  (NR_IRQS ≤ irq ∨ h = None → request_irq code irq h name par m = Ret (-1) m) ∧
  ∀ d, irq_descs (irqs m) !! Z.to_nat irq = Some d → irq < NR_IRQS → h ≠ None →
    (d_chip d = Some "gicv2_chip" →
     request_irq code irq h name par m
     = Ret 0 (record_write (irq_write (raw_dist_base g) GIC_DIST_ENABLE_SET (d_hwirq d))
         (lput (with_descs (alter (λ d, with_name (Some name) (with_handler h par d)) (Z.to_nat irq)) (irqs m)) m))) ∧
    (d_chip d = None → request_irq code irq h name par m = Fault NullDeref).
Proof.
  intros Hok Hg Hirq. split.
  { unfold request_irq. intros [Hbig| ->]; [by rewrite irq_to_desc_out|by destruct (irq_to_desc irq)]. }
  intros d Hd Hlt Hh. destruct h as [h|]; [|done]. split; intros Hc; [by apply request_irq_ok|].
  rewrite (request_irq_installed m irq h name par d Hd Hlt). apply bind_fault, bind_fault. unfold desc_chip.
  rewrite (bind_eq _ _ _ _ _ (zoom_irqs _ _ _ _ (desc_at_eq _ _ _ (lookup_installed m irq h name par d Hd)))).
  cbn. by rewrite Hc.
Qed.

(** A spurious or software interrupt is acknowledged and dropped.  So is
    an interrupt without a descriptor or a handler (one that free_irq gave back,
    which leaves it enabled, included): nothing ends it, so the controller keeps
    it active. *)
Theorem gic_handle_irq_unhandled m g :
  irq_ok (irqs m) → gic_data m = [g] →
  (∀ d, 15 < acked P m g < 1021 → irq_descs (irqs m) !! Z.to_nat (acked P m g) = Some d → handler d = None) →
  gic_handle_irq P code m = Ret tt (ack P m g) ∧ all_writes (hw (ack P m g)) = all_writes (hw m).
Proof.
  intros Hok Hg Hd. split; [|done]. rewrite (gic_handle_irq_step code P m g Hg).
  destruct (Z.ltb_spec 15 (acked P m g)); [|done]. destruct (Z.ltb_spec (acked P m g) 1021); [|done].
  cbn [andb when]. rewrite (bind_eq _ _ (ack P m g) (-1) (ack P m g)); [done|].
  apply generic_handle_irq_none; [done|lia|]. intros d. apply Hd. lia.
Qed.
End properties.

(** ** Instances *)

Module Example_gic.
(** A controller of 256 lines, and the largest of the architecture. *)
Definition board : platform := {| dev_read := λ _ _, 7; sysreg_read := λ _ _, 0 |}.
Definition big_board : platform := {| dev_read := λ _ _, 31; sysreg_read := λ _ _, 0 |}.

Definition code : IrqCode pages (list (string * list karg)) := {|
  chip_at := λ _, gicv2_chip;
  ops_at := λ _, gicv2_irq_domain_ops;
  handler_at := λ _ _ _, mret 0;
|}.
#[export] Instance code_gic : GicCode code.
Proof. done. Qed.

Definition gic0 : gic_chip_data := GicChipData 0x1000 0x2000 0 None 0.
Definition boot : machine pages (list (string * list karg)) :=
  Machine irq_boot [gic0] 0 [] pages_boot Example_sched.s0.

(** Interrupt 37 belongs to the controller, 5 does not. *)
Definition desc37 : irq_desc := IrqDesc None 0 37 (Some "gicv2_chip") 0 0 1 None 0.
Definition mapped : machine pages (list (string * list karg)) :=
  Machine (IrqState (<[37%nat := desc37]> (irq_descs irq_boot)) None ∅) [gic0] 0 [] (Pages [] 0) Example_sched.s0.
End Example_gic.

#[local] Existing Instance log_console.
#[local] Existing Instance Example_sched.symbols.
#[local] Existing Instance Example_gic.code_gic.

Lemma gic_init_correct_witness :
  ∃ m' dom mask, gic_init Example_gic.board get_free_page Example_gic.code 0 0x1000 0x2000 Example_gic.boot = Ret 0 m' ∧
    page_ok dom ∧ gic_initialised Example_gic.boot m' 0x1000 0x2000 256 dom mask.
Proof.
  apply (gic_init_correct Example_gic.board Example_gic.code Example_gic.boot Example_gic.gic0);
    [done|done|apply pages_boot_ok|apply first_used_free|by vm_compute].
Defined.

Lemma gic_init_failures_witness :
  gic_init Example_gic.big_board get_free_page Example_gic.code 0 0x1000 0x2000 Example_gic.boot = Fault NullDeref.
Proof.
  apply (gic_init_failures (get_free_page:=get_free_page) Example_gic.big_board Example_gic.code Example_gic.boot
           Example_gic.gic0); [done|done|by vm_compute].
Defined.

Lemma gic_mask_unmask_exact_witness :
  gicv2_unmask_irq 37 Example_gic.mapped = Ret tt (record_write (0x1104, 32) Example_gic.mapped) ∧
  gicv2_mask_irq 37 Example_gic.mapped = Ret tt (record_write (0x1184, 32) Example_gic.mapped).
Proof.
  destruct (gic_mask_unmask_exact Example_gic.mapped Example_gic.gic0 37 Example_gic.desc37)
    as (H1 & H2 & _); [done|done|by_decision|]. split; [exact H1|exact H2].
Defined.

Lemma request_irq_effect_witness :
  request_irq Example_gic.code 37 (Some "h") "dev" 0 Example_gic.mapped
  = Ret 0 (record_write (0x1104, 32)
      (lput (IrqState (<[37%nat := with_name (Some "dev") (with_handler (Some "h") 0 Example_gic.desc37)]> (irq_descs irq_boot))
               None ∅) Example_gic.mapped)) ∧
  request_irq Example_gic.code 5 (Some "h") "dev" 0 Example_gic.mapped = Fault NullDeref ∧
  request_irq Example_gic.code 256 (Some "h") "dev" 0 Example_gic.mapped = Ret (-1) Example_gic.mapped.
Proof.
  split; [|split].
  - destruct (request_irq_effect Example_gic.code Example_gic.mapped Example_gic.gic0 37 (Some "h") "dev" 0) as [_ H];
      [done|done|lia|]. exact (proj1 (H Example_gic.desc37 eq_refl eq_refl ltac:(done)) eq_refl).
  - destruct (request_irq_effect Example_gic.code Example_gic.mapped Example_gic.gic0 5 (Some "h") "dev" 0) as [_ H];
      [done|done|lia|]. exact (proj2 (H zero_desc eq_refl eq_refl ltac:(done)) eq_refl).
  - apply (request_irq_effect Example_gic.code Example_gic.mapped Example_gic.gic0 256 (Some "h") "dev" 0);
      [done|done|lia|]. left. by unfold NR_IRQS.
Defined.

Lemma gic_handle_irq_unhandled_witness :
  gic_handle_irq {| dev_read := λ _ _, 37; sysreg_read := λ _ _, 0 |} Example_gic.code Example_gic.mapped
  = Ret tt (lput [Readl 0x200c 37] Example_gic.mapped).
Proof.
  apply (gic_handle_irq_unhandled {| dev_read := λ _ _, 37; sysreg_read := λ _ _, 0 |} Example_gic.code
           Example_gic.mapped Example_gic.gic0); [done|done|].
  intros d _ Hd. change (acked _ _ _) with 37 in Hd. cbn in Hd. by injection Hd as <-.
Defined.
