(* ===== verification/Timer.v ===== *)
(** * arch/arm64/mach-rpi/timer.c: the generic timer, and the interrupt path end to end

    The timer's handler, and [kernel_code], which ties the function pointers of
    Irq.v and Gic.v to the kernel's functions, so that a timer interrupt can be
    followed from the processor's vector to the scheduler's tick and back. *)

From S2P Require Import Prelude Mmio Uart Format Printk PageAlloc KList Sched Irq Gic.

(** [arch/arm64/mach-rpi/mach/irq.h:18-18] GENERIC_TIMER_IRQ *)
Definition GENERIC_TIMER_IRQ : Z := 30.
(** [arch/arm64/mach-rpi/mach/arm_local_regs.h:19-19] TIMER_CNTRL0 *)
Definition TIMER_CNTRL0 : Z := ARM_LOCAL_BASE + 0x40.
(** [arch/arm64/mach-rpi/mach/arm_local_regs.h:26-26] CNT_PNS_IRQ *)
Definition CNT_PNS_IRQ : Z := Z.shiftl 1 1.

Definition cr : string := String (Ascii.ascii_of_N 13) EmptyString.

Section timer.
Context {A C : Type} `{Hcon : !Console C} `{Hsym : !SchedSymbols} (P : platform) (fuel : nat).
Abbreviation K := (M (machine A C)).

(** [arch/arm64/mach-rpi/timer.c:14-23] generic_timer_init *)
Definition generic_timer_init : K unit := zoom (write_sysreg 1 "cntp_ctl_el0").

(** [arch/arm64/mach-rpi/timer.c:25-33] generic_timer_reset *)
Definition generic_timer_reset (val : Z) : K Z := zoom (write_sysreg val "cntp_tval_el0") ;; mret 0.

(** [arch/arm64/mach-rpi/timer.c:35-46] generic_timer_get_freq *)
Definition generic_timer_get_freq : K Z := freq ← zoom (read_sysreg P "cntfrq_el0"); mret (u32 freq).

(** [arch/arm64/mach-rpi/timer.c:49-52] enable_timer_interrupt *)
Definition enable_timer_interrupt : K unit := zoom (writel CNT_PNS_IRQ TIMER_CNTRL0).

(** [arch/arm64/mach-rpi/timer.c:54-61] handle_timer_irq *)
Definition handle_timer_irq (irq par : Z) : K Z :=
  rate ← gets arch_timer_rate;
  generic_timer_reset rate ;;
  zoom (T:=sched C) (tick_handle_periodic fuel) ;;
  mret 0.

(** The code behind the kernel's function pointers. *)
Definition kernel_code : IrqCode A C := {|
  chip_at := λ c, if decide (c = "gicv2_chip") then gicv2_chip else IrqChip None None None None None None None;
  ops_at := λ o, if decide (o = "gicv2_irq_domain_ops") then gicv2_irq_domain_ops else IrqDomainOps None None;
  handler_at := λ h irq par, if decide (h = "handle_timer_irq") then handle_timer_irq irq par else throw (WildAddr 0);
|}.
Definition kernel_arch_code : ArchIrqCode A C :=
  λ h, if decide (h = "gic_handle_irq") then gic_handle_irq P kernel_code else throw (WildAddr 0).

(** [arch/arm64/mach-rpi/timer.c:63-74] timer_init *)
Definition timer_init : K unit :=
  freq ← generic_timer_get_freq;
  modify (set_timer_rate freq) ;;
  kprint ("cntp freq:0x%x" +++ cr +++ nl) [KInt freq] ;;
  modify (λ s, set_timer_rate (arch_timer_rate s / HZ) s) ;;
  generic_timer_init ;;
  rate ← gets arch_timer_rate;
  generic_timer_reset rate ;;
  request_irq kernel_code GENERIC_TIMER_IRQ (Some "handle_timer_irq") "core timer" 0 ;;
  enable_timer_interrupt.
End timer.

(** ** Lemmas *)

(** Interrupt 30 reaches handle_timer_irq. *)
Record timer_ready {A C} (m : machine A C) (g : gic_chip_data) : Prop := {
  ti_arch : arch_irq_handler (irqs m) = Some "gic_handle_irq";
  ti_data : gic_data m = [g];
  ti_desc : ∃ d, irq_descs (irqs m) !! Z.to_nat GENERIC_TIMER_IRQ = Some d ∧
    handler d = Some "handle_timer_irq" ∧ d_chip d = Some "gicv2_chip" ∧ d_hwirq d = GENERIC_TIMER_IRQ;
}.

Section lemmas.
Context {A C : Type} `{Hcon : !Console C} `{Hsym : !SchedSymbols} (P : platform) (fuel : nat).
Implicit Types (m : machine A C).
Abbreviation code := (kernel_code (A:=A) fuel).

#[export] Instance kernel_gic_code : GicCode code.
Proof. done. Qed.

(** The state after the timer's interrupt was acknowledged, the timer reloaded and
    the interrupt ended, the scheduler being in state [s]. *)
Definition timer_served m g (s : sched C) : machine A C :=
  Machine (irqs m) (gic_data m) (arch_timer_rate m)
    (Writel (u64 (raw_cpu_base g + GIC_CPU_EOI)) GENERIC_TIMER_IRQ ::
     Msr "cntp_tval_el0" (u64 (arch_timer_rate m)) :: hw (ack P m g)) (palloc m) s.

Lemma handle_timer_irq_eq m irq par s' :
  tick_handle_periodic fuel (schd m) = Ret tt s' →
  handle_timer_irq fuel irq par m
  = Ret 0 (Machine (irqs m) (gic_data m) (arch_timer_rate m) (Msr "cntp_tval_el0" (u64 (arch_timer_rate m)) :: hw m)
             (palloc m) s').
Proof.
  intros E. unfold handle_timer_irq, generic_timer_reset. unfold mbind, M_bind, gets, zoom, write_sysreg; cbn.
  by rewrite E.
Qed.

Lemma gic_handle_timer m g s' :
  timer_ready m g → acked P m g = GENERIC_TIMER_IRQ → tick_handle_periodic fuel (schd m) = Ret tt s' →
  gic_handle_irq P code m = Ret tt (timer_served m g s').
Proof.
  intros [_ Hg (d & Hd & Hh & Hc & Hi)] Hack E. rewrite (gic_handle_irq_step code P m g Hg), Hack.
  change ((15 <? GENERIC_TIMER_IRQ) && (GENERIC_TIMER_IRQ <? 1021)) with true. cbn [when].
  unfold GENERIC_TIMER_IRQ in Hd, Hi |- *.
  rewrite (bind_eq _ _ _ _ _ (generic_handle_irq_eq code (ack P m g) 30 d _ 0
    (Machine (irqs m) (gic_data m) (arch_timer_rate m) (Msr "cntp_tval_el0" (u64 (arch_timer_rate m)) :: hw (ack P m g))
       (palloc m) s') d g ltac:(done) Hd Hh (handle_timer_irq_eq (ack P m g) 30 (param d) s' E) Hd Hc Hg)).
  by rewrite Hi.
Qed.

(** A timer interrupt of the machine up to the way out is the tick of the scheduler. *)
Lemma el1_irq_tick m g s3 :
  timer_ready m g → acked P m g = GENERIC_TIMER_IRQ →
  (__irq_enter ;; tick_handle_periodic fuel ;; __irq_exit) (schd m) = Ret tt s3 →
  el1_irq (ArchIrqCode0:=kernel_arch_code P fuel) fuel m = zoom (T:=sched C) (el1_irq_exit fuel) (timer_served m g s3).
Proof.
  intros Hm Hack ([] & s1 & E1 & ([] & s2 & E2 & E3)%bind_inv)%bind_inv.
  unfold el1_irq, irq_handler.
  set (m1 := lput s1 m).
  assert (zoom (T:=sched C) __irq_enter m = Ret tt m1) as Z1 by (unfold zoom; cbn; by rewrite E1).
  assert (kernel_arch_code P fuel "gic_handle_irq" m1 = Ret tt (timer_served m g s2)) as Z2.
  { exact (gic_handle_timer m1 g s2 ltac:(destruct Hm; by split) Hack E2). }
  assert (zoom (T:=sched C) __irq_exit (timer_served m g s2) = Ret tt (timer_served m g s3)) as Z3
    by (unfold zoom; cbn; by rewrite E3).
  rewrite (bind_assoc _ _ _ m), (bind_eq _ _ _ _ _ Z1), (bind_assoc _ _ _ m1), bind_gets.
  change ((arch_irq_handler ∘ irqs) m1) with (arch_irq_handler (irqs m)). rewrite (ti_arch _ _ Hm).
  cbn [of_option]. rewrite (bind_assoc _ _ _ m1), bind_mret, (bind_assoc _ _ _ m1).
  by rewrite (bind_eq _ _ _ _ _ Z2), (bind_eq _ _ _ _ _ Z3).
Qed.

(** One timer interrupt of the machine is one of the scheduler. *)
Lemma el1_irq_timer m g s' :
  timer_ready m g → acked P m g = GENERIC_TIMER_IRQ → timer_interrupt fuel (schd m) = Ret tt s' →
  el1_irq (ArchIrqCode0:=kernel_arch_code P fuel) fuel m = Ret tt (timer_served m g s').
Proof.
  intros Hm Hack ([] & s1 & E1 & ([] & s2 & E2 & ([] & s3 & E3 & E4)%bind_inv)%bind_inv)%bind_inv.
  rewrite (el1_irq_tick m g s3 Hm Hack) by by rewrite (bind_eq _ _ _ _ _ E1), (bind_eq _ _ _ _ _ E2).
  unfold zoom; cbn. by rewrite E4.
Qed.

Lemma timer_init_ok m g d :
  gic_data m = [g] → irq_descs (irqs m) !! Z.to_nat GENERIC_TIMER_IRQ = Some d →
  d_chip d = Some "gicv2_chip" → d_hwirq d = GENERIC_TIMER_IRQ →
  arch_irq_handler (irqs m) = Some "gic_handle_irq" →
  let freq := u32 (u64 (sysreg_read P (hw m) "cntfrq_el0")) in
  ∃ m', timer_init P fuel m = Ret tt m' ∧ timer_ready m' g ∧ arch_timer_rate m' = freq / HZ ∧
    palloc m' = palloc m ∧ irq_ok (irqs m') = irq_ok (irqs m) ∧
    (∀ i, i ≠ Z.to_nat GENERIC_TIMER_IRQ → irq_descs (irqs m') !! i = irq_descs (irqs m) !! i) ∧
    schd m' = set_console (console_printk ("cntp freq:0x%x" +++ cr +++ nl) [KInt freq] (console (schd m))) (schd m) ∧
    hw m' = Writel TIMER_CNTRL0 2 :: Writel (u64 (raw_dist_base g + GIC_DIST_ENABLE_SET)) (2 ^ 30) ::
            Msr "cntp_tval_el0" (freq / HZ) :: Msr "cntp_ctl_el0" 1 ::
            Mrs "cntfrq_el0" (u64 (sysreg_read P (hw m) "cntfrq_el0")) :: hw m.
Proof.
  intros Hg Hd Hc Hi Ha freq.
  assert (0 ≤ freq < 2 ^ 32) as Hf by (apply Z.mod_pos_bound; lia).
  assert (0 ≤ freq / HZ < 2 ^ 32) as Hr.
  { unfold HZ. split; [apply Z.div_pos; lia|apply Z.div_lt_upper_bound; lia]. }
  set (m1 := Machine (irqs m) (gic_data m) (freq / HZ)
    (Msr "cntp_tval_el0" (u64 (freq / HZ)) :: Msr "cntp_ctl_el0" 1 ::
     Mrs "cntfrq_el0" (u64 (sysreg_read P (hw m) "cntfrq_el0")) :: hw m) (palloc m)
    (set_console (console_printk ("cntp freq:0x%x" +++ cr +++ nl) [KInt freq] (console (schd m))) (schd m))).
  assert (timer_init P fuel m
    = (request_irq code GENERIC_TIMER_IRQ (Some "handle_timer_irq") "core timer" 0 ;; enable_timer_interrupt) m1) as ->
    by done.
  rewrite (bind_eq _ _ _ _ _ (request_irq_ok code m1 g _ _ _ 0 d Hd ltac:(done) Hg Hc)), Hi.
  eexists. split; [reflexivity|]. split; [split; [done..|]|].
  - eexists. split; [|split; [|split]].
    + cbn -[Z.to_nat]. rewrite list_lookup_alter_eq, Hd. reflexivity.
    + done.
    + done.
    + done.
  - split; [done|]. split; [done|]. split; [unfold irq_ok; cbn; by rewrite length_alter|].
    split; [intros i Hne; cbn -[Z.to_nat]; by rewrite list_lookup_alter_ne|]. split; [done|].
    cbn [hw lput lens_hw record_write fst snd irq_write]. unfold record_write, irq_write; cbn.
    rewrite (u64_id (freq / HZ)) by lia. rewrite Z.add_0_r. done.
Qed.
End lemmas.

(** ** Properties *)

Section properties.
Context {A C : Type} `{Hcon : !Console C} `{Hsym : !SchedSymbols} (P : platform) (fuel : nat).
Context {get_free_page : M A Z} `{!PageAllocator A get_free_page}.
Implicit Types (m : machine A C).

(** After arch_irq_init and timer_init on a controller with at most
    256 lines, the timer's interrupt is wired from the controller to
    handle_timer_irq and enabled, the timer counts at 1/250 of the frequency the
    processor reports and is running, and no other line was enabled. *)
Theorem timer_boot m g :
  irq_ok (irqs m) → arch_irq_handler (irqs m) = None → gic_data m = [g] →
  pa_ok (palloc m) → (0 < pa_avail (palloc m))%nat →
  gic_lines P m GIC_V2_DISTRIBUTOR_BASE ≤ NR_IRQS →
  ∃ m' g' mask freq,
    (arch_irq_init P get_free_page (kernel_code fuel) ;; timer_init P fuel) m = Ret tt m' ∧
    timer_ready m' g' ∧ irq_ok (irqs m') ∧
    raw_dist_base g' = GIC_V2_DISTRIBUTOR_BASE ∧ raw_cpu_base g' = GIC_V2_CPU_INTERFACE_BASE ∧
    0 ≤ freq < 2 ^ 32 ∧ arch_timer_rate m' = freq / 250 ∧
    all_writes (hw m') = all_writes (hw m) ++
      dist_writes GIC_V2_DISTRIBUTOR_BASE (gic_lines P m GIC_V2_DISTRIBUTOR_BASE) mask ++
      cpu_writes GIC_V2_DISTRIBUTOR_BASE GIC_V2_CPU_INTERFACE_BASE ++
      [(GIC_V2_DISTRIBUTOR_BASE + GIC_DIST_ENABLE_SET, 2 ^ 30); (TIMER_CNTRL0, 2)].
Proof.
  intros Hok Ha Hg Hpa Hav Hn.
  destruct (gic_init_ok P (kernel_code fuel) m g GIC_V2_DISTRIBUTOR_BASE GIC_V2_CPU_INTERFACE_BASE Hok Hg Hpa Hav Hn)
    as (m1 & dom & mask & E1 & _ & [Hd _ Hh Hg1 Hw _ _]).
  pose proof (gic_lines_range P m GIC_V2_DISTRIBUTOR_BASE) as Hl.
  set (n := gic_lines P m GIC_V2_DISTRIBUTOR_BASE) in *.
  destruct (irq_lookup (irqs m) GENERIC_TIMER_IRQ Hok) as [d0 Ed]; [done|].
  pose proof (Hd (Z.to_nat GENERIC_TIMER_IRQ)) as Hd30.
  rewrite decide_True in Hd30 by (change (Z.of_nat (Z.to_nat GENERIC_TIMER_IRQ)) with 30; lia).
  rewrite Ed in Hd30. rewrite Ha in Hh.
  destruct (timer_init_ok P fuel m1 _ _ Hg1 Hd30 eq_refl eq_refl Hh) as (m2 & E2 & Hready & Hrate & _ & Hok2 & _ & _ & Hw2).
  eexists m2, _, mask, (u32 (u64 (sysreg_read P (hw m1) "cntfrq_el0"))).
  split; [|split; [exact Hready|split; [|split; [done|split; [done|split; [by apply Z.mod_pos_bound|split; [done|]]]]]]].
  - unfold arch_irq_init. rewrite (bind_assoc _ _ _ m), (bind_eq _ _ _ _ _ E1), bind_skip. exact E2.
  - rewrite Hok2. unfold irq_ok. rewrite <-Hok.
    apply Nat.le_antisymm; apply Nat.nlt_ge; intros Hlt.
    + apply lookup_lt_is_Some_2 in Hlt as [x Hx]. rewrite Hd in Hx.
      case_decide; [apply fmap_Some in Hx as (y & Hx & _)|]; apply lookup_lt_Some in Hx; lia.
    + apply lookup_lt_is_Some_2 in Hlt as [x Hx].
      assert (irq_descs (irqs m1) !! length (irq_descs (irqs m1)) = None) as Hnone by (by apply lookup_ge_None).
      rewrite Hd in Hnone. case_decide; rewrite Hx in Hnone; done.
  - rewrite Hw2. cbn [all_writes]. rewrite Hw, <-!app_assoc. done.
Qed.

(** C10 (refinement): a timer interrupt taken in the kernel (irq_handler, the
    controller's acknowledge, the dispatch to handle_timer_irq, the end of
    interrupt, and the way out of el1_irq) is, on the scheduler's state, the
    timer interrupt of Sched.v; it reloads the timer, ends exactly the interrupt
    it acknowledged, and leaves the tasks' and the interrupts' invariants. *)
Theorem timer_interrupt_end_to_end m g queue forked :
  timer_ready m g → acked P m g = GENERIC_TIMER_IRQ →
  task_runs (schd m) queue forked → queue ≠ [] → (length forked < fuel)%nat → (length queue < fuel)%nat →
  ∃ s',
    timer_interrupt fuel (schd m) = Ret tt s' ∧ task_runs s' queue forked ∧
    el1_irq (ArchIrqCode0:=kernel_arch_code P fuel) fuel m = Ret tt (timer_served P m g s') ∧
    timer_ready (timer_served P m g s') g ∧
    all_writes (hw (timer_served P m g s'))
    = all_writes (hw m) ++ [(u64 (raw_cpu_base g + GIC_CPU_EOI), GENERIC_TIMER_IRQ)].
Proof.
  intros Hm Hack Hs Hne Hff Hfq.
  destruct (timer_interrupt_ok fuel (schd m) queue forked Hs Hne Hff Hfq) as (s' & E & Hs' & _).
  exists s'. split; [done|]. split; [done|]. split; [by apply el1_irq_timer|].
  split; [destruct Hm; by split|done].
Qed.
End properties.

(** ** Instances *)

Module Example_timer.
(** A board with 256 interrupt lines, a 54 MHz counter, and interrupt 30 pending. *)
Definition board : platform := {|
  dev_read := λ _ a, if a =? GIC_V2_DISTRIBUTOR_BASE + 4 then 7
                     else if a =? GIC_V2_CPU_INTERFACE_BASE + 12 then 30 else 1;
  sysreg_read := λ _ _, 54000000;
|}.
(** The same with the largest controller of the architecture. *)
Definition big_board : platform := {| dev_read := λ _ _, 31; sysreg_read := λ _ _, 54000000 |}.

Definition gic0 : gic_chip_data := GicChipData 0 0 0 None 0.
Definition boot : machine pages (list (string * list karg)) :=
  Machine irq_boot gic_data_boot 0 [] pages_boot Example_sched.s0.

Lemma boot_ok : irq_ok (irqs boot).
Proof. done. Qed.
Lemma boot_pages : pa_ok (palloc boot) ∧ (0 < pa_avail (palloc boot))%nat.
Proof. split; [apply pages_boot_ok|apply first_used_free]. Qed.

(** The state once the timer is wired. *)
Definition timer_desc : irq_desc := IrqDesc (Some "core timer") 0 30 (Some "gicv2_chip") 0x400000 0 1 (Some "handle_timer_irq") 0.
Definition gic1 : gic_chip_data :=
  GicChipData GIC_V2_DISTRIBUTOR_BASE GIC_V2_CPU_INTERFACE_BASE 0x400000 (Some "gicv2_chip") 256.
Definition wired : machine pages (list (string * list karg)) :=
  Machine (IrqState (<[30%nat := timer_desc]> (irq_descs irq_boot)) (Some "gic_handle_irq") ∅)
    [gic1] 216000 [] (Pages [] 0) Example_sched.s0.

Lemma wired_ready : timer_ready wired gic1.
Proof. split; [done|done|]. by exists timer_desc. Qed.
End Example_timer.

#[local] Existing Instance Example_sched.symbols.
#[local] Existing Instance log_console.

Lemma timer_boot_witness :
  ∃ m' g', (arch_irq_init Example_timer.board get_free_page (kernel_code 3) ;; timer_init Example_timer.board 3)
             Example_timer.boot = Ret tt m' ∧ timer_ready m' g'.
Proof.
  destruct (timer_boot Example_timer.board 3 (get_free_page:=get_free_page) Example_timer.boot Example_timer.gic0)
    as (m' & g' & _ & _ & E & Hready & _); [done|done|done|apply Example_timer.boot_pages|apply Example_timer.boot_pages|
      by vm_compute|].
  exists m', g'. split; [exact E|exact Hready].
Defined.

Lemma timer_interrupt_end_to_end_witness :
  ∃ s', el1_irq (ArchIrqCode0:=kernel_arch_code Example_timer.board 3) 3 Example_timer.wired
        = Ret tt (timer_served Example_timer.board Example_timer.wired Example_timer.gic1 s') ∧
    task_runs s' Example_sched.queue Example_sched.forked.
Proof.
  destruct (timer_interrupt_end_to_end Example_timer.board 3 Example_timer.wired Example_timer.gic1
    Example_sched.queue Example_sched.forked Example_timer.wired_ready) as (s' & _ & Hs' & E & _);
    [by vm_compute|exact Example_sched.s0_runs|done|cbn; lia|cbn; lia|].
  exists s'. split; [exact E|exact Hs'].
Defined.
