(* ===== verification/Syscall.v ===== *)
(** * arch/arm64/kernel/syscall.c: system calls

    The exception frame the vector saved at the top of the caller's kernel stack
    is the frame at an address of [f_regs]; the dispatcher reads the number from
    x8, calls a function of [syscall_table] and stores its result in x0. *)

From S2P Require Import Prelude Memory Format Printk PageAlloc KList Sched Fork.

(** [include/uapi/syscall.h:8-8] __NR_open *)
Definition __NR_open : Z := 0.
(** [include/uapi/syscall.h:11-11] __NR_close *)
Definition __NR_close : Z := 1.
(** [include/uapi/syscall.h:14-14] __NR_read *)
Definition __NR_read : Z := 2.
(** [include/uapi/syscall.h:17-17] __NR_write *)
Definition __NR_write : Z := 3.
(** [include/uapi/syscall.h:20-20] __NR_clone *)
Definition __NR_clone : Z := 4.
(** [include/uapi/syscall.h:23-23] __NR_malloc *)
Definition __NR_malloc : Z := 5.
(** [include/uapi/syscall.h:25-25] __NR_syscalls *)
Definition __NR_syscalls : Z := 6.

Definition greg (i : nat) (r : pt_regs) : Z := nth i (gregs r) 0.
Definition set_orig_x0 v (r : pt_regs) : pt_regs :=
  PtRegs (gregs r) (regs_sp r) (regs_pc r) (pstate r) v (syscallno r)
    (unused2 r) (orig_addr_limit r) (unused r) (stackframe r).
Definition set_syscallno v (r : pt_regs) : pt_regs :=
  PtRegs (gregs r) (regs_sp r) (regs_pc r) (pstate r) (orig_x0 r) v
    (unused2 r) (orig_addr_limit r) (unused r) (stackframe r).

(** ** The code *)

Section syscall.
Context `{Hsym : !SchedSymbols} {C : Type} `{Hcon : !Console C} (fuel : nat).
Implicit Types (s : fork_state C) (regs : Z).
Abbreviation F := (M (fork_state C)).

(** [arch/arm64/kernel/syscall.c:10-13] sys_ni_syscall *)
Definition sys_ni_syscall regs : F Z := mret (-1).

(** [arch/arm64/kernel/syscall.c:45-50] __arm64_sys_open *)
Definition __arm64_sys_open regs : F Z := mret (-1).
(** [arch/arm64/kernel/syscall.c:52-56] __arm64_sys_close *)
Definition __arm64_sys_close regs : F Z := mret (-1).
(** [arch/arm64/kernel/syscall.c:58-63] __arm64_sys_read *)
Definition __arm64_sys_read regs : F Z := mret (-1).
(** [arch/arm64/kernel/syscall.c:65-70] __arm64_sys_write *)
Definition __arm64_sys_write regs : F Z := mret (-1).

(** [arch/arm64/kernel/syscall.c:72-76] __arm64_sys_clone *)
Definition __arm64_sys_clone regs : F Z :=
  r ← load_regs regs;
  do_fork fuel (greg 0 r) (greg 1 r) (greg 2 r).

(** [arch/arm64/kernel/syscall.c:78-87] __arm64_sys_malloc *)
Definition __arm64_sys_malloc regs : F Z :=
  addr ← zoom get_free_page;
  if addr =? 0 then mret (-1) else mret (s64 addr).

(** [arch/arm64/kernel/syscall.c:89-98] syscall_table *)
Definition syscall_table : list (Z → F Z) :=
  [__arm64_sys_open; __arm64_sys_close; __arm64_sys_read; __arm64_sys_write; __arm64_sys_clone; __arm64_sys_malloc].

Definition table_at (table : list (Z → F Z)) (i : Z) : F (Z → F Z) :=
  if i <? 0 then throw (IndexRange i)
  else match table !! Z.to_nat i with Some fn => mret fn | None => throw (IndexRange i) end.

(** [arch/arm64/kernel/syscall.c:15-29] invoke_syscall *)
Definition invoke_syscall (regs syscall_no syscall_nr : Z) (table : list (Z → F Z)) : F unit :=
  ret ← (if syscall_no <? syscall_nr then fn ← table_at table syscall_no; fn regs
         else sys_ni_syscall regs);
  update_regs regs (set_gregs 0 (u64 ret)).

(** [arch/arm64/kernel/syscall.c:31-38] el0_syscall_common *)
Definition el0_syscall_common (regs syscall_no syscall_nr : Z) (table : list (Z → F Z)) : F unit :=
  update_regs regs (λ r, set_orig_x0 (greg 0 r) r) ;;
  update_regs regs (set_syscallno (u32 syscall_no)) ;;
  invoke_syscall regs syscall_no syscall_nr table.

(** [arch/arm64/kernel/syscall.c:40-43] el0_svc_handler *)
Definition el0_svc_handler regs : F unit :=
  r ← load_regs regs;
  el0_syscall_common regs (s32 (greg 8 r)) __NR_syscalls syscall_table.

(** [arch/arm64/kernel/entry.S:244-247] el0_svc *)
Definition el0_svc : F unit :=
  c ← zoom get_current;
  el0_svc_handler (task_pt_regs c) ;;
  zoom (T:=sched C) (ret_to_user fuel).
End syscall.

(** The registers at the [svc] of usr/syscall.S, from those of the C call
    [syscall(nr, a0, a1, ...)]. *)
(** [usr/syscall.S:5-15] syscall *)
Definition syscall_stub (x : list Z) : list Z :=
  let x := <[8%nat := u32 (nth 0 x 0)]> x in
  let x := <[0%nat := nth 1 x 0]> x in
  let x := <[1%nat := nth 2 x 0]> x in
  let x := <[2%nat := nth 3 x 0]> x in
  let x := <[3%nat := nth 4 x 0]> x in
  let x := <[4%nat := nth 5 x 0]> x in
  let x := <[5%nat := nth 6 x 0]> x in
  <[6%nat := nth 7 x 0]> x.

(** ** Lemmas *)

(** The frame as the called function finds it. *)
Definition entered (no : Z) (r : pt_regs) : pt_regs := set_syscallno (u32 no) (set_orig_x0 (greg 0 r) r).
(** A state with another frame at [a]. *)
Definition put_regs {C} a r (s : fork_state C) : fork_state C :=
  ForkState (f_sched s) (f_pages s) (<[a := r]> (f_regs s)) (g_task s) (total_forks s).

Section lemmas.
Context `{Hsym : !SchedSymbols} {C : Type} `{Hcon : !Console C} (fuel : nat).
Implicit Types (s : fork_state C) (regs : Z).

Lemma load_regs_eq s a r : f_regs s !! a = Some r → load_regs a s = Ret r s.
Proof. intros E. unfold load_regs. by rewrite E. Qed.

Lemma update_regs_eq s a r f : f_regs s !! a = Some r → update_regs a f s = Ret tt (put_regs a (f r) s).
Proof. intros E. unfold update_regs. by rewrite (bind_eq _ _ _ _ _ (load_regs_eq s a r E)). Qed.

Lemma put_regs_twice a r r' s : put_regs a r (put_regs a r' s) = put_regs a r s.
Proof. unfold put_regs; cbn. by rewrite insert_insert_eq. Qed.

Lemma put_regs_inv a r s queue forked : fork_inv s queue forked → fork_inv (put_regs a r s) queue forked.
Proof. by intros []. Qed.

(** The dispatcher: the call sees the number and the original x0 in the frame. *)
Lemma el0_svc_handler_eq s a r no :
  f_regs s !! a = Some r → s32 (greg 8 r) = no →
  el0_svc_handler fuel a s = invoke_syscall a no __NR_syscalls (syscall_table fuel) (put_regs a (entered no r) s).
Proof.
  intros E <-. unfold el0_svc_handler, el0_syscall_common. rewrite (bind_eq _ _ _ _ _ (load_regs_eq s a r E)).
  rewrite (bind_eq _ _ _ _ _ (update_regs_eq s a r _ E)).
  rewrite (bind_eq _ _ _ _ _ (update_regs_eq (put_regs a _ s) a _ _ (lookup_insert_eq _ _ _))).
  by rewrite put_regs_twice.
Qed.

Lemma invoke_syscall_eq s s' a no (fn : Z → M (fork_state C) Z) ret r :
  0 ≤ no < __NR_syscalls → syscall_table fuel !! Z.to_nat no = Some fn → fn a s = Ret ret s' →
  f_regs s' !! a = Some r →
  invoke_syscall a no __NR_syscalls (syscall_table fuel) s = Ret tt (put_regs a (set_gregs 0 (u64 ret) r) s').
Proof.
  intros Hno Hfn Ef Er. unfold invoke_syscall. destruct (Z.ltb_spec no __NR_syscalls); [|lia].
  assert (table_at (syscall_table fuel) no s = Ret fn s) as E.
  { unfold table_at. destruct (Z.ltb_spec no 0); [lia|]. by rewrite Hfn. }
  rewrite (bind_assoc _ _ _ s), (bind_eq _ _ _ _ _ E), (bind_eq _ _ _ _ _ Ef). by apply update_regs_eq.
Qed.

(** What every system call keeps: the tasks' invariant, with the queue's tasks still
    queued, the caller's frame, and a supply of pages. *)
Definition keeps (queue : list Z) a (n : nat) s : Prop :=
  ∃ queue' forked', fork_inv s queue' forked' ∧ queue ⊆ queue' ∧ is_Some (f_regs s !! a) ∧ supply n (f_pages s).

(** The pages a system call takes at most, by its number. *)
Definition syscall_pages (no : Z) : nat := if (no =? __NR_clone) || (no =? __NR_malloc) then 1 else 0.

Lemma syscall_keeps s queue forked a no n (fn : Z → M (fork_state C) Z) :
  fork_inv s queue forked → a = task_pt_regs (current (f_sched s)) → is_Some (f_regs s !! a) →
  supply (syscall_pages (Z.of_nat no) + n) (f_pages s) →
  syscall_table fuel !! no = Some fn → returns (fn a) (λ _, keeps queue a n) s.
Proof.
  intros Hinv Ha [r Hr] Hsup Hfn.
  assert (keeps queue a n s) as Hk.
  { exists queue, forked. split; [done|]. split; [done|]. split; [by exists r|]. eapply supply_less; [exact Hsup|lia]. }
  do 4 (destruct no as [|no]; [injection Hfn as <-; eapply returns_ret; [done|exact Hk]|]).
  destruct no as [|[|no]]; [| |done]; injection Hfn as <-; change (supply (S n) (f_pages s)) in Hsup.
  - unfold __arm64_sys_clone. apply returns_bind. apply (returns_ret _ _ _ _ _ (load_regs_eq s a r Hr)).
    eapply returns_mono; [apply (do_fork_returns fuel s queue forked);
      [done|eapply supply_less; [exact Hsup|lia]|left; rewrite <-Ha; by exists r]|].
    intros _ s' (q' & f' & H1 & H2 & H3 & H4). exists q', f'. split; [done|]. split; [done|]. split; [apply H3; by exists r|by apply H4].
  - unfold __arm64_sys_malloc.
    destruct (get_free_page_supply n (f_pages s) (fi_pages _ _ _ Hinv) Hsup) as (p & pages' & E & Hok & Hu & Hn & _).
    assert (keeps queue a n (lput pages' s)) as Hk'.
    { exists queue, forked. split; [|split; [done|split; [by exists r|done]]]. destruct Hinv. split; eauto. }
    apply returns_bind, returns_zoom. eapply returns_ret; [exact E|].
    destruct (p =? 0); (eapply returns_ret; [done|exact Hk']).
Qed.

(** A system call by a number that is not negative returns. *)
Lemma el0_svc_handler_returns s queue forked a r n :
  fork_inv s queue forked → a = task_pt_regs (current (f_sched s)) → f_regs s !! a = Some r → 0 ≤ s32 (greg 8 r) →
  supply (syscall_pages (s32 (greg 8 r)) + n) (f_pages s) →
  returns (el0_svc_handler fuel a) (λ _, keeps queue a n) s.
Proof.
  intros Hinv Ha Hr Hno Hsup. set (no := s32 (greg 8 r)) in *.
  assert (∀ k s', el0_svc_handler fuel a s = k s' → returns k (λ _, keeps queue a n) s' →
    returns (el0_svc_handler fuel a) (λ _, keeps queue a n) s) as Heq
    by (intros k s' E (x & s2 & E2 & H); exists x, s2; by rewrite E).
  eapply Heq; [exact (el0_svc_handler_eq s a r no Hr eq_refl)|]. clear Heq.
  set (s1 := put_regs a (entered no r) s).
  assert (fork_inv s1 queue forked) as Hinv1 by by apply put_regs_inv.
  assert (is_Some (f_regs s1 !! a)) as Hr1 by (eexists; apply lookup_insert_eq).
  unfold invoke_syscall. apply (returns_seq _ _ (λ _, keeps queue a n)).
  - destruct (Z.ltb_spec no __NR_syscalls) as [Hlt|]; cycle 1.
    { eapply returns_ret; [done|]. exists queue, forked. split; [done|]. split; [done|]. split; [done|].
      eapply supply_less; [exact Hsup|lia]. }
    destruct (lookup_lt_is_Some_2 (syscall_table fuel) (Z.to_nat no)) as [fn Hfn].
    { change (length (syscall_table fuel)) with 6%nat. unfold __NR_syscalls in Hlt. lia. }
    apply returns_bind. apply (returns_ret _ _ _ fn s1).
    { unfold table_at. destruct (Z.ltb_spec no 0); [lia|]. by rewrite Hfn. }
    apply (syscall_keeps s1 queue forked a (Z.to_nat no)); [done..| |done]. by rewrite Z2Nat.id.
  - intros ret s' (q' & f' & H1 & H2 & [r' H3] & H4). eapply returns_ret; [by apply update_regs_eq|].
    exists q', f'. split; [by apply put_regs_inv|]. split; [done|]. split; [|done]. eexists. apply lookup_insert_eq.
Qed.
End lemmas.

(** ** Properties *)

Section properties.
Context `{Hsym : !SchedSymbols} {C : Type} `{Hcon : !Console C} (fuel : nat).
Implicit Types (s : fork_state C).

(** Every system call but clone, by its number. *)
Lemma el0_svc_handler_result s a r no :
  f_regs s !! a = Some r → s32 (greg 8 r) = no → no ≠ __NR_clone → 0 ≤ no → pages_ok (f_pages s) →
  ∃ ret pages',
    el0_svc_handler fuel a s
    = Ret tt (ForkState (f_sched s) pages' (<[a := set_gregs 0 (u64 ret) (entered no r)]> (f_regs s))
                (g_task s) (total_forks s)) ∧
    pages_ok pages' ∧ (∀ q, page_used (f_pages s) q → page_used pages' q) ∧
    if decide (no = __NR_malloc ∧ nr_free (mem_map (f_pages s)) ≠ 0%nat) then
      page_ok ret ∧ ¬ page_used (f_pages s) ret ∧ page_used pages' ret
    else ret = -1 ∧ pages' = f_pages s.
Proof.
  intros Hr Hno Hc Hpos Hok. rewrite (el0_svc_handler_eq fuel s a r no Hr Hno).
  set (s1 := put_regs a (entered no r) s).
  assert (f_regs s1 !! a = Some (entered no r)) as Hr1 by apply lookup_insert_eq.
  assert (∀ fn : Z → M (fork_state C) Z, no < __NR_syscalls → syscall_table fuel !! Z.to_nat no = Some fn → fn a s1 = Ret (-1) s1 →
    invoke_syscall a no __NR_syscalls (syscall_table fuel) s1
    = Ret tt (put_regs a (set_gregs 0 (u64 (-1)) (entered no r)) s)) as Hfail.
  { intros fn Hlt Hfn E. rewrite (invoke_syscall_eq fuel s1 s1 a no fn (-1) _ ltac:(lia) Hfn E Hr1).
    unfold s1. by rewrite put_regs_twice. }
  unfold __NR_clone, __NR_malloc in *. assert (__NR_syscalls = 6) as H6 by done.
  destruct (decide (6 ≤ no)) as [Hbig|Hsmall].
  { exists (-1), (f_pages s). rewrite decide_False by lia. split; [|done].
    unfold invoke_syscall. destruct (Z.ltb_spec no __NR_syscalls); [lia|].
    unfold sys_ni_syscall. rewrite bind_mret, (update_regs_eq s1 a _ _ Hr1). unfold s1. by rewrite put_regs_twice. }
  destruct (decide (no = 5)) as [H5|H5]; cycle 1.
  { exists (-1), (f_pages s). rewrite decide_False by lia. split; [|done].
    assert (no = 0 ∨ no = 1 ∨ no = 2 ∨ no = 3) as [Hn|[Hn|[Hn|Hn]]] by lia;
      eapply Hfail; (lia || rewrite Hn; reflexivity). }
  destruct (decide (nr_free (mem_map (f_pages s)) = 0%nat)) as [H0|H0].
  - exists (-1), (f_pages s). rewrite decide_False by tauto. split; [|done].
    apply (Hfail (__arm64_sys_malloc)); [lia|by rewrite H5|]. unfold __arm64_sys_malloc.
    assert (zoom get_free_page s1 = Ret 0 s1) as E by (unfold zoom; cbn; by rewrite get_free_page_none).
    by rewrite (bind_eq _ _ _ _ _ E).
  - destruct (get_free_page_spec (f_pages s) Hok ltac:(lia)) as (p & pages' & E & Hok' & Hp & Hu & Hu' & _).
    exists p, pages'. rewrite decide_True by tauto.
    split; [|split; [done|split; [by intros; apply Hu'; right|split; [done|split; [done|by apply Hu'; left]]]]].
    assert (__arm64_sys_malloc a s1 = Ret p (lput pages' s1)) as Em.
    { unfold __arm64_sys_malloc.
      assert (zoom get_free_page s1 = Ret p (lput pages' s1)) as E0 by (unfold zoom; cbn; by rewrite E).
      rewrite (bind_eq _ _ _ _ _ E0). destruct Hp as [_ Hp]. destruct (Z.eqb_spec p 0); [page_lia|].
      rewrite s64_id by page_lia. done. }
    rewrite (invoke_syscall_eq fuel s1 (lput pages' s1) a no _ p (entered no r) ltac:(lia)
               ltac:(by rewrite H5) Em Hr1).
    unfold put_regs; cbn. by rewrite insert_insert_eq.
Qed.

(** C29 (functional): a system call other than clone (C12) leaves its number and the first argument in the
    frame and its result in x0, and nothing else of the frame changes: -1 for
    open, close, read, write and for numbers from 6 on, and for malloc the
    address of a fresh page, or -1 when there is none; only malloc changes
    anything outside the frame, and it takes no page from its owner. *)
Theorem el0_svc_handler_effect s a r no :
  f_regs s !! a = Some r → s32 (greg 8 r) = no → no ≠ __NR_clone → 0 ≤ no → pages_ok (f_pages s) →
  ∃ ret pages',
    el0_svc_handler fuel a s
    = Ret tt (ForkState (f_sched s) pages' (<[a := set_gregs 0 (u64 ret) (entered no r)]> (f_regs s))
                (g_task s) (total_forks s)) ∧
    pages_ok pages' ∧ (∀ q, page_used (f_pages s) q → page_used pages' q) ∧
    if decide (no = __NR_malloc ∧ nr_free (mem_map (f_pages s)) ≠ 0%nat) then
      page_ok ret ∧ ¬ page_used (f_pages s) ret ∧ page_used pages' ret
    else ret = -1 ∧ pages' = f_pages s.
Proof. apply el0_svc_handler_result. Qed.

(** C38 (error): the number is compared with the size of the table as a signed
    integer, so a negative one, which user code is free to pass, indexes the
    table before its start. *)
Theorem el0_svc_handler_negative s a r :
  f_regs s !! a = Some r → s32 (greg 8 r) < 0 →
  el0_svc_handler fuel a s = Fault (IndexRange (s32 (greg 8 r))).
Proof.
  intros Hr Hneg. rewrite (el0_svc_handler_eq fuel s a r _ Hr eq_refl). unfold invoke_syscall, __NR_syscalls.
  destruct (Z.ltb_spec (s32 (greg 8 r)) 6); [|lia]. apply bind_fault, bind_fault. unfold table_at.
  by destruct (Z.ltb_spec (s32 (greg 8 r)) 0); [|lia].
Qed.

(** C12 (functional): clone returns twice: the caller finds the child's pid in x0, the
    child, a task of the run queue that enters user space in the same frame,
    finds 0 there and, when it was given one, its stack in sp. *)
Theorem sys_clone_returns_twice s queue forked i r :
  fork_inv s queue forked → (0 < nr_mapped (f_pages s))%nat →
  find_free (map (λ a, negb (a =? 0)) (g_task s)) 0 = Some i →
  (length forked < 127)%nat → (length queue < 127)%nat →
  let a := task_pt_regs (current (f_sched s)) in
  f_regs s !! a = Some r → s32 (greg 8 r) = __NR_clone →
  Z.land (greg 0 r) PF_KTHREAD = 0 → Z.land (greg 1 r) 15 = 0 →
  ∃ p s1 s', el0_svc_handler fuel a s = Ret tt s' ∧
    created s s1 queue forked p i (CpuContext 0 0 0 0 0 0 0 0 0 0 0 (task_pt_regs p) ret_from_fork) ∧
    f_sched s' = f_sched s1 ∧ f_pages s' = f_pages s1 ∧ g_task s' = g_task s1 ∧
    f_regs s' !! a = Some (set_gregs 0 (u64 i) (entered __NR_clone r)) ∧
    f_regs s' !! task_pt_regs p = Some (user_frame (greg 1 r) (entered __NR_clone r)).
Proof.
  intros Hinv Hfree Hfind Hl Hlq a Hr Hno Hk Hal. rewrite (el0_svc_handler_eq fuel s a r _ Hr Hno).
  set (s0 := put_regs a (entered __NR_clone r) s).
  assert (f_regs s0 !! a = Some (entered __NR_clone r)) as Hr0 by apply lookup_insert_eq.
  pose proof (put_regs_inv a (entered __NR_clone r) s queue forked Hinv : fork_inv s0 queue forked) as Hinv0.
  destruct (do_fork_user_ok fuel s0 queue forked (greg 0 r) (greg 1 r) (greg 2 r) i (entered __NR_clone r))
    as (p & s1 & E & Hc & Hne & Hreg & _); [done..|].
  assert (__arm64_sys_clone fuel a s0 = Ret i s1) as Ec
    by (unfold __arm64_sys_clone; by rewrite (bind_eq _ _ _ _ _ (load_regs_eq s0 a _ Hr0))).
  assert (f_regs s1 !! a = Some (entered __NR_clone r)) as Hr1.
  { rewrite Hreg, lookup_insert_ne by done. done. }
  exists p, s1, (put_regs a (set_gregs 0 (u64 i) (entered __NR_clone r)) s1).
  split; [by apply (invoke_syscall_eq fuel s0 s1 a __NR_clone (__arm64_sys_clone fuel))|].
  split; [exact Hc|]. do 3 (split; [done|]). cbn.
  split; [by rewrite lookup_insert_eq|].
  rewrite lookup_insert_ne by done. rewrite Hreg. by rewrite lookup_insert_eq.
Qed.

(** C37 (safety): clone passes the caller's flags on unchecked, and the bit of
    PF_KTHREAD is among them: with it set a user program creates a task that
    runs the function and argument of its choice in the kernel, at EL1. *)
Theorem sys_clone_kernel_thread s queue forked i a r :
  fork_inv s queue forked → (0 < nr_mapped (f_pages s))%nat →
  find_free (map (λ a, negb (a =? 0)) (g_task s)) 0 = Some i →
  (length forked < 127)%nat → (length queue < 127)%nat →
  f_regs s !! a = Some r → Z.land (greg 0 r) PF_KTHREAD ≠ 0 →
  ∃ p s', __arm64_sys_clone fuel a s = Ret i s' ∧
    created s s' queue forked p i
      (CpuContext (greg 1 r) (greg 2 r) 0 0 0 0 0 0 0 0 0 (p + THREAD_SIZE - sizeof_pt_regs) ret_from_fork) ∧
    pstate <$> f_regs s' !! (p + THREAD_SIZE - sizeof_pt_regs) = Some PSR_MODE_EL1h.
Proof.
  intros Hinv Hfree Hfind Hl Hlq Hr Hk. unfold __arm64_sys_clone.
  rewrite (bind_eq _ _ _ _ _ (load_regs_eq s a r Hr)).
  destruct (do_fork_kernel_ok fuel s queue forked (greg 0 r) (greg 1 r) (greg 2 r) i) as (p & s' & E & Hc & Hf & _); [done..|].
  exists p, s'. split; [done|]. split; [done|]. by rewrite Hf, lookup_insert_eq.
Qed.

(** What user code passes to syscall(nr, a0, ..., a6) is what the
    kernel finds: the number in x8, the arguments in x0 to x6. *)
Theorem syscall_stub_arguments nr a0 a1 a2 a3 a4 a5 a6 rest s a r :
  - 2 ^ 31 ≤ nr < 2 ^ 31 → length rest = 23%nat →
  gregs r = syscall_stub ([u64 nr; a0; a1; a2; a3; a4; a5; a6] ++ rest) →
  f_regs s !! a = Some r →
  s32 (greg 8 r) = nr ∧ (∀ k, (k < 7)%nat → greg k r = nth k [a0; a1; a2; a3; a4; a5; a6] 0) ∧
  el0_svc_handler fuel a s
  = invoke_syscall a nr __NR_syscalls (syscall_table fuel) (put_regs a (set_syscallno (u32 nr) (set_orig_x0 a0 r)) s).
Proof.
  intros Hnr Hlen Hg Hr.
  destruct rest as [|x8 rest]; [done|]. cbn in Hg.
  assert (s32 (greg 8 r) = nr) as H8.
  { unfold greg. rewrite Hg. change (nth 8 _ 0) with (u32 (u64 nr)).
    assert (u32 (u64 nr) mod 2 ^ 32 = nr mod 2 ^ 32) as Hm.
    { unfold u32, u64. rewrite Z.mod_mod by lia. symmetry. apply Znumtheory.Zmod_div_mod; [lia..|].
      by exists (2 ^ 32). }
    unfold s32, signed. rewrite Hm. fold (signed 32 nr). by apply s32_id. }
  assert (∀ k, (k < 7)%nat → greg k r = nth k [a0; a1; a2; a3; a4; a5; a6] 0) as Hk.
  { intros k Hk. unfold greg. rewrite Hg. do 7 (destruct k as [|k]; [done|]). lia. }
  split; [exact H8|]. split; [exact Hk|].
  rewrite (el0_svc_handler_eq fuel s a r nr Hr H8). unfold entered. by rewrite (Hk 0%nat) by lia.
Qed.
End properties.

(** ** Instances *)

#[local] Existing Instance Example_sched.symbols.
#[local] Existing Instance log_console.

Module Example_syscall.
(** The first task of the boot, in user space, with given x0, x1, x2 and x8. *)
Definition frame (x0 x1 x2 x8 : Z) : pt_regs :=
  PtRegs ([x0; x1; x2; 3; 4; 5; 6; 7; x8] ++ replicate 22 9) 0x9000 0x85000 PSR_MODE_EL0t 0 0 0 0 0 (0, 0).
Definition addr : Z := task_pt_regs 0x80000.
Definition calling (r : pt_regs) : fork_state (list (string * list karg)) := put_regs addr r Example_fork.boot.

Lemma calling_inv r : fork_inv (calling r) [] [].
Proof. apply put_regs_inv, Example_fork.boot_inv. Qed.
Lemma calling_free r : (0 < nr_mapped (f_pages (calling r)))%nat.
Proof. exact Example_fork.boot_free. Qed.
Lemma calling_frame r : f_regs (calling r) !! addr = Some r.
Proof. apply lookup_insert_eq. Qed.
End Example_syscall.

Lemma el0_svc_handler_effect_witness :
  ∃ s', el0_svc_handler 200 Example_syscall.addr (Example_syscall.calling (Example_syscall.frame 0 1 2 2)) = Ret tt s' ∧
        f_pages s' = pages_boot.
Proof.
  destruct (el0_svc_handler_effect 200 _ _ _ 2 (Example_syscall.calling_frame (Example_syscall.frame 0 1 2 2)))
    as (ret & pages' & E & _ & _ & H); [reflexivity|discriminate|discriminate|exact pages_boot_ok|].
  eexists. split; [exact E|]. rewrite decide_False in H by (intros [? _]; discriminate). exact (proj2 H).
Defined.

Lemma el0_svc_handler_negative_witness :
  el0_svc_handler 200 Example_syscall.addr (Example_syscall.calling (Example_syscall.frame 0 1 2 0xffffffff))
  = Fault (IndexRange (-1)).
Proof.
  exact (el0_svc_handler_negative 200 _ _ _ (Example_syscall.calling_frame (Example_syscall.frame 0 1 2 0xffffffff)) eq_refl).
Defined.

Lemma sys_clone_returns_twice_witness :
  ∃ p s', el0_svc_handler 200 Example_syscall.addr (Example_syscall.calling (Example_syscall.frame 0 0xa000 0 4)) = Ret tt s' ∧
    greg 0 <$> f_regs s' !! Example_syscall.addr = Some 1 ∧ greg 0 <$> f_regs s' !! task_pt_regs p = Some 0 ∧
    regs_sp <$> f_regs s' !! task_pt_regs p = Some 0xa000.
Proof.
  destruct (sys_clone_returns_twice 200 (Example_syscall.calling (Example_syscall.frame 0 0xa000 0 4)) [] [] 1
    (Example_syscall.frame 0 0xa000 0 4)) as (p & s1 & s' & E & _ & _ & _ & _ & H1 & H2);
    [apply Example_syscall.calling_inv|apply Example_syscall.calling_free|reflexivity|cbn; lia|cbn; lia|
     apply Example_syscall.calling_frame|reflexivity..|].
  exists p, s'. split; [exact E|]. split; [exact (f_equal (fmap (greg 0)) H1)|].
  split; [exact (f_equal (fmap (greg 0)) H2)|exact (f_equal (fmap regs_sp) H2)].
Defined.

Lemma sys_clone_kernel_thread_witness :
  ∃ p s', __arm64_sys_clone 200 Example_syscall.addr (Example_syscall.calling (Example_syscall.frame 1 0xdead0 0 4)) = Ret 1 s' ∧
    x19 ∘ context <$> tasks (f_sched s') !! p = Some 0xdead0.
Proof.
  destruct (sys_clone_kernel_thread 200 (Example_syscall.calling (Example_syscall.frame 1 0xdead0 0 4)) [] [] 1
    Example_syscall.addr (Example_syscall.frame 1 0xdead0 0 4)) as (p & s' & E & Hc & _);
    [apply Example_syscall.calling_inv|apply Example_syscall.calling_free|reflexivity|cbn; lia|cbn; lia|
     apply Example_syscall.calling_frame|discriminate|].
  exists p, s'. split; [exact E|].
  destruct Hc as (_ & _ & _ & _ & _ & (t & child & parent & _ & Hch & _ & _ & Hctx & _) & _).
  rewrite Hch. cbn. by rewrite Hctx.
Defined.

Lemma syscall_stub_arguments_witness :
  let r := PtRegs (syscall_stub (map u64 [5; 10; 11; 12; 13; 14; 15; 16] ++ replicate 23 0)) 0 0 0 0 0 0 0 0 (0, 0) in
  s32 (greg 8 r) = 5 ∧ greg 6 r = 16.
Proof.
  intros r.
  destruct (syscall_stub_arguments 200 5 10 11 12 13 14 15 16 (replicate 23 0) (Example_syscall.calling r)
    Example_syscall.addr r) as (H1 & H2 & _); [lia|reflexivity|reflexivity|apply Example_syscall.calling_frame|].
  split; [exact H1|]. rewrite (H2 6%nat) by lia. reflexivity.
Defined.
