(* ===== verification/Traps.v ===== *)
(** * arch/arm64/kernel/traps.c: exception reports

    bad_mode is where the vectors of unexpected exceptions end: it prints the
    syndrome and stops.  A table of strings is a list of the entries that have
    an initialiser; panic ends in [Halt], with what was printed in the state it leaves. *)

From S2P Require Import Prelude Mmio Format Printk Fork.

(** [arch/arm64/include/asm/esr.h:6-6] ESR_ELx_EC_UNKNOWN *)
Definition ESR_ELx_EC_UNKNOWN : Z := 0x0.
(** [arch/arm64/include/asm/esr.h:7-7] ESR_ELx_EC_WFx *)
Definition ESR_ELx_EC_WFx : Z := 0x1.
(** [arch/arm64/include/asm/esr.h:9-9] ESR_ELx_EC_CP15_32 *)
Definition ESR_ELx_EC_CP15_32 : Z := 0x3.
(** [arch/arm64/include/asm/esr.h:10-10] ESR_ELx_EC_CP15_64 *)
Definition ESR_ELx_EC_CP15_64 : Z := 0x4.
(** [arch/arm64/include/asm/esr.h:11-11] ESR_ELx_EC_CP14_MR *)
Definition ESR_ELx_EC_CP14_MR : Z := 0x5.
(** [arch/arm64/include/asm/esr.h:12-12] ESR_ELx_EC_CP14_LS *)
Definition ESR_ELx_EC_CP14_LS : Z := 0x6.
(** [arch/arm64/include/asm/esr.h:13-13] ESR_ELx_EC_FP_ASIMD *)
Definition ESR_ELx_EC_FP_ASIMD : Z := 0x7.
(** [arch/arm64/include/asm/esr.h:14-14] ESR_ELx_EC_CP10_ID *)
Definition ESR_ELx_EC_CP10_ID : Z := 0x8.
(** [arch/arm64/include/asm/esr.h:16-16] ESR_ELx_EC_CP14_64 *)
Definition ESR_ELx_EC_CP14_64 : Z := 0xc.
(** [arch/arm64/include/asm/esr.h:18-18] ESR_ELx_EC_ILL *)
Definition ESR_ELx_EC_ILL : Z := 0xe.
(** [arch/arm64/include/asm/esr.h:20-20] ESR_ELx_EC_SVC32 *)
Definition ESR_ELx_EC_SVC32 : Z := 0x11.
(** [arch/arm64/include/asm/esr.h:21-21] ESR_ELx_EC_HVC32 *)
Definition ESR_ELx_EC_HVC32 : Z := 0x12.
(** [arch/arm64/include/asm/esr.h:22-22] ESR_ELx_EC_SMC32 *)
Definition ESR_ELx_EC_SMC32 : Z := 0x13.
(** [arch/arm64/include/asm/esr.h:24-24] ESR_ELx_EC_SVC64 *)
Definition ESR_ELx_EC_SVC64 : Z := 0x15.
(** [arch/arm64/include/asm/esr.h:25-25] ESR_ELx_EC_HVC64 *)
Definition ESR_ELx_EC_HVC64 : Z := 0x16.
(** [arch/arm64/include/asm/esr.h:26-26] ESR_ELx_EC_SMC64 *)
Definition ESR_ELx_EC_SMC64 : Z := 0x17.
(** [arch/arm64/include/asm/esr.h:27-27] ESR_ELx_EC_SYS64 *)
Definition ESR_ELx_EC_SYS64 : Z := 0x18.
(** [arch/arm64/include/asm/esr.h:29-29] ESR_ELx_EC_IMP_DEF *)
Definition ESR_ELx_EC_IMP_DEF : Z := 0x1f.
(** [arch/arm64/include/asm/esr.h:30-30] ESR_ELx_EC_IABT_LOW *)
Definition ESR_ELx_EC_IABT_LOW : Z := 0x20.
(** [arch/arm64/include/asm/esr.h:31-31] ESR_ELx_EC_IABT_CUR *)
Definition ESR_ELx_EC_IABT_CUR : Z := 0x21.
(** [arch/arm64/include/asm/esr.h:32-32] ESR_ELx_EC_PC_ALIGN *)
Definition ESR_ELx_EC_PC_ALIGN : Z := 0x22.
(** [arch/arm64/include/asm/esr.h:34-34] ESR_ELx_EC_DABT_LOW *)
Definition ESR_ELx_EC_DABT_LOW : Z := 0x24.
(** [arch/arm64/include/asm/esr.h:35-35] ESR_ELx_EC_DABT_CUR *)
Definition ESR_ELx_EC_DABT_CUR : Z := 0x25.
(** [arch/arm64/include/asm/esr.h:36-36] ESR_ELx_EC_SP_ALIGN *)
Definition ESR_ELx_EC_SP_ALIGN : Z := 0x26.
(** [arch/arm64/include/asm/esr.h:38-38] ESR_ELx_EC_FP_EXC32 *)
Definition ESR_ELx_EC_FP_EXC32 : Z := 0x28.
(** [arch/arm64/include/asm/esr.h:40-40] ESR_ELx_EC_FP_EXC64 *)
Definition ESR_ELx_EC_FP_EXC64 : Z := 0x2c.
(** [arch/arm64/include/asm/esr.h:42-42] ESR_ELx_EC_SERROR *)
Definition ESR_ELx_EC_SERROR : Z := 0x2f.
(** [arch/arm64/include/asm/esr.h:43-43] ESR_ELx_EC_BREAKPT_LOW *)
Definition ESR_ELx_EC_BREAKPT_LOW : Z := 0x30.
(** [arch/arm64/include/asm/esr.h:44-44] ESR_ELx_EC_BREAKPT_CUR *)
Definition ESR_ELx_EC_BREAKPT_CUR : Z := 0x31.
(** [arch/arm64/include/asm/esr.h:45-45] ESR_ELx_EC_SOFTSTP_LOW *)
Definition ESR_ELx_EC_SOFTSTP_LOW : Z := 0x32.
(** [arch/arm64/include/asm/esr.h:46-46] ESR_ELx_EC_SOFTSTP_CUR *)
Definition ESR_ELx_EC_SOFTSTP_CUR : Z := 0x33.
(** [arch/arm64/include/asm/esr.h:47-47] ESR_ELx_EC_WATCHPT_LOW *)
Definition ESR_ELx_EC_WATCHPT_LOW : Z := 0x34.
(** [arch/arm64/include/asm/esr.h:48-48] ESR_ELx_EC_WATCHPT_CUR *)
Definition ESR_ELx_EC_WATCHPT_CUR : Z := 0x35.
(** [arch/arm64/include/asm/esr.h:50-50] ESR_ELx_EC_BKPT32 *)
Definition ESR_ELx_EC_BKPT32 : Z := 0x38.
(** [arch/arm64/include/asm/esr.h:52-52] ESR_ELx_EC_VECTOR32 *)
Definition ESR_ELx_EC_VECTOR32 : Z := 0x3a.
(** [arch/arm64/include/asm/esr.h:54-54] ESR_ELx_EC_BRK64 *)
Definition ESR_ELx_EC_BRK64 : Z := 0x3c.
(** [arch/arm64/include/asm/esr.h:56-56] ESR_ELx_EC_MAX *)
Definition ESR_ELx_EC_MAX : Z := 0x3f.
(** [arch/arm64/include/asm/esr.h:58-58] ESR_ELx_SET_SHIFT *)
Definition ESR_ELx_SET_SHIFT : Z := 11.
(** [arch/arm64/include/asm/esr.h:59-59] ESR_ELx_FnV_SHIFT *)
Definition ESR_ELx_FnV_SHIFT : Z := 10.
(** [arch/arm64/include/asm/esr.h:60-60] ESR_ELx_EA_SHIFT *)
Definition ESR_ELx_EA_SHIFT : Z := 9.
(** [arch/arm64/include/asm/esr.h:61-61] ESR_ELx_CM_SHIFT *)
Definition ESR_ELx_CM_SHIFT : Z := 8.
(** [arch/arm64/include/asm/esr.h:62-62] ESR_ELx_S1PTW_SHIFT *)
Definition ESR_ELx_S1PTW_SHIFT : Z := 7.
(** [arch/arm64/include/asm/esr.h:63-63] ESR_ELx_WNR_SHIFT *)
Definition ESR_ELx_WNR_SHIFT : Z := 6.
(** [arch/arm64/include/asm/esr.h:65-65] ESR_ELx_EC_SHIFT *)
Definition ESR_ELx_EC_SHIFT : Z := 26.
(** [arch/arm64/include/asm/esr.h:66-66] ESR_ELx_EC_MASK *)
Definition ESR_ELx_EC_MASK : Z := u32 (Z.shiftl 0x3F ESR_ELx_EC_SHIFT).
(** [arch/arm64/include/asm/esr.h:69-69] ESR_ELx_IL *)
Definition ESR_ELx_IL : Z := Z.shiftl 1 25.
(** [arch/arm64/include/asm/esr.h:71-71] ESR_ELx_ISV *)
Definition ESR_ELx_ISV : Z := Z.shiftl 1 24.
(** [arch/arm64/include/asm/esr.h:72-72] ESR_ELx_SAS_SHIFT *)
Definition ESR_ELx_SAS_SHIFT : Z := 22.
(** [arch/arm64/include/asm/esr.h:73-73] ESR_ELx_SAS *)
Definition ESR_ELx_SAS : Z := Z.shiftl 3 ESR_ELx_SAS_SHIFT.
(** [arch/arm64/include/asm/esr.h:74-74] ESR_ELx_SSE_SHIFT *)
Definition ESR_ELx_SSE_SHIFT : Z := 21.
(** [arch/arm64/include/asm/esr.h:75-75] ESR_ELx_SSE *)
Definition ESR_ELx_SSE : Z := Z.shiftl 1 21.
(** [arch/arm64/include/asm/esr.h:76-76] ESR_ELx_SRT_SHIFT *)
Definition ESR_ELx_SRT_SHIFT : Z := 16.
(** [arch/arm64/include/asm/esr.h:77-77] ESR_ELx_SRT_MASK *)
Definition ESR_ELx_SRT_MASK : Z := Z.shiftl 0x1F ESR_ELx_SRT_SHIFT.
(** [arch/arm64/include/asm/esr.h:78-78] ESR_ELx_SF_SHIFT *)
Definition ESR_ELx_SF_SHIFT : Z := 15.
(** [arch/arm64/include/asm/esr.h:79-79] ESR_ELx_SF *)
Definition ESR_ELx_SF : Z := Z.shiftl 1 15.
(** [arch/arm64/include/asm/esr.h:80-80] ESR_ELx_AR_SHIFT *)
Definition ESR_ELx_AR_SHIFT : Z := 14.
(** [arch/arm64/include/asm/esr.h:81-81] ESR_ELx_AR *)
Definition ESR_ELx_AR : Z := Z.shiftl 1 14.
(** [arch/arm64/include/asm/esr.h:83-83] ESR_ELx_CM *)
Definition ESR_ELx_CM : Z := Z.shiftl 1 8.
(** [arch/arm64/include/asm/esr.h:85-85] ESR_ELx_WNR *)
Definition ESR_ELx_WNR : Z := Z.shiftl 1 6.
(** [arch/arm64/include/asm/esr.h:67-67] ESR_ELx_EC *)
Definition ESR_ELx_EC (esr : Z) : Z := Z.shiftr (Z.land esr ESR_ELx_EC_MASK) ESR_ELx_EC_SHIFT.

(** ** Tables *)

(** An entry of a table of strings with designated initialisers; a later
    initialiser replaces an earlier one. *)
Fixpoint entry (table : list (Z * string)) (i : Z) : option string :=
  match table with
  | [] => None
  | (j, s) :: table => match entry table i with Some s' => Some s' | None => if i =? j then Some s else None end
  end.

(** [arch/arm64/kernel/traps.c:6-11] bad_mode_handler *)
Definition bad_mode_handler : list string := ["Sync Abort"; "IRQ"; "FIQ"; "SError"].

(** [arch/arm64/kernel/traps.c:13-51] ESR_CLASS_STR: the entries that replace
    the default *)
Definition ESR_CLASS_STR : list (Z * string) :=
  [(ESR_ELx_EC_UNKNOWN, "Unknown/Uncategorized");
   (ESR_ELx_EC_WFx, "WFI/WFE");
   (ESR_ELx_EC_CP15_32, "CP15 MCR/MRC");
   (ESR_ELx_EC_CP15_64, "CP15 MCRR/MRRC");
   (ESR_ELx_EC_CP14_MR, "CP14 MCR/MRC");
   (ESR_ELx_EC_CP14_LS, "CP14 LDC/STC");
   (ESR_ELx_EC_FP_ASIMD, "ASIMD");
   (ESR_ELx_EC_CP10_ID, "CP10 MRC/VMRS");
   (ESR_ELx_EC_CP14_64, "CP14 MCRR/MRRC");
   (ESR_ELx_EC_ILL, "PSTATE.IL");
   (ESR_ELx_EC_SVC32, "SVC (AArch32)");
   (ESR_ELx_EC_HVC32, "HVC (AArch32)");
   (ESR_ELx_EC_SMC32, "SMC (AArch32)");
   (ESR_ELx_EC_SVC64, "SVC (AArch64)");
   (ESR_ELx_EC_HVC64, "HVC (AArch64)");
   (ESR_ELx_EC_SMC64, "SMC (AArch64)");
   (ESR_ELx_EC_SYS64, "MSR/MRS (AArch64)");
   (ESR_ELx_EC_IMP_DEF, "EL3 IMP DEF");
   (ESR_ELx_EC_IABT_LOW, "IABT (lower EL)");
   (ESR_ELx_EC_IABT_CUR, "IABT (current EL)");
   (ESR_ELx_EC_PC_ALIGN, "PC Alignment");
   (ESR_ELx_EC_DABT_LOW, "DABT (lower EL)");
   (ESR_ELx_EC_DABT_CUR, "DABT (current EL)");
   (ESR_ELx_EC_SP_ALIGN, "SP Alignment");
   (ESR_ELx_EC_FP_EXC32, "FP (AArch32)");
   (ESR_ELx_EC_FP_EXC64, "FP (AArch64)");
   (ESR_ELx_EC_SERROR, "SError");
   (ESR_ELx_EC_BREAKPT_LOW, "Breakpoint (lower EL)");
   (ESR_ELx_EC_BREAKPT_CUR, "Breakpoint (current EL)");
   (ESR_ELx_EC_SOFTSTP_LOW, "Software Step (lower EL)");
   (ESR_ELx_EC_SOFTSTP_CUR, "Software Step (current EL)");
   (ESR_ELx_EC_WATCHPT_LOW, "Watchpoint (lower EL)");
   (ESR_ELx_EC_WATCHPT_CUR, "Watchpoint (current EL)");
   (ESR_ELx_EC_BKPT32, "BKPT (AArch32)");
   (ESR_ELx_EC_VECTOR32, "Vector catch (AArch32)");
   (ESR_ELx_EC_BRK64, "BRK (AArch64)")].

(** [arch/arm64/kernel/traps.c:58-75] DATA_FAULT_CODE: an array of 0x36 strings,
    null where there is no initialiser *)
Definition DATA_FAULT_CODE : list (Z * string) :=
  [(0, "Address size fault, level0");
   (1, "Address size fault, level1");
   (2, "Address size fault, level2");
   (3, "Address size fault, level3");
   (4, "Translation fault, level0");
   (5, "Translation fault, level1");
   (6, "Translation fault, level2");
   (7, "Translation fault, level3");
   (9, "Access flag fault, level1");
   (10, "Access flag fault, level2");
   (11, "Access flag fault, level3");
   (13, "Permission fault, level1");
   (14, "Permission fault, level2");
   (15, "Permission fault, level3");
   (0x21, "Alignment fault");
   (0x35, "Unsupported Exclusive or Atomic access")].
Definition DATA_FAULT_CODES : Z := 0x36.

(** ** The code *)

Section traps.
Context {C : Type} `{Hcon : !Console C} (P : platform).
Abbreviation K := (M (trace * C)).

Definition say (fmt : string) (args : list karg) : K unit := zoom (modify (console_printk fmt args)).
Definition str (s : string) : karg := KStr (Some (chars s)).

(** [arch/arm64/kernel/traps.c:53-56] esr_get_class_string: the array has an entry
    for every class *)
Definition esr_get_class_string (esr : Z) : string :=
  default "UNRECOGNIZED EC" (entry ESR_CLASS_STR (Z.shiftr esr ESR_ELx_EC_SHIFT)).

(** [arch/arm64/kernel/traps.c:77-80] esr_get_dfsc_string *)
Definition esr_get_dfsc_string (esr : Z) : K (option string) :=
  let i := Z.land esr 0x3f in
  if i <? DATA_FAULT_CODES then mret (entry DATA_FAULT_CODE i) else throw (IndexRange i).

(** [arch/arm64/kernel/traps.c:84-119] parse_esr *)
Definition parse_esr (esr : Z) : K unit :=
  let ec := ESR_ELx_EC esr in
  say ("ESR info:" +++ nl) [] ;;
  say ("  ESR = 0x%08x" +++ nl) [KInt esr] ;;
  say ("  Exception class = %s, IL = %u bits" +++ nl)
    [str (esr_get_class_string esr); KInt (if negb (Z.land esr ESR_ELx_IL =? 0) then 32 else 16)] ;;
  when ((ec =? ESR_ELx_EC_DABT_LOW) || (ec =? ESR_ELx_EC_DABT_CUR)) (
    say ("  Data abort:" +++ nl) [] ;;
    when (negb (Z.land esr ESR_ELx_ISV =? 0)) (
      say ("  Access size = %u byte(s)" +++ nl)
        [KInt (u32 (Z.shiftl 1 (Z.shiftr (Z.land esr ESR_ELx_SAS) ESR_ELx_SAS_SHIFT)))] ;;
      say ("  SSE = %lu, SRT = %lu" +++ nl)
        [KInt (Z.shiftr (Z.land esr ESR_ELx_SSE) ESR_ELx_SSE_SHIFT);
         KInt (Z.shiftr (Z.land esr ESR_ELx_SRT_MASK) ESR_ELx_SRT_SHIFT)] ;;
      say ("  SF = %lu, AR = %lu" +++ nl)
        [KInt (Z.shiftr (Z.land esr ESR_ELx_SF) ESR_ELx_SF_SHIFT);
         KInt (Z.shiftr (Z.land esr ESR_ELx_AR) ESR_ELx_AR_SHIFT)]) ;;
    say ("  SET = %lu, FnV = %lu" +++ nl)
      [KInt (Z.land (Z.shiftr esr ESR_ELx_SET_SHIFT) 3); KInt (Z.land (Z.shiftr esr ESR_ELx_FnV_SHIFT) 1)] ;;
    say ("  EA = %lu, S1PTW = %lu" +++ nl)
      [KInt (Z.land (Z.shiftr esr ESR_ELx_EA_SHIFT) 1); KInt (Z.land (Z.shiftr esr ESR_ELx_S1PTW_SHIFT) 1)] ;;
    say ("  CM = %lu, WnR = %lu" +++ nl)
      [KInt (Z.shiftr (Z.land esr ESR_ELx_CM) ESR_ELx_CM_SHIFT);
       KInt (Z.shiftr (Z.land esr ESR_ELx_WNR) ESR_ELx_WNR_SHIFT)] ;;
    dfsc ← esr_get_dfsc_string esr;
    say ("  DFSC = %s" +++ nl) [KStr (chars <$> dfsc)]).

(** [arch/arm64/kernel/traps.c:121-126] panic *)
Definition panic : K unit := say ("Kernel panic" +++ nl) [] ;; halt.

(** [arch/arm64/kernel/traps.c:128-141] bad_mode, whose first argument is unused; up to
    the call of panic *)
Definition bad_mode_report (reason esr : Z) : K unit :=
  reason ← (if 4 <=? reason then
    say ("bad mode reason: 0x%08x" +++ nl) [KInt reason] ;;
    el ← zoom (read_sysreg P "CurrentEL");
    say ("%s: running at EL%d" +++ nl) [str "bad_mode"; KInt (Z.shiftr el 2)] ;;
    mret (Z.land reason 0x3)
  else mret reason);
  handler ← (if reason <? 0 then throw (IndexRange reason)
             else of_option (IndexRange reason) (bad_mode_handler !! Z.to_nat reason));
  far ← zoom (read_sysreg P "far_el1");
  say ("Bad mode for %s handler detected, FAR: 0x%x esr: 0x%x - %s" +++ nl)
    [str handler; KInt far; KInt esr; str (esr_get_class_string esr)] ;;
  parse_esr esr.

(** [arch/arm64/kernel/traps.c:128-141] bad_mode *)
Definition bad_mode (reason esr : Z) : K unit := bad_mode_report reason esr ;; panic.
End traps.

(** ** Lemmas *)

(** Bits [lo .. lo + w - 1] of a syndrome. *)
Definition field (esr lo w : Z) : Z := esr / 2 ^ lo mod 2 ^ w.

Lemma shiftr_field esr lo w : 0 ≤ lo → 0 ≤ w → Z.land (Z.shiftr esr lo) (2 ^ w - 1) = field esr lo w.
Proof. intros. unfold field. by rewrite land_low, Z.shiftr_div_pow2. Qed.

Lemma mask_field esr lo w :
  0 ≤ lo → 0 ≤ w → Z.shiftr (Z.land esr (Z.shiftl (2 ^ w - 1) lo)) lo = field esr lo w.
Proof.
  intros. rewrite Z.shiftr_land, Z.shiftr_shiftl_l, Z.sub_diag, Z.shiftl_0_r by lia. by apply shiftr_field.
Qed.

Lemma bit_set esr i : 0 ≤ i → Z.land esr (Z.shiftl 1 i) = 0 ↔ field esr i 1 = 0.
Proof.
  intros Hi. unfold field. change (2 ^ 1) with 2. rewrite <-Z.bit0_mod. rewrite <-Z.shiftr_div_pow2 by done.
  rewrite Z.shiftr_spec, Z.add_0_l by lia. split.
  - intros H0. apply (f_equal (λ z, Z.testbit z i)) in H0.
    rewrite Z.land_spec, Z.shiftl_spec, Z.sub_diag, Z.bits_0 in H0 by done.
    rewrite andb_true_r in H0. by rewrite H0.
  - intros H0. apply Z.bits_inj'. intros n Hn. rewrite Z.land_spec, Z.shiftl_spec, Z.bits_0 by done.
    destruct (decide (n = i)) as [->|Hne]; [by destruct (Z.testbit esr i)|].
    destruct (Z.testbit esr n); [|done]. cbn [andb].
    destruct (decide (n < i)); [by apply Z.testbit_neg_r; lia|].
    apply (testbit_small 1 1); lia.
Qed.

(** What the exception class says. *)
Definition data_abort (esr : Z) : bool := (field esr 26 6 =? 0x24) || (field esr 26 6 =? 0x25).

(** The report on a syndrome, in the architecture's fields. *)
Definition esr_report (esr : Z) : list (string * list karg) :=
  [("ESR info:" +++ nl, []);
   ("  ESR = 0x%08x" +++ nl, [KInt esr]);
   ("  Exception class = %s, IL = %u bits" +++ nl,
     [str (default "UNRECOGNIZED EC" (entry ESR_CLASS_STR (field esr 26 6))); KInt (if field esr 25 1 =? 0 then 16 else 32)])] ++
  if negb (data_abort esr) then [] else
  [("  Data abort:" +++ nl, [])] ++
  (if field esr 24 1 =? 0 then [] else
   [("  Access size = %u byte(s)" +++ nl, [KInt (2 ^ field esr 22 2)]);
    ("  SSE = %lu, SRT = %lu" +++ nl, [KInt (field esr 21 1); KInt (field esr 16 5)]);
    ("  SF = %lu, AR = %lu" +++ nl, [KInt (field esr 15 1); KInt (field esr 14 1)])]) ++
  [("  SET = %lu, FnV = %lu" +++ nl, [KInt (field esr 11 2); KInt (field esr 10 1)]);
   ("  EA = %lu, S1PTW = %lu" +++ nl, [KInt (field esr 9 1); KInt (field esr 7 1)]);
   ("  CM = %lu, WnR = %lu" +++ nl, [KInt (field esr 8 1); KInt (field esr 6 1)]);
   ("  DFSC = %s" +++ nl, [KStr (chars <$> entry DATA_FAULT_CODE (field esr 0 6))])].

(** What bad_mode prints: the reason and the level for a reason from 4 on, which no vector
    passes, then the handler's name, the fault address, the syndrome and its fields. *)
Definition bad_mode_lines (reason el far esr : Z) : list (string * list karg) :=
  (if reason <? 4 then [] else
   [("bad mode reason: 0x%08x" +++ nl, [KInt reason]);
    ("%s: running at EL%d" +++ nl, [str "bad_mode"; KInt (el / 4)])]) ++
  [("Bad mode for %s handler detected, FAR: 0x%x esr: 0x%x - %s" +++ nl,
     [str (nth (Z.to_nat (reason mod 4)) ["Sync Abort"; "IRQ"; "FIQ"; "SError"] ""); KInt far; KInt esr;
      str (default "UNRECOGNIZED EC" (entry ESR_CLASS_STR (field esr 26 6)))])] ++
  esr_report esr ++ [("Kernel panic" +++ nl, [])].

Definition print_all {C} `{!Console C} (l : list (string * list karg)) (c : C) : C :=
  foldl (λ c m, console_printk (fst m) (snd m) c) c l.

Section lemmas.
Context {C : Type} `{Hcon : !Console C} (P : platform).
Implicit Types (tr : trace) (c : C).

Lemma say_eq fmt args tr c : say fmt args (tr, c) = Ret tt (tr, console_printk fmt args c).
Proof. done. Qed.

Lemma ec_field esr : 0 ≤ esr < 2 ^ 32 → ESR_ELx_EC esr = field esr 26 6 ∧ Z.shiftr esr 26 = field esr 26 6.
Proof.
  intros He. assert (field esr 26 6 = Z.shiftr esr 26) as Hf.
  { unfold field. rewrite Z.shiftr_div_pow2 by lia. apply Z.mod_small.
    split; [apply Z.div_pos; lia|apply Z.div_lt_upper_bound; lia]. }
  split; [|done]. unfold ESR_ELx_EC, ESR_ELx_EC_SHIFT. change ESR_ELx_EC_MASK with (Z.shiftl (2 ^ 6 - 1) 26).
  by apply mask_field.
Qed.

Lemma parse_esr_eq esr tr c :
  0 ≤ esr < 2 ^ 32 →
  parse_esr esr (tr, c)
  = if data_abort esr && (DATA_FAULT_CODES <=? field esr 0 6) then Fault (IndexRange (field esr 0 6))
    else Ret tt (tr, print_all (esr_report esr) c).
Proof.
  intros He. destruct (ec_field esr He) as [Hec Hcl]. unfold parse_esr. rewrite Hec. unfold esr_get_class_string.
  change ESR_ELx_EC_SHIFT with 26. rewrite Hcl. unfold esr_report.
  assert ((if negb (Z.land esr ESR_ELx_IL =? 0) then 32 else 16) = (if field esr 25 1 =? 0 then 16 else 32)) as ->.
  { pose proof (bit_set esr 25 ltac:(lia)). change ESR_ELx_IL with (Z.shiftl 1 25).
    destruct (Z.eqb_spec (Z.land esr (Z.shiftl 1 25)) 0), (Z.eqb_spec (field esr 25 1) 0); tauto. }
  change (field esr 26 6 =? ESR_ELx_EC_DABT_LOW) with (field esr 26 6 =? 0x24).
  change (field esr 26 6 =? ESR_ELx_EC_DABT_CUR) with (field esr 26 6 =? 0x25).
  fold (data_abort esr). destruct (data_abort esr); cbn [negb andb when]; [|done].
  assert (negb (Z.land esr ESR_ELx_ISV =? 0) = negb (field esr 24 1 =? 0)) as ->.
  { pose proof (bit_set esr 24 ltac:(lia)). change ESR_ELx_ISV with (Z.shiftl 1 24).
    destruct (Z.eqb_spec (Z.land esr (Z.shiftl 1 24)) 0), (Z.eqb_spec (field esr 24 1) 0); tauto. }
  change (Z.shiftr (Z.land esr ESR_ELx_SAS) ESR_ELx_SAS_SHIFT) with (Z.shiftr (Z.land esr (Z.shiftl (2 ^ 2 - 1) 22)) 22).
  change (Z.shiftr (Z.land esr ESR_ELx_SSE) ESR_ELx_SSE_SHIFT) with (Z.shiftr (Z.land esr (Z.shiftl (2 ^ 1 - 1) 21)) 21).
  change (Z.shiftr (Z.land esr ESR_ELx_SRT_MASK) ESR_ELx_SRT_SHIFT) with (Z.shiftr (Z.land esr (Z.shiftl (2 ^ 5 - 1) 16)) 16).
  change (Z.shiftr (Z.land esr ESR_ELx_SF) ESR_ELx_SF_SHIFT) with (Z.shiftr (Z.land esr (Z.shiftl (2 ^ 1 - 1) 15)) 15).
  change (Z.shiftr (Z.land esr ESR_ELx_AR) ESR_ELx_AR_SHIFT) with (Z.shiftr (Z.land esr (Z.shiftl (2 ^ 1 - 1) 14)) 14).
  change (Z.shiftr (Z.land esr ESR_ELx_CM) ESR_ELx_CM_SHIFT) with (Z.shiftr (Z.land esr (Z.shiftl (2 ^ 1 - 1) 8)) 8).
  change (Z.shiftr (Z.land esr ESR_ELx_WNR) ESR_ELx_WNR_SHIFT) with (Z.shiftr (Z.land esr (Z.shiftl (2 ^ 1 - 1) 6)) 6).
  rewrite !mask_field by lia.
  change (Z.land (Z.shiftr esr ESR_ELx_SET_SHIFT) 3) with (Z.land (Z.shiftr esr 11) (2 ^ 2 - 1)).
  change (Z.land (Z.shiftr esr ESR_ELx_FnV_SHIFT) 1) with (Z.land (Z.shiftr esr 10) (2 ^ 1 - 1)).
  change (Z.land (Z.shiftr esr ESR_ELx_EA_SHIFT) 1) with (Z.land (Z.shiftr esr 9) (2 ^ 1 - 1)).
  change (Z.land (Z.shiftr esr ESR_ELx_S1PTW_SHIFT) 1) with (Z.land (Z.shiftr esr 7) (2 ^ 1 - 1)).
  rewrite !shiftr_field by lia.
  assert (u32 (Z.shiftl 1 (field esr 22 2)) = 2 ^ field esr 22 2) as ->.
  { assert (0 ≤ field esr 22 2 < 4) by (apply Z.mod_pos_bound; lia). rewrite Z.shiftl_mul_pow2, Z.mul_1_l by lia.
    apply u32_id. split; [apply Z.pow_nonneg; lia|apply Z.pow_lt_mono_r; lia]. }
  unfold esr_get_dfsc_string. assert (Z.land esr 0x3f = field esr 0 6) as ->
    by (change 0x3f with (2 ^ 6 - 1); rewrite land_low by lia; unfold field; by rewrite Z.div_1_r).
  destruct (field esr 24 1 =? 0); cbn [negb when app];
    destruct (Z.ltb_spec (field esr 0 6) DATA_FAULT_CODES), (Z.leb_spec DATA_FAULT_CODES (field esr 0 6)); (lia || done).
Qed.
End lemmas.

(** ** Properties *)

Section properties.
Context {C : Type} `{Hcon : !Console C} (P : platform).
Implicit Types (tr : trace) (c : C).

(** C34 (functional): parse_esr prints the class of the exception and, for a data abort,
    every field of the architecture's syndrome, those about the access just when
    the syndrome is valid.  Fault status codes from 0x36 on, which the
    architecture has, are past the end of the table of their names. *)
Theorem parse_esr_report esr tr c :
  0 ≤ esr < 2 ^ 32 →
  parse_esr esr (tr, c)
  = if data_abort esr && (DATA_FAULT_CODES <=? field esr 0 6) then Fault (IndexRange (field esr 0 6))
    else Ret tt (tr, print_all (esr_report esr) c).
Proof. apply parse_esr_eq. Qed.

(** Bad_mode does not return to the code that trapped, for any reason
    code: it reports, panics and stops, unless the table of fault codes stops it first. *)
Theorem bad_mode_stops reason esr tr c :
  0 ≤ reason < 2 ^ 31 → 0 ≤ esr < 2 ^ 32 →
  let el := u64 (sysreg_read P tr "CurrentEL") in
  let tr1 := if reason <? 4 then tr else Mrs "CurrentEL" el :: tr in
  let far := u64 (sysreg_read P tr1 "far_el1") in
  bad_mode P reason esr (tr, c)
  = if data_abort esr && (DATA_FAULT_CODES <=? field esr 0 6) then Fault (IndexRange (field esr 0 6))
    else Halt (Mrs "far_el1" far :: tr1, print_all (bad_mode_lines reason el far esr) c).
Proof.
  intros Hr He el tr1 far. unfold bad_mode, bad_mode_report.
  set (first := if reason <? 4 then [] else
   [("bad mode reason: 0x%08x" +++ nl, [KInt reason]); ("%s: running at EL%d" +++ nl, [str "bad_mode"; KInt (el / 4)])]).
  set (c1 := print_all first c).
  assert ((if 4 <=? reason then
       say ("bad mode reason: 0x%08x" +++ nl) [KInt reason] ;;
       el ← zoom (read_sysreg P "CurrentEL");
       say ("%s: running at EL%d" +++ nl) [str "bad_mode"; KInt (Z.shiftr el 2)] ;;
       mret (Z.land reason 0x3)
     else mret reason) (tr, c) = Ret (reason mod 4) (tr1, c1)) as E.
  { unfold tr1, c1, first. destruct (Z.leb_spec 4 reason).
    - rewrite (proj2 (Z.ltb_ge _ _)) by done. change 0x3 with (2 ^ 2 - 1). rewrite land_low by lia.
      change (el / 4) with (el / 2 ^ 2). rewrite <-Z.shiftr_div_pow2 by lia. done.
    - rewrite (proj2 (Z.ltb_lt _ _)), Z.mod_small by lia. done. }
  rewrite (bind_assoc _ _ _ (tr, c)), (bind_eq _ _ _ _ _ E).
  pose proof (Z.mod_pos_bound reason 4 ltac:(lia)) as Hk. set (k := reason mod 4) in *.
  destruct (Z.ltb_spec k 0); [lia|].
  destruct (lookup_lt_is_Some_2 bad_mode_handler (Z.to_nat k)) as [h Hh]; [cbn; lia|]. rewrite Hh. cbn [of_option].
  rewrite (bind_assoc _ _ _ (tr1, c1)), bind_mret.
  rewrite (bind_assoc (zoom (read_sysreg P "far_el1")) _ _ (tr1, c1)).
  assert (zoom (read_sysreg P "far_el1") (tr1, c1) = Ret far (Mrs "far_el1" far :: tr1, c1)) as Ef by done.
  rewrite (bind_eq _ _ _ _ _ Ef). rewrite (bind_assoc (say _ _) _ _ _), (bind_eq _ _ _ _ _ (say_eq _ _ _ _)).
  unfold mbind, M_bind. rewrite parse_esr_eq by done. destruct (_ && _); [done|].
  unfold panic. rewrite (bind_eq _ _ _ _ _ (say_eq _ _ _ _)). unfold halt. f_equal. f_equal.
  unfold bad_mode_lines, print_all. fold first. rewrite !foldl_app. fold (print_all first c). fold c1.
  cbn [foldl fst snd]. change bad_mode_handler with ["Sync Abort"; "IRQ"; "FIQ"; "SError"] in Hh.
  fold k. rewrite (nth_lookup_Some _ _ "" _ Hh). unfold esr_get_class_string. by rewrite (proj2 (ec_field esr He) : Z.shiftr esr ESR_ELx_EC_SHIFT = _).
Qed.
End properties.

#[local] Existing Instance log_console.

Lemma parse_esr_report_witness :
  parse_esr 0x96000046 ([], []) = Ret tt ([], print_all (esr_report 0x96000046) []) ∧
  length (print_all (esr_report 0x96000046) ([] : list (string * list karg))) = 8%nat ∧
  parse_esr 0x96000037 ([], [] : list (string * list karg)) = Fault (IndexRange 0x37).
Proof.
  split; [exact (parse_esr_report 0x96000046 [] [] ltac:(lia))|]. split; [by vm_compute|].
  exact (parse_esr_report 0x96000037 [] [] ltac:(lia)).
Defined.

Lemma bad_mode_stops_witness :
  ∃ tr c, bad_mode {| dev_read := λ _ _, 0; sysreg_read := λ _ _, 4 |} 5 0x56000000 ([], [] : list (string * list karg))
          = Halt (tr, c) ∧ length c = 7%nat.
Proof.
  eexists _, _. split;
    [exact (bad_mode_stops {| dev_read := λ _ _, 0; sysreg_read := λ _ _, 4 |} 5 0x56000000 [] [] ltac:(lia) ltac:(lia))|reflexivity].
Defined.
