(* ===== verification/CacheInfo.v ===== *)
(** * arch/arm64/kernel/cacheinfo.c: the cache hierarchy

    The identification registers are the platform's; each read is in the trace. *)

From S2P Require Import Prelude Mmio Format Printk Fork Traps.

(** [arch/arm64/kernel/cacheinfo.c:9-9] CACHE_TYPE_NOCACHE *)
Definition CACHE_TYPE_NOCACHE : Z := 0.
(** [arch/arm64/kernel/cacheinfo.c:10-12] CACHE_TYPE_SEPARATE *)
Definition CACHE_TYPE_SEPARATE : Z := Z.lor (Z.shiftl 1 0) (Z.shiftl 1 1).
(** [arch/arm64/kernel/cacheinfo.c:13-13] CACHE_TYPE_UNIFIED *)
Definition CACHE_TYPE_UNIFIED : Z := Z.shiftl 1 2.
(** [arch/arm64/kernel/cacheinfo.c:16-22] cache_type_string *)
Definition cache_type_string : list string := ["nocache"; "i-cache"; "d-cache"; "separate cache"; "unifed cache"].
(** [arch/arm64/kernel/cacheinfo.c:24-33] icache_policy_str *)
Definition icache_policy_str : list string := ["VPIPT"; "RESERVED/UNKNOWN"; "VIPT"; "PIPT"].
(** [arch/arm64/kernel/cacheinfo.c:35-36] CTR_L1IP_SHIFT *)
Definition CTR_L1IP_SHIFT : Z := 14.
(** [arch/arm64/kernel/cacheinfo.c:40-41] CTR_CWG_SHIFT *)
Definition CTR_CWG_SHIFT : Z := 24.
(** [arch/arm64/kernel/cacheinfo.c:45-45] CTR_L1IP *)
Definition CTR_L1IP (ctr : Z) : Z := Z.land (Z.shiftr ctr CTR_L1IP_SHIFT) 3.
(** [arch/arm64/kernel/cacheinfo.c:47-48] CSSELR_LEVEL_SHIFT *)
Definition CSSELR_LEVEL_SHIFT : Z := 1.
(** [arch/arm64/kernel/cacheinfo.c:50-51] CCSIDR_NUMSETS_MASK *)
Definition CCSIDR_NUMSETS_SHIFT : Z := 13.
Definition CCSIDR_NUMSETS_MASK : Z := Z.shiftl 0x1fff CCSIDR_NUMSETS_SHIFT.
(** [arch/arm64/kernel/cacheinfo.c:52-53] CCSIDR_ASS_MASK *)
Definition CCSIDR_ASS_SHIFT : Z := 3.
Definition CCSIDR_ASS_MASK : Z := Z.shiftl 0x3ff CCSIDR_ASS_SHIFT.
(** [arch/arm64/kernel/cacheinfo.c:54-54] CCSIDR_LINESIZE_MASK *)
Definition CCSIDR_LINESIZE_MASK : Z := 0x7.
(** [arch/arm64/kernel/cacheinfo.c:57-57] MAX_CACHE_LEVEL *)
Definition MAX_CACHE_LEVEL : Z := 7.
(** [arch/arm64/kernel/cacheinfo.c:59-67] CLIDR_ICB, CLIDR_LOUU, CLIDR_LOC and
    CLIDR_LOUIS, given their shift *)
Definition CLIDR_FIELD (shift clidr : Z) : Z := Z.land (Z.shiftr clidr shift) 0x7.
(** [arch/arm64/kernel/cacheinfo.c:70-70] CLIDR_CTYPE_SHIFT *)
Definition CLIDR_CTYPE_SHIFT (level : Z) : Z := 3 * (level - 1).
(** [arch/arm64/kernel/cacheinfo.c:71-73] CLIDR_CTYPE *)
Definition CLIDR_CTYPE (clidr level : Z) : Z :=
  Z.shiftr (Z.land clidr (Z.shiftl 7 (CLIDR_CTYPE_SHIFT level))) (CLIDR_CTYPE_SHIFT level).

Section cacheinfo.
Context {C : Type} `{Hcon : !Console C} (P : platform).
Abbreviation K := (M (trace * C)).

Definition sysreg (reg : string) : K Z := zoom (read_sysreg P reg).
Definition string_at (table : list string) (i : Z) : K string :=
  if i <? 0 then throw (IndexRange i) else of_option (IndexRange i) (table !! Z.to_nat i).

(** [arch/arm64/kernel/cacheinfo.c:75-78] cache_type_cwg *)
Definition cache_type_cwg : K Z := ctr ← sysreg "CTR_EL0"; mret (Z.land (Z.shiftr ctr CTR_CWG_SHIFT) 15).

(** [arch/arm64/kernel/cacheinfo.c:81-85] cache_line_size *)
Definition cache_line_size : K Z := cwg ← cache_type_cwg; mret (Z.shiftl 4 cwg).

(** [arch/arm64/kernel/cacheinfo.c:88-96] get_cache_type *)
Definition get_cache_type (level : Z) : K Z :=
  if MAX_CACHE_LEVEL <? level then mret CACHE_TYPE_NOCACHE else
  clidr ← sysreg "clidr_el1";
  mret (CLIDR_CTYPE clidr level).

(** [arch/arm64/kernel/cacheinfo.c:106-133] get_cache_set_way *)
Definition get_cache_set_way (level ind : Z) : K unit :=
  let tmp := Z.lor (Z.shiftl (level - 1) CSSELR_LEVEL_SHIFT) ind in
  zoom (write_sysreg tmp "CSSELR_EL1") ;;
  val ← sysreg "CCSIDR_EL1";
  let set := Z.shiftr (Z.land val CCSIDR_NUMSETS_MASK) CCSIDR_NUMSETS_SHIFT + 1 in
  let way := Z.shiftr (Z.land val CCSIDR_ASS_MASK) CCSIDR_ASS_SHIFT + 1 in
  let line_size := Z.shiftl 1 (Z.land val CCSIDR_LINESIZE_MASK + 4) in
  say ("          %s: set %u way %u line_size %u size %uKB" +++ nl)
    [str (if negb (ind =? 0) then "i-cache" else "d/u cache"); KInt set; KInt way; KInt line_size;
     KInt (u32 (u32 (line_size * way) * set) / 1024)].

(** [arch/arm64/kernel/cacheinfo.c:142-157] init_cache_info: the loop over the
    levels, one round *)
Definition cache_level (level : Z) : K (Z + Z) :=
  if level <=? MAX_CACHE_LEVEL then
    ctype ← get_cache_type level;
    if ctype =? CACHE_TYPE_NOCACHE then mret (inr (level - 1)) else
    name ← string_at cache_type_string ctype;
    line ← cache_line_size;
    say ("   L%u: %s, cache line size %u" +++ nl) [KInt level; str name; KInt line] ;;
    (if ctype =? CACHE_TYPE_SEPARATE then get_cache_set_way level 1 ;; get_cache_set_way level 0
     else when (ctype =? CACHE_TYPE_UNIFIED) (get_cache_set_way level 0)) ;;
    mret (inl (level + 1))
  else mret (inr level).

(** [arch/arm64/kernel/cacheinfo.c:135-175] init_cache_info *)
Definition init_cache_info : K Z :=
  say ("parse cache info:" +++ nl) [] ;;
  level ← loop 8 cache_level 1;
  clidr ← sysreg "clidr_el1";
  let clidr := u32 clidr in
  say ("   IBC:%u LOUU:%u LoC:%u LoUIS:%u" +++ nl)
    [KInt (CLIDR_FIELD 30 clidr); KInt (CLIDR_FIELD 27 clidr); KInt (CLIDR_FIELD 24 clidr); KInt (CLIDR_FIELD 21 clidr)] ;;
  ctr ← sysreg "ctr_el0";
  let ctr := u32 ctr in
  policy ← string_at icache_policy_str (CTR_L1IP ctr);
  say ("   Detected %s I-cache" +++ nl) [str policy] ;;
  mret level.
End cacheinfo.

(** ** Lemmas *)

(** CLIDR_EL1 as the architecture gives it: three bits per level. *)
Definition ctype (clidr level : Z) : Z := field clidr (3 * (level - 1)) 3.

(** Code that only reads and writes registers and prints: it runs from any state. *)
Definition runs {C X} (k : M (trace * C) X) : Prop := ∀ s, ∃ a s', k s = Ret a s'.

Section runs.
Context {C : Type} `{Hcon : !Console C} (P : platform).

Lemma runs_bind {X Y} (k : M (trace * C) X) (h : X → M (trace * C) Y) :
  runs k → (∀ a, runs (h a)) → runs (k ≫= h).
Proof.
  intros Hk Hh s. destruct (Hk s) as (a & s1 & E). destruct (Hh a s1) as (b & s2 & E2).
  exists b, s2. by rewrite (bind_eq _ _ _ _ _ E).
Qed.
Lemma runs_mret {X} (a : X) : runs (mret a : M (trace * C) X).
Proof. intros s. by exists a, s. Qed.
Lemma runs_say fmt args : runs (say fmt args : M (trace * C) unit).
Proof. intros [tr c]. by eexists _, _. Qed.
Lemma runs_read reg : runs (zoom (read_sysreg P reg) : M (trace * C) Z).
Proof. intros [tr c]. by eexists _, _. Qed.
Lemma runs_write v reg : runs (zoom (write_sysreg v reg) : M (trace * C) unit).
Proof. intros [tr c]. by eexists _, _. Qed.
End runs.

Create HintDb runs.
#[export] Hint Resolve runs_bind runs_mret runs_say runs_read runs_write : runs.

Section lemmas.
Context {C : Type} `{Hcon : !Console C} (P : platform) (clidr : Z).
Context (Hclidr : ∀ tr, u64 (sysreg_read P tr "clidr_el1") = clidr).
Implicit Types (tr : trace) (c : C).

Lemma get_cache_type_eq level tr c :
  1 ≤ level ≤ 7 → get_cache_type P level (tr, c) = Ret (ctype clidr level) (Mrs "clidr_el1" clidr :: tr, c).
Proof.
  intros Hl. unfold get_cache_type, MAX_CACHE_LEVEL. destruct (Z.ltb_spec 7 level); [lia|].
  unfold sysreg, zoom, read_sysreg, mbind, M_bind; cbn. rewrite Hclidr. unfold mret, M_ret. f_equal.
  unfold CLIDR_CTYPE, CLIDR_CTYPE_SHIFT, ctype. change 7 with (2 ^ 3 - 1). apply mask_field; lia.
Qed.

Lemma get_cache_set_way_runs level ind : runs (get_cache_set_way P level ind).
Proof. unfold get_cache_set_way, sysreg. auto with runs. Qed.

Lemma cache_line_size_runs : runs (C:=C) (cache_line_size P).
Proof. unfold cache_line_size, cache_type_cwg, sysreg. auto with runs. Qed.

Lemma string_at_eq table i x s :
  0 ≤ i → table !! Z.to_nat i = Some x → string_at (C:=C) table i s = Ret x s.
Proof. intros Hi Hx. unfold string_at. destruct (Z.ltb_spec i 0); [lia|]. by rewrite Hx. Qed.

Lemma cache_level_present level tr c :
  1 ≤ level ≤ 7 → 1 ≤ ctype clidr level ≤ 4 → ∃ tr' c', cache_level P level (tr, c) = Ret (inl (level + 1)) (tr', c').
Proof.
  intros Hl Ht. unfold cache_level, MAX_CACHE_LEVEL. destruct (Z.leb_spec level 7); [|lia].
  rewrite (bind_eq _ _ _ _ _ (get_cache_type_eq level tr c Hl)).
  destruct (Z.eqb_spec (ctype clidr level) CACHE_TYPE_NOCACHE) as [H0|_]; [unfold CACHE_TYPE_NOCACHE in H0; lia|].
  assert (∃ x, cache_type_string !! Z.to_nat (ctype clidr level) = Some x) as [x Hx].
  { apply lookup_lt_is_Some_2. cbn. lia. }
  rewrite (bind_eq _ _ _ _ _ (string_at_eq _ (ctype clidr level) x _ ltac:(lia) Hx)).
  destruct (cache_line_size_runs (Mrs "clidr_el1" clidr :: tr, c)) as (n & [tr1 c1] & E1).
  rewrite (bind_eq _ _ _ _ _ E1), (bind_eq _ _ _ _ _ (say_eq _ _ _ _)).
  set (k := if ctype clidr level =? CACHE_TYPE_SEPARATE then _ else _).
  assert (runs k) as Hrun.
  { pose proof get_cache_set_way_runs. unfold k, when, skip. repeat case_match; auto with runs. }
  destruct (Hrun (tr1, console_printk ("   L%u: %s, cache line size %u" +++ nl) [KInt level; str x; KInt n] c1))
    as ([] & [tr2 c2] & E2).
  rewrite (bind_eq _ _ _ _ _ E2). by exists tr2, c2.
Qed.

Lemma cache_level_absent level tr c :
  1 ≤ level ≤ 7 → ctype clidr level = 0 → ∃ tr', cache_level P level (tr, c) = Ret (inr (level - 1)) (tr', c).
Proof.
  intros Hl Ht. unfold cache_level, MAX_CACHE_LEVEL. destruct (Z.leb_spec level 7); [|lia].
  rewrite (bind_eq _ _ _ _ _ (get_cache_type_eq level tr c Hl)), Ht. by eexists.
Qed.

Lemma cache_level_reserved level tr c :
  1 ≤ level ≤ 7 → 5 ≤ ctype clidr level → cache_level P level (tr, c) = Fault (IndexRange (ctype clidr level)).
Proof.
  intros Hl Ht. unfold cache_level, MAX_CACHE_LEVEL. destruct (Z.leb_spec level 7); [|lia].
  rewrite (bind_eq _ _ _ _ _ (get_cache_type_eq level tr c Hl)).
  destruct (Z.eqb_spec (ctype clidr level) CACHE_TYPE_NOCACHE) as [H0|_]; [unfold CACHE_TYPE_NOCACHE in H0; lia|].
  apply bind_fault. unfold string_at. destruct (Z.ltb_spec (ctype clidr level) 0); [lia|].
  by rewrite lookup_ge_None_2 by (cbn; lia).
Qed.

(** The loop passes over the first [k] levels when they are present. *)
Lemma levels_present k n tr c :
  Z.of_nat k ≤ 7 → (∀ l, 1 ≤ l ≤ Z.of_nat k → 1 ≤ ctype clidr l ≤ 4) →
  ∃ tr' c', loop (k + n) (cache_level P) 1 (tr, c) = loop n (cache_level P) (1 + Z.of_nat k) (tr', c').
Proof.
  intros Hk Hp.
  assert (∀ j i tr c, 1 ≤ i → i + Z.of_nat j = 1 + Z.of_nat k →
    ∃ tr' c', loop (j + n) (cache_level P) i (tr, c) = loop n (cache_level P) (i + Z.of_nat j) (tr', c')) as Hj.
  { induction j as [|j IH]; intros i tr0 c0 Hi Hik; [exists tr0, c0; by rewrite Z.add_0_r|].
    destruct (cache_level_present i tr0 c0) as (tr1 & c1 & E); [lia|apply Hp; lia|].
    destruct (IH (i + 1) tr1 c1) as (tr2 & c2 & E2); [lia..|]. exists tr2, c2.
    cbn [Nat.add]. rewrite (loop_more _ _ _ _ _ _ E), E2. by replace (i + Z.of_nat (S j)) with (i + 1 + Z.of_nat j) by lia. }
  by apply Hj.
Qed.

Lemma init_cache_info_levels level tr c tr' c' :
  loop 8 (cache_level P) 1 (tr, console_printk ("parse cache info:" +++ nl) [] c) = Ret level (tr', c') →
  ∃ s', init_cache_info P (tr, c) = Ret level s'.
Proof.
  intros E. unfold init_cache_info. rewrite (bind_eq _ _ _ _ _ (say_eq _ _ _ _)), (bind_eq _ _ _ _ _ E).
  unfold sysreg.
  assert (zoom (read_sysreg P "clidr_el1") (tr', c') = Ret clidr (Mrs "clidr_el1" clidr :: tr', c')) as E1
    by (unfold zoom, read_sysreg; cbn; by rewrite Hclidr).
  rewrite (bind_eq _ _ _ _ _ E1). cbv zeta. rewrite (bind_eq _ _ _ _ _ (say_eq _ _ _ _)).
  set (tr1 := _ :: tr'). set (ctr := u64 (sysreg_read P tr1 "ctr_el0")).
  set (c1 := console_printk _ _ c').
  assert (zoom (read_sysreg P "ctr_el0") (tr1, c1) = Ret ctr (Mrs "ctr_el0" ctr :: tr1, c1)) as E2 by done.
  rewrite (bind_eq _ _ _ _ _ E2). unfold CTR_L1IP. change 3 with (2 ^ 2 - 1). rewrite land_low by lia.
  pose proof (Z.mod_pos_bound (Z.shiftr (u32 ctr) CTR_L1IP_SHIFT) (2 ^ 2) ltac:(lia)) as Hm.
  set (i := _ mod 2 ^ 2) in *.
  assert (∃ x, icache_policy_str !! Z.to_nat i = Some x) as [x Hx] by (apply lookup_lt_is_Some_2; cbn; lia).
  rewrite (bind_eq _ _ _ _ _ (string_at_eq _ i x _ ltac:(lia) Hx)). by eexists.
Qed.
End lemmas.

(** ** Properties *)

Section properties.
Context {C : Type} `{Hcon : !Console C} (P : platform) (clidr : Z).
Implicit Types (tr : trace) (c : C).

(** Init_cache_info returns how many cache levels CLIDR_EL1 says there
    are before the first absent one, except that it says 8 when all seven are
    present; a reserved cache type indexes the table of names past its end. *)
Theorem init_cache_info_count k tr c :
  (∀ tr, u64 (sysreg_read P tr "clidr_el1") = clidr) →
  0 ≤ k ≤ 7 → (∀ l, 1 ≤ l ≤ k → 1 ≤ ctype clidr l ≤ 4) →
  (k = 7 → ∃ s', init_cache_info P (tr, c) = Ret 8 s') ∧
  (k < 7 → ctype clidr (k + 1) = 0 → ∃ s', init_cache_info P (tr, c) = Ret k s') ∧
  (k < 7 → 5 ≤ ctype clidr (k + 1) → init_cache_info P (tr, c) = Fault (IndexRange (ctype clidr (k + 1)))).
Proof.
  intros Hclidr Hk Hp. set (c1 := console_printk ("parse cache info:" +++ nl) [] c).
  destruct (levels_present P clidr Hclidr (Z.to_nat k) (8 - Z.to_nat k) tr c1) as (tr1 & c2 & E);
    [lia|intros l Hl; apply Hp; lia|].
  replace (Z.to_nat k + (8 - Z.to_nat k))%nat with 8%nat in E by lia.
  replace (8 - Z.to_nat k)%nat with (S (7 - Z.to_nat k))%nat in E by lia.
  replace (1 + Z.of_nat (Z.to_nat k)) with (k + 1) in E by lia. split; [|split].
  - intros ->. apply (init_cache_info_levels P clidr Hclidr 8 tr c tr1 c2). fold c1. rewrite E. by apply loop_done.
  - intros Hlt H0. destruct (cache_level_absent P clidr Hclidr (k + 1) tr1 c2) as (tr2 & E2); [lia|done|].
    apply (init_cache_info_levels P clidr Hclidr k tr c tr2 c2). fold c1. rewrite E.
    rewrite (loop_done _ _ _ _ _ _ E2). by replace (k + 1 - 1) with k by lia.
  - intros Hlt H5. unfold init_cache_info. rewrite (bind_eq _ _ _ _ _ (say_eq _ _ _ _)). apply bind_fault.
    fold c1. rewrite E. apply loop_fault; [lia|]. apply cache_level_reserved; [done|lia|done].
Qed.
End properties.

#[local] Existing Instance log_console.

(** A Cortex-A76: separate first level, unified second and third. *)
Lemma init_cache_info_count_witness :
  ∃ s', init_cache_info {| dev_read := λ _ _, 0; sysreg_read := λ _ _, 0x123 |} ([], []) = Ret 3 s'.
Proof.
  destruct (init_cache_info_count {| dev_read := λ _ _, 0; sysreg_read := λ _ _, 0x123 |} 0x123 3 [] [])
    as (_ & H & _); [done|lia| |apply H; [lia|reflexivity]].
  intros l Hl. assert (l = 1 ∨ l = 2 ∨ l = 3) as [->|[->| ->]] by lia; by_decision.
Defined.
