(* ===== verification/DumpPgtable.v ===== *)
(** * arch/arm64/mach-rpi/dump_pgtable.c: printing and editing the page tables

    The dump walks the tables mmu.c built; [fuel] bounds its loops, of which one
    does not end on every range. *)

From S2P Require Import Prelude Memory CString Mmio Uart Format Printk PageAlloc PgTable Mmu.

(** ** Data *)

(** [arch/arm64/mach-rpi/dump_pgtable.c:18-23] prot_bits *)
Record prot_bits : Type := ProtBits {
  pb_mask : Z;
  pb_val : Z;
  pb_set : option string;
  pb_clear : option string;
}.

Definition PTE_ATTRINDX_MASK : Z := Z.shiftl 7 2.

(** [arch/arm64/mach-rpi/dump_pgtable.c:32-103] pte_bits *)
Definition pte_bits : list prot_bits := [
  ProtBits PTE_VALID PTE_VALID (Some " ") (Some "F");
  ProtBits PTE_USER PTE_USER (Some "USR") (Some "   ");
  ProtBits PTE_RDONLY PTE_RDONLY (Some "ro") (Some "RW");
  ProtBits PTE_PXN PTE_PXN (Some "NX") (Some "x ");
  ProtBits PTE_SHARED PTE_SHARED (Some "SHD") (Some "   ");
  ProtBits PTE_AF PTE_AF (Some "AF") (Some "  ");
  ProtBits PTE_NG PTE_NG (Some "NG") (Some "  ");
  ProtBits PTE_CONT PTE_CONT (Some "CON") (Some "   ");
  ProtBits PTE_TABLE_BIT PTE_TABLE_BIT (Some "   ") (Some "BLK");
  ProtBits PTE_UXN PTE_UXN (Some "UXN") None;
  ProtBits PTE_ATTRINDX_MASK (PTE_ATTRINDX MT_DEVICE_nGnRnE) (Some "DEVICE/nGnRnE") None;
  ProtBits PTE_ATTRINDX_MASK (PTE_ATTRINDX MT_DEVICE_nGnRE) (Some "DEVICE/nGnRE") None;
  ProtBits PTE_ATTRINDX_MASK (PTE_ATTRINDX MT_DEVICE_GRE) (Some "DEVICE/GRE") None;
  ProtBits PTE_ATTRINDX_MASK (PTE_ATTRINDX MT_NORMAL_NC) (Some "MEM/NORMAL-NC") None;
  ProtBits PTE_ATTRINDX_MASK (PTE_ATTRINDX MT_NORMAL) (Some "MEM/NORMAL") None
].

(** [arch/arm64/mach-rpi/dump_pgtable.c:25-30] pg_level; [num] is the length of [bits] *)
Record pg_level : Type := PgLevel {
  lv_bits : option (list prot_bits);
  lv_name : option string;
  lv_mask : Z;
}.

(** [arch/arm64/mach-rpi/dump_pgtable.c:105-128] pg_level: the table, by level *)
Definition pg_level_boot : list pg_level := [
  PgLevel None None 0;
  PgLevel (Some pte_bits) (Some "PGD") 0;
  PgLevel (Some pte_bits) (Some "PUD") 0;
  PgLevel (Some pte_bits) (Some "PMD") 0;
  PgLevel (Some pte_bits) (Some "PTE") 0
].

(** [arch/arm64/mach-rpi/dump_pgtable.c:130-132] address_markers *)
Definition address_markers : list (Z * string) := [(0, "Identical mapping")].

Record dump_state (C : Type) : Type := DumpState {
  d_mem : memory;
  d_levels : list pg_level;
  d_trace : trace;
  d_console : C;
}.
Arguments DumpState {C}. Arguments d_mem {C}. Arguments d_levels {C}.
Arguments d_trace {C}. Arguments d_console {C}.

#[export] Program Instance lens_d_mem C : Lens (dump_state C) memory := {|
  lget := d_mem; lput := λ x s, DumpState x (d_levels s) (d_trace s) (d_console s);
|}.
Solve All Obligations with by intros; repeat match goal with p : dump_state _ |- _ => destruct p end.
#[export] Program Instance lens_d_trace C : Lens (dump_state C) trace := {|
  lget := d_trace; lput := λ x s, DumpState (d_mem s) (d_levels s) x (d_console s);
|}.
Solve All Obligations with by intros; repeat match goal with p : dump_state _ |- _ => destruct p end.

(** ** The code *)

Section dump.
Context {C : Type} `{Hcon : !Console C} `{Hsym : !MmuSymbols} (fuel : nat).
Abbreviation D := (M (dump_state C)).

Definition dprint (fmt : string) (args : list karg) : D unit :=
  modify (λ s, DumpState (d_mem s) (d_levels s) (d_trace s) (console_printk fmt args (d_console s))).
Definition cstr (s : option string) : karg := KStr (chars <$> s).
Definition level_at (level : Z) : D pg_level := λ s,
  match d_levels s !! Z.to_nat level with Some l => Ret l s | None => Fault (IndexRange level) end.

(** [arch/arm64/mach-rpi/dump_pgtable.c:134-149] dump_prot *)
Fixpoint dump_prot (prot : Z) (bits : list prot_bits) : D unit :=
  match bits with
  | [] => skip
  | b :: bits =>
      let s := if Z.land prot (pb_mask b) =? pb_val b then pb_set b else pb_clear b in
      match s with Some s => dprint " %s" [cstr (Some s)] | None => skip end ;;
      dump_prot prot bits
  end.

(** [arch/arm64/mach-rpi/dump_pgtable.c:169-173] print_pgtable: the loop that scales the
    size; its test of units[1] is always true.  The answer is the size in the
    unit and the unit's index in "KMGT". *)
Definition scale_size (delta : Z) : D (Z * Z) :=
  loop fuel (λ '(delta, unit),
    if Z.land delta 1023 =? 0 then mret (inl (Z.shiftr delta 10, unit + 1)) else mret (inr (delta, unit))) (delta, 0).

Definition units : list Z := chars "KMGT" ++ [0].
Definition unit_at (i : Z) : D Z := of_option (IndexRange i) (units !! Z.to_nat i).

(** [arch/arm64/mach-rpi/dump_pgtable.c:151-182] print_pgtable *)
Definition print_pgtable (start end' level val : Z) : D Z :=
  lv ← level_at level;
  let prot := Z.land val (lv_mask lv) in
  foldr (λ '(a, name) k,
    when (start =? a) (dprint ("---[ %s ]---" +++ nl) [cstr (Some name)]) ;; k) skip address_markers ;;
  if val =? 0 then mret 0 else
  dprint "0x%016lx-0x%016lx   " [KInt start; KInt end'] ;;
  r ← scale_size (Z.shiftr (u64 (end' - start)) 10);
  let '(delta, unit) := r in
  u ← unit_at unit;
  dprint "%9lu%c %s" [KInt delta; KInt u; cstr (lv_name lv)] ;;
  match lv_bits lv with Some bits => dump_prot prot bits | None => skip end ;;
  dprint nl [] ;;
  mret 0.

Definition dderef (p : Z) : D Z := zoom (load64 p).

(** [arch/arm64/mach-rpi/dump_pgtable.c:184-192] walk_pte *)
Definition walk_pte (pmdp start end' : Z) : D unit :=
  pmd ← dderef pmdp;
  loop fuel (λ '(ptep, addr),
    pte ← dderef ptep;
    print_pgtable addr (u64 (addr + PAGE_SIZE)) 4 pte ;;
    let addr := u64 (addr + PAGE_SIZE) in
    if addr =? end' then mret (inr tt) else mret (inl (ptep + 8, addr)))
    (pte_offset_phys pmd start, start).

(** [arch/arm64/mach-rpi/dump_pgtable.c:194-212] walk_pmd *)
Definition walk_pmd (pudp start end' : Z) : D unit :=
  pud ← dderef pudp;
  loop fuel (λ '(pmdp, addr),
    pmd ← dderef pmdp;
    let next := pmd_addr_end addr end' in
    (if pgd_none pmd || pmd_sect pmd then print_pgtable addr next 3 pmd ;; skip
     else dprint ("        PMD Entry: 0x%016lx-0x%016lx" +++ nl) [KInt addr; KInt next] ;;
          walk_pte pmdp addr next) ;;
    if next =? end' then mret (inr tt) else mret (inl (pmdp + 8, next)))
    (pmd_offset_phys pud start, start).

(** [arch/arm64/mach-rpi/dump_pgtable.c:214-232] walk_pud *)
Definition walk_pud (pgdp start end' : Z) : D unit :=
  pgd ← dderef pgdp;
  loop fuel (λ '(pudp, addr),
    pud ← dderef pudp;
    let next := pud_addr_end start end' in
    (if pgd_none pud || pmd_sect pud then print_pgtable addr next 2 pud ;; skip
     else dprint ("    PUD Entry: 0x%016lx-0x%016lx" +++ nl) [KInt addr; KInt next] ;;
          walk_pmd pudp addr next) ;;
    if next =? end' then mret (inr tt) else mret (inl (pudp + 8, next)))
    (pud_offset_phys pgd start, start).

(** [arch/arm64/mach-rpi/dump_pgtable.c:234-254] walk_pgd *)
Definition walk_pgd (pgd start size : Z) : D unit :=
  let end' := u64 (start + size) in
  loop fuel (λ '(pgdp, addr),
    pgd_entry ← dderef pgdp;
    let next := pgd_addr_end addr end' in
    (if pgd_none pgd_entry then print_pgtable addr next 1 pgd_entry ;; skip
     else dprint ("PGD Entry: 0x%016lx-0x%016lx" +++ nl) [KInt addr; KInt next] ;;
          walk_pud pgdp addr next) ;;
    if next =? end' then mret (inr tt) else mret (inl (pgdp + 8, next)))
    (pgd_offset_raw pgd start, start).

(** [arch/arm64/mach-rpi/dump_pgtable.c:256-264] pg_level_init *)
Definition pg_level_init : D unit :=
  modify (λ s, DumpState (d_mem s)
    (map (λ lv, match lv_bits lv with
                | Some bits => PgLevel (lv_bits lv) (lv_name lv) (foldl (λ m b, Z.lor m (pb_mask b)) (lv_mask lv) bits)
                | None => lv
                end) (d_levels s)) (d_trace s) (d_console s)).

(** [arch/arm64/mach-rpi/dump_pgtable.c:266-294] walk_pgtable; 0 is a null pointer *)
Definition walk_pgtable (address : Z) : M memory Z :=
  let pgd := pgd_offset_raw idmap_pgd_dir address in
  if pgd =? 0 then mret 0 else
  e ← load64 pgd;
  if pgd_none e then mret 0 else
  let pud := pud_offset_phys e address in
  if pud =? 0 then mret 0 else
  e ← load64 pud;
  if pgd_none e then mret 0 else
  let pmd := pmd_offset_phys e address in
  if pmd =? 0 then mret 0 else
  e ← load64 pmd;
  if pgd_none e then mret 0 else
  if Z.land e PMD_TYPE_MASK =? PMD_TYPE_SECT then mret pmd else
  let pte := pte_offset_phys e address in
  if pte =? 0 then mret 0 else
  e ← load64 pte;
  if pgd_none e then mret 0 else mret pte.

(** [arch/arm64/mach-rpi/dump_pgtable.c:296-319] test_walk_pgtable, for the page the
    linker script reserves; a null [ptep] is dereferenced *)
Definition test_walk_pgtable (readonly_page : Z) : D unit :=
  let addr := readonly_page in
  ptep ← zoom (walk_pgtable addr);
  if ptep =? 0 then throw NullDeref else
  pte ← dderef ptep;
  dprint ("Test Page:0x%lx, pte value: 0x%lx" +++ nl) [KInt addr; KInt pte] ;;
  let pte_new := pte_mkyoung pte in
  let pte_new := pte_mkwrite pte_new in
  zoom (store64 ptep pte_new) ;; zoom (barrier "dsb ishst") ;;
  walk_pgd idmap_pgd_dir addr PAGE_SIZE ;;
  zoom (memset readonly_page 0x55 100) ;;
  dprint ("write readonly page done" +++ nl) [].

(** [arch/arm64/mach-rpi/dump_pgtable.c:321-326] dump_pgtable *)
Definition dump_pgtable : D unit :=
  pg_level_init ;;
  walk_pgd idmap_pgd_dir 0 TOTAL_MEMORY ;;
  walk_pgd idmap_pgd_dir PBASE DEVICE_SIZE.
End dump.

(** ** Lemmas *)

Section lemmas.
Context {C : Type} `{Hcon : !Console C} `{Hsym : !MmuSymbols}.

(** A loop whose every round goes round again never returns. *)
Lemma loop_never_returns {S A B} (body : A → M S (A + B)) :
  (∀ a s b s', body a s ≠ Ret (inr b) s') → ∀ n a s b s', loop n body a s ≠ Ret b s'.
Proof.
  intros Hb n; induction n as [|n IH]; intros a s b s' E; [done|].
  apply bind_inv in E as ([a'|b'] & s1 & E1 & E2); [by apply IH in E2|by apply Hb in E1].
Qed.

Lemma scale_size_zero (n : nat) unit (s : dump_state C) :
  loop n (λ '(delta, unit),
    if Z.land delta 1023 =? 0 then mret (inl (Z.shiftr delta 10, unit + 1)) else mret (inr (delta, unit)))
    (0, unit) s = Hang.
Proof. revert unit; induction n as [|n IH]; intros unit; [done|]. exact (IH (unit + 1)). Qed.

Lemma scale_size_loop (n : nat) delta unit (s : dump_state C) :
  0 < delta < 1024 ^ Z.of_nat n →
  ∃ d u, loop n (λ '(delta, unit),
      if Z.land delta 1023 =? 0 then mret (inl (Z.shiftr delta 10, unit + 1)) else mret (inr (delta, unit)))
      (delta, unit) s = Ret (d, u) s ∧
    unit ≤ u ∧ u < unit + Z.of_nat n ∧ delta = d * 1024 ^ (u - unit) ∧ d mod 1024 ≠ 0.
Proof.
  revert delta unit; induction n as [|n IH]; intros delta unit Hd.
  { change (1024 ^ Z.of_nat 0) with 1 in Hd. lia. }
  rewrite Nat2Z.inj_succ, Z.pow_succ_r in Hd by lia.
  assert (Z.land delta 1023 = delta mod 1024) as Hl by (change 1023 with (2 ^ 10 - 1); by rewrite land_low).
  destruct (Z.eqb_spec (delta mod 1024) 0) as [Hz|Hz].
  - pose proof (Z.div_mod delta 1024 ltac:(lia)) as Hdm.
    destruct (IH (delta / 1024) (unit + 1)) as (d & u & E & H1 & H2 & H3 & H4).
    { split; [lia|]. apply Z.div_lt_upper_bound; lia. }
    exists d, u. split; [|split; [lia|split; [lia|split; [|done]]]].
    + rewrite (loop_more _ _ _ (delta / 1024, unit + 1) s s); [done|].
      rewrite Hl, Hz, Z.shiftr_div_pow2 by lia. done.
    + replace (u - unit) with (Z.succ (u - (unit + 1))) by lia. rewrite Z.pow_succ_r by lia. lia.
  - exists delta, unit. split; [|split; [lia|split; [lia|split; [rewrite Z.sub_diag; lia|done]]]].
    apply loop_done. rewrite Hl. by destruct (Z.eqb_spec (delta mod 1024) 0).
Qed.

Lemma walk_pgtable_level m tables ents l k a (f : Z → M memory Z) :
  table_rep m idmap_pgd_dir tables ents → tables !! (l, k / 512) = Some a → 0 < a →
  (if entry_addr a k =? 0 then mret 0 else e ← load64 (entry_addr a k); if pgd_none e then mret 0 else f e) m
  = if ents l k =? 0 then Ret 0 m else f (ents l k) m.
Proof.
  intros Hrep Ha Hpos. destruct (Z.eqb_spec (entry_addr a k) 0) as [H0|_].
  { unfold entry_addr in H0. pose proof (Z.mod_pos_bound k 512). lia. }
  rewrite (bind_eq _ _ _ _ _ (load64_eq m _ _ (tr_read _ _ _ _ Hrep l k a Ha))).
  unfold pgd_none. by destruct (ents l k =? 0).
Qed.

Lemma land3_type e : Z.land e PMD_TYPE_MASK = desc_type e.
Proof. done. Qed.

Lemma walk_pgtable_ok m tables ents va :
  table_rep m idmap_pgd_dir tables ents → (∀ x a, tables !! x = Some a → 0 < a) → 0 ≤ va < 2 ^ 48 →
  ∃ p, walk_pgtable va m = Ret p m ∧
    match translate_ents ents va with
    | Some x => p ≠ 0 ∧ ∃ e, ld64 m p = Some e ∧ x = desc_maps e (if desc_type e =? 1 then PMD_SHIFT else 12) va
    | None => p = 0 ∨ ∃ e, ld64 m p = Some e ∧ e ≠ 0 ∧ desc_type e ≠ 3
    end.
Proof.
  intros Hrep Hpos Hva. unfold walk_pgtable. rewrite pgd_offset_key. unfold translate_ents. cbv zeta.
  assert (tables !! (0, key 0 va / 512) = Some idmap_pgd_dir) as H0 by (rewrite key_root by done; apply Hrep).
  rewrite (walk_pgtable_level m tables ents 0 _ _ _ Hrep H0 (Hpos _ _ H0)).
  destruct (rep_entry _ _ _ _ Hrep 0 _ _ ltac:(lia) H0) as [(t1 & H1 & Hp1 & He0 & Hd0)|[_ [He0|[? _]]]]; [| |lia]; cycle 1.
  { rewrite He0. exists 0. split; [done|by left]. }
  destruct (Z.eqb_spec (ents 0 (key 0 va)) 0) as [Hz|_]; [rewrite Hz in Hd0; done|].
  rewrite Hd0. cbn [negb Z.eqb Pos.eqb]. rewrite He0, pud_offset_key by done.
  rewrite <-(key_up 0) in H1 by lia. change (0 + 1) with 1 in H1.
  rewrite (walk_pgtable_level m tables ents 1 _ _ _ Hrep H1 (Hpos _ _ H1)).
  destruct (rep_entry _ _ _ _ Hrep 1 _ _ ltac:(lia) H1) as [(t2 & H2 & Hp2 & He1 & Hd1)|[_ [He1|[? _]]]]; [| |lia]; cycle 1.
  { rewrite He1. exists 0. split; [done|by left]. }
  destruct (Z.eqb_spec (ents 1 (key 1 va)) 0) as [Hz|_]; [rewrite Hz in Hd1; done|].
  rewrite Hd1. cbn [negb Z.eqb Pos.eqb]. rewrite He1, pmd_offset_key by done.
  rewrite <-(key_up 1) in H2 by lia. change (1 + 1) with 2 in H2.
  rewrite (walk_pgtable_level m tables ents 2 _ _ _ Hrep H2 (Hpos _ _ H2)).
  pose proof (tr_read _ _ _ _ Hrep 2 _ _ H2) as Hr2.
  assert (entry_addr t2 (key 2 va) ≠ 0) as Hn2.
  { pose proof (Hpos _ _ H2). unfold entry_addr. pose proof (Z.mod_pos_bound (key 2 va) 512). lia. }
  destruct (rep_entry _ _ _ _ Hrep 2 _ _ ltac:(lia) H2) as [(t3 & H3 & Hp3 & He2 & Hd2)|[_ [He2|[_ Hd2]]]].
  - destruct (Z.eqb_spec (ents 2 (key 2 va)) 0) as [Hz|_]; [rewrite Hz in Hd2; done|].
    rewrite land3_type, Hd2. cbn [negb Z.eqb Pos.eqb PMD_TYPE_SECT]. rewrite He2, pte_offset_key by done.
    rewrite <-(key_up 2) in H3 by lia. change (2 + 1) with 3 in H3.
    rewrite (walk_pgtable_level m tables ents 3 _ _ _ Hrep H3 (Hpos _ _ H3)).
    pose proof (tr_read _ _ _ _ Hrep 3 _ _ H3) as Hr3.
    assert (entry_addr t3 (key 3 va) ≠ 0) as Hn3.
    { pose proof (Hpos _ _ H3). unfold entry_addr. pose proof (Z.mod_pos_bound (key 3 va) 512). lia. }
    destruct (Z.eqb_spec (ents 3 (key 3 va)) 0) as [Hz|Hz]; [rewrite Hz; exists 0; split; [done|by left]|].
    exists (entry_addr t3 (key 3 va)). split; [done|].
    destruct (Z.eqb_spec (desc_type (ents 3 (key 3 va))) 3) as [Hd3|Hd3].
    + split; [done|]. exists (ents 3 (key 3 va)). split; [done|]. by rewrite Hd3.
    + right. by exists (ents 3 (key 3 va)).
  - rewrite He2. exists 0. split; [done|by left].
  - destruct (Z.eqb_spec (ents 2 (key 2 va)) 0) as [Hz|_]; [rewrite Hz in Hd2; done|].
    rewrite land3_type, Hd2. cbn [negb Z.eqb Pos.eqb PMD_TYPE_SECT].
    exists (entry_addr t2 (key 2 va)). split; [done|]. split; [done|].
    exists (ents 2 (key 2 va)). split; [done|]. by rewrite Hd2.
Qed.
End lemmas.

(** ** Properties *)

Section properties.
Context {C : Type} `{Hcon : !Console C} `{Hsym : !MmuSymbols}.

(** C33 (equivalence): walk_pgtable finds the descriptor the hardware uses: for an address
    that translates it returns the location of the page's or the section's
    descriptor, from which the translation is read off; for another it returns
    null, or a last-level entry that is not valid. *)
Theorem walk_pgtable_agrees m tables ents va :
  table_rep m idmap_pgd_dir tables ents → (∀ x a, tables !! x = Some a → 0 < a) → 0 ≤ va < 2 ^ 48 →
  ∃ p, walk_pgtable va m = Ret p m ∧
    match translate m idmap_pgd_dir va with
    | Some x => p ≠ 0 ∧ ∃ e, ld64 m p = Some e ∧ x = desc_maps e (if desc_type e =? 1 then PMD_SHIFT else 12) va
    | None => p = 0 ∨ ∃ e, ld64 m p = Some e ∧ e ≠ 0 ∧ desc_type e ≠ 3
    end.
Proof. intros Hrep Hpos Hva. rewrite (translate_rep _ _ _ _ Hrep) by done. by eapply walk_pgtable_ok. Qed.

(** C40 (termination): walk_pud computes the end of each round's part from the start of
    the whole range, so on a range that goes past the first entry's gigabyte it
    never returns, whatever the tables hold: every round has the same end and
    moves on to the next entry. *)
Theorem walk_pud_never_returns fuel pgdp start end' (s : dump_state C) :
  pud_addr_end start end' ≠ end' → ∀ s', walk_pud fuel pgdp start end' s ≠ Ret tt s'.
Proof.
  intros Hne s' E. unfold walk_pud in E. apply bind_inv in E as (pgd & s1 & _ & E).
  revert E. apply loop_never_returns. intros [pudp addr] s2 b s3 E.
  apply bind_inv in E as (pud & s4 & _ & E). cbv zeta in E. apply bind_inv in E as ([] & s5 & _ & E).
  by destruct (Z.eqb_spec (pud_addr_end start end') end').
Qed.

(** Print_pgtable's loop that chooses the unit ends, with the size in
    that unit, for every size of at least a kilobyte; its condition looks at
    units[1] instead of the unit reached, so for a smaller size it does not end. *)
Theorem scale_size_ends fuel delta (s : dump_state C) :
  (6 ≤ fuel)%nat → 0 ≤ delta < 2 ^ 54 →
  if decide (delta = 0) then scale_size fuel delta s = Hang
  else ∃ d u, scale_size fuel delta s = Ret (d, u) s ∧ 0 ≤ u ≤ 5 ∧ delta = d * 1024 ^ u ∧ d mod 1024 ≠ 0.
Proof.
  intros Hf Hd. case_decide as H0; [subst; apply scale_size_zero|].
  destruct (scale_size_loop 6 delta 0 s) as (d & u & E & H1 & H2 & H3 & H4).
  { change (1024 ^ Z.of_nat 6) with (2 ^ 60). lia. }
  exists d, u. rewrite Z.sub_0_r in H3. split; [|split; [lia|done]].
  unfold scale_size. by apply (loop_fuel_mono 6).
Qed.
End properties.

(** ** Instances *)

#[local] Existing Instance Example_mmu.symbols.
#[local] Existing Instance log_console.

(** In the tables paging_init builds: an address of the kernel's text, and one that is not
    mapped. *)
Lemma walk_pgtable_agrees_witness :
  ∃ m p q, walk_pgtable 0x82000 m = Ret p m ∧
    (∃ e, ld64 m p = Some e ∧ desc_maps e (if desc_type e =? 1 then PMD_SHIFT else 12) 0x82000 = (0x82000, text_attrs)) ∧
    walk_pgtable 0x1000 m = Ret q m ∧ (q = 0 ∨ ∃ e, ld64 m q = Some e ∧ e ≠ 0 ∧ desc_type e ≠ 3).
Proof.
  destruct (paging_init_ok Example_mmu.board Example_mmu.boot ([] : list (string * list karg)) Example_mmu.layout)
    as (s & _ & _ & _ & Hmap & _ & _ & tables & ents & Hok);
    [apply pages_boot_ok|rewrite Example_mmu.boot_avail; lia|].
  assert (∀ x a, tables !! x = Some a → 0 < a) as Hpos.
  { intros x a Ha. destruct (mo_owned _ _ _ _ Hok x a Ha) as [[[_ Hp] _]|[-> _]]; [page_lia|done]. }
  destruct (walk_pgtable_agrees (mem s) tables ents 0x82000 (mo_rep _ _ _ _ Hok) Hpos ltac:(lia)) as (p & E1 & H1).
  destruct (walk_pgtable_agrees (mem s) tables ents 0x1000 (mo_rep _ _ _ _ Hok) Hpos ltac:(lia)) as (q & E2 & H2).
  rewrite Hmap in H1, H2 by lia. change (kernel_map 0x82000) with (Some (0x82000, text_attrs)) in H1.
  change (kernel_map 0x1000) with (None : option (Z * Z)) in H2. destruct H1 as (_ & e & He & Hd).
  exists (mem s), p, q. split; [exact E1|]. split; [by exists e|]. split; [exact E2|exact H2].
Defined.

Lemma walk_pud_never_returns_witness :
  pud_addr_end 0x3ff00000 0x40100000 = 0x40000000 ∧
  ¬ ∃ s', walk_pud 100 0x86000 0x3ff00000 0x40100000
    (DumpState (mem Example_mmu.empty_pgd) pg_level_boot [] [] : dump_state (list (string * list karg))) = Ret tt s'.
Proof. split; [done|]. intros [s' E]. revert E. apply walk_pud_never_returns. by vm_compute. Defined.

Lemma scale_size_ends_witness :
  let s := DumpState ∅ pg_level_boot [] [] : dump_state (list (string * list karg)) in
  scale_size 10 0 s = Hang ∧ ∃ d u, scale_size 10 2048 s = Ret (d, u) s ∧ 2048 = d * 1024 ^ u.
Proof.
  intros s. split; [exact (scale_size_ends 10 0 s ltac:(lia) ltac:(lia))|].
  destruct (scale_size_ends 10 2048 s ltac:(lia) ltac:(lia)) as (d & u & E & _ & H & _).
  exists d, u. split; [exact E|exact H].
Defined.
