(* ===== verification/Main.v ===== *)
(** * init/main.c: start_kernel

    The whole kernel's state, the boot sequence over the components of the other
    files, and the console's shell loop.  Each component sees its part of the
    state through a lens; the parts overlap where the components share data (the
    scheduler's tasks, the pages, the trace of the devices).  No interrupt is taken
    between the steps of the boot here; Window.v adds those before the first thread. *)

From S2P Require Import Prelude Memory CString Mmio Uart Format Printk PageAlloc KList Sched Fork.
From S2P Require Import PgTable Mmu Irq Gic Timer Traps.

(** ** State *)

Record kernel (C : Type) : Type := Kernel {
  k_irqs : irq_state;
  k_gic : list gic_chip_data;
  k_rate : Z;
  k_hw : trace;
  k_mem : memory;
  k_pages : pages;
  k_sched : sched C;
  k_regs : gmap Z pt_regs;
  k_tasks : list Z;
  k_forks : Z;
}.
Arguments Kernel {C}. Arguments k_irqs {C}. Arguments k_gic {C}. Arguments k_rate {C}. Arguments k_hw {C}.
Arguments k_mem {C}. Arguments k_pages {C}. Arguments k_sched {C}. Arguments k_regs {C}.
Arguments k_tasks {C}. Arguments k_forks {C}.

Ltac solve_lens := intros; repeat match goal with p : kernel _ |- _ => destruct p end; try done;
  repeat match goal with
  | p : machine _ _ |- _ => destruct p | p : fork_state _ |- _ => destruct p
  | p : mmu_state _ |- _ => destruct p | p : sched _ |- _ => destruct p
  | p : _ * _ |- _ => destruct p end; done.

#[export] Program Instance lens_k_machine C : Lens (kernel C) (machine pages C) := {|
  lget s := Machine (k_irqs s) (k_gic s) (k_rate s) (k_hw s) (k_pages s) (k_sched s);
  lput m s := Kernel (irqs m) (gic_data m) (arch_timer_rate m) (hw m) (k_mem s) (palloc m) (schd m)
                (k_regs s) (k_tasks s) (k_forks s);
|}.
Solve All Obligations with solve_lens.
#[export] Program Instance lens_k_fork C : Lens (kernel C) (fork_state C) := {|
  lget s := ForkState (k_sched s) (k_pages s) (k_regs s) (k_tasks s) (k_forks s);
  lput f s := Kernel (k_irqs s) (k_gic s) (k_rate s) (k_hw s) (k_mem s) (f_pages f) (f_sched f)
                (f_regs f) (g_task f) (total_forks f);
|}.
Solve All Obligations with solve_lens.
(** mmu.c prints through the console the scheduler's state holds. *)
#[export] Program Instance lens_k_mmu C : Lens (kernel C) (mmu_state pages * C) := {|
  lget s := (MmuState (k_mem s) (k_pages s) (k_hw s), console (k_sched s));
  lput m s := Kernel (k_irqs s) (k_gic s) (k_rate s) (mtrace (fst m)) (mem (fst m)) (allocator (fst m))
                (set_console (snd m) (k_sched s)) (k_regs s) (k_tasks s) (k_forks s);
|}.
Solve All Obligations with solve_lens.
#[export] Program Instance lens_k_pages C : Lens (kernel C) (pages * C) := {|
  lget s := (k_pages s, console (k_sched s));
  lput m s := Kernel (k_irqs s) (k_gic s) (k_rate s) (k_hw s) (k_mem s) (fst m)
                (set_console (snd m) (k_sched s)) (k_regs s) (k_tasks s) (k_forks s);
|}.
Solve All Obligations with solve_lens.
#[export] Program Instance lens_k_sched C : Lens (kernel C) (sched C) := {|
  lget := k_sched;
  lput x s := Kernel (k_irqs s) (k_gic s) (k_rate s) (k_hw s) (k_mem s) (k_pages s) x (k_regs s) (k_tasks s) (k_forks s);
|}.
Solve All Obligations with solve_lens.
#[export] Program Instance lens_k_hw C : Lens (kernel C) trace := {|
  lget := k_hw;
  lput x s := Kernel (k_irqs s) (k_gic s) (k_rate s) x (k_mem s) (k_pages s) (k_sched s) (k_regs s) (k_tasks s) (k_forks s);
|}.
Solve All Obligations with solve_lens.
#[export] Program Instance lens_k_io C : Lens (kernel C) (memory * trace) := {|
  lget s := (k_mem s, k_hw s);
  lput x s := Kernel (k_irqs s) (k_gic s) (k_rate s) (snd x) (fst x) (k_pages s) (k_sched s) (k_regs s) (k_tasks s) (k_forks s);
|}.
Solve All Obligations with solve_lens.

(** The sections of the image, and the functions the boot starts. *)
Class ImageSymbols : Type := {
  _text_boot_end : Z;
  _text_start : Z;
  _rodata_start : Z; _rodata_end : Z;
  _data_start : Z; _data_end : Z;
  bss_begin : Z; bss_end : Z;
  kernel_thread1 : Z;
  kernel_thread2 : Z;
  run_user_thread : Z;
}.

(** ** The code *)

Section main.
Context {C : Type} `{Hcon : !Console C} `{Hsym : !SchedSymbols} `{Hmmu : !MmuSymbols} `{Himg : !ImageSymbols}.
Context (P : platform) (fuel : nat).
(** What init_printk_done does to the console. *)
Context (init_printk_done : C → C).
Abbreviation K := (M (kernel C)).

Definition kprintk (fmt : string) (args : list karg) : K unit := zoom (T:=sched C) (print fmt args).
Definition crnl : string := cr +++ nl.
Definition send (s : list Z) : K unit := zoom (uart_send_string P fuel s).

(** [init/main.c:27-45] print_mem *)
Definition print_mem : K unit :=
  kprintk ("Arm64OS image layout:" +++ nl) [] ;;
  kprintk ("  .text.boot: 0x%08lx - 0x%08lx (%6ld B)" +++ nl)
    [KInt _text_boot_start; KInt _text_boot_end; KInt (u64 (_text_boot_end - _text_boot_start))] ;;
  kprintk ("       .text: 0x%08lx - 0x%08lx (%6ld B)" +++ nl)
    [KInt _text_start; KInt _text_end; KInt (u64 (_text_end - _text_start))] ;;
  kprintk ("     .rodata: 0x%08lx - 0x%08lx (%6ld B)" +++ nl)
    [KInt _rodata_start; KInt _rodata_end; KInt (u64 (_rodata_end - _rodata_start))] ;;
  kprintk ("       .data: 0x%08lx - 0x%08lx (%6ld B)" +++ nl)
    [KInt _data_start; KInt _data_end; KInt (u64 (_data_end - _data_start))] ;;
  kprintk ("        .bss: 0x%08lx - 0x%08lx (%6ld B)" +++ nl)
    [KInt bss_begin; KInt bss_end; KInt (u64 (bss_end - bss_begin))].

(** [init/main.c:65-80] parse_par_el1 *)
Definition parse_par_el1 (val : Z) : K Z :=
  let ret := Z.land val 1 in
  kprintk ("Address Translation instruction %s" +++ nl) [str (if ret =? 0 then "successfully" else "failed")] ;;
  if negb (ret =? 0) then mret (u64 (-1)) else
  let pa := Z.land (Z.land val (u64 PAGE_MASK)) 0xffffffffff in
  kprintk ("par_el1:0x%lx, PA: 0x%lx" +++ nl) [KInt val; KInt pa] ;;
  kprintk ("  NS=%u" +++ nl) [KInt (Z.land (Z.shiftr val 9) 1)] ;;
  kprintk ("  SH=%u" +++ nl) [KInt (Z.land (Z.shiftr val 7) 3)] ;;
  kprintk ("  ATTR=0x%x" +++ nl) [KInt (Z.shiftr val 56)] ;;
  mret pa.

(** [init/main.c:103-119] kernel_thread1, kernel_thread2: a thread waits and prints, for
    ever; one round *)
Definition kernel_thread_round (loops : Z) (name text : string) : K unit :=
  zoom (delay loops) ;;
  kprintk ("%s: %s" +++ nl) [str name; str text].

(** [init/main.c:135-142] user_thread *)
Definition user_thread : K Z :=
  el ← zoom (read_sysreg P "CurrentEL");
  kprintk ("%s: running at EL%d" +++ nl) [str "user_thread"; KInt (Z.shiftr el 2)] ;;
  r ← zoom (move_to_user_space run_user_thread);
  when (negb (r =? 0)) (kprintk ("error move_to_user_space" +++ nl) []) ;;
  mret 0.

(** One creation as a single step.  Interrupts are on here, and Race.v has those that fall
    into it. *)
(** [init/main.c:187-193] start_kernel: the creation of a kernel thread *)
Definition spawn (fn : Z) : K unit :=
  pid ← zoom (kernel_thread fuel fn 0 0);
  when (pid <? 0) (kprintk ("create thread fail" +++ nl) []).

(** [init/main.c:146-182] start_kernel: up to the first kernel thread; from the last step
    on interrupts are taken *)
Definition boot_devices : K unit :=
  zoom (uart_init P) ;;
  send (chars "Hello World from Arm64OS!" ++ [13; 10]) ;;
  zoom (T:=sched C) (modify (λ s, set_console (init_printk_done (console s)) s)) ;;
  kprintk ("printk init done." +++ nl) [] ;;
  kprintk "Running on EL:" [] ;;
  el ← zoom (read_sysreg P "CurrentEL");
  kprintk ("%d" +++ nl) [KInt (s32 (Z.shiftr el 2))] ;;
  zoom (T:=machine pages C) (arch_irq_init P get_free_page (kernel_code fuel)) ;;
  zoom (T:=(pages * C)%type) (mem_init bss_end TOTAL_MEMORY) ;;
  zoom (T:=sched C) sched_init ;;
  print_mem ;;
  kprintk ("init(0) thread's task_struct address: 0x%lx" +++ nl) [KInt init_task] ;;
  s ← gets k_sched;
  kprintk ("the SP of 0 thread: 0x%lx" +++ nl) [KInt (sp (regs s))] ;;
  zoom (T:=(mmu_state pages * C)%type) (paging_init P get_free_page) ;;
  kprintk ("Page Table Init Done." +++ nl) [] ;;
  zoom (T:=machine pages C) (timer_init P fuel) ;;
  zoom (T:=sched C) raw_local_irq_enable.

(** The boot that no interrupt falls into; boot_interrupted of Window.v is the one that
    timer interrupts fall into, after raw_local_irq_enable and between the threads. *)
(** [init/main.c:146-193] start_kernel: up to the shell loop *)
Definition boot : K unit :=
  boot_devices ;;
  spawn kernel_thread1 ;;
  spawn kernel_thread2.

(** [arch/arm64/mach-rpi/pl_uart.c:73-79] uart_send_string, of a string in memory *)
Definition send_cstring (a : Z) : M (memory * trace) unit :=
  loop fuel (λ a,
    c ← zoom (load8 a);
    if c =? 0 then mret (inr tt) else zoom (uart_send P fuel c) ;; mret (inl (a + 1))) a.

(** [init/main.c:201-206] start_kernel: one round of the shell, with the 64-byte buffer
    at [buffer] *)
Definition shell_round (buffer : Z) : K unit :=
  send (chars "> ") ;;
  zoom (uart_recv_string P fuel buffer 64) ;;
  zoom (send_cstring buffer) ;;
  send [13; 10].

(** [init/main.c:144-207] start_kernel *)
Definition start_kernel (buffer : Z) : K unit :=
  boot ;;
  zoom (S:=kernel C) (T:=(memory * trace)%type) (zoom (T:=memory) (modify (fill buffer 64 0))) ;;
  loop fuel (λ _ : unit, shell_round buffer ;; mret (inl tt)) tt.
End main.

(** ** Lemmas *)

(** The kernel as the boot loader leaves it: .bss is zero, .data as linked; the
    stack pointer is in the init task's stack and memory is arbitrary. *)
Definition loaded `{!SchedSymbols} {C} (m : memory) (r : cpu_context) (c : C) : kernel C :=
  Kernel irq_boot gic_data_boot 0 [] m pages_boot
    (Sched {[init_task := INIT_TASK init_task]} {[g_ready_queue := ListHead 0 0]} (RunQueue 0 0 0) r true ∅ c)
    ∅ (init_task :: replicate 127 0) 0.

(** The pages up to the end of memory that are left when the boot is done: of 130048, the
    controller's domain takes one, the page tables at most 600 and the two threads two. *)
Definition PAGES_LEFT : Z := 130048 - 1 - 600 - 2.

(** What the boot relies on of the linker script and the board. *)
Record bootable `{!SchedSymbols, !MmuSymbols, !ImageSymbols} (P : platform) (r : cpu_context) : Prop := {
  bo_layout : kernel_layout;
  bo_init : 0 < init_task < LOW_MEMORY ∧ stack_base init_task = init_task;
  bo_queue : g_ready_queue < LOW_MEMORY;
  bo_stack : stack_base (sp r) = init_task;
  bo_bss : 0 ≤ bss_end ≤ TOTAL_MEMORY;
  bo_lines : ∀ tr, u32 (dev_read P tr (u64 (GIC_V2_DISTRIBUTOR_BASE + GIC_DIST_CTR))) mod 32 ≤ 7;
}.

(** What the interrupt side, the memory and the run queue of the kernel hold at a stage
    of the boot. *)
Definition irq_fresh (i : irq_state) (g : list gic_chip_data) : Prop := i = irq_boot ∧ g = gic_data_boot.
(** No interrupt but [ns] has a handler. *)
Definition handlers_in (ns : list nat) (i : irq_state) : Prop :=
  irq_ok i ∧ ∀ n d, irq_descs i !! n = Some d → handler d ≠ None → n ∈ ns.
Definition irq_wired (i : irq_state) (g : list gic_chip_data) : Prop :=
  handlers_in [] i ∧
  arch_irq_handler i = Some "gic_handle_irq" ∧ (∃ g0, g = [g0] ∧ raw_cpu_base g0 = GIC_V2_CPU_INTERFACE_BASE) ∧
  ∃ d, irq_descs i !! Z.to_nat GENERIC_TIMER_IRQ = Some d ∧
       d_chip d = Some "gicv2_chip" ∧ d_hwirq d = GENERIC_TIMER_IRQ.
Definition irq_ticking (i : irq_state) (g : list gic_chip_data) : Prop :=
  handlers_in [Z.to_nat GENERIC_TIMER_IRQ] i ∧
  arch_irq_handler i = Some "gic_handle_irq" ∧ (∃ g0, g = [g0] ∧ raw_cpu_base g0 = GIC_V2_CPU_INTERFACE_BASE) ∧
  ∃ d, irq_descs i !! Z.to_nat GENERIC_TIMER_IRQ = Some d ∧ handler d = Some "handle_timer_irq" ∧
       d_chip d = Some "gicv2_chip" ∧ d_hwirq d = GENERIC_TIMER_IRQ.
Definition mapped `{!MmuSymbols} (m : memory) : Prop :=
  ∀ va, 0 ≤ va < 2 ^ 48 → translate m idmap_pgd_dir va = kernel_map va.
Definition queue_linked `{!SchedSymbols} (h : heap) (_ : run_queue) : Prop := ∃ n, h = {[g_ready_queue := n]}.
Definition queue_empty `{!SchedSymbols} (h : heap) (q : run_queue) : Prop :=
  h = {[g_ready_queue := ListHead g_ready_queue g_ready_queue]} ∧ q = RunQueue 0 0 0.

(** A stage of the boot before the first fork: only the init task exists, and at least
    [n] mapped pages are free; the registers are those, [r], the boot loader left. *)
Record booting `{!SchedSymbols} {C} (r : cpu_context) (Irq : irq_state → list gic_chip_data → Prop) (Mem : memory → Prop)
    (Queue : heap → run_queue → Prop) (n : Z) (s : kernel C) : Prop := {
  bt_irq : Irq (k_irqs s) (k_gic s);
  bt_mem : Mem (k_mem s);
  bt_queue : Queue (nodes (k_sched s)) (rq (k_sched s));
  bt_tasks : tasks (k_sched s) = {[init_task := INIT_TASK init_task]};
  bt_current : current (k_sched s) = init_task;
  bt_pages : pages_ok (k_pages s);
  bt_free : n ≤ Z.of_nat (nr_mapped (k_pages s));
  bt_table : k_tasks s = init_task :: replicate 127 0;
  bt_regs : regs (k_sched s) = r ∧ k_regs s = ∅ ∧ k_forks s = 0;
}.

(** The end of boot_devices: only the init task exists, with [k] ticks left, interrupts
    are taken, and no thread waits for the processor. *)
Record idle `{!SchedSymbols, !MmuSymbols} {C} (k : Z) (s : kernel C) : Prop := {
  id_inv : fork_inv (lget s : fork_state C) [] [];
  id_irq : irq_ticking (k_irqs s) (k_gic s);
  id_map : mapped (k_mem s);
  id_current : current (k_sched s) = init_task;
  id_table : k_tasks s = init_task :: replicate 127 0;
  id_free : PAGES_LEFT + 2 ≤ Z.of_nat (nr_mapped (k_pages s));
  id_unmasked : irqs_masked (k_sched s) = false;
  id_ticks : ∃ t, tasks (k_sched s) !! init_task = Some t ∧ counter t = k ∧ need_resched t = (if k =? 0 then 1 else 0);
}.

Definition kthread `{!SchedSymbols} {C} (s : kernel C) (p n fn : Z) : Prop :=
  ∃ t, tasks (k_sched s) !! p = Some t ∧ pid t = n ∧
       context t = CpuContext fn 0 0 0 0 0 0 0 0 0 0 (p + THREAD_SIZE - sizeof_pt_regs) ret_from_fork.
(** The boot between its two threads: [p1] waits for the processor, and the init task,
    which runs, has [k] ticks left. *)
Record one_thread `{!SchedSymbols, !MmuSymbols, !ImageSymbols} {C} (k p1 : Z) (s : kernel C) : Prop := {
  ot_inv : fork_inv (lget s : fork_state C) [p1] [p1];
  ot_irq : irq_ticking (k_irqs s) (k_gic s);
  ot_map : mapped (k_mem s);
  ot_current : current (k_sched s) = init_task;
  ot_table : k_tasks s = init_task :: p1 :: replicate 126 0;
  ot_free : PAGES_LEFT + 1 ≤ Z.of_nat (nr_mapped (k_pages s));
  ot_unmasked : irqs_masked (k_sched s) = false;
  ot_page : page_ok p1;
  ot_thread : kthread s p1 1 kernel_thread1;
  ot_ticks : ∃ t, tasks (k_sched s) !! init_task = Some t ∧ counter t = k ∧ need_resched t = 0;
}.

(** The running kernel, with the kernel threads [p1] and [p2]. *)
Record kernel_up `{!SchedSymbols, !MmuSymbols, !ImageSymbols} {C} (p1 p2 : Z) (s : kernel C) : Prop := {
  ku_tasks : fork_inv (lget s : fork_state C) [p2; p1] [p1; p2];
  ku_table : k_tasks s = init_task :: p1 :: p2 :: replicate 125 0;
  ku_current : current (k_sched s) = init_task;
  ku_thread1 : kthread s p1 1 kernel_thread1;
  ku_thread2 : kthread s p2 2 kernel_thread2;
  ku_irqs : irqs_masked (k_sched s) = false;
  ku_timer : ∃ g, timer_ready (lget s : machine pages C) g ∧ raw_cpu_base g = GIC_V2_CPU_INTERFACE_BASE;
  ku_handlers : handlers_in [Z.to_nat GENERIC_TIMER_IRQ] (k_irqs s);
  ku_mapped : mapped (k_mem s);
  ku_free : PAGES_LEFT ≤ Z.of_nat (nr_mapped (k_pages s));
}.

(** What the boot asks the allocator for comes from the mapped pages. *)
#[local] Existing Instance mapped_allocator.

Section lemmas.
Context {C : Type} `{Hcon : !Console C} `{Hsym : !SchedSymbols} `{Hmmu : !MmuSymbols} `{Himg : !ImageSymbols}.
Context (P : platform) (fuel : nat) (init_printk_done : C → C) (r0 : cpu_context).
Implicit Types (s : kernel C) (Irq : irq_state → list gic_chip_data → Prop) (Mem : memory → Prop)
  (Queue : heap → run_queue → Prop).

Lemma same_length_lookup {A B} (l : list A) (k : list B) : (∀ i, is_Some (l !! i) ↔ is_Some (k !! i)) → length l = length k.
Proof.
  intros H. apply Nat.le_antisymm; apply Nat.nlt_ge; intros Hlt; apply lookup_lt_is_Some_2, H, lookup_lt_is_Some_1 in Hlt; lia.
Qed.

(** *** Code that prints and talks to devices, and leaves the rest of the state *)

Definition with_io (c : C) (tr : trace) s : kernel C :=
  lput (set_console c (k_sched s)) (lput tr s).

Definition quiet {A} (k : M (kernel C) A) : Prop := ∀ s, ∃ a c tr, k s = Ret a (with_io c tr s).

Lemma with_io_twice c tr c' tr' s : with_io c tr (with_io c' tr' s) = with_io c tr s.
Proof. by destruct s as [? ? ? ? ? ? [] ? ? ?]. Qed.

Lemma quiet_bind {A B} (k : M (kernel C) A) (h : A → M (kernel C) B) :
  quiet k → (∀ a, quiet (h a)) → quiet (k ≫= h).
Proof.
  intros H1 H2 s. destruct (H1 s) as (a & c1 & tr1 & E1). destruct (H2 a (with_io c1 tr1 s)) as (b & c2 & tr2 & E2).
  exists b, c2, tr2. by rewrite (bind_eq _ _ _ _ _ E1), E2, with_io_twice.
Qed.
Lemma quiet_kprintk fmt args : quiet (kprintk fmt args).
Proof. intros s. eexists _, _, (k_hw s). unfold kprintk, zoom; cbn. by destruct s. Qed.
Lemma quiet_set_console (f : C → C) :
  quiet (zoom (S:=kernel C) (T:=sched C) (modify (λ x, set_console (f (console x)) x))).
Proof. intros s. eexists _, _, (k_hw s). unfold zoom; cbn. by destruct s. Qed.
Lemma quiet_hw {A} (k : M trace A) : (∀ tr, ∃ a tr', k tr = Ret a tr') → quiet (zoom (S:=kernel C) k).
Proof.
  intros Hk s. destruct (Hk (k_hw s)) as (a & tr' & E). exists a, (console (k_sched s)), tr'.
  unfold zoom; cbn. rewrite E. by destruct s as [? ? ? ? ? ? [] ? ? ?].
Qed.
Lemma quiet_gets {A} (f : kernel C → A) : quiet (gets f).
Proof. intros s. exists (f s), (console (k_sched s)), (k_hw s). by destruct s as [? ? ? ? ? ? [] ? ? ?]. Qed.

Lemma quiet_send `{!UartLive P fuel} l : Forall (λ c, 0 ≤ c < 256) l → quiet (send P fuel l : M (kernel C) unit).
Proof.
  intros Hl. apply quiet_hw. intros tr. destruct (uart_send_string_ok P fuel l tr Hl) as (tr' & E & _).
  by exists tt, tr'.
Qed.

(** A stage holds whatever was printed or written to devices since. *)
Lemma booting_quiet Irq Mem Queue n {A B} (k : M (kernel C) A) (h : A → M (kernel C) B) Q s :
  quiet k → booting r0 Irq Mem Queue n s →
  (∀ a s', booting r0 Irq Mem Queue n s' → irqs_masked (k_sched s') = irqs_masked (k_sched s) → returns (h a) Q s') →
  returns (k ≫= h) Q s.
Proof.
  intros Hk [] Hh. destruct (Hk s) as (a & c & tr & E). apply returns_bind.
  apply (returns_ret _ _ _ _ _ E), Hh; [by split|done].
Qed.

(** *** The stages *)

(** gic_init installs no handler. *)
Lemma gic_handlers (m m' : machine pages C) dom n :
  irqs m = irq_boot →
  (∀ i, irq_descs (irqs m') !! i = if decide (16 ≤ Z.of_nat i < n) then gic_desc dom i <$> irq_descs (irqs m) !! i
                                   else irq_descs (irqs m) !! i) →
  handlers_in [] (irqs m').
Proof.
  intros Hm Hd. assert (∀ i x, irq_descs (irqs m) !! i = Some x → handler x = None) as H0.
  { intros i x. rewrite Hm. intros [-> _]%lookup_replicate. done. }
  split.
  - unfold irq_ok. transitivity (length (irq_descs (irqs m))); [|by rewrite Hm].
    apply (same_length_lookup (irq_descs (irqs m'))). intros i. rewrite Hd. case_decide; [by rewrite fmap_is_Some|done].
  - intros i x Hx Hh. rewrite Hd in Hx. exfalso. apply Hh.
    case_decide; [apply fmap_Some in Hx as (y & Hy & ->); exact (H0 i y Hy)|by eapply H0].
Qed.

Lemma gic_stage Mem Queue n s :
  (∀ tr, u32 (dev_read P tr (u64 (GIC_V2_DISTRIBUTOR_BASE + GIC_DIST_CTR))) mod 32 ≤ 7) → 0 < n →
  booting r0 irq_fresh Mem Queue n s →
  returns (zoom (arch_irq_init P get_free_page (kernel_code fuel)))
    (λ _, booting r0 irq_wired Mem Queue (n - 1)) s.
Proof.
  intros Hlines Hn [[Hi Hg] Hm Hq Ht Hc Hp Hf Htab Hr0]. apply returns_zoom.
  set (m := lget s : machine pages C).
  assert (irq_ok (irqs m)) as Hok by (change (irqs m) with (k_irqs s); by rewrite Hi).
  assert (gic_lines P m GIC_V2_DISTRIBUTOR_BASE ≤ NR_IRQS) as Hl
    by (unfold gic_lines, NR_IRQS; specialize (Hlines (hw m)); lia).
  destruct (gic_init_ok P (kernel_code fuel) m (GicChipData 0 0 0 None 0) GIC_V2_DISTRIBUTOR_BASE GIC_V2_CPU_INTERFACE_BASE Hok)
    as (m' & dom & mask & E & _ & [Hd0 _ Hh Hg' _ _ [Hp' Hf'] [c Hs']]); [exact Hg|exact Hp|cbn; lia|exact Hl|].
  apply (returns_ret _ _ _ tt m').
  { unfold arch_irq_init. rewrite (bind_eq _ _ _ _ _ E). done. }
  pose proof (gic_lines_range P m GIC_V2_DISTRIBUTOR_BASE) as Hr.
  pose proof (Hd0 (Z.to_nat GENERIC_TIMER_IRQ)) as Hd.
  rewrite decide_True in Hd by (change (Z.of_nat (Z.to_nat GENERIC_TIMER_IRQ)) with 30; lia).
  destruct (irq_lookup (irqs m) GENERIC_TIMER_IRQ Hok) as [d0 Ed]; [done|]. rewrite Ed in Hd.
  split; cbn; try rewrite Hs'; try done.
  - split; [exact (gic_handlers m m' dom _ Hi Hd0)|].
    split; [rewrite Hh; change (irqs m) with (k_irqs s); by rewrite Hi|].
    split; [by eexists|].
    eexists. split; [exact Hd|done].
  - cbn in Hf'. rewrite Hf'. lia.
Qed.

Lemma mem_init_stage Irq Mem Queue n s :
  0 ≤ bss_end ≤ TOTAL_MEMORY →
  booting r0 Irq Mem Queue n s →
  returns (zoom (T:=(pages * C)%type) (mem_init bss_end TOTAL_MEMORY)) (λ _, booting r0 Irq Mem Queue n) s.
Proof.
  intros Hb Hs. apply returns_zoom. change TOTAL_MEMORY with 536870912 in *.
  assert (PAGE_ALIGN bss_end ≤ 536870912) as Hle.
  { rewrite PAGE_ALIGN_up by page_lia. change PAGE_SIZE with 4096.
    apply (Z.mul_le_mono_nonneg_r _ 131072 4096); [lia|]. apply Z.lt_succ_r, Z.div_lt_upper_bound; lia. }
  eapply returns_ret.
  { apply (mem_init_ok bss_end 536870912 (k_pages s) (console (k_sched s))); [lia|page_lia|page_lia|done]. }
  destruct Hs. by split.
Qed.

Lemma sched_init_stage Irq Mem n s :
  booting r0 Irq Mem queue_linked n s →
  returns (zoom (T:=sched C) sched_init) (λ _, booting r0 Irq Mem queue_empty n) s.
Proof.
  intros [Hi Hm [nd Hq] Ht Hc Hp Hf Htab Hr0]. apply returns_zoom.
  destruct (INIT_LIST_HEAD_ring (nodes (k_sched s)) g_ready_queue) as [E _]; [by rewrite Hq, lookup_singleton_eq|].
  apply returns_bind, returns_zoom. eapply returns_ret; [exact E|]. eapply returns_ret; [done|]. split; try done.
  split; [|done]. cbn. by rewrite Hq, insert_singleton_eq.
Qed.

Lemma paging_stage Irq Mem Queue n s :
  kernel_layout → 600 ≤ n → booting r0 Irq Mem Queue n s →
  returns (zoom (T:=(mmu_state pages * C)%type) (paging_init P get_free_page))
    (λ _, booting r0 Irq mapped Queue (n - 600)) s.
Proof.
  intros Hlay Hn [Hi Hm Hq Ht Hc Hp Hf Htab Hr0]. apply returns_zoom.
  destruct (paging_init_ok P (MmuState (k_mem s) (k_pages s) (k_hw s)) (console (k_sched s)) Hlay)
    as (x & E & Hp' & Hf' & Hmap & _); [exact Hp|unfold avail; cbn; lia|].
  eapply returns_ret; [exact E|]. unfold avail in Hf'. split; cbn in *; try done. lia.
Qed.

Lemma timer_stage Mem Queue n s :
  booting r0 irq_wired Mem Queue n s →
  returns (zoom (T:=machine pages C) (timer_init P fuel)) (λ _, booting r0 irq_ticking Mem Queue n) s.
Proof.
  intros [([Hok Hnone] & Ha & (g & Hg & Hgb) & d & Hd & Hd1 & Hd2) Hm Hq Ht Hc Hp Hf Htab Hr0]. apply returns_zoom.
  set (m := lget s : machine pages C).
  destruct (timer_init_ok P fuel m g d Hg Hd Hd1 Hd2 Ha)
    as (m' & E & [Ha' Hg' (d' & Hd')] & _ & Hpa & Hok' & Hsame & Hs' & _).
  eapply returns_ret; [exact E|]. split; cbn; try rewrite Hs'; try rewrite Hpa; try done.
  split; [split|split; [done|split; [by exists g|by exists d']]].
  - by rewrite Hok'.
  - intros n' x Hx Hh. destruct (decide (n' = Z.to_nat GENERIC_TIMER_IRQ)) as [->|Hne]; [by apply list_elem_of_singleton|].
    rewrite Hsame in Hx by done. destruct (elem_of_nil (A:=nat) n') as [[] _]. by eapply Hnone.
Qed.

(** The first fork starts from the scheduler's invariant. *)
Lemma booting_fork_inv Irq Mem n s :
  0 < init_task < LOW_MEMORY → stack_base init_task = init_task → g_ready_queue < LOW_MEMORY →
  booting r0 Irq Mem queue_empty n s → fork_inv (lget s : fork_state C) [] [].
Proof.
  intros Hi Hst Hq [_ _ [Hh Hrq] Hts Hcur Hp _ Htab _].
  assert (ring (nodes (k_sched s)) g_ready_queue []) as Hring.
  { rewrite Hh. split; [apply NoDup_singleton|]. cbn. unfold edge, next_of, prev_of. by rewrite lookup_singleton_eq. }
  assert (nr_running (rq (k_sched s)) = 0) as Hnr by by rewrite Hrq.
  assert (∀ p t, tasks (k_sched s) !! p = Some t → p = init_task ∧ t = INIT_TASK init_task) as Hone.
  { intros p t. rewrite Hts. intros [<- <-]%lookup_singleton_Some. done. }
  assert (LOW_MEMORY < 2 ^ 64 - THREAD_SIZE) as Hlow by (by vm_compute).
  split; [split; [split|..]|..].
  - done.
  - done.
  - split; [apply NoDup_singleton|]. cbn [seg]. unfold edge, next_of, prev_of, task_links. cbn [f_sched lget lens_k_fork].
    rewrite Hts, lookup_fmap, lookup_singleton_eq. done.
  - intros p Hp'. by apply elem_of_nil in Hp'.
  - intros p t _ [-> ->]%Hone. split; [done|lia|by vm_compute|by vm_compute].
  - change (current (k_sched s) ∈ [init_task]). rewrite Hcur. by apply elem_of_cons; left.
  - intros p t _ [-> _]%Hone Hne. exfalso. apply Hne. symmetry. exact Hcur.
  - by intros p t [_ ->]%Hone.
  - unfold preempt_count_of. change (current (f_sched (lget s))) with (current (k_sched s)).
    change (tasks (f_sched (lget s))) with (tasks (k_sched s)). rewrite Hcur, Hts, lookup_singleton_eq. done.
  - exact Hp.
  - intros p Hp'. by apply elem_of_nil in Hp'.
  - done.
  - change (g_task (lget s)) with (k_tasks s). rewrite Htab. done.
  - change (g_task (lget s)) with (k_tasks s). rewrite Htab. rewrite filter_cons_True by lia.
    by change (filter (λ a, a ≠ 0) (replicate 127 0)) with (@nil Z).
Qed.

(** The creation of a kernel thread, in the boot's terms. *)
Definition spawned s s' (queue forked : list Z) (p i fn : Z) : Prop :=
  created (lget s : fork_state C) (lget s') queue forked p i
    (CpuContext fn 0 0 0 0 0 0 0 0 0 0 (p + THREAD_SIZE - sizeof_pt_regs) ret_from_fork) ∧
  k_irqs s' = k_irqs s ∧ k_gic s' = k_gic s ∧ k_mem s' = k_mem s ∧
  current (k_sched s') = current (k_sched s) ∧ irqs_masked (k_sched s') = irqs_masked (k_sched s) ∧
  S (nr_mapped (k_pages s')) = nr_mapped (k_pages s).

Lemma spawn_stage queue forked fn i s :
  fork_inv (lget s : fork_state C) queue forked → (0 < nr_mapped (k_pages s))%nat →
  find_free (map (λ a, negb (a =? 0)) (k_tasks s)) 0 = Some i → 0 ≤ i →
  (length forked < 127)%nat → (length queue < 127)%nat →
  returns (spawn fuel fn) (λ _ s', ∃ p, spawned s s' queue forked p i fn) s.
Proof.
  intros Hinv Hf Hi H0 Hl Hlq. set (f := lget s : fork_state C).
  destruct (do_fork_kernel_ok fuel f queue forked (Z.lor 0 PF_KTHREAD) fn 0 i)
    as (p & f' & E & Hc & _ & Hr & _ & Hm & Hfree); [done..|].
  apply returns_bind, returns_zoom. eapply returns_ret; [exact E|].
  rewrite (proj2 (Z.ltb_ge i 0)) by lia. eapply returns_ret; [done|].
  exists p. split; [by rewrite lget_lput|]. repeat (split; [done|]).
  split; [cbn; unfold current; by rewrite Hr|]. split; [exact Hm|exact Hfree].
Qed.

Lemma loaded_booting m r (c : C) :
  stack_base (sp r) = init_task → booting r irq_fresh (λ _, True) queue_linked 130048 (loaded m r c).
Proof.
  intros Hr. split; [done|done| |done|exact Hr| | |done|done].
  - by eexists.
  - change (k_pages (loaded m r c)) with pages_boot. exact pages_boot_ok.
  - change (k_pages (loaded m r c)) with pages_boot. by rewrite nr_mapped_boot.
Qed.

Lemma stage_seq {A B} (R : kernel C → Prop) (k : M (kernel C) A) (h : A → M (kernel C) B) Q s :
  returns k (λ _, R) s → (∀ a s', R s' → returns (h a) Q s') → returns (k ≫= h) Q s.
Proof. intros Hk Hh. eapply returns_seq; [exact Hk|]. exact Hh. Qed.

Lemma read_returns reg tr : ∃ a tr', read_sysreg P reg tr = Ret a tr'.
Proof. by eexists _, _. Qed.

Lemma uart_init_returns tr : ∃ a tr', uart_init P tr = Ret a tr'.
Proof. cbv [uart_init readl writel delay modify mbind M_bind]. by do 2 eexists. Qed.

Lemma quiet_print_mem : quiet (print_mem : M (kernel C) unit).
Proof. unfold print_mem. do 5 (apply quiet_bind; [apply quiet_kprintk|intros _]). apply quiet_kprintk. Qed.

Lemma quiet_read reg : quiet (zoom (read_sysreg P reg) : M (kernel C) Z).
Proof. apply quiet_hw, read_returns. Qed.
Lemma quiet_uart_init : quiet (zoom (uart_init P) : M (kernel C) unit).
Proof. apply quiet_hw, uart_init_returns. Qed.
End lemmas.

Create HintDb quiet.
#[export] Hint Resolve quiet_kprintk quiet_set_console quiet_gets quiet_print_mem quiet_read quiet_uart_init quiet_send : quiet.

(** A step of the boot that is silent, and one that is a stage. *)
Ltac silent :=
  match goal with H : booting _ _ _ _ _ ?s |- returns _ _ ?s =>
    eapply booting_quiet; [solve [eauto with quiet]|exact H|]; clear H; intros ? ? ? _ end.
Tactic Notation "stage" uconstr(lem) :=
  match goal with H : booting _ _ _ _ _ ?s |- returns _ _ ?s =>
    eapply stage_seq; [eapply lem; [..|exact H]; first [lia|eauto]|]; clear H; intros ? ? ? end.

Section properties.
Context {C : Type} `{Hcon : !Console C} `{Hsym : !SchedSymbols} `{Hmmu : !MmuSymbols} `{Himg : !ImageSymbols}.
Context (P : platform) (fuel : nat) (init_printk_done : C → C).
Implicit Types (s : kernel C).

(** The free slots of the table during the boot. *)
Lemma find_slot (l : list Z) n :
  Forall (λ a, a ≠ 0) l → find_free (map (λ a, negb (a =? 0)) (l ++ replicate (S n) 0)) 0 = Some (Z.of_nat (length l)).
Proof.
  intros Hl. rewrite <-(Z.add_0_l (Z.of_nat (length l))). generalize 0 at 3 4. induction Hl as [|a l Ha _ IH]; intros i.
  - cbn. by rewrite Z.add_0_r.
  - cbn [map app find_free length]. rewrite (proj2 (Z.eqb_neq a 0) Ha). cbn [negb]. rewrite IH. f_equal. lia.
Qed.

Lemma kthread_kept s s' p n fn :
  no_links <$> tasks (k_sched s') !! p = no_links <$> tasks (k_sched s) !! p → kthread s p n fn → kthread s' p n fn.
Proof.
  intros Heq (t & Ht & Hp & Hc). rewrite Ht in Heq. unfold kthread.
  destruct (tasks (k_sched s') !! p) as [t'|]; [|done]. apply (inj Some) in Heq.
  exists t'. split; [done|]. pose proof (f_equal pid Heq). pose proof (f_equal context Heq). cbn in *. by split; congruence.
Qed.

Lemma spawned_kthread s s' queue forked p i fn : spawned s s' queue forked p i fn → kthread s' p i fn.
Proof. intros [(_ & _ & _ & _ & _ & (t & child & parent & _ & H2 & _ & H3 & H4 & _) & _) _]. by exists child. Qed.

(** Once interrupts are on, the boot is at its idle state with the init task's ticks. *)
Lemma booting_idle r n s :
  0 < init_task < LOW_MEMORY → stack_base init_task = init_task → g_ready_queue < LOW_MEMORY → PAGES_LEFT + 2 ≤ n →
  booting r irq_ticking mapped queue_empty n s → irqs_masked (k_sched s) = false → idle DEF_COUNTER s.
Proof.
  intros Hi Hst Hq Hn Hb Hmask. pose proof (booting_fork_inv _ _ _ _ _ Hi Hst Hq Hb) as Hinv.
  destruct Hb. split; try done; [lia|].
  exists (INIT_TASK init_task). split; [|done]. by rewrite bt_tasks0, lookup_singleton_eq.
Qed.

(** The creation of the two threads.  The first takes half of the init task's ticks. *)
Lemma first_thread k s :
  0 < init_task < LOW_MEMORY → 0 < k → idle k s →
  returns (spawn fuel kernel_thread1) (λ _ s', ∃ p1, one_thread (k / 2) p1 s') s.
Proof.
  intros Hi Hk [Hinv Hirq Hm Hcur Htab Hf Hmask (t & Ht & Hct & Hn)].
  assert (LOW_MEMORY < 2 ^ 64) as Hlow by (by vm_compute).
  eapply returns_mono; [apply (spawn_stage fuel [] [] kernel_thread1 1 s Hinv)|].
  { unfold PAGES_LEFT in Hf. lia. }
  { rewrite Htab. apply (find_slot [init_task] 126). constructor; [lia|constructor]. }
  { lia. } { cbn; lia. } { cbn; lia. }
  intros _ s1 [p1 Hs1]. pose proof (spawned_kthread _ _ _ _ _ _ _ Hs1) as Hk1.
  destruct Hs1 as ((Hinv1 & Hp1 & _ & _ & Htab1 & Hfam & _) & Hirq1 & Hg1 & Hm1 & Hc1 & Hmask1 & Hf1).
  change (g_task (lget s1)) with (k_tasks s1) in Htab1. change (g_task (lget s)) with (k_tasks s) in Htab1.
  rewrite Htab in Htab1. cbn in Htab1. exists p1. split; try done; try congruence.
  - by rewrite Hm1.
  - lia.
  - destruct Hfam as (t0 & child & parent & Ht0 & _ & Hpar & _ & _ & _ & _ & Hcp & Hnp).
    change (f_sched (lget s)) with (k_sched s) in *. rewrite Hcur in *. rewrite Ht in Ht0. injection Ht0 as <-.
    exists parent. split; [exact Hpar|]. rewrite Hcp, Hct, Hnp, Hn. by rewrite (proj2 (Z.eqb_neq k 0)) by lia.
Qed.

Lemma second_thread k p1 s :
  0 < init_task < LOW_MEMORY → one_thread k p1 s →
  returns (spawn fuel kernel_thread2) (λ _ s', ∃ p2, kernel_up p1 p2 s') s.
Proof.
  intros Hi [Hinv1 (Hh & Ha & (g & Hg & Hgb) & d & Hd) Hm Hcur Htab1 Hf Hmask Hp1 Hk1 _].
  assert (LOW_MEMORY < 2 ^ 64) as Hlow by (by vm_compute). assert (p1 ≠ 0) as Hne1 by (destruct Hp1; lia).
  eapply returns_mono; [apply (spawn_stage fuel [p1] [p1] kernel_thread2 2 s Hinv1)|].
  { unfold PAGES_LEFT in Hf. lia. }
  { rewrite Htab1. apply (find_slot [init_task; p1] 125). repeat (constructor; [lia|]). constructor. }
  { lia. } { cbn; lia. } { cbn; lia. }
  intros _ s2 [p2 Hs2]. pose proof (spawned_kthread _ _ _ _ _ _ _ Hs2) as Hk2.
  destruct Hs2 as ((Hinv2 & Hp2 & Hu2 & _ & Htab2 & _ & Hsame) & Hirq2 & Hg2 & Hm2 & Hc2 & Hmask2 & Hf2).
  exists p2. split; try done; try congruence.
  - change (k_tasks s2 = <[Z.to_nat 2 := p2]> (k_tasks s)) in Htab2. by rewrite Htab2, Htab1.
  - apply (kthread_kept s); [|done]. apply Hsame.
    + intros ->. apply Hu2, (fi_used _ _ _ Hinv1). apply elem_of_cons; by left.
    + change (p1 ≠ current (k_sched s)). rewrite Hcur. destruct Hp1; lia.
  - exists g. split; [|done]. split; cbn; [by rewrite Hirq2|by rewrite Hg2|rewrite Hirq2; by exists d].
  - by rewrite Hm2.
  - lia.
Qed.

Lemma two_threads k s :
  0 < init_task < LOW_MEMORY → 0 < k → idle k s →
  returns (spawn fuel kernel_thread1 ;; spawn fuel kernel_thread2) (λ _ s', ∃ p1 p2, kernel_up p1 p2 s') s.
Proof.
  intros Hi Hk Hs. eapply returns_seq; [by apply (first_thread k)|]. intros _ s1 [p1 H1].
  eapply returns_mono; [by apply (second_thread (k / 2) p1)|]. intros _ s2 [p2 H2]. by exists p1, p2.
Qed.

Lemma boot_devices_ok `{!UartLive P fuel} r m c :
  bootable P r →
  returns (boot_devices P fuel init_printk_done)
    (λ _ s, idle DEF_COUNTER s ∧ ∃ n, booting r irq_ticking mapped queue_empty n s) (loaded m r c).
Proof.
  intros [Hlay [Hi Hi'] Hq Hsp Hbss Hlines]. pose proof (loaded_booting m r c Hsp) as Hb.
  assert (Forall (λ c, 0 ≤ c < 256) (chars "Hello World from Arm64OS!" ++ [13; 10])) as Hhello
    by (repeat (constructor; [by vm_compute|]); constructor).
  unfold boot_devices. do 7 silent.
  stage gic_stage. stage mem_init_stage. stage sched_init_stage. do 4 silent.
  stage paging_stage. silent. stage timer_stage.
  apply returns_zoom. eapply returns_ret; [done|].
  cbn beta. match goal with H : booting _ _ _ _ ?n _ |- idle _ ?s ∧ _ =>
    assert (booting r irq_ticking mapped queue_empty n s) as Hs by (destruct H; by split);
    split; [apply (booting_idle r n); [done..|unfold PAGES_LEFT; lia|exact Hs|done]|by exists n] end.
Qed.

Lemma boot_stages_ok `{!UartLive P fuel} r m c :
  bootable P r →
  returns (boot P fuel init_printk_done) (λ _ s', ∃ p1 p2, kernel_up p1 p2 s') (loaded m r c).
Proof.
  intros Hb. eapply returns_seq; [by apply boot_devices_ok|]. intros ? s [Hs _].
  by apply (two_threads DEF_COUNTER); [apply Hb|..].
Qed.

(** C3 (functional): started by the boot loader with any memory, on a live UART and a
    controller with at most 256 lines, the boot runs to its end.  The two kernel threads
    then exist, with pids 1 and 2, on the run queue behind the running init task, and
    will start in their functions; the scheduler's, the task table's and the page
    allocator's invariants hold; the timer's interrupt is wired to its handler, the
    only one installed, and interrupts are on; and the tables the processor uses map exactly the kernel's
    identity map; of the allocator's pages that lie in memory at least 129445 are free. *)
Theorem boot_brings_up_kernel `{!UartLive P fuel} r m c :
  bootable P r →
  returns (boot P fuel init_printk_done) (λ _ s', ∃ p1 p2, kernel_up p1 p2 s') (loaded m r c).
Proof. apply boot_stages_ok. Qed.
End properties.

(** ** A concrete board

    A controller with 256 lines and a UART whose FIFOs are never full or empty; the
    symbols are laid out in the order of the linker script. *)

Module Example_boot.
Definition sched_symbols : SchedSymbols.
Proof. refine {| g_ready_queue := 0x8a000; init_task := 0x88000; ret_from_fork := 0x81000;
                 switch_to_return := 0x81100 |}. discriminate. Defined.
Definition mmu_symbols : MmuSymbols :=
  {| idmap_pgd_dir := 0x8c000; _text_boot_start := 0x80000; _text_end := 0x86123 |}.
Definition image : ImageSymbols := {|
  _text_boot_end := 0x80100; _text_start := 0x80100; _rodata_start := 0x87000; _rodata_end := 0x87800;
  _data_start := 0x88000; _data_end := 0x8a100; bss_begin := 0x8b000; bss_end := 0x90008;
  kernel_thread1 := 0x82000; kernel_thread2 := 0x82100; run_user_thread := 0x86000;
|}.
Definition board : platform := {|
  dev_read := λ _ a, if a =? GIC_V2_DISTRIBUTOR_BASE + 4 then 7 else 0;
  sysreg_read := λ _ _, 54000000;
|}.
Definition regs0 : cpu_context := CpuContext 0 0 0 0 0 0 0 0 0 0 0 0x88f00 0.
End Example_boot.

#[local] Existing Instance Example_boot.sched_symbols.
#[local] Existing Instance Example_boot.mmu_symbols.
#[local] Existing Instance Example_boot.image.
#[local] Existing Instance log_console.

Lemma board_live fuel : UartLive Example_boot.board (S fuel).
Proof. split; intros tr; exists 0%nat; (split; [lia|done]). Qed.
#[local] Existing Instance board_live.

Lemma board_bootable : bootable Example_boot.board Example_boot.regs0.
Proof.
  split; [|by vm_compute|by vm_compute|by vm_compute|by vm_compute|by vm_compute].
  split; [by_decision|by vm_compute|by split; [|by_decision]|]. intros [_ [Hlow _]]. by vm_compute in Hlow.
Qed.

Lemma boot_brings_up_kernel_witness :
  bootable Example_boot.board Example_boot.regs0 ∧
  returns (boot Example_boot.board 1 id) (λ _ s', ∃ p1 p2, kernel_up p1 p2 s')
    (loaded ∅ Example_boot.regs0 ([] : list (string * list karg))).
Proof.
  split; [exact board_bootable|].
  exact (boot_brings_up_kernel Example_boot.board 1 id Example_boot.regs0 ∅ [] board_bootable).
Defined.
