(* ===== verification/System.v ===== *)
(** * The running kernel

    Everything that can happen once the boot is done, as events: interrupts taken in
    the kernel and in user space, exceptions of user code, calls of the scheduler,
    new kernel threads, and the threads' own work.  The theorems follow the kernel
    from the boot loader through any sequence of events. *)

From S2P Require Import Prelude Mmio Uart Format Printk PageAlloc KList Sched Fair Fork.
From S2P Require Import Mmu Irq Gic Timer Syscall Traps Main.

(** ** The code *)

Section system.
Context {C : Type} `{Hcon : !Console C} `{Hsym : !SchedSymbols}.
Context (P : platform) (fuel : nat).
Abbreviation K := (M (kernel C)).
Abbreviation F := (M (fork_state C)).

(** kernel_context_save 0 stores the registers of user code in the frame at the top of
    the task's kernel stack. *)
(** [arch/arm64/kernel/entry.S:30-69] kernel_context_save *)
Definition kernel_context_save (r : pt_regs) : F unit :=
  c ← zoom get_current; store_regs (task_pt_regs c) r.

(** [el0_sync] compares the exception class with that of SVC and branches to [el0_svc],
    which is also what comes next. *)
(** [arch/arm64/kernel/entry.S:236-247] el0_sync *)
Definition el0_sync (ec : Z) (r : pt_regs) : F unit :=
  kernel_context_save r ;;
  if ec =? ESR_ELx_EC_SVC64 then el0_svc fuel else el0_svc fuel.

(** [arch/arm64/kernel/entry.S:249-252] el0_irq *)
Definition el0_irq (r : pt_regs) : K unit :=
  zoom (T:=fork_state C) (kernel_context_save r) ;;
  zoom (T:=machine pages C) (irq_handler (ArchIrqCode0:=kernel_arch_code P fuel)) ;;
  zoom (T:=sched C) (ret_to_user fuel).

Definition k_el1_irq : K unit :=
  zoom (T:=machine pages C) (el1_irq (ArchIrqCode0:=kernel_arch_code P fuel) fuel).
End system.

(** What happens to the kernel; [r] holds the registers of the interrupted user code. *)
Inductive event : Type :=
  | Ev_el1_irq
  | Ev_el0_irq (r : pt_regs)
  | Ev_el0_sync (ec : Z) (r : pt_regs)
  | Ev_schedule
  | Ev_spawn (fn : Z)
  | Ev_round (loops : Z) (name text : string).

(** System calls by number; a negative one is the subject of Syscall.v. *)
Definition allowed (e : event) : Prop :=
  match e with Ev_el0_sync _ r => 0 ≤ s32 (greg 8 r) | _ => True end.

(** The pages an event takes from the allocator at most. *)
Definition event_pages (e : event) : nat :=
  match e with Ev_el0_sync _ r => syscall_pages (s32 (greg 8 r)) | Ev_spawn _ => 1 | _ => 0 end.
Definition events_pages (es : list event) : nat := foldr (λ e n, event_pages e + n)%nat 0%nat es.

Lemma irqs_no_pages n : events_pages (replicate n Ev_el1_irq) = 0%nat.
Proof. by induction n. Qed.

Section events.
Context {C : Type} `{Hcon : !Console C} `{Hsym : !SchedSymbols}.
Context (P : platform) (fuel : nat).

Definition handle (e : event) : M (kernel C) unit :=
  match e with
  | Ev_el1_irq => k_el1_irq P fuel
  | Ev_el0_irq r => el0_irq P fuel r
  | Ev_el0_sync ec r => zoom (T:=fork_state C) (el0_sync fuel ec r)
  | Ev_schedule => zoom (T:=sched C) (schedule fuel)
  | Ev_spawn fn => spawn fuel fn
  | Ev_round loops name text => kernel_thread_round loops name text
  end.

Fixpoint handle_all (es : list event) : M (kernel C) unit :=
  match es with [] => skip | e :: es => handle e ;; handle_all es end.

(** The invariant of the running kernel: tasks, pages and the task table are in order,
    some task can run, and the timer's interrupt is the one that has a handler. *)
Record kernel_ok (s : kernel C) (queue forked : list Z) (g : gic_chip_data) : Prop := {
  ok_fork : fork_inv (lget s : fork_state C) queue forked;
  ok_queue : queue ≠ [];
  ok_timer : timer_ready (lget s : machine pages C) g;
  ok_handlers : handlers_in [Z.to_nat GENERIC_TIMER_IRQ] (k_irqs s);
}.
Definition running (s : kernel C) : Prop := ∃ queue forked g, kernel_ok s queue forked g.
End events.

(** ** Lemmas *)

Section lemmas.
Context {C : Type} `{Hcon : !Console C} `{Hsym : !SchedSymbols}.
Context (P : platform) (fuel : nat).
Implicit Types (s : kernel C) (m : machine pages C) (f : fork_state C).

(** A scheduler's state that satisfies the invariant can replace the one of the state. *)
Lemma fork_inv_sched f sc queue forked :
  fork_inv f queue forked → task_runs sc queue forked → fork_inv (lput sc f) queue forked.
Proof. intros [] Hs. by split. Qed.

(** *** Interrupts *)

(** The interrupt's handler: the tick for the timer's interrupt, nothing for any other. *)
Lemma gic_any m g :
  timer_ready m g → handlers_in [Z.to_nat GENERIC_TIMER_IRQ] (irqs m) →
  ∀ sc, tick_handle_periodic fuel (schd m) = Ret tt sc →
  ∃ tr, kernel_arch_code P fuel "gic_handle_irq" m
        = Ret tt (Machine (irqs m) (gic_data m) (arch_timer_rate m) tr (palloc m)
                    (if decide (acked P m g = GENERIC_TIMER_IRQ) then sc else schd m)).
Proof.
  intros Hm [Hok Hh] sc E. change (kernel_arch_code P fuel "gic_handle_irq" m) with (gic_handle_irq P (kernel_code fuel) m).
  case_decide as Ha; [eexists; by apply gic_handle_timer|].
  eexists. rewrite (gic_handle_irq_step _ P m g (ti_data _ _ Hm)).
  destruct (Z.ltb_spec 15 (acked P m g)); [|done]. destruct (Z.ltb_spec (acked P m g) 1021); [|done].
  cbn [andb when]. rewrite (bind_eq _ _ (ack P m g) (-1) (ack P m g)); [done|].
  apply generic_handle_irq_none; [done|lia|]. intros d Hd. destruct (handler d) as [h|] eqn:Eh; [|done].
  exfalso. specialize (Hh _ d Hd ltac:(by rewrite Eh)). apply list_elem_of_singleton in Hh.
  apply Ha. unfold GENERIC_TIMER_IRQ in *. lia.
Qed.

(** irq_handler, whatever interrupt the controller acknowledges. *)
Lemma irq_handler_returns m g queue forked :
  timer_ready m g → handlers_in [Z.to_nat GENERIC_TIMER_IRQ] (irqs m) → task_runs (schd m) queue forked →
  ∃ tr sc tick, irq_handler (ArchIrqCode0:=kernel_arch_code P fuel) m
           = Ret tt (Machine (irqs m) (gic_data m) (arch_timer_rate m) tr (palloc m) sc) ∧
           task_runs sc queue forked ∧
           (__irq_enter ;; when tick (tick_handle_periodic fuel) ;; __irq_exit) (schd m) = Ret tt sc.
Proof.
  intros Hm Hh Hs.
  set (body := when (bool_decide (acked P m g = GENERIC_TIMER_IRQ)) (tick_handle_periodic fuel)).
  assert (∀ x, sched_inv x queue forked → in_interrupt body queue forked x) as Hbody.
  { intros x Hx. unfold body. case_bool_decide; [|by exists x].
    destruct (tick_inv fuel x queue forked Hx) as (x' & E & H1 & H2 & H3 & H4 & _). by exists x'. }
  destruct (irq_bracket (schd m) queue forked body Hs Hbody) as (s1 & s2 & s3 & E1 & E2 & E3 & Hs3 & Hi1 & _).
  destruct (tick_inv fuel s1 queue forked Hi1) as (sc & E & _).
  set (m1 := lput s1 m). assert (timer_ready m1 g) as Hm1 by (destruct Hm; by split).
  destruct (gic_any m1 g Hm1 Hh sc E) as (tr & Eg). change (acked P m1 g) with (acked P m g) in Eg.
  assert ((if decide (acked P m g = GENERIC_TIMER_IRQ) then sc else schd m1) = s2) as Hsc.
  { unfold body in E2. case_bool_decide; rewrite ?decide_True, ?decide_False by done; [cbn in E2; rewrite E in E2|]; by injection E2. }
  rewrite Hsc in Eg. exists tr, s3, (bool_decide (acked P m g = GENERIC_TIMER_IRQ)).
  split; [|split; [done|]]; [|fold body; by rewrite (bind_eq _ _ _ _ _ E1), (bind_eq _ _ _ _ _ E2)].
  assert (zoom (T:=sched C) __irq_enter m = Ret tt m1) as Z1 by (unfold zoom; cbn; by rewrite E1).
  unfold irq_handler. rewrite (bind_eq _ _ _ _ _ Z1), bind_gets.
  change ((arch_irq_handler ∘ irqs) m1) with (arch_irq_handler (irqs m)). rewrite (ti_arch _ _ Hm).
  cbn [of_option]. rewrite bind_mret. unfold arch_handler_at. rewrite (bind_eq _ _ _ _ _ Eg).
  unfold zoom; cbn. by rewrite E3.
Qed.

(** *** The kernel's invariant *)

Context (Hfuel : (128 ≤ fuel)%nat).

Lemma ok_lengths s queue forked g :
  kernel_ok s queue forked g → (length forked < fuel)%nat ∧ (length queue < fuel)%nat.
Proof. intros Hs. pose proof (fork_inv_lengths _ _ _ (ok_fork _ _ _ _ Hs)). lia. Qed.

(** A step of the scheduler. *)
Lemma ok_sched s queue forked g sc :
  kernel_ok s queue forked g → task_runs sc queue forked → kernel_ok (lput sc s) queue forked g.
Proof. intros [Hf Hq [] Hh] Hs. split; [exact (fork_inv_sched _ _ _ _ Hf Hs)|done|by split|done]. Qed.

(** A step of the machine, which keeps the interrupts and the pages. *)
Lemma ok_machine s queue forked g tr sc :
  kernel_ok s queue forked g → task_runs sc queue forked →
  kernel_ok (lput (Machine (k_irqs s) (k_gic s) (k_rate s) tr (k_pages s) sc) s) queue forked g.
Proof. intros [Hf Hq [] Hh] Hs. split; [exact (fork_inv_sched _ _ _ _ Hf Hs)|done|by split|done]. Qed.

(** A step of the tasks, the pages and the frames. *)
Lemma ok_forked s queue forked g f queue' forked' :
  kernel_ok s queue forked g → fork_inv f queue' forked' → queue' ≠ [] → kernel_ok (lput f s) queue' forked' g.
Proof. intros [Hf Hq [] Hh] Hf' Hq'. split; [by rewrite lget_lput|done|by split|done]. Qed.

Lemma ok_task_runs s queue forked g : kernel_ok s queue forked g → task_runs (k_sched s) queue forked.
Proof. intros Hs. exact (fi_runs _ _ _ (ok_fork _ _ _ _ Hs)). Qed.

(** A step that prints and talks to devices. *)
Lemma ok_with_io s queue forked g c tr : kernel_ok s queue forked g → kernel_ok (with_io c tr s) queue forked g.
Proof.
  intros Hs. apply (ok_machine s queue forked g tr (set_console c (k_sched s)) Hs).
  by destruct (ok_task_runs _ _ _ _ Hs) as [[] ? ?]; split; [split|..].
Qed.
Lemma quiet_event {A} (k : M (kernel C) A) s queue forked g :
  quiet k → kernel_ok s queue forked g →
  returns k (λ _ s', kernel_ok s' queue forked g ∧ ∃ c tr, s' = with_io c tr s) s.
Proof.
  intros Hk Hs. destruct (Hk s) as (a & c & tr & E). eapply returns_ret; [exact E|].
  split; [by apply ok_with_io|by exists c, tr].
Qed.

(** An operation of the scheduler that returns to task code. *)
Lemma sched_event s queue forked g (k : M (sched C) unit) :
  kernel_ok s queue forked g → (∃ sc, k (k_sched s) = Ret tt sc ∧ task_runs sc queue forked) →
  returns (zoom (T:=sched C) k) (λ _ s', kernel_ok s' queue forked g ∧ k_pages s' = k_pages s) s.
Proof. intros Hs (sc & E & H). apply returns_zoom. eapply returns_ret; [exact E|]. split; [by apply ok_sched|done]. Qed.

Lemma irq_event s queue forked g :
  kernel_ok s queue forked g →
  returns (zoom (T:=machine pages C) (irq_handler (ArchIrqCode0:=kernel_arch_code P fuel)))
    (λ _ s', kernel_ok s' queue forked g ∧ k_pages s' = k_pages s) s.
Proof.
  intros Hs. destruct (irq_handler_returns (lget s) g queue forked) as (tr & sc & tick & E & H & _);
    [apply Hs|apply Hs|by eapply ok_task_runs|].
  apply returns_zoom. eapply returns_ret; [exact E|]. split; [by apply ok_machine|done].
Qed.

(** Entry from user space. *)
Lemma save_event s queue forked g r :
  kernel_ok s queue forked g →
  returns (zoom (T:=fork_state C) (kernel_context_save r))
    (λ _ s', kernel_ok s' queue forked g ∧ k_pages s' = k_pages s ∧ current (k_sched s') = current (k_sched s) ∧
             k_regs s' !! task_pt_regs (current (k_sched s')) = Some r) s.
Proof.
  intros Hs. apply returns_zoom. eapply returns_ret; [done|].
  split; [|split; [done|split; [done|apply lookup_insert_eq]]].
  apply (ok_forked s queue forked g); [done| |by eapply ok_queue]. exact (put_regs_inv _ r _ _ _ (ok_fork _ _ _ _ Hs)).
Qed.

(** An exception of user code, given what the system call does. *)
Lemma el0_sync_eq f f' ec r queue forked :
  let a := task_pt_regs (current (f_sched f)) in
  el0_svc_handler fuel a (put_regs a r f) = Ret tt f' → fork_inv f' queue forked → queue ≠ [] →
  ∃ sc : sched C, el0_sync fuel ec r f = Ret tt (lput sc f') ∧ fork_inv (lput sc f') queue forked.
Proof.
  intros a E Hf Hne. pose proof (fork_inv_lengths _ _ _ Hf).
  destruct (ret_to_user_ok fuel (f_sched f') queue forked) as (sc & E2 & H2 & _); [apply Hf|done|lia|lia|].
  exists sc. split; [|by apply fork_inv_sched].
  assert (el0_sync fuel ec r f = el0_svc fuel (put_regs a r f)) as -> by (unfold el0_sync; by destruct (_ =? _)).
  unfold el0_svc. rewrite (bind_eq _ _ (put_regs a r f) (current (f_sched f)) (put_regs a r f)) by done. fold a.
  rewrite (bind_eq _ _ _ _ _ E). unfold zoom; cbn. by rewrite E2.
Qed.

Lemma queue_kept (queue queue' : list Z) : queue ≠ [] → queue ⊆ queue' → queue' ≠ [].
Proof.
  intros Hq Hsub ->. destruct queue as [|q l]; [done|].
  specialize (Hsub q (list_elem_of_here q l)). by apply elem_of_nil in Hsub.
Qed.

(** The running kernel with a supply of pages. *)
Definition stocked (n : nat) s : Prop := running s ∧ supply n (k_pages s).

Lemma stocked_less n k s : stocked n s → (k ≤ n)%nat → stocked k s.
Proof. intros [H1 H2] Hk. split; [done|by eapply supply_less]. Qed.

Lemma sync_event s queue forked g ec r n :
  kernel_ok s queue forked g → 0 ≤ s32 (greg 8 r) → supply (syscall_pages (s32 (greg 8 r)) + n) (k_pages s) →
  returns (zoom (T:=fork_state C) (el0_sync fuel ec r)) (λ _, stocked n) s.
Proof.
  intros Hs Hno Hsup. apply returns_zoom. set (f := lget s : fork_state C).
  set (a := task_pt_regs (current (f_sched f))).
  assert (fork_inv (put_regs a r f) queue forked) as Hf1 by apply put_regs_inv, Hs.
  destruct (el0_svc_handler_returns fuel _ queue forked a r n Hf1 eq_refl (lookup_insert_eq _ _ _) Hno Hsup)
    as ([] & f2 & E2 & queue' & forked' & Hf2 & Hsub & _ & Hn).
  pose proof (queue_kept _ _ (ok_queue _ _ _ _ Hs) Hsub) as Hne.
  destruct (el0_sync_eq f f2 ec r queue' forked' E2 Hf2 Hne) as (sc & E & Hf3).
  eapply returns_ret; [exact E|]. split; [|done]. exists queue', forked', g. by eapply ok_forked.
Qed.

Lemma spawn_event s queue forked g fn n :
  kernel_ok s queue forked g → supply (S n) (k_pages s) → returns (spawn fuel fn) (λ _, stocked n) s.
Proof.
  intros Hs Hsup. apply (returns_seq _ _ (λ _, stocked n)).
  - apply returns_zoom. eapply returns_mono.
    { apply (do_fork_returns fuel (lget s) queue forked); [apply Hs|eapply supply_less; [exact Hsup|lia]|right; discriminate]. }
    intros _ f (queue' & forked' & Hf & Hsub & _ & Hn). split; [|by apply Hn].
    exists queue', forked', g. eapply ok_forked; [done..|]. by apply (queue_kept queue); [eapply ok_queue|].
  - intros pid s' H. unfold when, skip. destruct (pid <? 0); [|eapply returns_ret; [done|exact H]].
    destruct H as [(queue' & forked' & g' & H) Hn]. eapply returns_ret; [done|]. split; [|exact Hn]. exists queue', forked', g'.
    apply (ok_sched s' queue' forked' g'); [done|]. by destruct (ok_task_runs _ _ _ _ H) as [[] ? ?]; split; [split|..].
Qed.

(** Every event is handled, and leaves the kernel running; it takes no more pages than
    [event_pages] says. *)
Lemma handle_returns s e n :
  stocked (event_pages e + n) s → allowed e → returns (handle P fuel e) (λ _, stocked n) s.
Proof.
  intros [(queue & forked & g & Hs) Hsup] He. destruct (ok_lengths _ _ _ _ Hs) as [Hff Hfq].
  pose proof (ok_queue _ _ _ _ Hs) as Hne.
  assert (∀ s', kernel_ok s' queue forked g ∧ k_pages s' = k_pages s → stocked n s') as Hkeep.
  { intros s' [H Hp]. split; [by exists queue, forked, g|]. rewrite Hp. eapply supply_less; [exact Hsup|lia]. }
  destruct e as [|r|ec r| |fn|loops name text]; cbn [handle].
  - destruct (irq_handler_returns (lget s) g queue forked) as (tr & sc & tick & E & H & _);
      [apply Hs|apply Hs|by eapply ok_task_runs|].
    destruct (el1_irq_exit_ok fuel sc queue forked H Hne Hff Hfq) as (sc' & E' & H' & _).
    apply returns_zoom.
    apply (returns_ret _ _ _ tt (Machine (k_irqs s) (k_gic s) (k_rate s) tr (k_pages s) sc')).
    { unfold el1_irq. rewrite (bind_eq _ _ _ _ _ E). unfold zoom; cbn. by rewrite E'. }
    apply Hkeep. split; [by apply ok_machine|done].
  - eapply returns_seq; [by apply save_event|]. intros _ s1 (H1 & P1 & _).
    eapply returns_seq; [by apply irq_event|]. intros ? s2 [H2 P2].
    eapply returns_mono; [apply (sched_event s2 queue forked g); [done|]|].
    + destruct (ret_to_user_ok fuel (k_sched s2) queue forked) as (sc & E & H & _); [by eapply ok_task_runs|done..|].
      by exists sc.
    + intros ? s3 [H3 P3]. apply Hkeep. split; [done|]. by rewrite P3, P2.
  - by eapply sync_event.
  - eapply returns_mono; [eapply sched_event; [exact Hs|]|intros ? s'; apply Hkeep].
    destruct (schedule_ok fuel (k_sched s) queue forked) as (sc & E & H & _); [by eapply ok_task_runs|done..|].
    by exists sc.
  - by eapply spawn_event.
  - destruct (quiet_bind _ _ (quiet_hw (delay loops) ltac:(by do 2 eexists)) (λ _, quiet_kprintk ("%s: %s" +++ nl) [str name; str text]) s)
      as ([] & c & tr & E).
    eapply returns_ret; [exact E|]. apply Hkeep. split; [by apply ok_with_io|done].
Qed.

Lemma handle_all_returns s es n :
  stocked (events_pages es + n) s → Forall allowed es → returns (handle_all P fuel es) (λ _, stocked n) s.
Proof.
  intros Hs Hes; revert s Hs; induction Hes as [|e es He _ IH]; intros s Hs; [by eapply returns_ret|].
  cbn [events_pages foldr] in Hs. rewrite <-Nat.add_assoc in Hs.
  eapply returns_seq; [by apply handle_returns|]. intros ? s' H. by apply IH.
Qed.
End lemmas.

Section timers.
Context {C : Type} `{Hcon : !Console C} `{Hsym : !SchedSymbols}.
Context (P : platform) (fuel : nat).
Implicit Types (s : kernel C).

(** The timer's is the interrupt the processor takes. *)
Definition only_timer (g : gic_chip_data) : Prop :=
  ∀ tr, u32 (dev_read P tr (u64 (raw_cpu_base g + GIC_CPU_INTACK))) mod 1024 = GENERIC_TIMER_IRQ.

(** A timer interrupt of the kernel is one of the scheduler of Sched.v. *)
Lemma k_el1_irq_timer s queue forked g sc :
  kernel_ok s queue forked g → only_timer g → timer_interrupt fuel (k_sched s) = Ret tt sc →
  task_runs sc queue forked →
  ∃ s', k_el1_irq P fuel s = Ret tt s' ∧ (lget s' : fork_state C) = lput sc (lget s) ∧ kernel_ok s' queue forked g ∧
        k_irqs s' = k_irqs s ∧ k_gic s' = k_gic s ∧ k_mem s' = k_mem s.
Proof.
  intros Hs Hg E Hsc. set (m := lget s : machine pages C).
  pose proof (el1_irq_timer P fuel m g sc (ok_timer _ _ _ _ Hs) (Hg (hw m)) E) as E1.
  eexists. split; [exact (zoom_eq _ s tt _ E1)|]. split; [done|]. split; [by apply ok_machine|done].
Qed.

Lemma k_timer_interrupts n s queue forked g sc :
  kernel_ok s queue forked g → only_timer g → (128 ≤ fuel)%nat → timer_interrupts fuel n (k_sched s) = Ret tt sc →
  ∃ s', handle_all P fuel (replicate n Ev_el1_irq) s = Ret tt s' ∧
        (lget s' : fork_state C) = lput sc (lget s) ∧ kernel_ok s' queue forked g.
Proof.
  intros Hs Hg Hfuel; revert s Hs; induction n as [|n IH]; intros s Hs E; [injection E as <-; by exists s|].
  destruct (ok_lengths fuel Hfuel _ _ _ _ Hs) as [Hff Hfq].
  cbn [timer_interrupts] in E. apply bind_inv in E as ([] & sc1 & E1 & E).
  destruct (timer_interrupt_ok fuel (k_sched s) queue forked) as (x & E2 & Hx & _);
    [by eapply ok_task_runs|by eapply ok_queue|done|done|].
  rewrite E1 in E2. injection E2 as <-.
  destruct (k_el1_irq_timer s queue forked g sc1 Hs Hg E1 Hx) as (s1 & E2 & Hsc & Hs1 & _).
  assert (k_sched s1 = sc1) as Hk by exact (f_equal f_sched Hsc). rewrite <-Hk in E.
  destruct (IH s1 Hs1 E) as (s' & E3 & Hl & H). exists s'. split; [|by rewrite Hl, Hsc].
  cbn [replicate handle_all handle]. by rewrite (bind_eq _ _ _ _ _ E2).
Qed.
End timers.

(** ** Properties *)

Section properties.
Context {C : Type} `{Hcon : !Console C} `{Hsym : !SchedSymbols}.
Context (P : platform) (fuel : nat).
Implicit Types (s : kernel C).

Lemma kernel_up_ok `{!MmuSymbols, !ImageSymbols} p1 p2 s : kernel_up p1 p2 s → ∃ g, kernel_ok s [p2; p1] [p1; p2] g.
Proof. intros []. destruct ku_timer as [g [Hg _]]. by exists g. Qed.

Lemma kernel_up_stocked `{!MmuSymbols, !ImageSymbols} p1 p2 s n :
  kernel_up p1 p2 s → Z.of_nat n ≤ PAGES_LEFT → stocked n s.
Proof.
  intros Hs Hn. destruct (kernel_up_ok p1 p2 s Hs) as [g Hg]. split; [by exists [p2; p1], [p1; p2], g|].
  left. pose proof (ku_free _ _ _ Hs). lia.
Qed.

(** C7 (liveness): when the timer's interrupts come, every task of the run queue of the
    running kernel is the current task after a bounded number of them: the interrupt of
    the whole machine refines the one of the scheduler, under which no task starves. *)
Theorem kernel_tasks_run s queue forked g p :
  kernel_ok s queue forked g → only_timer P g → (128 ≤ fuel)%nat → p ∈ queue →
  ∃ n s', let ts := tasks (k_sched s) in
    Z.of_nat n ≤ 1 + load ts (init_task :: forked) + counter_of ts init_task + full_load ts forked ∧
    handle_all P fuel (replicate n Ev_el1_irq) s = Ret tt s' ∧
    kernel_ok s' queue forked g ∧ current (k_sched s') = p.
Proof.
  intros Hs Hg Hfuel Hp. destruct (ok_lengths fuel Hfuel _ _ _ _ Hs) as [Hff Hfq].
  destruct (waits_at_most fuel queue forked p (k_sched s)) as (n & sc & Hn & E & _ & Hc); [by eapply ok_task_runs|done..|].
  destruct (k_timer_interrupts P fuel n s queue forked g sc Hs Hg Hfuel E) as (s' & E' & Hsc & Hs').
  exists n, s'. split; [done|]. split; [done|]. split; [done|]. rewrite <-Hc. exact (f_equal (current ∘ f_sched) Hsc).
Qed.

(** El0_sync takes every exception of user code for a system call: whatever
    the class, with 6 or more in x8 the kernel answers -1 in x0 and goes back to the
    instruction that trapped, so a user program that touches unmapped memory is neither
    stopped nor reported. *)
Theorem el0_sync_every_class f queue forked ec r :
  fork_inv f queue forked → queue ≠ [] → (128 ≤ fuel)%nat → __NR_syscalls ≤ s32 (greg 8 r) →
  ∃ f' r', el0_sync fuel ec r f = Ret tt f' ∧ fork_inv f' queue forked ∧
    f_regs f' !! task_pt_regs (current (f_sched f)) = Some r' ∧
    regs_pc r' = regs_pc r ∧ gregs r' = <[0%nat := u64 (-1)]> (gregs r).
Proof.
  intros Hf Hne Hfuel Hno. set (a := task_pt_regs (current (f_sched f))). set (f1 := put_regs a r f).
  set (no := s32 (greg 8 r)) in *. set (r' := set_gregs 0 (u64 (-1)) (entered no r)).
  assert (el0_svc_handler fuel a f1 = Ret tt (put_regs a r' f)) as E1.
  { rewrite (el0_svc_handler_eq fuel f1 a r no (lookup_insert_eq _ _ _) eq_refl). unfold invoke_syscall.
    destruct (Z.ltb_spec no __NR_syscalls); [lia|]. unfold sys_ni_syscall. rewrite bind_mret.
    rewrite (update_regs_eq _ a _ _ (lookup_insert_eq _ _ _)). unfold f1. by rewrite !put_regs_twice. }
  pose proof (put_regs_inv a r' f queue forked Hf) as Hf2.
  destruct (el0_sync_eq fuel Hfuel f _ ec r queue forked E1 Hf2 Hne) as (sc & E & Hf3).
  exists (lput sc (put_regs a r' f)), r'. split; [done|]. split; [done|]. split; [apply lookup_insert_eq|done].
Qed.
End properties.

(** ** Instances *)

Module Example_system.
(** Example_sched's tasks in the whole kernel, with Example_timer's board. *)
Definition table : list Z := 0x80000 :: 0x400000 :: 0x401000 :: replicate 125 0.
Definition up : kernel (list (string * list karg)) :=
  Kernel (irqs Example_timer.wired) [Example_timer.gic1] 216000 [] ∅ (first_used 2) Example_sched.s0 ∅ table 2.

Lemma up_inv : fork_inv (H:=Example_sched.symbols) (lget up : fork_state _) Example_sched.queue Example_sched.forked.
Proof.
  split; [exact Example_sched.s0_runs|by apply first_used_ok| |by vm_compute|done|by_decision].
  intros p Hp. unfold Example_sched.forked in Hp. apply elem_of_cons in Hp as [->|Hp]; [|apply list_elem_of_singleton in Hp as ->].
  - split; [by vm_compute|]. change (page_index 0x400000) with 0. reflexivity.
  - split; [by vm_compute|]. change (page_index 0x401000) with 1. reflexivity.
Qed.

Lemma up_ok : kernel_ok (Hsym:=Example_sched.symbols) up Example_sched.queue Example_sched.forked Example_timer.gic1.
Proof.
  split; [exact up_inv|done|destruct Example_timer.wired_ready; by split|].
  split; [done|]. intros n d Hd Hh. apply list_elem_of_singleton. change (Z.to_nat GENERIC_TIMER_IRQ) with 30%nat.
  destruct (decide (n = 30%nat)) as [|Hne]; [done|]. exfalso. apply Hh.
  change (irq_descs (k_irqs up)) with (<[30%nat := Example_timer.timer_desc]> (irq_descs irq_boot)) in Hd.
  rewrite list_lookup_insert_ne in Hd by done. apply lookup_replicate in Hd as [-> _]. done.
Qed.

(** User code with a system call's number in x8. *)
Definition trap (x8 : Z) : pt_regs := Example_syscall.frame 0 0 0 x8.
End Example_system.

#[local] Existing Instance log_console.

#[local] Existing Instance Example_sched.symbols.

Lemma kernel_tasks_run_witness :
  ∃ n s', Z.of_nat n ≤ 87 ∧ handle_all Example_timer.board 128 (replicate n Ev_el1_irq) Example_system.up = Ret tt s' ∧
    current (k_sched s') = 0x401000.
Proof.
  destruct (kernel_tasks_run Example_timer.board 128 Example_system.up _ _ _ 0x401000 Example_system.up_ok)
    as (n & s' & Hn & E & _ & Hc); [intros tr; reflexivity|lia|apply elem_of_cons; by left|].
  exists n, s'. split; [exact Hn|]. split; [exact E|exact Hc].
Defined.

Lemma el0_sync_every_class_witness :
  ∃ f' r', el0_sync 128 0x24 (Example_system.trap 99) (lget Example_system.up : fork_state _) = Ret tt f' ∧
    regs_pc r' = 0x85000 ∧ greg 0 r' = 2 ^ 64 - 1.
Proof.
  destruct (el0_sync_every_class 128 _ _ _ 0x24 (Example_system.trap 99) Example_system.up_inv)
    as (f' & r' & E & _ & _ & H1 & H2); [done|lia|by vm_compute|].
  exists f', r'. split; [exact E|]. split; [exact H1|]. unfold greg. rewrite H2. reflexivity.
Defined.
