(* ===== verification/Vectors.v ===== *)
(** * arch/arm64/kernel/entry.S: the vector table

    Where the processor goes for each kind of exception and each state it was taken from,
    and what the code there does.  The vectors of a running kernel are the events of
    System.v; all others end in bad_mode (Traps.v). *)

From S2P Require Import Prelude Mmio Format Printk PageAlloc KList Sched Fork.
From S2P Require Import Irq Gic Timer Syscall Traps Main System.

(** ** Data *)

(** What the processor was executing, and the kind of exception. *)
Inductive source : Type := Current_EL_SP0 | Current_EL_SPx | Lower_EL_AArch64 | Lower_EL_AArch32.
Inductive exception : Type := Sync | IRQ | FIQ | SError.

Inductive vector : Type :=
  | V_el1_sync_invalid | V_el1_irq_invalid | V_el1_fiq_invalid | V_el1_error_invalid
  | V_el1_irq | V_el0_sync | V_el0_irq
  | V_el0_sync_invalid | V_el0_irq_invalid | V_el0_fiq_invalid | V_el0_error_invalid.

(** [arch/arm64/kernel/entry.S:5-8] BAD_SYNC, BAD_IRQ, BAD_FIQ, BAD_ERROR *)
Definition bad_reason (e : exception) : Z := match e with Sync => 0 | IRQ => 1 | FIQ => 2 | SError => 3 end.

(** [arch/arm64/kernel/entry.S:175-201] vectors *)
Definition vectors (from : source) (e : exception) : vector :=
  match from, e with
  | (Current_EL_SP0 | Current_EL_SPx), Sync => V_el1_sync_invalid
  | Current_EL_SP0, IRQ => V_el1_irq_invalid
  | Current_EL_SPx, IRQ => V_el1_irq
  | (Current_EL_SP0 | Current_EL_SPx), FIQ => V_el1_fiq_invalid
  | (Current_EL_SP0 | Current_EL_SPx), SError => V_el1_error_invalid
  | Lower_EL_AArch64, Sync => V_el0_sync
  | Lower_EL_AArch64, IRQ => V_el0_irq
  | Lower_EL_AArch32, Sync => V_el0_sync_invalid
  | Lower_EL_AArch32, IRQ => V_el0_irq_invalid
  | (Lower_EL_AArch64 | Lower_EL_AArch32), FIQ => V_el0_fiq_invalid
  | (Lower_EL_AArch64 | Lower_EL_AArch32), SError => V_el0_error_invalid
  end.

#[export] Program Instance lens_k_traps C : Lens (kernel C) (trace * C) := {|
  lget s := (k_hw s, console (k_sched s));
  lput x s := with_io (snd x) (fst x) s;
|}.
Solve All Obligations with solve_lens.

(** ** The code *)

Section vectors.
Context {C : Type} `{Hcon : !Console C} `{Hsym : !SchedSymbols}.
Context (P : platform) (fuel : nat).
Abbreviation K := (M (kernel C)).

(** [arch/arm64/kernel/entry.S:18-23] inv_entry *)
Definition inv_entry (reason : Z) : K unit :=
  esr ← zoom (read_sysreg P "esr_el1");
  zoom (bad_mode P reason (u32 esr)).

(** It saves the registers first; bad_mode does not look at them. *)
(** [arch/arm64/kernel/entry.S:203-210] el1_sync_invalid *)
Definition el1_sync_invalid : K unit :=
  esr ← zoom (read_sysreg P "esr_el1");
  zoom (bad_mode P 0 (u32 esr)).

(** The code at a vector; [r] holds the interrupted registers, which matter when they are
    user code's. *)
(** [arch/arm64/kernel/entry.S:203-270] el1_irq and the other entries the vectors branch to *)
Definition run_vector (v : vector) (r : pt_regs) : K unit :=
  match v with
  | V_el1_sync_invalid => el1_sync_invalid
  | V_el1_irq_invalid => inv_entry (bad_reason IRQ)
  | V_el1_fiq_invalid => inv_entry (bad_reason FIQ)
  | V_el1_error_invalid => inv_entry (bad_reason SError)
  | V_el0_sync_invalid => inv_entry (bad_reason Sync)
  | V_el0_irq_invalid => inv_entry (bad_reason IRQ)
  | V_el0_fiq_invalid => inv_entry (bad_reason FIQ)
  | V_el0_error_invalid => inv_entry (bad_reason SError)
  | V_el1_irq => k_el1_irq P fuel
  | V_el0_irq => el0_irq P fuel r
  | V_el0_sync =>
      esr ← zoom (read_sysreg P "esr_el1");
      zoom (T:=fork_state C) (el0_sync fuel (Z.shiftr esr ESR_ELx_EC_SHIFT) r)
  end.

Definition take_exception (from : source) (e : exception) (r : pt_regs) : K unit := run_vector (vectors from e) r.
End vectors.

(** *** What the architecture's table should lead to *)

(** The number of the report for a kind of exception. *)
Definition exception_kind (e : exception) : Z := match e with Sync => 0 | IRQ => 1 | FIQ => 2 | SError => 3 end.

Inductive fate : Type := Handled (ev : event) | Stopped (reason : Z).

(** The fate of an exception, [esr] being the syndrome the processor shows. *)
Definition exception_fate (from : source) (e : exception) (esr : Z) (r : pt_regs) : fate :=
  match from, e with
  | Current_EL_SPx, IRQ => Handled Ev_el1_irq
  | Lower_EL_AArch64, IRQ => Handled (Ev_el0_irq r)
  | Lower_EL_AArch64, Sync => Handled (Ev_el0_sync (esr / 2 ^ 26) r)
  | _, _ => Stopped (exception_kind e)
  end.

(** ** Properties *)

Section properties.
Context {C : Type} `{Hcon : !Console C} `{Hsym : !SchedSymbols}.
Context (P : platform) (fuel : nat).
Implicit Types (s : kernel C).

(** The state after ESR_EL1 was read. *)
Definition read_esr s : kernel C := lput (Mrs "esr_el1" (u64 (sysreg_read P (k_hw s) "esr_el1")) :: k_hw s) s.

(** bad_mode's end: the report is printed, and nothing else has changed. *)
Definition stopped (reason esr : Z) s : outcome (kernel C) unit :=
  let far := u64 (sysreg_read P (k_hw s) "far_el1") in
  if data_abort esr && (DATA_FAULT_CODES <=? field esr 0 6) then Fault (IndexRange (field esr 0 6))
  else Halt (with_io (print_all (bad_mode_lines reason 0 far esr) (console (k_sched s))) (Mrs "far_el1" far :: k_hw s) s).

Lemma inv_entry_stops reason s :
  0 ≤ reason < 4 → inv_entry P reason s = stopped reason (u32 (u64 (sysreg_read P (k_hw s) "esr_el1"))) (read_esr s).
Proof.
  intros Hr. unfold inv_entry. set (v := u64 (sysreg_read P (k_hw s) "esr_el1")).
  rewrite (bind_eq _ _ s v (read_esr s)) by done.
  unfold zoom. cbn [lget lens_k_traps]. rewrite (bad_mode_stops P reason (u32 v)) by (apply u32_range || lia).
  rewrite (proj2 (Z.ltb_lt _ _)) by lia. unfold stopped, bad_mode_lines. rewrite (proj2 (Z.ltb_lt reason 4)) by lia.
  by destruct (_ && _).
Qed.

End properties.

(** ** An instance *)

#[local] Existing Instance Example_sched.symbols.
#[local] Existing Instance log_console.

