(* ===== verification/Window.v ===== *)
(** * Timer interrupts around the first thread

    start_kernel turns interrupts on before it creates its two kernel threads, and it runs
    as the init task, which nothing puts on the run queue.  Before the first thread the
    timer counts the init task's ticks down while the queue is empty; between the two, a
    task is waiting to take the processor and will not give it back. *)

From S2P Require Import Prelude Memory Mmio Uart Format Printk PageAlloc KList Sched Fork.
From S2P Require Import PgTable Mmu Irq Gic Timer Traps Main System.

Section window.
Context {C : Type} `{Hcon : !Console C} `{Hsym : !SchedSymbols} `{Hmmu : !MmuSymbols} `{Himg : !ImageSymbols}.
Context (P : platform) (fuel : nat) (init_printk_done : C → C).
Implicit Types (s : kernel C).

(** start_kernel goes on when it is the init task that runs. *)
(** [init/main.c:191-193] start_kernel: the second thread *)
Definition resume_init : M (kernel C) unit :=
  c ← gets (current ∘ k_sched);
  when (c =? init_task) (spawn fuel kernel_thread2).

(** The boot with [n] timer interrupts between main.c:183 and main.c:187, and [m] between
    main.c:187 and main.c:191. *)
(** [init/main.c:146-193] start_kernel: with interrupts *)
Definition boot_interrupted (n m : nat) : M (kernel C) unit :=
  boot_devices P fuel init_printk_done ;;
  handle_all P fuel (replicate n Ev_el1_irq) ;;
  spawn fuel kernel_thread1 ;;
  handle_all P fuel (replicate m Ev_el1_irq) ;;
  resume_init.

(** The timer's is the only interrupt the controller signals. *)
Definition timer_only : Prop :=
  ∀ tr, u32 (dev_read P tr (u64 (GIC_V2_CPU_INTERFACE_BASE + GIC_CPU_INTACK))) mod 1024 = GENERIC_TIMER_IRQ.

(** ** Lemmas *)

Lemma idle_runs k s : idle k s → task_runs (k_sched s) [] [].
Proof. intros Hs. exact (fi_runs _ _ _ (id_inv _ _ Hs)). Qed.

Lemma idle_timer k s :
  idle k s → ∃ g, timer_ready (lget s : machine pages C) g ∧ raw_cpu_base g = GIC_V2_CPU_INTERFACE_BASE.
Proof.
  intros Hs. destruct (id_irq _ _ Hs) as (_ & Ha & (g & Hg & Hb) & d & Hd). exists g. split; [|done]. split; [done..|].
  by exists d.
Qed.

(** An interrupt taken there counts the init task's ticks down, up to the way out. *)
Lemma idle_tick k s :
  timer_only → 0 < k → idle k s →
  ∃ s1, k_el1_irq P fuel s = zoom (T:=machine pages C) (zoom (T:=sched C) (el1_irq_exit fuel)) s1 ∧ idle (k - 1) s1.
Proof.
  intros Hto Hk Hs. destruct (idle_timer k s Hs) as (g & Hg & Hb).
  pose proof Hs as [Hinv Hirq Hmap Hcur Htab Hfree Hmask (t & Ht & Hc & Hn)].
  pose proof (fi_runs _ _ _ Hinv) as Hruns.
  destruct (timer_interrupt_tick fuel (k_sched s) [] [] Hruns) as (sc & E & Hsc & Hcsc & Hcore & Hm).
  set (m := lget s : machine pages C).
  exists (lput (timer_served P m g sc) s). split.
  - unfold k_el1_irq. unfold zoom at 1 2. rewrite lget_lput. fold m.
    rewrite (el1_irq_tick P fuel m g sc Hg); [|specialize (Hto (hw m)); unfold acked; by rewrite Hb|exact E].
    destruct (zoom _ _); [by rewrite lput_lput|done..].
  - split; [|exact Hirq|exact Hmap| |exact Htab|exact Hfree| |].
    + exact (fork_inv_sched _ sc _ _ Hinv Hsc).
    + change (current sc = init_task). by rewrite Hcsc.
    + change (irqs_masked sc = false). by rewrite Hm.
    + change (∃ t, tasks sc !! init_task = Some t ∧ counter t = k - 1 ∧ need_resched t = (if k - 1 =? 0 then 1 else 0)).
      specialize (Hcore init_task). rewrite Hcur, lookup_alter_eq, Ht in Hcore.
      destruct (tasks sc !! init_task) as [t'|]; [|done]. exists t'. split; [done|].
      cbn in Hcore. injection Hcore as _ _ -> _ ->. unfold ticked. rewrite Hc.
      destruct (Z.leb_spec k 1); cbn; [by replace k with 1 by lia|].
      rewrite Hn, !(proj2 (Z.eqb_neq _ 0)) by lia. done.
Qed.

(** The way out: without a runnable task it must not call the scheduler. *)
Lemma idle_exit k s :
  (0 < fuel)%nat → idle k s →
  zoom (T:=machine pages C) (zoom (T:=sched C) (el1_irq_exit fuel)) s = if k =? 0 then Fault Uninit else Ret tt s.
Proof.
  intros Hf [Hinv Hirq Hmap Hcur Htab Hfree Hmask (t & Ht & Hc & Hn)].
  pose proof (fi_runs _ _ _ Hinv) as Hruns. pose proof (tr_count _ _ _ Hruns) as Hp.
  change (f_sched (lget s)) with (k_sched s) in *. unfold preempt_count_of in Hp. rewrite Hcur, Ht in Hp.
  assert (el1_irq_exit fuel (k_sched s) = if k =? 0 then Fault Uninit else Ret tt (k_sched s)) as E.
  { unfold el1_irq_exit, get_current. rewrite bind_gets, Hcur, (bind_eq _ _ _ _ _ (task_eq (k_sched s) _ t Ht)), Hp, Hn.
    destruct (k =? 0); [|done]. cbn. by apply (preempt_schedule_irq_empty fuel _ []). }
  unfold zoom; cbn. rewrite E. destruct (k =? 0); [done|]. by destruct s.
Qed.

Lemma idle_interrupts n k s :
  n = 0%nat ∨ timer_only → (0 < fuel)%nat → idle k s → 0 < k →
  if Z.of_nat n <? k
  then returns (handle_all P fuel (replicate n Ev_el1_irq)) (λ _, idle (k - Z.of_nat n)) s
  else handle_all P fuel (replicate n Ev_el1_irq) s = Fault Uninit.
Proof.
  intros Hto Hf; revert k s Hto; induction n as [|n IH]; intros k s Hto Hs Hk.
  { rewrite (proj2 (Z.ltb_lt _ k)) by lia. eapply returns_ret; [done|]. by rewrite Z.sub_0_r. }
  destruct Hto as [?|Hto]; [done|].
  destruct (idle_tick k s Hto Hk Hs) as (s1 & E & Hs1). rewrite (idle_exit (k - 1) s1 Hf Hs1) in E.
  cbn [replicate handle_all handle]. destruct (Z.eqb_spec (k - 1) 0) as [Hz|Hnz].
  - rewrite (proj2 (Z.ltb_ge _ k)) by lia. by apply bind_fault.
  - specialize (IH (k - 1) s1 (or_intror Hto) Hs1 ltac:(lia)).
    replace (Z.of_nat (S n) <? k) with (Z.of_nat n <? k - 1) by (destruct (Z.ltb_spec (Z.of_nat n) (k - 1)); symmetry;
      [apply Z.ltb_lt|apply Z.ltb_ge]; lia).
    destruct (_ <? _); [|by rewrite (bind_eq _ _ _ _ _ E)].
    apply returns_bind. eapply returns_ret; [exact E|]. by replace (k - Z.of_nat (S n)) with (k - 1 - Z.of_nat n) by lia.
Qed.

(** *** After the first thread *)

Lemma one_thread_ok k p1 s : timer_only → one_thread k p1 s → ∃ g, kernel_ok s [p1] [p1] g ∧ only_timer P g.
Proof.
  intros Hto [Hinv (Hh & Ha & (g & Hg & Hb) & d & Hd) _ _ _ _ _ _ _ _]. exists g. split; [split; try done|].
  - split; [exact Ha|exact Hg|]. by exists d.
  - intros tr. rewrite Hb. apply Hto.
Qed.

(** A tick: the init task goes on while it has ticks left, and then the thread runs. *)
Lemma one_thread_tick k p1 s :
  timer_only → (128 ≤ fuel)%nat → 0 < init_task < LOW_MEMORY → one_thread k p1 s →
  ∃ s', k_el1_irq P fuel s = Ret tt s' ∧
    if decide (1 < k) then one_thread (k - 1) p1 s'
    else current (k_sched s') = p1 ∧ k_tasks s' = k_tasks s ∧ ∃ g, kernel_ok s' [p1] [p1] g ∧ only_timer P g.
Proof.
  intros Hto Hf Hi Hs. destruct (one_thread_ok k p1 s Hto Hs) as (g & Hok & Hg).
  pose proof (ok_task_runs _ _ _ _ Hok) as Hruns.
  pose proof Hs as [_ Hirq Hmap Hcur Htab Hfree Hmask Hp1 Hk1 (t & Ht & Hc & Hn)].
  destruct (timer_interrupt_tick fuel (k_sched s) [p1] [p1] Hruns) as (sc & E & Hsc & Hcsc & Hcore & Hm).
  pose proof (timer_tick_others fuel _ sc [p1] [p1] p1 Hruns E) as Hother.
  pose proof (Hcore init_task) as Hit. rewrite Hcur, lookup_alter_eq, Ht in Hit.
  destruct (tasks sc !! init_task) as [t'|] eqn:Ht'; [|done]. cbn in Hit. injection Hit as _ _ Hct _ Hnt.
  rewrite Hcur in Hcsc.
  destruct (el1_irq_exit_cases fuel sc [p1] [p1] t' Hsc) as (sc' & E' & Hcases); [done|cbn; lia|cbn; lia|by rewrite Hcsc|].
  assert (timer_interrupt fuel (k_sched s) = Ret tt sc') as Et by (by rewrite (timer_interrupt_eq fuel _ _ E)).
  assert (task_runs sc' [p1] [p1]) as Hsc' by (case_decide; [by subst|by destruct Hcases]).
  destruct (k_el1_irq_timer P fuel s [p1] [p1] g sc' Hok Hg Et Hsc') as (s' & Ek & Hl & Hok' & Hi1 & Hg1 & Hm1).
  assert (k_sched s' = sc') as Hks by exact (f_equal f_sched Hl). assert (k_tasks s' = k_tasks s) as Hts by exact (f_equal g_task Hl).
  exists s'. split; [done|].
  assert (need_resched t' = 0 ↔ 1 < k) as Hnr by (rewrite Hnt; unfold ticked; rewrite Hc; destruct (Z.leb_spec k 1); cbn; lia).
  case_decide as Hd1; case_decide as Hd2; try (exfalso; tauto).
  - subst sc'. split; rewrite ?Hks, ?Hi1, ?Hg1, ?Hm1, ?Hts; try done; [apply Hok'|..].
    + by rewrite (f_equal f_pages Hl : k_pages s' = k_pages s).
    + by rewrite Hm.
    + destruct Hk1 as (tk & Htk & H). exists tk. rewrite Hks. split; [|done]. rewrite Hother; [done|]. rewrite Hcur. destruct Hp1; lia.
    + exists t'. split; [done|]. split; [|by apply Hnr]. rewrite Hct. unfold ticked. rewrite Hc. destruct (Z.leb_spec k 1); cbn; lia.
  - split; [|split; [done|by exists g]]. rewrite Hks.
    destruct Hcases as (_ & [(l1 & l2 & Hq & _) _] & _). apply list_elem_of_singleton. rewrite Hq. set_solver.
Qed.

(** From then on nothing but the thread runs. *)
Lemma thread_alone n p1 s g :
  (128 ≤ fuel)%nat → kernel_ok s [p1] [p1] g → only_timer P g → current (k_sched s) = p1 →
  returns (handle_all P fuel (replicate n Ev_el1_irq))
    (λ _ s', current (k_sched s') = p1 ∧ k_tasks s' = k_tasks s ∧ kernel_ok s' [p1] [p1] g) s.
Proof.
  intros Hf Hs Hg Hc; revert s Hs Hc; induction n as [|n IH]; intros s Hs Hc; [by eapply returns_ret|].
  destruct (timer_interrupt_ok fuel (k_sched s) [p1] [p1]) as (sc & E & Hsc & Hcsc);
    [by eapply ok_task_runs|done|cbn; lia|cbn; lia|].
  destruct (k_el1_irq_timer P fuel s [p1] [p1] g sc Hs Hg E Hsc) as (s' & Ek & Hl & Hs' & _).
  assert (k_sched s' = sc) as Hks by exact (f_equal f_sched Hl). assert (k_tasks s' = k_tasks s) as <- by exact (f_equal g_task Hl).
  apply returns_bind. eapply returns_ret; [exact Ek|]. apply IH; [done|]. rewrite Hks.
  destruct Hcsc as [->|Hin]; [done|]. by apply list_elem_of_singleton in Hin.
Qed.

Definition init_lost (p1 : Z) s : Prop :=
  current (k_sched s) = p1 ∧ k_tasks s = init_task :: p1 :: replicate 126 0 ∧ ∃ g, kernel_ok s [p1] [p1] g ∧ only_timer P g.

Lemma one_thread_interrupts m k p1 s :
  m = 0%nat ∨ timer_only → (128 ≤ fuel)%nat → 0 < init_task < LOW_MEMORY → one_thread k p1 s →
  returns (handle_all P fuel (replicate m Ev_el1_irq))
    (λ _ s', if Z.of_nat m <? Z.max 1 k then ∃ k', one_thread k' p1 s' else init_lost p1 s') s.
Proof.
  intros Hto Hf Hi; revert k s Hto; induction m as [|m IH]; intros k s Hto Hs.
  { eapply returns_ret; [done|]. rewrite (proj2 (Z.ltb_lt _ _)) by lia. by exists k. }
  destruct Hto as [?|Hto]; [done|]. destruct (one_thread_tick k p1 s Hto Hf Hi Hs) as (s1 & E & H1).
  apply returns_bind. eapply returns_ret; [exact E|]. case_decide as Hk.
  - eapply returns_mono; [apply (IH (k - 1) s1); [by right|done]|]. intros [] s'.
    replace (Z.of_nat (S m) <? Z.max 1 k) with (Z.of_nat m <? Z.max 1 (k - 1)); [done|].
    destruct (Z.ltb_spec (Z.of_nat m) (Z.max 1 (k - 1))); symmetry; [apply Z.ltb_lt|apply Z.ltb_ge]; lia.
  - rewrite (proj2 (Z.ltb_ge _ _)) by lia. destruct H1 as (Hc & Ht & g & Hok & Hg).
    eapply returns_mono; [by apply (thread_alone m p1 s1 g)|]. intros [] s' (Hc' & Ht' & Hok').
    split; [done|]. split; [by rewrite Ht', Ht, (ot_table _ _ _ Hs)|]. by exists g.
Qed.

(** The boot with as many interrupts as it can bear. *)
Definition tolerable (n m : nat) : Prop :=
  Z.of_nat n < DEF_COUNTER ∧ Z.of_nat m < Z.max 1 ((DEF_COUNTER - Z.of_nat n) / 2).

(** The boot up to the second thread. *)
Lemma boot_window `{!UartLive P fuel} r mem c n m Q :
  bootable P r → n = 0%nat ∧ m = 0%nat ∨ timer_only → (128 ≤ fuel)%nat → Z.of_nat n < DEF_COUNTER →
  (∀ p1 s', (if Z.of_nat m <? Z.max 1 ((DEF_COUNTER - Z.of_nat n) / 2) then ∃ k, one_thread k p1 s' else init_lost p1 s') →
     returns resume_init Q s') →
  returns (boot_interrupted n m) Q (loaded mem r c).
Proof.
  intros Hb Hto Hf Hlt HQ. destruct (boot_devices_ok P fuel init_printk_done r mem c Hb) as ([] & s & E & Hs & _).
  pose proof (proj1 (bo_init _ _ Hb)) as Hi. assert (0 < DEF_COUNTER - Z.of_nat n) as Hpos by lia.
  pose proof (idle_interrupts n _ s ltac:(tauto) ltac:(lia) Hs ltac:(done)) as Hn.
  rewrite (proj2 (Z.ltb_lt _ _)) in Hn by lia.
  apply returns_bind. eapply returns_ret; [exact E|]. eapply returns_seq; [exact Hn|]. intros [] s1 Hs1.
  eapply returns_seq; [apply (first_thread fuel _ s1 Hi Hpos Hs1)|]. intros [] s2 [p1 Hs2].
  eapply returns_seq; [apply (one_thread_interrupts m ((DEF_COUNTER - Z.of_nat n) / 2) p1 s2); [tauto|done..]|]. intros [] s3. apply HQ.
Qed.

Lemma boot_tolerates `{!UartLive P fuel} r mem c n m :
  bootable P r → n = 0%nat ∧ m = 0%nat ∨ timer_only → (128 ≤ fuel)%nat → tolerable n m →
  returns (boot_interrupted n m) (λ _ s', ∃ p1 p2, kernel_up p1 p2 s') (loaded mem r c).
Proof.
  intros Hb Hto Hf [Hn Hm]. apply boot_window; [done..|]. rewrite (proj2 (Z.ltb_lt _ _)) by done. intros p1 s2 [k Hs2].
  unfold resume_init. apply returns_bind. eapply returns_ret; [done|]. cbn. rewrite (ot_current _ _ _ Hs2), Z.eqb_refl.
  eapply returns_mono; [apply (second_thread fuel k p1); [apply Hb|done]|]. intros [] s3 [p2 H]. by exists p1, p2.
Qed.

Lemma boot_serves `{!UartLive P fuel} r mem c n m es :
  bootable P r → n = 0%nat ∧ m = 0%nat ∨ timer_only → tolerable n m → (128 ≤ fuel)%nat →
  Forall allowed es → Z.of_nat (events_pages es) ≤ PAGES_LEFT →
  returns (boot_interrupted n m ;; handle_all P fuel es) (λ _, running) (loaded mem r c).
Proof.
  intros Hb Hto Ht Hf Hes Hp. eapply returns_seq; [by apply boot_tolerates|]. intros _ s (p1 & p2 & Hs).
  eapply returns_mono; [apply (handle_all_returns P fuel Hf s es 0); [|done]|intros _ s' [H _]; exact H].
  apply (kernel_up_stocked p1 p2); [done|lia].
Qed.

(** ** Properties *)

(** C1 (safety): on a board that is [bootable] (the linker script's layout, a controller
    with at most 256 lines) and has a live UART, the kernel boots and then handles any
    sequence of events without a fault or an endless loop: interrupts of any number taken
    in the kernel or in user space, exceptions of user code with any registers whose x8
    is not negative, calls of the scheduler and new kernel threads, whether task slots are
    left or not.  The boot is taken without interrupts, or, where the timer's is the only
    one, with as many in each of its two windows as C15 says it bears.  Each event, the
    creation of a thread too, is one step (what interrupts inside a fork do is C13 and
    C14), and together they ask for at most the 129445 pages that are left below the end
    of memory.  After the events the invariants of the scheduler, the task table, the page
    allocator and the interrupt tables hold. *)
Theorem kernel_serves_events `{!UartLive P fuel} r mem c n m es :
  bootable P r → n = 0%nat ∧ m = 0%nat ∨ timer_only → tolerable n m → (128 ≤ fuel)%nat →
  Forall allowed es → Z.of_nat (events_pages es) ≤ PAGES_LEFT →
  returns (boot_interrupted n m ;; handle_all P fuel es) (λ _, running) (loaded mem r c).
Proof. apply boot_serves. Qed.

(** C15 (error): start_kernel turns interrupts on before it creates its two threads, as a task
    that nothing ever enqueues.  With [n] timer interrupts before the first thread and [m]
    between the two: from the 25th on, [n] ticks leave the kernel without defined behaviour,
    since the init task's time is used up with the run queue still empty; fewer, and in
    between fewer than half (rounded down, but at least one) of what they left of the 25,
    do no harm; but with more in between the scheduler switches to the first thread and never back, the second thread is not
    created, and the shell does not start. *)
Theorem boot_tolerates_ticks `{!UartLive P fuel} r mem c n m :
  bootable P r → timer_only → (128 ≤ fuel)%nat →
  if DEF_COUNTER <=? Z.of_nat n then boot_interrupted n m (loaded mem r c) = Fault Uninit
  else if Z.of_nat m <? Z.max 1 ((DEF_COUNTER - Z.of_nat n) / 2)
  then returns (boot_interrupted n m) (λ _ s', ∃ p1 p2, kernel_up p1 p2 s') (loaded mem r c)
  else returns (boot_interrupted n m) (λ _ s', ∃ p1, init_lost p1 s' ∧
         ∀ j, returns (handle_all P fuel (replicate j Ev_el1_irq)) (λ _ s2, current (k_sched s2) = p1) s') (loaded mem r c).
Proof.
  intros Hb Hto Hf. destruct (Z.leb_spec DEF_COUNTER (Z.of_nat n)) as [Hge|Hlt].
  { destruct (boot_devices_ok P fuel init_printk_done r mem c Hb) as ([] & s & E & Hs & _).
    pose proof (idle_interrupts n _ s (or_intror Hto) ltac:(lia) Hs ltac:(done)) as Hn.
    rewrite (proj2 (Z.ltb_ge _ _)) in Hn by lia. unfold boot_interrupted. rewrite (bind_eq _ _ _ _ _ E). by apply bind_fault. }
  destruct (Z.ltb_spec (Z.of_nat m) (Z.max 1 ((DEF_COUNTER - Z.of_nat n) / 2))) as [Hm|Hm].
  { apply boot_tolerates; [done|by right|done|by split]. }
  apply boot_window; [done|by right|done..|]. rewrite (proj2 (Z.ltb_ge _ _)) by done.
  intros p1 s2 Hl. pose proof Hl as (Hc & _ & g & Hok & Hg). unfold resume_init. apply returns_bind.
  eapply returns_ret; [done|]. cbn. rewrite Hc. pose proof (proj1 (bo_init _ _ Hb)).
  assert (p1 ≠ init_task) as Hne.
  { destruct (inv_links _ _ _ (tr_inv _ _ _ (ok_task_runs _ _ _ _ Hok))) as [Hnd _]. intros ->.
    apply list.NoDup_cons in Hnd as [Hnin _]. apply Hnin, elem_of_cons. by left. }
  rewrite (proj2 (Z.eqb_neq _ _)) by done. eapply returns_ret; [done|]. exists p1. split; [done|]. intros j.
  eapply returns_mono; [by apply (thread_alone j p1 s2 g)|]. by intros [] s3 [? _].
Qed.
End window.

(** ** An instance *)

Module Example_window.
(** The board of Main.v whose controller signals the timer's interrupt. *)
Definition board : platform := {|
  dev_read := λ _ a, if a =? GIC_V2_DISTRIBUTOR_BASE + 4 then 7
                     else if a =? GIC_V2_CPU_INTERFACE_BASE + 12 then 30 else 0;
  sysreg_read := λ _ _, 54000000;
|}.
End Example_window.

#[local] Existing Instance Example_boot.sched_symbols.
#[local] Existing Instance Example_boot.mmu_symbols.
#[local] Existing Instance Example_boot.image.
#[local] Existing Instance log_console.

Lemma window_board : bootable Example_window.board Example_boot.regs0 ∧ timer_only Example_window.board.
Proof. split; [|by intros tr]. destruct board_bootable as [H1 H2 H3 H4 H5 H6]. by split. Qed.

Lemma window_live fuel : UartLive Example_window.board (S fuel).
Proof. split; intros tr; exists 0%nat; (split; [lia|done]). Qed.
#[local] Existing Instance window_live.

Lemma boot_tolerates_ticks_witness :
  let s0 := loaded ∅ Example_boot.regs0 ([] : list (string * list karg)) in
  returns (boot_interrupted Example_window.board 128 id 4 9) (λ _ s', ∃ p1 p2, kernel_up p1 p2 s') s0 ∧
  returns (boot_interrupted Example_window.board 128 id 4 10) (λ _ s', ∃ p1, init_lost Example_window.board p1 s') s0 ∧
  boot_interrupted Example_window.board 128 id 25 0 s0 = Fault Uninit.
Proof.
  pose proof (window_live 127) as Hlive. split; [|split].
  - exact (boot_tolerates_ticks Example_window.board 128 id Example_boot.regs0 ∅ [] 4 9
             (proj1 window_board) (proj2 window_board) ltac:(lia)).
  - eapply returns_mono; [exact (boot_tolerates_ticks Example_window.board 128 id Example_boot.regs0 ∅ [] 4 10
             (proj1 window_board) (proj2 window_board) ltac:(lia))|]. intros _ s' (p1 & H & _). by exists p1.
  - exact (boot_tolerates_ticks Example_window.board 128 id Example_boot.regs0 ∅ [] 25 0
             (proj1 window_board) (proj2 window_board) ltac:(lia)).
Defined.

Lemma kernel_serves_events_witness :
  returns (boot_interrupted Example_window.board 128 id 4 9 ;;
           handle_all Example_window.board 128
             [Ev_el1_irq; Ev_schedule; Ev_el0_sync 0x15 (Example_system.trap 4); Ev_spawn 0x82000;
              Ev_el0_irq (Example_system.trap 0); Ev_el0_sync 0x24 (Example_system.trap 99)])
    (λ _, running) (loaded ∅ Example_boot.regs0 ([] : list (string * list karg))).
Proof.
  pose proof (window_live 127) as Hlive.
  apply kernel_serves_events; [exact Hlive|exact (proj1 window_board)|right; exact (proj2 window_board)|by split|lia| |by vm_compute].
  repeat (apply list.Forall_cons; split; [done|]). by apply list.Forall_nil.
Defined.
