(* ===== verification/Start.v ===== *)
(** * arch/arm64/kernel/head.S, mm.S and linker.ld: from the loader to start_kernel

    Each labelled block of head.S is a computation over the processor's state that
    returns the label control goes to next.  The kernel is loaded and entered at
    _start at exception level 2, the one the code is written for; the theorems also say
    what happens on the other cores and at the other levels. *)

From S2P Require Import Prelude Memory Mmio Uart Format Printk PageAlloc KList Sched Fork.
From S2P Require Import PgTable Mmu Irq Gic Timer Syscall Traps Main System Window.

(** ** Data *)

(** The processor before start_kernel: the exception level, the DAIF and SPSel bits of
    PSTATE, the system and stack-pointer registers that have been written, and memory. *)
Record cpu : Type := Cpu {
  el : Z;
  daif : Z;
  spsel : bool;
  sysregs : gmap string Z;
  ram : memory;
}.

#[export] Program Instance lens_ram : Lens cpu memory := {|
  lget := ram; lput m s := Cpu (el s) (daif s) (spsel s) (sysregs s) m;
|}.
Solve All Obligations with by intros; repeat match goal with s : cpu |- _ => destruct s end.

Definition set_sysreg (r : string) (v : Z) (s : cpu) : cpu :=
  Cpu (el s) (daif s) (spsel s) (<[r := v]> (sysregs s)) (ram s).

(** Where a block goes next; [L_elsewhere] is code that is not the kernel's. *)
Inductive label : Type :=
  | L_start | L_core0_proc | L_el3_entry | L_el2_entry | L_el1_entry | L_hang_proc
  | L_start_kernel
  | L_elsewhere (pc : Z).

Class StartSymbols : Type := {
  el1_entry_addr : Z;
  vectors_addr : Z;
  sp_addr : Z;
}.

(** [arch/arm64/include/asm/sysregs.h:5-5] HCR_RW *)
Definition HCR_RW : Z := Z.shiftl 1 31.
(** [arch/arm64/include/asm/sysregs.h:7-7] HCR_HOST_NVHE_FLAGS *)
Definition HCR_HOST_NVHE_FLAGS : Z := HCR_RW.
(** [arch/arm64/include/asm/sysregs.h:10-10] SCTLR_ELx_M *)
Definition SCTLR_ELx_M : Z := Z.shiftl 1 0.
(** [arch/arm64/include/asm/sysregs.h:12-15] SCTLR_VALUE_MMU_DISABLED *)
Definition SCTLR_VALUE_MMU_DISABLED : Z := Z.lor (Z.lor (Z.shiftl 0 0) (Z.shiftl 0 25)) (Z.shiftl 0 24).
(** [arch/arm64/include/asm/sysregs.h:17-17] SPSR_MASK_ALL *)
Definition SPSR_MASK_ALL : Z := Z.shiftl 7 6.
(** [arch/arm64/include/asm/sysregs.h:18-20] SPSR_EL1 *)
Definition SPSR_EL1 : Z := Z.lor SPSR_MASK_ALL (Z.shiftl 5 0).
(** [arch/arm64/include/asm/sysregs.h:25-25] CurrentEL_EL3 *)
Definition CurrentEL_EL3 : Z := Z.shiftl 3 2.
(** [arch/arm64/include/asm/mm.h:31-31] THREAD_START_SP *)
Definition THREAD_START_SP : Z := THREAD_SIZE - 16.

(** The linker's ALIGN: the next multiple of its argument, a power of two or not. *)
Definition ALIGN (dot n : Z) : Z := (dot + n - 1) / n * n.

(** ** The instructions *)

Abbreviation Cpu_M := (M cpu).

(** The lowest exception level that has a register. *)
Definition reg_level (r : string) : Z :=
  if decide (r ∈ ["hcr_el2"; "spsr_el2"; "elr_el2"]) then 2
  else if decide (r ∈ ["scr_el3"; "spsr_el3"; "elr_el3"]) then 3 else 1.

(** A register nobody wrote has no known value; one of a higher level traps. *)
Definition reg (r : string) : Cpu_M Z := s ← get; of_option Uninit (sysregs s !! r).
Definition mrs (r : string) : Cpu_M Z :=
  s ← get; if el s <? reg_level r then throw Trap else reg r.
Definition msr (r : string) (v : Z) : Cpu_M unit :=
  s ← get; if el s <? reg_level r then throw Trap else modify (set_sysreg r v).
Definition mrs_CurrentEL : Cpu_M Z := gets (λ s, Z.shiftl (el s) 2).

(** The register of a bank that belongs to an exception level. *)
Definition banked (base : string) (e : Z) : string :=
  base +++ (if e =? 3 then "_el3" else if e =? 2 then "_el2" else if e =? 1 then "_el1" else "_el0").
Definition mov_sp (v : Z) : Cpu_M unit :=
  modify (λ s, set_sysreg (banked "sp" (if spsel s then el s else 0)) v s).

(** Loads and stores of 64 bits.  While the MMU is off every access is to Device
    memory, where an address that is not aligned traps. *)
Definition aligned (a : Z) : Cpu_M unit :=
  s ← get; sctlr ← reg (banked "sctlr" (el s));
  when (negb (Z.testbit sctlr 0) && negb (a mod 8 =? 0)) (throw Trap).
Definition ldr64 (a : Z) : Cpu_M Z := aligned a ;; zoom (load64 a).
Definition str64 (a v : Z) : Cpu_M unit := aligned a ;; zoom (store64 a v).

(** Whether the levels above let the target of an exception return run in AArch64 state. *)
Definition aarch64_below (e target : Z) : Cpu_M bool :=
  scr ← (if (e =? 3) && (target <? 3) then v ← reg "scr_el3"; mret (Z.testbit v 10) else mret true);
  hcr ← (if (2 <=? e) && (target <=? 1) then v ← reg "hcr_el2"; mret (Z.testbit v 31) else mret true);
  mret (scr && hcr).

(** ERET: PSTATE from the level's SPSR, the pc from its ELR.  The saved mode must be an
    AArch64 mode (bit 4 clear, bit 1 zero) of this level or a lower one. *)
Definition eret : Cpu_M Z :=
  s ← get;
  spsr ← reg (banked "spsr" (el s));
  pc ← reg (banked "elr" (el s));
  let target := Z.land (Z.shiftr spsr 2) 3 in
  below ← aarch64_below (el s) target;
  if below && negb (Z.testbit spsr 4) && negb (Z.testbit spsr 1) && (target <=? el s)
     && negb ((target =? 0) && Z.testbit spsr 0)
  then modify (λ s, Cpu target (Z.land (Z.shiftr spsr 6) 15) (Z.testbit spsr 0) (sysregs s) (ram s)) ;; mret pc
  else throw Trap.

(** ** The code *)

(** One store clears eight bytes, also when fewer are left, or none. *)
(** [arch/arm64/kernel/mm.S:2-6] memzero *)
Definition memzero (src len : Z) : Cpu_M unit :=
  loop (S (Z.to_nat (len / 8))) (λ '(x0, x1),
    str64 x0 0 ;;
    if 8 <? s64 x1 then mret (inl (u64 (x0 + 8), u64 (x1 - 8))) else mret (inr tt)) (src, len).

Section start.
Context `{Hsym : !SchedSymbols} `{Himg : !ImageSymbols} `{Hst : !StartSymbols}.

(** [arch/arm64/kernel/head.S:11-15] _start *)
Definition _start : Cpu_M label :=
  x0 ← mrs "mpidr_el1";
  mret (if Z.land x0 0xFF =? 0 then L_core0_proc else L_hang_proc).

(** [arch/arm64/kernel/head.S:18-23] core0_proc *)
Definition core0_proc : Cpu_M label :=
  x5 ← mrs_CurrentEL;
  x1 ← mrs "sctlr_el1";
  mret (if x5 =? CurrentEL_EL3 then L_el3_entry else L_el2_entry).

(** The code at the address an exception return goes to. *)
Definition label_at (pc : Z) : label := if pc =? el1_entry_addr then L_el1_entry else L_elsewhere pc.

(** [arch/arm64/kernel/head.S:25-26] el3_entry *)
Definition el3_entry : Cpu_M label := label_at <$> eret.

(** [arch/arm64/kernel/head.S:28-44] el2_entry *)
Definition el2_entry : Cpu_M label :=
  msr "hcr_el2" HCR_HOST_NVHE_FLAGS ;;
  msr "sctlr_el1" SCTLR_VALUE_MMU_DISABLED ;;
  msr "spsr_el2" SPSR_EL1 ;;
  msr "elr_el2" el1_entry_addr ;;
  label_at <$> eret.

(** [arch/arm64/kernel/head.S:46-61] el1_entry *)
Definition el1_entry : Cpu_M label :=
  x5 ← mrs_CurrentEL;
  msr "vbar_el1" vectors_addr ;;
  memzero bss_begin (u64 (bss_end - bss_begin)) ;;
  x9 ← ldr64 sp_addr;
  mov_sp x9 ;;
  mret L_start_kernel.

(** [arch/arm64/kernel/head.S:64-65] hang_proc *)
Definition hang_proc : Cpu_M label := mret L_hang_proc.

(** The block at a label; start_kernel and other code are not this file's. *)
(** [arch/arm64/kernel/head.S:11-65] _start *)
Definition block (l : label) : Cpu_M label :=
  match l with
  | L_start => _start
  | L_core0_proc => core0_proc
  | L_el3_entry => el3_entry
  | L_el2_entry => el2_entry
  | L_el1_entry => el1_entry
  | L_hang_proc => hang_proc
  | L_start_kernel | L_elsewhere _ => mret l
  end.

(** [n] blocks, from a label on. *)
Fixpoint run (n : nat) (l : label) : Cpu_M label :=
  match n with O => mret l | S n => l' ← block l; run n l' end.
End start.

(** ** Lemmas *)

Section lemmas.
Implicit Types (s : cpu).

Lemma bind_reg {B} r v s (k : Z → Cpu_M B) : sysregs s !! r = Some v → (reg r ≫= k) s = k v s.
Proof. intros H. apply bind_eq. unfold reg, get, mbind, M_bind. by rewrite H. Qed.
Lemma bind_mrs {B} r v s (k : Z → Cpu_M B) :
  sysregs s !! r = Some v → reg_level r ≤ el s → (mrs r ≫= k) s = k v s.
Proof.
  intros H Hl. apply bind_eq. unfold mrs, reg, get, mbind, M_bind.
  rewrite (proj2 (Z.ltb_ge _ _) Hl). unfold mbind, M_bind. by rewrite H.
Qed.
Lemma bind_msr {B} r v s (k : unit → Cpu_M B) :
  reg_level r ≤ el s → (msr r v ≫= k) s = k tt (set_sysreg r v s).
Proof. intros Hl. apply bind_eq. unfold msr, get, mbind, M_bind. by rewrite (proj2 (Z.ltb_ge _ _) Hl). Qed.
Lemma bind_msr_trap {B} r v s (k : unit → Cpu_M B) : el s < reg_level r → (msr r v ≫= k) s = Fault Trap.
Proof.
  intros Hl. apply bind_fault. unfold msr, get, mbind, M_bind. by rewrite (proj2 (Z.ltb_lt _ _) Hl).
Qed.

(** Exception level 1 with the MMU off, where start-up code accesses memory. *)
Definition mmu_off s : Prop := el s = 1 ∧ ∃ v, sysregs s !! "sctlr_el1" = Some v ∧ Z.testbit v 0 = false.

Lemma bind_aligned {B} a s (k : unit → Cpu_M B) :
  mmu_off s → (aligned a ≫= k) s = if a mod 8 =? 0 then k tt s else Fault Trap.
Proof.
  intros (He & v & Hv & Hb). unfold aligned, get.
  assert ((when (negb (Z.testbit v 0) && negb (a mod 8 =? 0)) (throw Trap) ≫= k) s
          = if a mod 8 =? 0 then k tt s else Fault Trap) as <- by (rewrite Hb; by destruct (a mod 8 =? 0)).
  unfold mbind, M_bind. rewrite He. change (banked "sctlr" 1) with "sctlr_el1".
  pose proof (bind_reg "sctlr_el1" v s (λ x, mret x) Hv) as H. unfold mbind, M_bind in H.
  destruct (reg "sctlr_el1" s) as [x s'|e|s'|]; [|done..]. by injection H as -> ->.
Qed.

Lemma st64_zero m a : st64 m a 0 = fill a 8 0 m.
Proof. done. Qed.

Lemma str64_zero a s : mmu_off s → a mod 8 = 0 → str64 a 0 s = Ret tt (lput (fill a 8 0 (ram s)) s).
Proof. intros Hs Ha. unfold str64. by rewrite bind_aligned, Ha. Qed.

(** What memzero clears: whole words, and at least one. *)
Definition cleared (len : Z) : Z := Z.max 8 ((len + 7) / 8 * 8).

Lemma memzero_loop k a len s :
  mmu_off s → a mod 8 = 0 → 0 ≤ a → 0 ≤ len < 8 * Z.of_nat (S k) → a + len + 8 < 2 ^ 63 →
  loop (S k) (λ '(x0, x1), str64 x0 0 ;;
    if 8 <? s64 x1 then mret (inl (u64 (x0 + 8), u64 (x1 - 8))) else mret (inr tt)) (a, len) s
  = Ret tt (lput (fill a (cleared len) 0 (ram s)) s).
Proof.
  revert a len s; induction k as [|k IH]; intros a len s Hs Ha Ha0 Hl Hb.
  all: assert (len ≤ 8 → (str64 a 0 ;; if 8 <? s64 len then mret (inl (u64 (a + 8), u64 (len - 8))) else mret (inr tt)) s
         = Ret (inr tt) (lput (fill a (cleared len) 0 (ram s)) s)) as Hlast.
  1,3: intros H8; rewrite (bind_eq _ _ _ _ _ (str64_zero a s Hs Ha)), s64_id, (proj2 (Z.ltb_ge 8 len)) by lia;
    replace (cleared len) with 8; [done|]; unfold cleared;
    assert ((len + 7) / 8 < 2) by (apply Z.div_lt_upper_bound; lia); lia.
  - apply loop_done, Hlast. lia.
  - destruct (decide (8 < len)) as [Hlt|Hge]; [|apply loop_done, Hlast; lia].
    rewrite (loop_more (S k) _ _ (a + 8, len - 8) s (lput (fill a 8 0 (ram s)) s)).
    + rewrite (IH (a + 8) (len - 8)); [|done|by rewrite <-Z.add_mod_idemp_l, Ha|lia..].
      rewrite lput_lput. cbn [ram lput lens_ram]. rewrite fill_app by (unfold cleared; lia). do 3 f_equal.
      unfold cleared. replace (len + 7) with (len - 8 + 7 + 1 * 8) by lia.
      rewrite Z.div_add by lia. pose proof (Z.div_mod (len - 8 + 7) 8). pose proof (Z.mod_pos_bound (len - 8 + 7) 8). lia.
    + rewrite (bind_eq _ _ _ _ _ (str64_zero a s Hs Ha)), s64_id, (proj2 (Z.ltb_lt 8 len)) by lia.
      by rewrite !u64_id by lia.
Qed.

Lemma memzero_eq a len s :
  mmu_off s → 0 ≤ a → 0 ≤ len → a + len + 8 < 2 ^ 63 →
  memzero a len s = if a mod 8 =? 0 then Ret tt (lput (fill a (cleared len) 0 (ram s)) s) else Fault Trap.
Proof.
  intros Hs Ha Hl Hb. unfold memzero. destruct (Z.eqb_spec (a mod 8) 0) as [Ha8|Ha8].
  - apply memzero_loop; [done..| |done]. pose proof (Z.div_mod len 8). pose proof (Z.mod_pos_bound len 8).
    pose proof (Z.div_pos len 8). lia.
  - apply loop_fault; [lia|]. apply bind_fault. unfold str64. rewrite bind_aligned by done. by rewrite (proj2 (Z.eqb_neq _ _) Ha8).
Qed.
End lemmas.

(** Looks a register up in the registers written so far. *)
Ltac sysreg := repeat match goal with x := _ : cpu |- _ => subst x end; cbn [sysregs set_sysreg];
  repeat first [rewrite lookup_insert_eq; reflexivity | rewrite lookup_insert_ne by discriminate]; try done.

(** *** The blocks *)

(** What the linker script makes of the addresses: the page-table page is the last of
    the data, .bss follows at the next multiple of 0x16, and the word at sp_addr is in
    .text. *)
(** [arch/arm64/kernel/linker.ld:35-45] .bss *)
Record image_linked `{!MmuSymbols, !ImageSymbols, !StartSymbols} : Prop := {
  li_data : _data_end = idmap_pgd_dir + PAGE_SIZE;
  li_bss : bss_begin = ALIGN _data_end 0x16;
  li_order : 0 ≤ _data_end ∧ bss_begin ≤ bss_end < 2 ^ 62;
  li_sp : 0 ≤ sp_addr ∧ sp_addr + 8 ≤ _data_end ∧ sp_addr mod 8 = 0;
}.

(** The loader's work: the image is in memory, with the initial stack pointer at sp_addr;
    the reset value of SCTLR_EL1 can be read. *)
(** [arch/arm64/kernel/head.S:4-7] sp_addr *)
Record image_loaded `{!SchedSymbols, !StartSymbols} (s : cpu) : Prop := {
  lo_sp : ld64 (ram s) sp_addr = Some (u64 (init_task + THREAD_START_SP));
  lo_sctlr : is_Some (sysregs s !! "sctlr_el1");
}.

(** The processor when start_kernel begins. *)
Record at_start_kernel `{!SchedSymbols, !StartSymbols} (s : cpu) : Prop := {
  as_mmu : mmu_off s;
  as_masked : Z.testbit (daif s) 1 = true;
  as_vbar : sysregs s !! "vbar_el1" = Some vectors_addr;
  as_sp : spsel s = true ∧ sysregs s !! "sp_el1" = Some (u64 (init_task + THREAD_START_SP));
}.

Section blocks.
Context `{Hsym : !SchedSymbols} `{Hmmu : !MmuSymbols} `{Himg : !ImageSymbols} `{Hst : !StartSymbols}.
Implicit Types (s : cpu).

Lemma ALIGN_spec dot n : 0 < n → dot ≤ ALIGN dot n < dot + n ∧ ALIGN dot n mod n = 0.
Proof.
  intros Hn. unfold ALIGN. pose proof (Z.div_mod (dot + n - 1) n). pose proof (Z.mod_pos_bound (dot + n - 1) n).
  split; [lia|]. apply Z.mod_mul; lia.
Qed.

(** ALIGN(0x16) aligns to words at one position of the page table in four. *)
Lemma bss_aligned_iff : image_linked → bss_begin mod 8 = 0 ↔ ((_data_end + 21) / 22) mod 4 = 0.
Proof.
  intros [_ -> _ _]. unfold ALIGN. replace (_data_end + 22 - 1) with (_data_end + 21) by lia.
  set (q := (_data_end + 21) / 22). pose proof (Z.div_mod (q * 22) 8). pose proof (Z.mod_pos_bound (q * 22) 8).
  pose proof (Z.div_mod q 4). pose proof (Z.mod_pos_bound q 4). lia.
Qed.

(** The system registers el2_entry leaves. *)
Definition el1_regs (rs : gmap string Z) : gmap string Z :=
  <["elr_el2" := el1_entry_addr]> (<["spsr_el2" := SPSR_EL1]>
    (<["sctlr_el1" := SCTLR_VALUE_MMU_DISABLED]> (<["hcr_el2" := HCR_HOST_NVHE_FLAGS]> rs))).

Lemma el2_entry_eq s : el s = 2 → el2_entry s = Ret L_el1_entry (Cpu 1 7 true (el1_regs (sysregs s)) (ram s)).
Proof.
  intros He. unfold el2_entry.
  do 4 rewrite bind_msr by (cbn [el set_sysreg]; rewrite He; by vm_compute).
  set (s1 := set_sysreg "elr_el2" _ _).
  assert (eret s1 = Ret el1_entry_addr (Cpu 1 7 true (el1_regs (sysregs s)) (ram s))) as E.
  { unfold eret. rewrite (bind_eq get _ s1 s1 s1) by done. change (el s1) with (el s). rewrite He.
    change (banked "spsr" 2) with "spsr_el2". change (banked "elr" 2) with "elr_el2".
    rewrite (bind_reg "spsr_el2" SPSR_EL1), (bind_reg "elr_el2" el1_entry_addr) by sysreg.
    assert (aarch64_below 2 1 s1 = Ret true s1) as Hb.
    { unfold aarch64_below. change ((2 =? 3) && (1 <? 3)) with false. change ((2 <=? 2) && (1 <=? 1)) with true.
      cbn iota. rewrite bind_mret, (bind_eq _ _ s1 true s1); [done|].
      by rewrite (bind_reg "hcr_el2" HCR_HOST_NVHE_FLAGS) by sysreg. }
    change (Z.land (Z.shiftr SPSR_EL1 2) 3) with 1. by rewrite (bind_eq _ _ _ _ _ Hb). }
  unfold fmap, M_fmap. rewrite E. unfold label_at. by rewrite Z.eqb_refl.
Qed.

Lemma image_facts :
  image_linked → 0 ≤ bss_begin ∧ 0 ≤ bss_end - bss_begin < 2 ^ 62 ∧ bss_end < 2 ^ 62 ∧ sp_addr + 8 ≤ bss_begin.
Proof.
  intros [Hd Hb [Hd0 Ho] (Hs0 & Hs1 & Hs2)]. destruct (ALIGN_spec _data_end 0x16) as [H _]; [done|].
  rewrite <-Hb in H. lia.
Qed.

Lemma el1_entry_eq s :
  image_linked → image_loaded s → mmu_off s → spsel s = true →
  if bss_begin mod 8 =? 0
  then el1_entry s = Ret L_start_kernel (Cpu 1 (daif s) true
         (<["sp_el1" := u64 (init_task + THREAD_START_SP)]> (<["vbar_el1" := vectors_addr]> (sysregs s)))
         (fill bss_begin (cleared (bss_end - bss_begin)) 0 (ram s)))
  else el1_entry s = Fault Trap.
Proof.
  intros Hl [Hsp _] (He & v & Hv & Hm) Hsel. destruct (image_facts Hl) as (Hb0 & Hlen & Hbe & Hspb).
  destruct Hl as [_ _ _ (Hs0 & Hs1 & Hs2)].
  set (s1 := set_sysreg "vbar_el1" vectors_addr s).
  assert (mmu_off s1) as Hoff by (split; [done|exists v; split; [sysreg|done]]).
  pose proof (memzero_eq _ _ s1 Hoff Hb0 (proj1 Hlen) ltac:(lia)) as Hz.
  assert (el1_entry s = (memzero bss_begin (bss_end - bss_begin) ;; x9 ← ldr64 sp_addr; mov_sp x9 ;; mret L_start_kernel) s1) as ->.
  { unfold el1_entry, mrs_CurrentEL. rewrite bind_gets, bind_msr by (rewrite He; by vm_compute).
    by rewrite u64_id by lia. }
  destruct (Z.eqb_spec (bss_begin mod 8) 0) as [Ha|Ha]; [|by apply bind_fault].
  rewrite (bind_eq _ _ _ _ _ Hz). set (s2 := lput _ s1).
  assert (mmu_off s2) as Hoff2 by exact Hoff.
  assert (ldr64 sp_addr s2 = Ret (u64 (init_task + THREAD_START_SP)) s2) as E.
  { unfold ldr64. rewrite bind_aligned, Hs2 by done. change (0 =? 0) with true. cbn iota.
    rewrite (zoom_eq (load64 sp_addr) s2 (u64 (init_task + THREAD_START_SP)) (ram s2)); [done|].
    apply load64_eq. rewrite <-Hsp. symmetry. apply ld64_ext. intros x Hx.
    unfold s2, s1. cbn [lput lens_ram ram set_sysreg]. by rewrite lookup_fill, decide_False by lia. }
  rewrite (bind_eq _ _ _ _ _ E). unfold mov_sp. rewrite bind_modify. unfold s2, s1, set_sysreg; cbn.
  by rewrite Hsel, He.
Qed.

Lemma run_app n m l s l' s' : run n l s = Ret l' s' → run (n + m) l s = run m l' s'.
Proof.
  revert l s; induction n as [|n IH]; intros l s E; [by injection E as <- <-|]. cbn [run Nat.add] in *.
  apply bind_inv in E as (l1 & s1 & E1 & E). by rewrite (bind_eq _ _ _ _ _ E1), (IH _ _ E).
Qed.

(** A block that branches to itself. *)
Lemma run_stays n l s : block l s = Ret l s → run n l s = Ret l s.
Proof. intros E. induction n as [|n IH]; [done|]. cbn [run]. by rewrite (bind_eq _ _ _ _ _ E). Qed.

Lemma start_eq s m :
  sysregs s !! "mpidr_el1" = Some m → 1 ≤ el s →
  _start s = Ret (if Z.land m 0xFF =? 0 then L_core0_proc else L_hang_proc) s.
Proof. intros Hm He. unfold _start. by rewrite (bind_mrs _ m). Qed.

Lemma core0_proc_eq s :
  is_Some (sysregs s !! "sctlr_el1") → 1 ≤ el s ≤ 3 →
  core0_proc s = Ret (if el s =? 3 then L_el3_entry else L_el2_entry) s.
Proof.
  intros [v Hv] He. unfold core0_proc, mrs_CurrentEL. rewrite bind_gets, (bind_mrs _ v) by (done || apply He).
  assert (el s = 1 ∨ el s = 2 ∨ el s = 3) as [->|[->| ->]] by lia; done.
Qed.

(** The first two blocks on the boot core. *)
Lemma run_core0 s m n :
  sysregs s !! "mpidr_el1" = Some m → Z.land m 0xFF = 0 → is_Some (sysregs s !! "sctlr_el1") → 1 ≤ el s ≤ 3 →
  run (2 + n) L_start s = run n (if el s =? 3 then L_el3_entry else L_el2_entry) s.
Proof.
  intros Hm H0 Hs He. apply run_app. cbn [run block].
  rewrite (bind_eq _ _ _ _ _ (start_eq s m Hm (proj1 He))), H0. change (0 =? 0) with true. cbn iota.
  by rewrite (bind_eq _ _ _ _ _ (core0_proc_eq s Hs He)).
Qed.

Lemma run_from_el2 s n :
  image_linked → image_loaded s → el s = 2 →
  if bss_begin mod 8 =? 0
  then ∃ s', run (2 + n) L_el2_entry s = Ret L_start_kernel s' ∧ at_start_kernel s' ∧
             ram s' = fill bss_begin (cleared (bss_end - bss_begin)) 0 (ram s)
  else run (2 + n) L_el2_entry s = Fault Trap.
Proof.
  intros Hl Hlo He. set (s1 := Cpu 1 7 true (el1_regs (sysregs s)) (ram s)).
  assert (mmu_off s1) as Hoff by (split; [done|]; exists SCTLR_VALUE_MMU_DISABLED; split; [unfold s1, el1_regs; sysreg|done]).
  assert (image_loaded s1) as Hlo1 by (split; [apply Hlo|destruct Hoff as (_ & v & Hv & _); by exists v]).
  pose proof (el1_entry_eq s1 Hl Hlo1 Hoff eq_refl) as E1.
  assert (run 1 L_el2_entry s = Ret L_el1_entry s1) as E.
  { cbn [run block]. by rewrite (bind_eq _ _ _ _ _ (el2_entry_eq s He)). }
  change (2 + n)%nat with (1 + S n)%nat. rewrite (run_app _ (S n) _ _ _ _ E). cbn [run block].
  destruct (bss_begin mod 8 =? 0); [|by apply bind_fault].
  eexists. split; [by rewrite (bind_eq _ _ _ _ _ E1), run_stays by done|]. split; [|done].
  split; [|done|cbn [sysregs]; sysreg|by split; [|cbn [sysregs]; sysreg]].
  split; [done|]. exists SCTLR_VALUE_MMU_DISABLED. split; [|done]. unfold s1, el1_regs. sysreg.
Qed.
End blocks.

(** ** Into the kernel *)

Section power_on.
Context {C : Type} `{Hcon : !Console C} `{Hsym : !SchedSymbols} `{Hmmu : !MmuSymbols} `{Himg : !ImageSymbols} `{Hst : !StartSymbols}.
Context (P : platform) (fuel : nat) (init_printk_done : C → C).
Implicit Types (s : cpu).

(** The state of the C code when start_kernel begins: its variables as the image and the
    cleared .bss give them, the stack pointer and the interrupt mask from the processor;
    the other registers, in [r], are whatever was left in them. *)
Definition enter s (r : cpu_context) (c : C) : kernel C :=
  let k := loaded (ram s) (set_sp (default 0 (sysregs s !! banked "sp" (if spsel s then el s else 0))) r) c in
  lput (T:=sched C) (set_masked (Z.testbit (daif s) 1) (k_sched k)) k.

(** A core from power-on to the end of the events that reach it: [Hang] when it is parked. *)
Definition power_on (n m : nat) (es : list event) s (r : cpu_context) (c : C) : outcome (kernel C) unit :=
  match run 4 L_start s with
  | Ret L_start_kernel s' => (boot_interrupted P fuel init_printk_done n m ;; handle_all P fuel es) (enter s' r c)
  | Ret (L_elsewhere pc) _ => Fault (WildAddr pc)
  | Ret _ _ => Hang
  | Fault f => Fault f
  | Halt _ | Hang => Hang
  end.

Lemma enter_eq s r c :
  at_start_kernel s →
  enter s r c = loaded (ram s) (set_sp (u64 (init_task + THREAD_START_SP)) r) c.
Proof.
  intros [(He & _) Hm _ [Hsel Hsp]]. unfold enter. rewrite Hm, Hsel, He. change (banked "sp" 1) with "sp_el1". by rewrite Hsp.
Qed.

Lemma start_stack :
  0 < init_task < LOW_MEMORY → stack_base init_task = init_task →
  stack_base (u64 (init_task + THREAD_START_SP)) = init_task.
Proof.
  intros Hr Hb. assert (LOW_MEMORY < 2 ^ 32) by by vm_compute. change THREAD_START_SP with 4080.
  rewrite u64_id by lia. revert Hb. unfold stack_base. change THREAD_SIZE with (2 ^ 12).
  rewrite !land_mask_down by lia. change (2 ^ 12) with 4096. intros Hb.
  rewrite <-(Z.div_unique (init_task + 4080) 4096 (init_task / 4096) 4080); lia.
Qed.

(** ** Properties *)

(** C9 (functional): the boot core, entered at EL2 with the image in memory, gets to
    start_kernel in four blocks when .bss starts at a multiple of 8: it then runs at EL1 with
    interrupts masked, the MMU off, the kernel's vectors installed and the stack pointer at
    the top of the init task's stack, .bss is zero (rounded up to whole words) and no other
    byte of memory has changed.  When .bss starts elsewhere, as ALIGN(0x16) in the linker
    script makes it for three page tables in four, the first store of memzero traps.  Every
    other core stays in hang_proc without touching anything, at any level. *)
Theorem start_reaches_kernel s m n :
  image_linked → image_loaded s → sysregs s !! "mpidr_el1" = Some m →
  if negb (Z.land m 0xFF =? 0) then 1 ≤ el s → run (S n) L_start s = Ret L_hang_proc s
  else el s = 2 →
    if bss_begin mod 8 =? 0
    then ∃ s', run (4 + n) L_start s = Ret L_start_kernel s' ∧ at_start_kernel s' ∧
               ram s' = fill bss_begin (cleared (bss_end - bss_begin)) 0 (ram s)
    else run (4 + n) L_start s = Fault Trap.
Proof.
  intros Hl Hlo Hm. destruct (Z.eqb_spec (Z.land m 0xFF) 0) as [H0|H0]; cbn [negb]; intros He.
  - change (4 + n)%nat with (2 + (2 + n))%nat.
    rewrite (run_core0 s m) by (done || apply Hlo || lia). rewrite He. by apply run_from_el2.
  - cbn [run block]. rewrite (bind_eq _ _ _ _ _ (start_eq s m Hm He)), (proj2 (Z.eqb_neq _ 0)) by done. by apply run_stays.
Qed.

(** C35 (error): the boot core at any other level does not get to start_kernel: at EL1 the
    write of HCR_EL2, an EL2 register, traps, and at EL3 the code returns from an exception
    that never happened, through registers that nothing has written. *)
Theorem start_other_levels s m n :
  is_Some (sysregs s !! "sctlr_el1") → sysregs s !! "mpidr_el1" = Some m → Z.land m 0xFF = 0 →
  (el s = 1 → run (3 + n) L_start s = Fault Trap) ∧
  (el s = 3 → sysregs s !! "spsr_el3" = None → run (3 + n) L_start s = Fault Uninit).
Proof.
  intros Hs Hm H0. change (3 + n)%nat with (2 + S n)%nat. split; intros He.
  - rewrite (run_core0 s m), He by (done || lia). change (1 =? 3) with false. cbn [run block].
    apply bind_fault. unfold el2_entry. apply bind_msr_trap. by rewrite He.
  - intros Hn. rewrite (run_core0 s m), He by (done || lia). change (3 =? 3) with true. cbn [run block].
    assert (eret s = Fault Uninit) as E.
    { unfold eret. rewrite (bind_eq get _ s s s), He by done. change (banked "spsr" 3) with "spsr_el3".
      apply bind_fault. unfold reg. by rewrite (bind_eq get _ s s s), Hn by done. }
    apply bind_fault. unfold el3_entry, fmap, M_fmap. by rewrite E.
Qed.

(** C2 (safety): from power-on: on the boot core at EL2 with an aligned .bss, start-up hands
    start_kernel the state its boot relies on, and what C1 says of the kernel that the boot
    loader's state leads to holds of it, on C1's terms: a live UART, at most 256 interrupt
    lines, no interrupts in the boot or few enough timer interrupts in its two windows,
    events that are single steps, system calls by numbers that are not negative, and no
    more pages asked for than are left in memory.  The boot runs to its end, the events are
    handled without a fault or an endless loop, and every invariant of the kernel holds
    after them. *)
Theorem power_on_serves_events `{!UartLive P fuel} n m es s r0 r c id :
  image_linked → image_loaded s → bootable P r0 → bss_begin mod 8 = 0 →
  sysregs s !! "mpidr_el1" = Some id → Z.land id 0xFF = 0 → el s = 2 →
  n = 0%nat ∧ m = 0%nat ∨ timer_only P → tolerable n m →
  (128 ≤ fuel)%nat → Forall allowed es → Z.of_nat (events_pages es) ≤ PAGES_LEFT →
  ∃ k, power_on n m es s r c = Ret tt k ∧ running k.
Proof.
  intros Hl Hlo Hb Ha Hm H0 He Hto Ht Hf Hes Hp. pose proof (run_from_el2 s 0 Hl Hlo He) as Hrun. rewrite Ha in Hrun.
  destruct Hrun as (s' & E & Has & _).
  unfold power_on. rewrite (run_core0 s id 2), He by (done || apply Hlo || lia).
  change (2 =? 3) with false. cbn iota. change (2 + 0)%nat with 2%nat in E. rewrite E, enter_eq by done.
  assert (bootable P (set_sp (u64 (init_task + THREAD_START_SP)) r)) as Hb'.
  { destruct Hb as [H1 [H2 H3] H4 _ H5 H6]. split; [done..| |done|done]. cbn. by apply start_stack. }
  destruct (boot_serves P fuel init_printk_done _ (ram s') c n m es Hb' Hto Ht Hf Hes Hp) as ([] & k & Ek & Hk).
  by exists k.
Qed.
End power_on.

(** ** Instances *)

Module Example_start.
(** Main.v's image, with .bss where the linker puts it: at a multiple of 8 behind a page
    table at 0x8c000, not at one behind a page table at 0x8d000. *)
Definition image (bss : Z) : ImageSymbols := {|
  _text_boot_end := 0x80100; _text_start := 0x80100; _rodata_start := 0x87000; _rodata_end := 0x87800;
  _data_start := 0x88000; _data_end := bss / 4096 * 4096; bss_begin := bss; bss_end := 0x90008;
  kernel_thread1 := 0x82000; kernel_thread2 := 0x82100; run_user_thread := 0x86000;
|}.
Definition odd_mmu : MmuSymbols :=
  {| idmap_pgd_dir := 0x8d000; _text_boot_start := 0x80000; _text_end := 0x86123 |}.
Definition addresses : StartSymbols := {| el1_entry_addr := 0x80040; vectors_addr := 0x84800; sp_addr := 0x80f00 |}.

(** A core of the board at exception level [e], with the given affinity. *)
Definition core (e m : Z) : cpu :=
  Cpu e 15 true {["mpidr_el1" := m; "sctlr_el1" := 0x30d00800]} (st64 {[0x8d010 := 42]} 0x80f00 0x88ff0).
End Example_start.

#[local] Existing Instance Example_boot.sched_symbols.
#[local] Existing Instance Example_start.addresses.
#[local] Existing Instance log_console.

Lemma core_loaded e m : image_loaded (Example_start.core e m).
Proof. split; [by vm_compute|]. by eexists. Qed.

Section booted.
#[local] Existing Instance Example_boot.mmu_symbols.
#[local] Instance aligned_image : ImageSymbols := Example_start.image 0x8d008.

Lemma aligned_linked : image_linked.
Proof. split; by vm_compute. Qed.

Lemma start_reaches_kernel_witness :
  (∃ s', run 4 L_start (Example_start.core 2 0x80000000) = Ret L_start_kernel s' ∧ ram s' !! 0x8d010 = Some 0) ∧
  run 9 L_start (Example_start.core 2 0x80000003) = Ret L_hang_proc (Example_start.core 2 0x80000003).
Proof.
  split.
  - destruct (start_reaches_kernel (Example_start.core 2 0x80000000) 0x80000000 0 aligned_linked (core_loaded _ _) eq_refl eq_refl)
      as (s' & E & _ & H).
    exists s'. split; [exact E|]. rewrite H. by vm_compute.
  - exact (start_reaches_kernel (Example_start.core 2 0x80000003) 0x80000003 8 aligned_linked (core_loaded _ _) eq_refl ltac:(done)).
Defined.

Lemma start_other_levels_witness :
  run 3 L_start (Example_start.core 1 0x80000000) = Fault Trap ∧
  run 3 L_start (Example_start.core 3 0x80000000) = Fault Uninit.
Proof.
  split.
  - exact (proj1 (start_other_levels (Example_start.core 1 0x80000000) 0x80000000 0 ltac:(by eexists) eq_refl eq_refl) eq_refl).
  - exact (proj2 (start_other_levels (Example_start.core 3 0x80000000) 0x80000000 0 ltac:(by eexists) eq_refl eq_refl) eq_refl eq_refl).
Defined.

Lemma power_on_serves_events_witness :
  ∃ k, power_on Example_window.board 128 id 20 1 [Ev_el1_irq; Ev_spawn 0x82000] (Example_start.core 2 0x80000000)
         Example_boot.regs0 ([] : list (string * list karg)) = Ret tt k ∧ running k.
Proof.
  assert (UartLive Example_window.board 128) as Hlive by exact (window_live 127).
  assert (bootable Example_window.board Example_boot.regs0) as Hb by (destruct (proj1 window_board); by split).
  apply (power_on_serves_events Example_window.board 128 id 20 1 _ _ Example_boot.regs0 _ _ 0x80000000);
    [exact aligned_linked|exact (core_loaded _ _)|exact Hb|reflexivity|reflexivity|reflexivity|reflexivity|
     right; exact (proj2 window_board)|by split|lia| |by vm_compute].
  repeat (apply list.Forall_cons; split; [done|]). by apply list.Forall_nil.
Defined.
End booted.

(** The other position of .bss. *)
Section odd.
#[local] Existing Instance Example_start.odd_mmu.
#[local] Instance odd_image : ImageSymbols := Example_start.image 0x8e004.

Example odd_bss_traps : image_linked ∧ run 4 L_start (Example_start.core 2 0x80000000) = Fault Trap.
Proof. split; [split; by vm_compute|by vm_compute]. Qed.
End odd.
