(* ===== verification/Bounds.v ===== *)
(** * The scheduler's numbers

    What the variables of the scheduler can hold in the running kernel: a task's counter,
    priority, need_resched, preempt_count and pid, and the number of queued tasks.  No
    operation takes them out of those bounds, so none of the 32-bit additions and
    subtractions of kernel/sched.c, kernel/sched_nop.c and kernel/fork.c wraps around. *)

From S2P Require Import Prelude Memory Mmio Format Printk PageAlloc KList Sched Fork.
From S2P Require Import Uart Mmu Irq Gic Timer Syscall Main System Window.

(** ** The bounds *)

(** The priority do_fork gives and the longest time slice a forked task gets from it. *)
Definition FORK_PRIORITY : Z := 2.
Definition MAX_SLICE : Z := DEF_COUNTER + FORK_PRIORITY.

(** The task structure at [p].  The init task has a larger priority, which is never used:
    reset_score passes it over. *)
Record in_bounds `{!SchedSymbols} (p : Z) (t : task_struct) : Prop := {
  bd_counter : 0 ≤ counter t ≤ MAX_SLICE;
  bd_priority : if decide (p = init_task) then priority t = 20 else 0 ≤ priority t ≤ FORK_PRIORITY;
  bd_need_resched : need_resched t = 0 ∨ need_resched t = 1;
  bd_pid : 0 ≤ pid t < NR_TASKS;
}.

Definition bounded `{!SchedSymbols} {C} (s : sched C) : Prop := ∀ p t, tasks s !! p = Some t → in_bounds p t.
Record fork_bounded `{!SchedSymbols} {C} (f : fork_state C) : Prop := {
  fb_sched : bounded (f_sched f);
  fb_pages : pages_ok (f_pages f);
  fb_table : length (g_task f) = Z.to_nat NR_TASKS;
  fb_init : init_task < LOW_MEMORY;
}.

(** ** Operations that keep an invariant, with what their results are like *)

Definition keeps {S A} (I : S → Prop) (m : M S A) (Q : A → Prop) : Prop :=
  ∀ s a s', I s → m s = Ret a s' → I s' ∧ Q a.

Section keeps.
Context {S : Type} (I : S → Prop).

Lemma keeps_ret {A} (a : A) (Q : A → Prop) : Q a → keeps I (mret a) Q.
Proof. intros Ha s a' s' Hs [= <- <-]. done. Qed.
Lemma keeps_throw {A} e (Q : A → Prop) : keeps I (throw e) Q.
Proof. by intros s a s' Hs. Qed.
Lemma keeps_of_option {A} e (o : option A) (Q : A → Prop) : (∀ a, o = Some a → Q a) → keeps I (of_option e o) Q.
Proof. intros H s a s' Hs. destruct o; [|done]. intros [= <- <-]. eauto. Qed.
Lemma keeps_bind {A B} (R : A → Prop) (Q : B → Prop) (m : M S A) k :
  keeps I m R → (∀ a, R a → keeps I (k a) Q) → keeps I (m ≫= k) Q.
Proof. intros Hm Hk s b s' Hs (a & s1 & E1 & E2)%bind_inv. destruct (Hm _ _ _ Hs E1). by eapply Hk. Qed.
Lemma keeps_bind_ret {A B} (Q : B → Prop) (a : A) (k : A → M S B) : keeps I (k a) Q → keeps I (mret a ≫= k) Q.
Proof. done. Qed.
Lemma keeps_weaken {A} (R Q : A → Prop) (m : M S A) : (∀ a, R a → Q a) → keeps I m R → keeps I m Q.
Proof. intros H Hm s a s' Hs E. destruct (Hm _ _ _ Hs E). eauto. Qed.
Lemma keeps_true {A} (Q : A → Prop) (m : M S A) : keeps I m Q → keeps I m (λ _, True).
Proof. by apply keeps_weaken. Qed.
Lemma keeps_gets {A} (f : S → A) (Q : A → Prop) : (∀ s, I s → Q (f s)) → keeps I (gets f) Q.
Proof. intros H s a s' Hs [= <- <-]. eauto. Qed.
Lemma keeps_gets_any {A} (f : S → A) : keeps I (gets f) (λ _, True).
Proof. by apply keeps_gets. Qed.
Lemma keeps_of_option_any {A} e (o : option A) : keeps I (of_option e o) (λ _, True).
Proof. by apply keeps_of_option. Qed.
Lemma keeps_modify (f : S → S) : (∀ s, I s → I (f s)) → keeps I (modify f) (λ _, True).
Proof. intros H s a s' Hs [= <- <-]. eauto. Qed.
Lemma keeps_skip : keeps I skip (λ _, True).
Proof. by apply keeps_ret. Qed.
Lemma keeps_when b (m : M S unit) : keeps I m (λ _, True) → keeps I (when b m) (λ _, True).
Proof. intros H. destruct b; [done|apply keeps_skip]. Qed.
(** A loop, with the range of what its rounds pass on. *)
Lemma keeps_loop {A B} (R : A → Prop) (Q : B → Prop) n (body : A → M S (A + B)) a :
  (∀ a, R a → keeps I (body a) (λ r, match r with inl a => R a | inr b => Q b end)) → R a →
  keeps I (loop n body a) Q.
Proof.
  intros Hb. revert a; induction n as [|n IH]; intros a Ha; [by intros s b s'|].
  cbn [loop]. eapply keeps_bind; [by apply Hb|]. intros [a'|b] Hr; [by apply IH|by apply keeps_ret].
Qed.
End keeps.

Lemma keeps_zoom {S T A} `{!Lens S T} (I : S → Prop) (J : T → Prop) (m : M T A) Q :
  (∀ s, I s → J (lget s)) → (∀ s t, I s → J t → I (lput t s)) → keeps J m Q → keeps I (zoom m) Q.
Proof.
  intros Hg Hp Hm s a s' Hs. unfold zoom. destruct (m (lget s)) as [a' t| | |] eqn:E; intros [= <- <-].
  destruct (Hm _ _ _ (Hg s Hs) E). auto.
Qed.

Create HintDb keeps.
#[export] Hint Resolve keeps_throw keeps_skip keeps_when keeps_gets_any keeps_of_option_any : keeps.

(** One computation after the other, by the lemmas of the database. *)
Ltac keep_step :=
  match goal with
  | |- ∀ _, _ => intros; cbv beta in *; destruct_and?
  | |- keeps _ (mret _) _ => apply keeps_ret; try done
  | |- keeps _ (mret _ ≫= _) _ => apply keeps_bind_ret
  | |- keeps _ (_ ≫= _) _ => first [eapply keeps_bind; [solve [eauto with keeps]|]|apply (keeps_bind _ (λ _, True))]
  | |- keeps _ (let '(_, _) := ?x in _) _ => destruct x eqn:?
  | |- keeps _ (if ?b then _ else _) _ => destruct b eqn:?
  | |- keeps _ (when _ _) _ => apply keeps_when
  | |- keeps _ _ _ => solve [eauto with keeps | eapply keeps_true; eauto with keeps]
  end.
Ltac keep := repeat keep_step.

(** ** The scheduler *)

Section sched.
Context `{Hsym : !SchedSymbols} {C : Type} `{Hcon : !Console C} (fuel : nat).
Implicit Types (s : sched C).
Abbreviation I := (bounded (C:=C)).

Lemma bounds_nodes {A} (m : M heap A) : keeps I (zoom m) (λ _, True).
Proof. apply (keeps_zoom _ (λ _, True)); [done|done|]. by intros s a s'. Qed.
Lemma bounds_task p : keeps I (task p) (in_bounds p).
Proof. intros s t s' Hs. unfold task. destruct (tasks s !! p) eqn:E; intros [= <- <-]. split; [done|by apply Hs]. Qed.
Lemma bounds_set_task p f : (∀ t, in_bounds p t → in_bounds p (f t)) → keeps I (set_task p f) (λ _, True).
Proof.
  intros Hf s u s' Hs. unfold set_task. destruct (tasks s !! p) as [t|] eqn:E; intros [= <- <-].
  split; [|done]. intros q x Hx. cbn [tasks set_tasks] in Hx. rewrite lookup_alter in Hx.
  case_decide; [subst|by apply Hs]. rewrite E in Hx. injection Hx as <-. by apply Hf, Hs.
Qed.
Lemma bounds_modify f : (∀ s, tasks (f s) = tasks s) → keeps I (modify f) (λ _, True).
Proof. intros Hf. apply keeps_modify. intros s Hs p t. rewrite Hf. apply Hs. Qed.
Lemma bounds_get_current : keeps I get_current (λ _, True).
Proof. by apply keeps_gets. Qed.
End sched.
#[export] Hint Resolve bounds_nodes bounds_task bounds_get_current : keeps.
#[export] Hint Extern 2 (keeps bounded (modify _) _) => apply bounds_modify; done : keeps.
#[export] Hint Extern 2 (keeps bounded (print _ _) _) => apply bounds_modify; done : keeps.

(** A field of a task gets a value within its bounds. *)
Ltac bd_field := intros ? []; split; cbn; done || lia || auto.
#[export] Hint Extern 2 (keeps bounded (set_task _ _) _) => apply bounds_set_task; solve [bd_field] : keeps.

Section sched_code.
Context `{Hsym : !SchedSymbols} {C : Type} `{Hcon : !Console C} (fuel : nat).
Abbreviation I := (bounded (C:=C)).

Lemma bounds_preempt_add v : keeps I (preempt_add v) (λ _, True).
Proof. unfold preempt_add. keep. Qed.
Lemma bounds_preempt_sub v : keeps I (preempt_sub v) (λ _, True).
Proof. unfold preempt_sub. keep. Qed.
Lemma bounds_enqueue q p : keeps I (enqueue_task fuel q p) (λ _, True).
Proof. unfold enqueue_task, nop_sched_class, class_enqueue_task, of_option, enqueue_task_nop. keep. Qed.
Lemma bounds_dequeue q p : keeps I (dequeue_task fuel q p) (λ _, True).
Proof. unfold dequeue_task, nop_sched_class, class_dequeue_task, of_option, dequeue_task_nop. keep. Qed.
Hint Resolve bounds_preempt_add bounds_preempt_sub bounds_enqueue bounds_dequeue : keeps.

(** The tick takes one from the counter and puts it back to zero when it falls below. *)
Lemma bounds_tick : keeps I (tick_handle_periodic fuel) (λ _, True).
Proof.
  intros s u s' Hs E. destruct (tasks s !! current s) as [t|] eqn:Ht.
  - pose proof (bd_counter _ _ (Hs _ _ Ht)) as Hc. change MAX_SLICE with 27 in Hc.
    rewrite (tick_eq fuel s t Ht) in E by lia. injection E as <- <-. split; [|done].
    intros p x Hx. cbn [tasks set_console set_tasks] in Hx. rewrite lookup_alter in Hx. case_decide; [subst p|by apply Hs].
    rewrite Ht in Hx. injection Hx as <-. destruct (Hs _ _ Ht). unfold ticked.
    destruct (Z.leb_spec (counter t) 1); split; cbn; auto with lia.
  - unfold tick_handle_periodic, get_current, task_tick, nop_sched_class, class_task_tick, of_option, task_tick_nop in E.
    rewrite bind_gets, bind_mret in E. apply bind_inv in E as (v & x & E & _). unfold set_task in E. by rewrite Ht in E.
Qed.

(** What reset_score gives the tasks it reaches, the init task not being one. *)
Lemma recharge_in_bounds p t :
  p ≠ init_task → in_bounds p t → in_bounds p (with_counter (s32 (DEF_COUNTER + priority t)) t).
Proof.
  intros Hp [H1 H2 H3 H4]. split; cbn; try done. rewrite decide_False in H2 by done.
  change MAX_SLICE with 27. change DEF_COUNTER with 25. change FORK_PRIORITY with 2 in H2. rewrite s32_id; lia.
Qed.
Lemma bounds_reset_score : keeps I (reset_score fuel) (λ _, True).
Proof.
  unfold reset_score. apply (keeps_loop _ (λ _, True)); [|done]. intros p _.
  eapply keeps_bind; [apply bounds_task|]. intros t _. cbv zeta. destruct (Z.eqb_spec (next_task t) init_task); [keep|].
  apply (keeps_bind _ (λ _, True)); [|keep]. apply bounds_set_task. intros x. by apply recharge_in_bounds.
Qed.
Lemma bounds_list_for_each {A} head (body : A → Z → M (sched C) A) acc :
  (∀ acc pos, keeps I (body acc pos) (λ _, True)) → keeps I (list_for_each fuel head body acc) (λ _, True).
Proof. intros Hb. unfold list_for_each. keep. apply (keeps_loop _ (λ _, True)); [|done]. intros [] _. keep. Qed.
Hint Resolve bounds_reset_score bounds_list_for_each : keeps.
Lemma bounds_pick_step acc pos : keeps I (pick_step acc pos) (λ _, True).
Proof. unfold pick_step, goodness. keep. Qed.
Hint Resolve bounds_pick_step : keeps.
Lemma bounds_pick_next q prev : keeps I (pick_next_task fuel q prev) (λ _, True).
Proof.
  unfold pick_next_task, nop_sched_class, class_pick_next_task, of_option, pick_next_task_nop. apply keeps_bind_ret.
  apply (keeps_loop _ (λ _, True)); [|done]. keep.
Qed.
Lemma bounds_schedule_return caller : keeps I (schedule_return caller) (λ _, True).
Proof. unfold schedule_return, preempt_enable, raw_local_irq_disable. destruct caller; keep. Qed.
Lemma bounds_switch_to prev next caller : keeps I (switch_to prev next caller) (λ _, True).
Proof. unfold switch_to, cpu_switch_to. keep. Qed.
Hint Resolve bounds_pick_next bounds_schedule_return bounds_switch_to : keeps.
Lemma bounds_resume : keeps I __schedule_resume (λ _, True).
Proof. unfold __schedule_resume, schedule_tail, raw_local_irq_enable. keep. Qed.
Hint Resolve bounds_resume : keeps.
Lemma bounds___schedule caller : keeps I (__schedule fuel caller) (λ _, True).
Proof. unfold __schedule, schedule_debug, schedule_tail, raw_local_irq_enable, raw_local_irq_disable, clear_task_resched. keep. Qed.
Hint Resolve bounds___schedule : keeps.
Lemma bounds_schedule : keeps I (schedule fuel) (λ _, True).
Proof. unfold schedule, preempt_disable. keep. Qed.
Lemma bounds_preempt_schedule_irq : keeps I (preempt_schedule_irq fuel) (λ _, True).
Proof. unfold preempt_schedule_irq, preempt_disable, raw_local_irq_enable. keep. Qed.
Hint Resolve bounds_schedule bounds_preempt_schedule_irq : keeps.
Lemma bounds_el1_irq_exit : keeps I (el1_irq_exit fuel) (λ _, True).
Proof. unfold el1_irq_exit. keep. Qed.
Lemma bounds_ret_to_user : keeps I (ret_to_user fuel) (λ _, True).
Proof. unfold ret_to_user, raw_local_irq_disable. keep. Qed.
Lemma bounds_irq b : keeps I (__irq_enter ;; when b (tick_handle_periodic fuel) ;; __irq_exit) (λ _, True).
Proof. pose proof bounds_tick. unfold __irq_enter, __irq_exit. keep. Qed.
Lemma bounds_wake_up_process p : keeps I (wake_up_process fuel p) (λ _, True).
Proof. unfold wake_up_process. keep. Qed.
Lemma bounds_SET_LINKS p : keeps I (SET_LINKS p) (λ _, True).
Proof. unfold SET_LINKS. keep. Qed.
End sched_code.
#[export] Hint Resolve bounds_schedule bounds_el1_irq_exit bounds_ret_to_user bounds_wake_up_process bounds_SET_LINKS : keeps.

(** ** Forking and system calls *)

Section fork_code.
Context `{Hsym : !SchedSymbols} {C : Type} `{Hcon : !Console C} (fuel : nat).
Abbreviation I := (fork_bounded (C:=C)).

Lemma bounds_f_sched {A} (m : M (sched C) A) Q : keeps bounded m Q → keeps I (zoom m) Q.
Proof. apply keeps_zoom; [by intros s []|by intros s t [] Ht; split]. Qed.
Lemma bounds_f_pages {A} (m : M pages A) Q : keeps pages_ok m Q → keeps I (zoom m) Q.
Proof. apply keeps_zoom; [by intros s []|by intros s t [] Ht; split]. Qed.
Lemma bounds_get_free_page : keeps I (zoom get_free_page) (λ p, p ≠ 0 → page_ok p).
Proof.
  apply bounds_f_pages. intros s p s' Hs E. destruct (decide (nr_free (mem_map s) = 0%nat)) as [Hz|Hnz].
  - rewrite get_free_page_none in E by done. injection E as <- <-. done.
  - destruct (get_free_page_spec s Hs ltac:(lia)) as (q & s1 & E1 & H1 & H2 & _). rewrite E in E1. by injection E1 as <- <-.
Qed.
Lemma bounds_free_page p : keeps I (zoom (free_page p)) (λ _, True).
Proof.
  apply bounds_f_pages. intros s u s' Hs. unfold free_page. destruct (_ <? _); intros [= <- <-]. split; [|done].
  unfold pages_ok; cbn. by rewrite length_insert.
Qed.
Lemma bounds_load_regs a : keeps I (load_regs a) (λ _, True).
Proof. intros s r s' Hs. unfold load_regs. by destruct (f_regs s !! a); intros [= <- <-]. Qed.
Lemma bounds_store_regs a r : keeps I (store_regs a r) (λ _, True).
Proof. intros s u s' [] [= <- <-]. by split. Qed.
Lemma bounds_update_regs a g : keeps I (update_regs a g) (λ _, True).
Proof. eapply keeps_bind; [apply bounds_load_regs|]. intros. apply bounds_store_regs. Qed.
Hint Resolve bounds_f_sched bounds_free_page bounds_load_regs bounds_store_regs bounds_update_regs : keeps.

Lemma bounds_zero_task_struct p : page_ok p → keeps I (zero_task_struct p) (λ _, init_task < p).
Proof.
  intros [_ Hp]. unfold zero_task_struct, touch_page. apply (keeps_bind _ (λ _, True)); [destruct (p <? TOTAL_MEMORY); keep|].
  intros _ _ f u f' [Hs Hpg Ht Hi] [= <- <-]. split; [|lia]. split; try done.
  intros q t. cbn. intros [[<- <-]|[_ Hq]]%lookup_insert_Some; [|by apply Hs].
  split; cbn; try done; [|by left]. rewrite decide_False by lia. done.
Qed.

Lemma bounds_find_empty_task : keeps I find_empty_task (λ i, i < NR_TASKS).
Proof.
  apply keeps_gets. intros s Hs. destruct (find_free _ 0) as [i|] eqn:E; [|done].
  apply find_free_Some in E as (_ & H & _). apply lookup_lt_Some in H.
  rewrite length_map, (fb_table _ Hs) in H. change (Z.to_nat NR_TASKS) with 128%nat in H. change NR_TASKS with 128. lia.
Qed.

Lemma bounds_copy_thread clone_flags p stack arg : keeps I (copy_thread clone_flags p stack arg) (λ _, True).
Proof. unfold copy_thread. keep. Qed.

(** The two halves of a counter. *)
Lemma halves_in_bounds c :
  0 ≤ c ≤ MAX_SLICE → 0 ≤ Z.shiftr (s32 (c + 1)) 1 ≤ MAX_SLICE ∧ 0 ≤ Z.shiftr c 1 ≤ MAX_SLICE.
Proof.
  change MAX_SLICE with 27. intros H.
  rewrite s32_id, !Z.shiftr_div_pow2 by lia. change (2 ^ 1) with 2. Z.to_euclidean_division_equations. lia.
Qed.

Lemma bounds_do_fork clone_flags stack arg : keeps I (do_fork fuel clone_flags stack arg) (λ _, True).
Proof.
  pose proof bounds_copy_thread. unfold do_fork.
  eapply keeps_bind; [apply bounds_get_free_page|]. intros p Hp. destruct (Z.eqb_spec p 0) as [|Hp0]; [keep|].
  apply (keeps_bind _ (λ _, init_task < p)); [apply bounds_zero_task_struct; auto|]. intros _ Hpi.
  eapply keeps_bind; [apply bounds_find_empty_task|]. intros pid Hpid. destruct (Z.ltb_spec pid 0); [keep|].
  eapply keeps_bind; [apply bounds_copy_thread|]. intros failed _. destruct (negb (failed =? 0)); [keep|].
  do 2 (eapply keeps_bind; [apply bounds_f_sched; eauto with keeps|intros _ _]).
  eapply keeps_bind; [apply bounds_f_sched, bounds_get_current|]. intros c _.
  eapply keeps_bind; [apply bounds_f_sched, bounds_task|]. intros t Ht.
  destruct (halves_in_bounds _ (bd_counter _ _ Ht)) as [Hc _].
  eapply keeps_bind; [apply bounds_f_sched; eauto with keeps|intros _ _].
  apply (keeps_bind _ (λ _, True)).
  { apply bounds_f_sched, bounds_set_task. intros x []. split; cbn; try done. by apply halves_in_bounds. }
  intros _ _. do 2 (eapply keeps_bind; [apply bounds_f_sched; eauto with keeps|intros _ _]).
  apply (keeps_bind _ (λ _, True)).
  { apply bounds_f_sched, bounds_set_task. intros x []. split; cbn; try done. rewrite decide_False by lia.
    unfold FORK_PRIORITY. lia. }
  intros _ _. apply (keeps_bind _ (λ _, True)); [by apply keeps_modify; intros s []; split|]. intros _ _.
  apply (keeps_bind _ (λ _, True)).
  { apply keeps_modify. intros s []. split; cbn; try done. by rewrite length_insert. }
  intros _ _. keep.
Qed.
Hint Resolve bounds_do_fork : keeps.

Lemma bounds_table i : keeps I (table_at (syscall_table fuel) i) (λ fn, ∀ a, keeps I (fn a) (λ _, True)).
Proof.
  unfold table_at. destruct (i <? 0); [apply keeps_throw|].
  destruct (syscall_table fuel !! Z.to_nat i) as [fn|] eqn:E; [|apply keeps_throw]. apply keeps_ret.
  apply list_elem_of_lookup_2 in E. unfold syscall_table in E. intros a. pose proof bounds_get_free_page.
  repeat (apply elem_of_cons in E as [->|E]); [..|by apply elem_of_nil in E];
    unfold __arm64_sys_open, __arm64_sys_close, __arm64_sys_read, __arm64_sys_write, __arm64_sys_malloc; keep.
  unfold __arm64_sys_clone. keep.
Qed.
Lemma bounds_svc a : keeps I (el0_svc_handler fuel a) (λ _, True).
Proof.
  unfold el0_svc_handler, el0_syscall_common, invoke_syscall.
  eapply keeps_bind; [apply bounds_load_regs|]. intros r _.
  do 2 (eapply keeps_bind; [apply bounds_update_regs|]; intros _ _).
  apply (keeps_bind _ (λ _, True)); [|intros; apply bounds_update_regs].
  destruct (_ <? _); [|by apply keeps_ret]. eapply keeps_bind; [apply bounds_table|]. auto.
Qed.
Hint Resolve bounds_svc : keeps.
Lemma bounds_context_save r : keeps I (kernel_context_save r) (λ _, True).
Proof. unfold kernel_context_save. keep. Qed.
Hint Resolve bounds_context_save : keeps.
Lemma bounds_el0_sync ec r : keeps I (el0_sync fuel ec r) (λ _, True).
Proof. unfold el0_sync, el0_svc. keep. Qed.
End fork_code.

(** ** Events *)

Section kernel.
Context `{Hsym : !SchedSymbols} {C : Type} `{Hcon : !Console C} (P : platform) (fuel : nat).
Implicit Types (s : kernel C).

Definition k_bounded s : Prop := fork_bounded (lget s : fork_state C).

Lemma bounds_k_fork {A} (m : M (fork_state C) A) Q : keeps fork_bounded m Q → keeps k_bounded (zoom m) Q.
Proof. apply keeps_zoom; [done|]. intros s t Hs Ht. unfold k_bounded. by rewrite lget_lput. Qed.
Lemma bounds_k_sched {A} (m : M (sched C) A) Q : keeps bounded m Q → keeps k_bounded (zoom m) Q.
Proof. apply keeps_zoom; [by intros s []|]. intros s t [] Ht. by split. Qed.
Lemma bounds_quiet {A} (k : M (kernel C) A) : quiet k → keeps k_bounded k (λ _, True).
Proof.
  intros Hk s a s' [] E. destruct (Hk s) as (a' & c & tr & E'). rewrite E in E'. injection E' as _ ->. by split.
Qed.

(** The interrupt of a kernel whose run queue may still be empty. *)
Lemma bounds_irq_handler s queue forked g s' :
  timer_ready (lget s : machine pages C) g → handlers_in [Z.to_nat GENERIC_TIMER_IRQ] (k_irqs s) →
  task_runs (k_sched s) queue forked → k_bounded s →
  zoom (T:=machine pages C) (irq_handler (ArchIrqCode0:=kernel_arch_code P fuel)) s = Ret tt s' → k_bounded s'.
Proof.
  intros Hg Hh Hr [H1 H2 H3] E.
  destruct (irq_handler_returns P fuel (lget s) g queue forked) as (tr & sc & b & E1 & _ & E2); [done..|].
  rewrite (zoom_eq _ s tt _ E1) in E. injection E as <-. destruct (bounds_irq fuel b _ _ _ H1 E2) as [H _]. by split.
Qed.
Lemma ok_irq_handler s queue forked g s' :
  kernel_ok s queue forked g → k_bounded s →
  zoom (T:=machine pages C) (irq_handler (ArchIrqCode0:=kernel_arch_code P fuel)) s = Ret tt s' → k_bounded s'.
Proof. intros Hs. apply (bounds_irq_handler s queue forked g); [apply Hs|apply Hs|by eapply ok_task_runs]. Qed.
Lemma bounds_machine_exit : keeps k_bounded (zoom (T:=machine pages C) (zoom (T:=sched C) (el1_irq_exit fuel))) (λ _, True).
Proof.
  apply (keeps_zoom _ (λ m, bounded (schd m) ∧ pages_ok (palloc m))); [by intros s []|by intros s m [] []; split|].
  apply (keeps_zoom _ bounded); [by intros m []|by intros m t []|]. apply bounds_el1_irq_exit.
Qed.
Lemma bounds_spawn fn : keeps k_bounded (spawn fuel fn) (λ _, True).
Proof.
  unfold spawn, kernel_thread. eapply keeps_bind; [apply bounds_k_fork, bounds_do_fork|]. intros pid _.
  apply keeps_when, bounds_k_sched. keep.
Qed.

Lemma handle_bounded s e s' : running s → k_bounded s → handle P fuel e s = Ret tt s' → k_bounded s'.
Proof.
  intros (queue & forked & g & Hs) Ht E. destruct e as [|r|ec r| |fn|loops name text]; cbn [handle] in *.
  - unfold k_el1_irq, el1_irq in E. apply zoom_seq_inv in E as ([] & s1 & E1 & E2).
    exact (proj1 (bounds_machine_exit s1 tt s' (ok_irq_handler s queue forked g s1 Hs Ht E1) E2)).
  - unfold el0_irq in E. apply bind_inv in E as ([] & s1 & E1 & E). apply bind_inv in E as ([] & s2 & E2 & E3).
    pose proof (proj1 (bounds_k_fork _ _ (bounds_context_save r) s tt s1 Ht E1)) as H1.
    destruct (save_event s queue forked g r Hs) as (u & x & Ex & Hx & _). rewrite E1 in Ex. injection Ex as <- <-.
    pose proof (ok_irq_handler s1 queue forked g s2 Hx H1 E2) as H2.
    exact (proj1 (bounds_k_sched _ _ (bounds_ret_to_user fuel) s2 tt s' H2 E3)).
  - exact (proj1 (bounds_k_fork _ _ (bounds_el0_sync fuel ec r) s tt s' Ht E)).
  - exact (proj1 (bounds_k_sched _ _ (bounds_schedule fuel) s tt s' Ht E)).
  - exact (proj1 (bounds_spawn fn s tt s' Ht E)).
  - refine (proj1 (bounds_quiet (kernel_thread_round loops name text) _ s tt s' Ht E)).
    apply quiet_bind; [apply quiet_hw; by do 2 eexists|]. intros. apply quiet_kprintk.
Qed.

Lemma handle_all_bounded s es s' :
  (128 ≤ fuel)%nat → stocked (events_pages es) s → k_bounded s → Forall allowed es →
  handle_all P fuel es s = Ret tt s' → k_bounded s'.
Proof.
  intros Hf Hs Ht He. revert s Hs Ht; induction He as [|e es He _ IH]; intros s Hs Ht E.
  { cbn in E. by injection E as <-. }
  destruct (handle_returns P fuel Hf s e (events_pages es) Hs He) as ([] & s1 & E1 & Hs1).
  cbn [handle_all] in E. rewrite (bind_eq _ _ _ _ _ E1) in E. apply (IH s1 Hs1); [|exact E].
  exact (handle_bounded s e s1 (proj1 Hs) Ht E1).
Qed.
End kernel.

(** *** The boot *)

Section boot.
Context `{Hsym : !SchedSymbols} `{Hmmu : !MmuSymbols} `{Himg : !ImageSymbols}.
Context {C : Type} `{Hcon : !Console C} (P : platform) (fuel : nat) (init_printk_done : C → C).
Implicit Types (s : kernel C).

Lemma booting_bounded r Irq Mem Queue n s :
  init_task < LOW_MEMORY → booting r Irq Mem Queue n s → k_bounded s.
Proof.
  intros Hi [_ _ _ Hts _ Hp _ Htab _]. split; cbn; [|done|by rewrite Htab|done].
  intros p t. rewrite Hts. intros [<- <-]%lookup_singleton_Some. split; try done; [by rewrite decide_True|by left].
Qed.

Lemma idle_bounded n k s s' :
  n = 0%nat ∨ timer_only P → (0 < fuel)%nat → idle k s → Z.of_nat n < k → k_bounded s →
  handle_all P fuel (replicate n Ev_el1_irq) s = Ret tt s' → k_bounded s'.
Proof.
  intros Hto Hf; revert k s Hto; induction n as [|n IH]; intros k s Hto Hs Hk Hb E; [by injection E as <-|].
  destruct Hto as [?|Hto]; [done|]. cbn [replicate handle_all handle] in E. apply bind_inv in E as ([] & s1 & E1 & E).
  assert (k_bounded s1) as Hb1.
  { destruct (idle_timer k s Hs) as (g & Hg & _). destruct (id_irq _ _ Hs) as (Hh & _).
    unfold k_el1_irq, el1_irq in E1. apply zoom_seq_inv in E1 as ([] & s0 & E0 & E2).
    refine (proj1 (bounds_machine_exit fuel s0 tt s1 (bounds_irq_handler P fuel s [] [] g s0 Hg _ (idle_runs k s Hs) Hb E0) E2)).
    exact Hh. }
  destruct (idle_tick P fuel k s Hto ltac:(lia) Hs) as (s2 & E2 & Hs2). rewrite (idle_exit fuel (k - 1) s2 Hf Hs2) in E2.
  rewrite (proj2 (Z.eqb_neq (k - 1) 0)), E1 in E2 by lia. injection E2 as ->. apply (IH (k - 1) s2); [by right|done|lia|done|done].
Qed.

Lemma one_thread_bounded m k p1 s s' :
  m = 0%nat ∨ timer_only P → (128 ≤ fuel)%nat → one_thread k p1 s → k_bounded s →
  handle_all P fuel (replicate m Ev_el1_irq) s = Ret tt s' → k_bounded s'.
Proof.
  intros [->|Hto] Hf Hs Hb E; [by injection E as <-|]. destruct (one_thread_ok P k p1 s Hto Hs) as (g & Hok & _).
  apply (handle_all_bounded P fuel s (replicate m Ev_el1_irq) s'); try done; [|by apply Forall_replicate].
  rewrite irqs_no_pages. split; [by exists [p1], [p1], g|left; lia].
Qed.

Lemma boot_bounded `{!UartLive P fuel} r mem c n m s' :
  bootable P r → n = 0%nat ∧ m = 0%nat ∨ timer_only P → (128 ≤ fuel)%nat → tolerable n m →
  boot_interrupted P fuel init_printk_done n m (loaded mem r c) = Ret tt s' → k_bounded s'.
Proof.
  intros Hb Hto Hf [Hn Hm] E. pose proof (proj1 (bo_init _ _ Hb)) as Hi.
  destruct (boot_devices_ok P fuel init_printk_done r mem c Hb) as ([] & s & E0 & Hs & k & Hk).
  unfold boot_interrupted in E. rewrite (bind_eq _ _ _ _ _ E0) in E.
  apply bind_inv in E as ([] & s1 & E1 & E). apply bind_inv in E as ([] & s2 & E2 & E).
  apply bind_inv in E as ([] & s3 & E3 & E).
  pose proof (idle_bounded n _ s s1 ltac:(tauto) ltac:(lia) Hs Hn (booting_bounded _ _ _ _ _ _ (proj2 Hi) Hk) E1) as B1.
  pose proof (idle_interrupts P fuel n _ s ltac:(tauto) ltac:(lia) Hs ltac:(done)) as Hs1.
  rewrite (proj2 (Z.ltb_lt _ _)) in Hs1 by done. pose proof (returns_inv _ _ _ _ _ Hs1 E1) as Hi1. cbv beta in Hi1.
  destruct (returns_inv _ _ _ _ _ (first_thread fuel (DEF_COUNTER - Z.of_nat n) s1 Hi ltac:(lia) Hi1) E2) as [p1 Hs2].
  pose proof (proj1 (bounds_spawn fuel _ s1 tt s2 B1 E2)) as B2.
  pose proof (one_thread_bounded m _ p1 s2 s3 ltac:(tauto) Hf Hs2 B2 E3) as B3.
  unfold resume_init in E. rewrite bind_gets in E. unfold when in E. destruct (_ =? _); [|by injection E as <-].
  exact (proj1 (bounds_spawn fuel _ s3 tt s' B3 E)).
Qed.
End boot.

(** ** Properties *)

Section properties.
Context `{Hsym : !SchedSymbols} `{Hmmu : !MmuSymbols} `{Himg : !ImageSymbols}.
Context {C : Type} `{Hcon : !Console C} (P : platform) (fuel : nat) (init_printk_done : C → C).
Implicit Types (s : kernel C).

(** A preempt_disable is undone before the task's own code goes on; a task inside
    __schedule has one outstanding. *)
Lemma preempt_count_range s queue forked g p t :
  kernel_ok s queue forked g → p ∈ init_task :: forked → tasks (k_sched s) !! p = Some t → 0 ≤ preempt_count t ≤ 1.
Proof.
  intros Hs Hp Ht. pose proof (ok_task_runs _ _ _ _ Hs) as [Hinv _ Hc]. destruct (decide (p = current (k_sched s))) as [->|Hd].
  - unfold preempt_count_of in Hc. rewrite Ht in Hc. lia.
  - pose proof (proj2 (inv_saved _ _ _ Hinv p t Hp Ht Hd)) as [(_ & H)|(_ & H & _)]; lia.
Qed.

(** C22 (bounds): the scheduler's numbers stay within tight bounds, whatever the kernel is
    asked to do.  After a boot and any events as in C1, every task in the task table has a
    counter from 0 to 27 (the 25 of the init task, or 25 and the priority a fork gives),
    a priority of at most 2 unless it is the init task, whose 20 reset_score never uses,
    a need_resched of 0 or 1, a pid from 0 to 127 and a preempt_count of 0 or 1; the
    running task's preempt_count is 0; and nr_running is the number of nodes in the ready
    list, from 1 to 127.  So each preempt_disable is undone, the tick does not take a
    counter below zero, and none of these 32-bit counts ever wraps around. *)
Theorem scheduler_bounds `{!UartLive P fuel} r mem c n m es :
  bootable P r → n = 0%nat ∧ m = 0%nat ∨ timer_only P → tolerable n m → (128 ≤ fuel)%nat →
  Forall allowed es → Z.of_nat (events_pages es) ≤ PAGES_LEFT →
  returns (boot_interrupted P fuel init_printk_done n m ;; handle_all P fuel es) (λ _ s',
    (∀ p, p ∈ k_tasks s' → p ≠ 0 → ∃ t, tasks (k_sched s') !! p = Some t ∧
       0 ≤ counter t ≤ 27 ∧ (p ≠ init_task → 0 ≤ priority t ≤ 2) ∧ (need_resched t = 0 ∨ need_resched t = 1) ∧
       0 ≤ pid t < 128 ∧ 0 ≤ preempt_count t ≤ 1) ∧
    preempt_count_of (k_sched s') (current (k_sched s')) = 0 ∧
    ∃ queue, ring (nodes (k_sched s')) g_ready_queue (map node_of queue) ∧
      nr_running (rq (k_sched s')) = Z.of_nat (length queue) ∧ 1 ≤ nr_running (rq (k_sched s')) ≤ 127)
    (loaded mem r c).
Proof.
  intros Hb Hto Htol Hf Hes Hp.
  destruct (boot_tolerates P fuel init_printk_done r mem c n m Hb Hto Hf Htol) as ([] & s & E & p1 & p2 & Hup).
  pose proof (boot_bounded P fuel init_printk_done r mem c n m s Hb Hto Hf Htol E) as Hbd.
  pose proof (kernel_up_stocked p1 p2 s (events_pages es) Hup Hp) as Hst.
  destruct (handle_all_returns P fuel Hf s es 0) as ([] & s' & E' & (queue & forked & g & Hs) & _); [by rewrite Nat.add_0_r|done|].
  pose proof (handle_all_bounded P fuel s es s' Hf Hst Hbd Hes E') as [Hts _ _ _].
  eapply returns_ret; [by rewrite (bind_eq _ _ _ _ _ E)|]. pose proof (ok_fork _ _ _ _ Hs) as Hinv.
  pose proof (ok_task_runs _ _ _ _ Hs) as [Hsi _ Hc]. destruct (fork_inv_lengths _ _ _ Hinv) as [Hl1 Hl2].
  split; [|split; [exact Hc|exists queue]].
  - intros p Hin Hp0. assert (p ∈ init_task :: forked) as Hpf.
    { rewrite <-(fi_tasks _ _ _ Hinv). by apply list_elem_of_filter. }
    destruct (links_lookup (k_sched s') forked p (inv_links _ _ _ Hsi) Hpf) as [t Ht]. exists t. split; [done|].
    destruct (Hts p t Ht) as [H1 H2 H3 H4]. pose proof (preempt_count_range s' queue forked g p t Hs Hpf Ht) as H5.
    split; [exact H1|]. split; [intros; by rewrite decide_False in H2|done].
  - split; [apply Hsi|]. split; [apply Hsi|]. rewrite (inv_nr _ _ _ Hsi).
    pose proof (ok_queue _ _ _ _ Hs). destruct queue; [done|cbn in *; lia].
Qed.
End properties.

(** ** An instance *)

#[local] Existing Instance Example_boot.sched_symbols.
#[local] Existing Instance Example_boot.mmu_symbols.
#[local] Existing Instance Example_boot.image.
#[local] Existing Instance log_console.

Lemma scheduler_bounds_witness :
  returns (boot_interrupted Example_window.board 128 id 4 9 ;;
           handle_all Example_window.board 128 [Ev_el1_irq; Ev_schedule; Ev_el0_sync 0x15 (Example_system.trap 4); Ev_spawn 0x82000])
    (λ _ s', 1 ≤ nr_running (rq (k_sched s')) ≤ 127) (loaded ∅ Example_boot.regs0 ([] : list (string * list karg))).
Proof.
  eapply returns_mono.
  { apply (scheduler_bounds Example_window.board 128 id (UartLive0:=window_live 127) Example_boot.regs0 ∅ [] 4 9);
      [exact (proj1 window_board)|right; exact (proj2 window_board)|by split|lia| |by vm_compute].
    repeat (apply list.Forall_cons; split; [done|]). by apply list.Forall_nil. }
  intros _ s' (_ & _ & queue & _ & _ & H). exact H.
Defined.
