(* ===== verification/Race.v ===== *)
(** * A thread creation that interrupts fall into

    do_fork looks for a free slot of the task table before it fills the slot, and does
    not keep the timer's interrupt from switching tasks in between.  Here it is run in
    two halves with events of the kernel between them. *)

From S2P Require Import Prelude Memory Mmio Format Printk PageAlloc KList Sched Fair Fork.
From S2P Require Import Uart Mmu Irq Gic Timer Syscall Traps Main System Window Bounds.

(** ** The code *)

Section code.
Context `{Hsym : !SchedSymbols} {C : Type} `{Hcon : !Console C} (fuel : nat).
Abbreviation F := (M (fork_state C)).

(** What the first half leaves in the local variables p and pid. *)
(** [kernel/fork.c:79-87] do_fork: up to copy_thread *)
Definition do_fork_begin : F (option (Z * Z)) :=
  p ← zoom get_free_page;
  if p =? 0 then mret None else
  zero_task_struct p ;;
  pid ← find_empty_task;
  if pid <? 0 then zoom (free_page p) ;; mret None else
  mret (Some (p, pid)).

(** [kernel/fork.c:89-110] do_fork: from copy_thread on *)
Definition do_fork_finish (clone_flags stack arg p pid : Z) : F Z :=
  failed ← copy_thread clone_flags p stack arg;
  if negb (failed =? 0) then zoom (free_page p) ;; mret (-1) else
  zoom (set_task p (with_state TASK_RUNNING)) ;;
  zoom (set_task p (with_pid pid)) ;;
  c ← zoom get_current; t ← zoom (task c);
  zoom (set_task p (with_counter (Z.shiftr (s32 (counter t + 1)) 1))) ;;
  zoom (set_task c (λ t, with_counter (Z.shiftr (counter t) 1) t)) ;;
  zoom (set_task p (with_need_resched 0)) ;;
  zoom (set_task p (with_preempt_count 0)) ;;
  zoom (set_task p (with_priority 2)) ;;
  modify (λ s, ForkState (f_sched s) (f_pages s) (f_regs s) (g_task s) (u64 (total_forks s + 1))) ;;
  modify (λ s, ForkState (f_sched s) (f_pages s) (f_regs s) (<[Z.to_nat pid := p]> (g_task s)) (total_forks s)) ;;
  zoom (SET_LINKS p) ;;
  zoom (wake_up_process fuel p) ;;
  mret pid.

(** Nothing in between, they are do_fork. *)
Lemma do_fork_halves clone_flags stack arg :
  do_fork fuel clone_flags stack arg
  ≡ (r ← do_fork_begin; match r with None => mret (-1) | Some (p, pid) => do_fork_finish clone_flags stack arg p pid end).
Proof.
  unfold do_fork, do_fork_begin. rewrite bind_assoc. apply bind_ext. intros p.
  destruct (p =? 0); [done|]. rewrite bind_assoc. apply bind_ext. intros u.
  rewrite bind_assoc. apply bind_ext. intros pid. destruct (pid <? 0); [|done].
  rewrite bind_assoc. by apply bind_ext.
Qed.
End code.

(** ** A page that is reserved

    A task structure keeps existing, with its pid, whatever the kernel does: no operation
    removes it, and only do_fork sets pids, in the structure it has just allocated. *)

Section owned.
Context `{Hsym : !SchedSymbols} {C : Type} `{Hcon : !Console C} (fuel : nat) (p n : Z).
Implicit Types (s : sched C).

Record owned s : Prop := {
  ow_task : ∃ t, tasks s !! p = Some t ∧ pid t = n;
  ow_node : is_Some (nodes s !! node_of p);
}.
Abbreviation I := owned.

Lemma kept_load_next a : keeps (λ h : heap, is_Some (h !! node_of p)) (load_next a) (λ _, True).
Proof. intros h v h' Hh. unfold load_next. by destruct (h !! a); intros [= <- <-]. Qed.
Lemma kept_load_prev a : keeps (λ h : heap, is_Some (h !! node_of p)) (load_prev a) (λ _, True).
Proof. intros h v h' Hh. unfold load_prev. by destruct (h !! a); intros [= <- <-]. Qed.
Lemma kept_insert (h : heap) a x : is_Some (h !! node_of p) → is_Some (<[a := x]> h !! node_of p).
Proof. intros Hh. apply lookup_insert_is_Some. destruct (decide (a = node_of p)); [by left|by right]. Qed.
Lemma kept_store_next a v : keeps (λ h : heap, is_Some (h !! node_of p)) (store_next a v) (λ _, True).
Proof. intros h u h' Hh. unfold store_next. destruct (h !! a); intros [= <- <-]. split; [by apply kept_insert|done]. Qed.
Lemma kept_store_prev a v : keeps (λ h : heap, is_Some (h !! node_of p)) (store_prev a v) (λ _, True).
Proof. intros h u h' Hh. unfold store_prev. destruct (h !! a); intros [= <- <-]. split; [by apply kept_insert|done]. Qed.
Hint Resolve kept_load_next kept_load_prev kept_store_next kept_store_prev : keeps.

Lemma kept_nodes {A} (m : M heap A) Q : keeps (λ h : heap, is_Some (h !! node_of p)) m Q → keeps I (zoom m) Q.
Proof. apply keeps_zoom; [by intros s []|by intros s t [] Ht; split]. Qed.
Hint Resolve kept_nodes : keeps.
Lemma kept_list_add new head : keeps I (zoom (list_add new head)) (λ _, True).
Proof. apply kept_nodes. unfold list_add, __list_add. keep. Qed.
Lemma kept_list_del entry : keeps I (zoom (list_del entry)) (λ _, True).
Proof. apply kept_nodes. unfold list_del, __list_del. keep. Qed.

Lemma kept_task q : keeps I (task q) (λ _, True).
Proof. intros s t s' Hs. unfold task. by destruct (tasks s !! q); intros [= <- <-]. Qed.
Lemma kept_set_task q f : q ≠ p ∨ (∀ t, pid (f t) = pid t) → keeps I (set_task q f) (λ _, True).
Proof.
  intros Hf s u s' [(t & Ht & Hn) Hnd]. unfold set_task. destruct (tasks s !! q); intros [= <- <-].
  split; [|done]. split; [|done]. cbn [tasks set_tasks]. rewrite lookup_alter. case_decide; [subst|by exists t].
  destruct Hf as [?|Hf]; [done|]. rewrite Ht. exists (f t). by rewrite Hf.
Qed.
Lemma kept_modify f : (∀ s, tasks (f s) = tasks s ∧ nodes (f s) = nodes s) → keeps I (modify f) (λ _, True).
Proof. intros Hf. apply keeps_modify. intros s []. destruct (Hf s) as [E1 E2]. split; [by rewrite E1|by rewrite E2]. Qed.
End owned.
#[export] Hint Resolve kept_list_add kept_list_del kept_task kept_load_next kept_nodes : keeps.
#[export] Hint Extern 2 (keeps (owned _ _) (set_task _ _) _) => apply kept_set_task; by right : keeps.
#[export] Hint Extern 2 (keeps (owned _ _) (modify _) _) => apply kept_modify; done : keeps.
#[export] Hint Extern 2 (keeps (owned _ _) (print _ _) _) => apply kept_modify; done : keeps.

Section owned_code.
Context `{Hsym : !SchedSymbols} {C : Type} `{Hcon : !Console C} (fuel : nat) (p n : Z).
Abbreviation I := (owned (C:=C) p n).

Lemma kept_get_current : keeps I get_current (λ _, True).
Proof. by apply keeps_gets. Qed.
Hint Resolve kept_get_current : keeps.
Lemma kept_enqueue q x : keeps I (enqueue_task fuel q x) (λ _, True).
Proof. unfold enqueue_task, nop_sched_class, class_enqueue_task, of_option, enqueue_task_nop. keep. Qed.
Lemma kept_dequeue q x : keeps I (dequeue_task fuel q x) (λ _, True).
Proof. unfold dequeue_task, nop_sched_class, class_dequeue_task, of_option, dequeue_task_nop. keep. Qed.
Lemma kept_tick : keeps I (tick_handle_periodic fuel) (λ _, True).
Proof. unfold tick_handle_periodic, task_tick, nop_sched_class, class_task_tick, of_option, task_tick_nop. keep. Qed.
Lemma kept_reset_score : keeps I (reset_score fuel) (λ _, True).
Proof. unfold reset_score. apply (keeps_loop _ (λ _, True)); [|done]. keep. Qed.
Lemma kept_list_for_each {A} head (body : A → Z → M (sched C) A) acc :
  (∀ acc pos, keeps I (body acc pos) (λ _, True)) → keeps I (list_for_each fuel head body acc) (λ _, True).
Proof. intros Hb. unfold list_for_each. keep. apply (keeps_loop _ (λ _, True)); [|done]. intros [] _. keep. Qed.
Hint Resolve kept_enqueue kept_dequeue kept_reset_score kept_list_for_each : keeps.
Lemma kept_pick_step acc pos : keeps I (pick_step acc pos) (λ _, True).
Proof. unfold pick_step, goodness. keep. Qed.
Hint Resolve kept_pick_step : keeps.
Lemma kept_pick_next q prev : keeps I (pick_next_task fuel q prev) (λ _, True).
Proof.
  unfold pick_next_task, nop_sched_class, class_pick_next_task, of_option, pick_next_task_nop. apply keeps_bind_ret.
  apply (keeps_loop _ (λ _, True)); [|done]. keep.
Qed.
Lemma kept_schedule_return caller : keeps I (schedule_return caller) (λ _, True).
Proof. unfold schedule_return, preempt_enable, preempt_sub, raw_local_irq_disable. destruct caller; keep. Qed.
Lemma kept_switch_to prev next caller : keeps I (switch_to prev next caller) (λ _, True).
Proof. unfold switch_to, cpu_switch_to. keep. Qed.
Hint Resolve kept_pick_next kept_schedule_return kept_switch_to : keeps.
Lemma kept_resume : keeps I __schedule_resume (λ _, True).
Proof. unfold __schedule_resume, schedule_tail, raw_local_irq_enable. keep. Qed.
Hint Resolve kept_resume : keeps.
Lemma kept___schedule caller : keeps I (__schedule fuel caller) (λ _, True).
Proof. unfold __schedule, schedule_debug, schedule_tail, raw_local_irq_enable, raw_local_irq_disable, clear_task_resched. keep. Qed.
Hint Resolve kept___schedule : keeps.
Lemma kept_schedule : keeps I (schedule fuel) (λ _, True).
Proof. unfold schedule, preempt_disable, preempt_enable, preempt_add, preempt_sub. keep. Qed.
Lemma kept_preempt_schedule_irq : keeps I (preempt_schedule_irq fuel) (λ _, True).
Proof.
  unfold preempt_schedule_irq, preempt_disable, preempt_enable, preempt_add, preempt_sub, raw_local_irq_enable, raw_local_irq_disable. keep.
Qed.
Hint Resolve kept_schedule kept_preempt_schedule_irq : keeps.
Lemma kept_el1_irq_exit : keeps I (el1_irq_exit fuel) (λ _, True).
Proof. unfold el1_irq_exit. keep. Qed.
Lemma kept_ret_to_user : keeps I (ret_to_user fuel) (λ _, True).
Proof. unfold ret_to_user, raw_local_irq_disable. keep. Qed.
Lemma kept_irq b : keeps I (__irq_enter ;; when b (tick_handle_periodic fuel) ;; __irq_exit) (λ _, True).
Proof. pose proof kept_tick. unfold __irq_enter, __irq_exit, preempt_add, preempt_sub. keep. Qed.
Lemma kept_timer_interrupts m : keeps I (timer_interrupts fuel m) (λ _, True).
Proof.
  pose proof kept_tick. pose proof kept_el1_irq_exit. unfold timer_interrupts, timer_interrupt, __irq_enter, __irq_exit, preempt_add, preempt_sub.
  induction m as [|m IH]; keep.
Qed.
Lemma kept_wake_up_process q : keeps I (wake_up_process fuel q) (λ _, True).
Proof. unfold wake_up_process. keep. Qed.
Lemma kept_SET_LINKS q : keeps I (SET_LINKS q) (λ _, True).
Proof. unfold SET_LINKS. keep. Qed.
End owned_code.

Section reserved.
Context `{Hsym : !SchedSymbols} {C : Type} `{Hcon : !Console C} (fuel : nat) (p : Z) (Hp : page_ok p).
Implicit Types (f : fork_state C).

(** A page that do_fork has allocated and cleared and that is in no table yet. *)
Record reserved f : Prop := {
  re_owned : owned p 0 (f_sched f);
  re_pages : pages_ok (f_pages f) ∧ page_used (f_pages f) p;
  re_table : p ∉ g_task f;
}.
Abbreviation I := reserved.

Lemma reserved_sched {A} (m : M (sched C) A) Q : keeps (owned p 0) m Q → keeps I (zoom m) Q.
Proof. apply keeps_zoom; [by intros s []|by intros s t [] Ht; split]. Qed.
Lemma reserved_alloc : keeps I (zoom get_free_page) (λ q, q = 0 ∨ page_ok q ∧ q ≠ p).
Proof.
  apply (keeps_zoom _ (λ s, pages_ok s ∧ page_used s p)); [by intros s []|by intros s t [] Ht; split|].
  intros s q s' [Hs Hu] E. destruct (decide (nr_free (mem_map s) = 0%nat)) as [Hz|Hnz].
  - rewrite get_free_page_none in E by done. injection E as <- <-. split; [done|by left].
  - destruct (get_free_page_spec s Hs ltac:(lia)) as (q' & s1 & E1 & H1 & H2 & H3 & H4 & _).
    rewrite E in E1. injection E1 as <- <-. split; [split; [done|apply H4; by right]|right]. split; [done|]. by intros ->.
Qed.
Lemma reserved_free q : page_ok q → q ≠ p → keeps I (zoom (free_page q)) (λ _, True).
Proof.
  intros Hq Hne. apply (keeps_zoom _ (λ s, pages_ok s ∧ page_used s p)); [by intros s []|by intros s t [] Ht; split|].
  intros s u s' [Hs [_ Hu]]. unfold free_page. destruct (_ <? _); intros [= <- <-]. split; [|done].
  split; [unfold pages_ok; cbn; by rewrite length_insert|]. split; [done|]. cbn [mem_map].
  destruct (page_address_index q Hq) as [_ Hi]. destruct (page_address_index p Hp) as [_ Hj].
  rewrite u64_id by (destruct Hq; page_lia). fold (page_index q).
  rewrite list_lookup_insert_ne; [done|]. intros Heq. apply Hne, page_index_inj; [done..|]. lia.
Qed.
Lemma reserved_load_regs a : keeps I (load_regs a) (λ _, True).
Proof. intros s r s' Hs. unfold load_regs. by destruct (f_regs s !! a); intros [= <- <-]. Qed.
Lemma reserved_store_regs a r : keeps I (store_regs a r) (λ _, True).
Proof. intros s u s' [] [= <- <-]. by split. Qed.
Lemma reserved_update_regs a g : keeps I (update_regs a g) (λ _, True).
Proof. eapply keeps_bind; [apply reserved_load_regs|]. intros. apply reserved_store_regs. Qed.
Lemma reserved_zero q : q ≠ p → keeps I (zero_task_struct q) (λ _, True).
Proof.
  intros Hq. unfold zero_task_struct, touch_page. apply (keeps_bind _ (λ _, True)); [destruct (q <? TOTAL_MEMORY); keep|].
  intros _ _. apply reserved_sched, keeps_modify. intros s [(t & Ht & Hn) Hnd]. split; cbn.
  - exists t. by rewrite lookup_insert_ne.
  - by apply kept_insert.
Qed.
Lemma reserved_find : keeps I find_empty_task (λ _, True).
Proof. by apply keeps_gets. Qed.
Lemma reserved_modify h : (∀ f, f_sched (h f) = f_sched f ∧ f_pages (h f) = f_pages f ∧ (p ∉ g_task f → p ∉ g_task (h f))) →
  keeps I (modify h) (λ _, True).
Proof. intros Hh. apply keeps_modify. intros s []. destruct (Hh s) as (E1 & E2 & E3). split; rewrite ?E1, ?E2; auto. Qed.
Lemma reserved_set_task q g : q ≠ p ∨ (∀ t, pid (g t) = pid t) → keeps I (zoom (set_task q g)) (λ _, True).
Proof. intros. by apply reserved_sched, kept_set_task. Qed.
End reserved.
#[export] Hint Resolve reserved_sched reserved_load_regs reserved_store_regs reserved_update_regs reserved_find kept_get_current : keeps.
#[export] Hint Resolve reserved_alloc reserved_free | 0 : keeps.
#[export] Hint Extern 2 (keeps (reserved _) (zoom (set_task _ _)) _) => apply reserved_set_task; first [by left | by right] : keeps.
#[export] Hint Extern 2 (keeps (reserved _) (modify _) _) => apply reserved_modify; done : keeps.

Section reserved_code.
Context `{Hsym : !SchedSymbols} {C : Type} `{Hcon : !Console C} (P : platform) (fuel : nat) (p : Z) (Hp : page_ok p).
Abbreviation I := (reserved (C:=C) p).

Lemma reserved_copy_thread flags q stack arg : q ≠ p → keeps I (copy_thread flags q stack arg) (λ _, True).
Proof. intros Hq. unfold copy_thread. keep. Qed.
Lemma insert_not_elem (l : list Z) i q : p ∉ l → q ≠ p → p ∉ <[i := q]> l.
Proof. intros Hl Hq. rewrite !list_elem_of_lookup in *. intros [j Hj]. apply list_lookup_insert_Some in Hj. naive_solver. Qed.
Lemma reserved_do_fork flags stack arg : keeps I (do_fork fuel flags stack arg) (λ _, True).
Proof.
  pose proof reserved_copy_thread. pose proof (kept_SET_LINKS (C:=C)). pose proof (kept_wake_up_process (C:=C)).
  unfold do_fork. eapply keeps_bind; [by apply reserved_alloc|]. intros q Hq. destruct (Z.eqb_spec q 0); [keep|].
  destruct Hq as [|[Hq Hne]]; [done|].
  eapply keeps_bind; [by apply reserved_zero|]. keep.
  apply reserved_modify. intros f. split; [done|]. split; [done|]. intros. by apply insert_not_elem.
Qed.
Hint Resolve reserved_do_fork : keeps.

Lemma reserved_table i : keeps I (table_at (syscall_table fuel) i) (λ fn, ∀ a, keeps I (fn a) (λ _, True)).
Proof.
  unfold table_at. destruct (i <? 0); [apply keeps_throw|].
  destruct (syscall_table fuel !! Z.to_nat i) as [fn|] eqn:E; [|apply keeps_throw]. apply keeps_ret.
  apply list_elem_of_lookup_2 in E. unfold syscall_table in E. intros a.
  repeat (apply elem_of_cons in E as [->|E]); [..|by apply elem_of_nil in E];
    unfold __arm64_sys_open, __arm64_sys_close, __arm64_sys_read, __arm64_sys_write, __arm64_sys_malloc; keep.
  unfold __arm64_sys_clone. keep.
Qed.
Lemma reserved_svc a : keeps I (el0_svc_handler fuel a) (λ _, True).
Proof.
  unfold el0_svc_handler, el0_syscall_common, invoke_syscall.
  eapply keeps_bind; [apply reserved_load_regs|]. intros r _.
  do 2 (eapply keeps_bind; [apply reserved_update_regs|]; intros _ _).
  apply (keeps_bind _ (λ _, True)); [|intros; apply reserved_update_regs].
  destruct (_ <? _); [|by apply keeps_ret]. eapply keeps_bind; [apply reserved_table|]. auto.
Qed.
Hint Resolve reserved_svc kept_ret_to_user : keeps.
Lemma reserved_el0_sync ec r : keeps I (el0_sync fuel ec r) (λ _, True).
Proof. unfold el0_sync, el0_svc, kernel_context_save. keep. Qed.
Lemma reserved_context_save r : keeps I (kernel_context_save r) (λ _, True).
Proof. unfold kernel_context_save. keep. Qed.

Definition k_reserved (s : kernel C) : Prop := I (lget s).

Lemma reserved_k_fork {A} (m : M (fork_state C) A) Q : keeps I m Q → keeps k_reserved (zoom m) Q.
Proof. apply keeps_zoom; [done|]. intros s t Hs Ht. unfold k_reserved. by rewrite lget_lput. Qed.
Lemma reserved_k_sched {A} (m : M (sched C) A) Q : keeps (owned p 0) m Q → keeps k_reserved (zoom m) Q.
Proof. apply keeps_zoom; [by intros s []|]. intros s t [] Ht. by split. Qed.
Lemma reserved_quiet {A} (k : M (kernel C) A) : quiet k → keeps k_reserved k (λ _, True).
Proof.
  intros Hk s a s' [[] ? ?] E. destruct (Hk s) as (a' & c & tr & E'). rewrite E in E'. injection E' as _ ->.
  split; [|done]. split; [by split|done..].
Qed.
Lemma reserved_irq s queue forked g s' :
  kernel_ok s queue forked g → k_reserved s →
  zoom (T:=machine pages C) (irq_handler (ArchIrqCode0:=kernel_arch_code P fuel)) s = Ret tt s' → k_reserved s'.
Proof.
  intros Hs Ht E.
  destruct (irq_handler_returns P fuel (lget s) g queue forked) as (tr & sc & b & E1 & _ & E2);
    [apply Hs|apply Hs|by eapply ok_task_runs|].
  rewrite (zoom_eq _ s tt _ E1) in E. injection E as <-.
  destruct Ht as [H1 H2 H3]. destruct (kept_irq fuel p 0 b _ _ _ H1 E2) as [H _]. by split.
Qed.
Lemma reserved_machine_exit : keeps k_reserved (zoom (T:=machine pages C) (zoom (T:=sched C) (el1_irq_exit fuel))) (λ _, True).
Proof.
  apply (keeps_zoom _ (λ m, owned p 0 (schd m) ∧ pages_ok (palloc m) ∧ page_used (palloc m) p));
    [by intros s []|by intros s m [] []; split|].
  apply (keeps_zoom _ (owned p 0)); [by intros m []|by intros m t []|]. apply kept_el1_irq_exit.
Qed.
Lemma reserved_spawn fn : keeps k_reserved (spawn fuel fn) (λ _, True).
Proof.
  unfold spawn, kernel_thread. eapply keeps_bind; [apply reserved_k_fork, reserved_do_fork|]. intros pid _.
  apply keeps_when, reserved_k_sched. keep.
Qed.

(** No event touches the reserved page. *)
Lemma handle_reserved s e s' : running s → k_reserved s → handle P fuel e s = Ret tt s' → k_reserved s'.
Proof.
  intros (queue & forked & g & Hs) Ht E. destruct e as [|r|ec r| |fn|loops name text]; cbn [handle] in *.
  - unfold k_el1_irq, el1_irq in E. apply zoom_seq_inv in E as ([] & s1 & E1 & E2).
    exact (proj1 (reserved_machine_exit s1 tt s' (reserved_irq s queue forked g s1 Hs Ht E1) E2)).
  - unfold el0_irq in E. apply bind_inv in E as ([] & s1 & E1 & E). apply bind_inv in E as ([] & s2 & E2 & E3).
    pose proof (proj1 (reserved_k_fork _ _ (reserved_context_save r) s tt s1 Ht E1)) as H1.
    destruct (save_event s queue forked g r Hs) as (u & x & Ex & Hx & _). rewrite E1 in Ex. injection Ex as <- <-.
    pose proof (reserved_irq s1 queue forked g s2 Hx H1 E2) as H2.
    exact (proj1 (reserved_k_sched _ _ (kept_ret_to_user fuel p 0) s2 tt s' H2 E3)).
  - exact (proj1 (reserved_k_fork _ _ (reserved_el0_sync ec r) s tt s' Ht E)).
  - exact (proj1 (reserved_k_sched _ _ (kept_schedule fuel p 0) s tt s' Ht E)).
  - exact (proj1 (reserved_spawn fn s tt s' Ht E)).
  - refine (proj1 (reserved_quiet (kernel_thread_round loops name text) _ s tt s' Ht E)).
    apply quiet_bind; [apply quiet_hw; by do 2 eexists|]. intros. apply quiet_kprintk.
Qed.

Lemma handle_all_reserved es s :
  (128 ≤ fuel)%nat → stocked (events_pages es) s → k_reserved s → Forall allowed es →
  ∃ s', handle_all P fuel es s = Ret tt s' ∧ running s' ∧ k_reserved s'.
Proof.
  intros Hf Hs Hr Hes. revert s Hs Hr. induction Hes as [|e es He _ IH]; intros s Hs Hr; [exists s; by destruct Hs|].
  destruct (handle_returns P fuel Hf s e (events_pages es) Hs He) as ([] & s1 & E & Hs1).
  destruct (IH s1 Hs1 (handle_reserved s e s1 (proj1 Hs) Hr E)) as (s' & E' & H). exists s'. split; [|done].
  cbn [handle_all]. by rewrite (bind_eq _ _ _ _ _ E).
Qed.
End reserved_code.

(** ** The two halves *)

Section halves.
Context `{Hsym : !SchedSymbols} {C : Type} `{Hcon : !Console C} (fuel : nat).
Implicit Types (f : fork_state C) (p : Z).

Lemma do_fork_begin_ok f queue forked i :
  fork_inv f queue forked → (0 < nr_mapped (f_pages f))%nat →
  find_free (map (λ a, negb (a =? 0)) (g_task f)) 0 = Some i →
  ∃ p f1, do_fork_begin f = Ret (Some (p, i)) f1 ∧ fork_inv f1 queue forked ∧ reserved p f1 ∧ page_ok p ∧
    ¬ page_used (f_pages f) p ∧ g_task f1 = g_task f ∧ current (f_sched f1) = current (f_sched f) ∧
    S (nr_mapped (f_pages f1)) = nr_mapped (f_pages f).
Proof.
  intros Hinv Hfree Hfind.
  destruct (do_fork_start f queue forked Hinv Hfree) as (p & pages' & E & Hpok & Hp & Hnu & Hu & Hnf & Hpn & Hpq & Hp0).
  set (sc := lput (<[node_of p := ListHead 0 0]> (nodes (f_sched f))) (set_tasks (<[p := zero_task]> (tasks (f_sched f))) (f_sched f))).
  set (f1 := ForkState sc pages' (f_regs f) (g_task f) (total_forks f)).
  assert (zoom get_free_page f = Ret p (lput pages' f)) as E0 by (unfold zoom; cbn; by rewrite E).
  assert (zero_task_struct p (lput pages' f) = Ret tt f1) as E1 by (by rewrite zero_task_struct_eq by apply Hp0).
  destruct (find_empty_task_eq f1 i Hfind) as (E2 & Hi & _).
  assert (task_runs sc queue forked) as Hsc by (apply scratch_task_runs; [apply Hinv|done..]).
  exists p, f1. split; [|split; [|split; [|repeat (split; [done|]); change (S (nr_mapped pages') = nr_mapped (f_pages f)); lia]]].
  - unfold do_fork_begin. rewrite (bind_eq _ _ _ _ _ E0), (proj2 (Z.eqb_neq p 0)) by lia.
    by rewrite (bind_eq _ _ _ _ _ E1), (bind_eq _ _ _ _ _ E2), (proj2 (Z.ltb_ge i 0)) by lia.
  - destruct Hinv. split; try done. intros q Hq. apply Hu. right. auto.
  - split; [split|split; [done|apply Hu; by left]|].
    + exists zero_task. split; [apply lookup_insert_eq|done].
    + exists (ListHead 0 0). apply lookup_insert_eq.
    + intros Hin. apply Hpn. rewrite <-(fi_tasks _ _ _ Hinv). apply list_elem_of_filter. split; [lia|exact Hin].
Qed.

(** The reserved page is no task's yet. *)
Lemma reserved_fresh f queue forked p :
  fork_inv f queue forked → reserved p f → page_ok p → p ∉ init_task :: forked ∧ node_of p ≠ g_ready_queue ∧ 0 < p.
Proof.
  intros Hinv Hr Hp. destruct (fi_layout _ _ _ Hinv). assert (LOW_MEMORY ≤ p) by (destruct Hp; lia). split; [|split].
  - rewrite <-(fi_tasks _ _ _ Hinv). intros [_ Hin]%list_elem_of_filter. exact (re_table _ _ Hr Hin).
  - unfold node_of, RUN_LIST, THREAD_CPU_CONTEXT. lia.
  - page_lia.
Qed.

(** The state the second half has built before SET_LINKS. *)
Lemma do_fork_finish_fills f clone_flags stack arg p x t i :
  Z.land clone_flags PF_KTHREAD ≠ 0 → p ≠ current (f_sched f) → tasks (f_sched f) !! p = Some x →
  tasks (f_sched f) !! current (f_sched f) = Some t →
  let y := TaskStruct TASK_RUNNING (flags x) i (fork_context stack arg p) (Z.shiftr (s32 (counter t + 1)) 1) 2 0 0
             (next_task x) (prev_task x) in
  do_fork_finish fuel clone_flags stack arg p i f
  = (zoom (SET_LINKS p) ;; zoom (wake_up_process fuel p) ;; mret i)
      (ForkState (set_tasks (<[p := y]> (alter halve_counter (current (f_sched f)) (tasks (f_sched f)))) (f_sched f))
         (f_pages f) (<[task_pt_regs p := set_pstate PSR_MODE_EL1h zero_regs]> (f_regs f))
         (<[Z.to_nat i := p]> (g_task f)) (u64 (total_forks f + 1))).
Proof.
  intros Hk Hcp Hx Ht y. set (c := current (f_sched f)) in *. set (ts := tasks (f_sched f)) in *.
  assert (do_fork_finish fuel clone_flags stack arg p i f
          = do_fork_finish fuel clone_flags stack arg p i (with_child p x ts f)) as ->.
  { unfold with_child, ts. rewrite insert_id by done. by destruct f as [[]]. }
  unfold do_fork_finish. rewrite (bind_eq _ _ _ _ _ (copy_thread_kernel clone_flags stack arg p x ts f Hk)). cbn [Z.eqb negb].
  set (s2 := with_frame _ _ f). rewrite !bind_set_child.
  assert (∀ z, zoom get_current (with_child p z ts s2) = Ret c (with_child p z ts s2)) as Hgc by done.
  rewrite (bind_eq _ _ _ _ _ (Hgc _)).
  assert (∀ z, zoom (task c) (with_child p z ts s2) = Ret t (with_child p z ts s2)) as Htc.
  { intros z. unfold zoom. cbn. rewrite (task_eq _ c t); [done|]. cbn. rewrite lookup_insert_ne by done. exact Ht. }
  rewrite (bind_eq _ _ _ _ _ (Htc _)). rewrite bind_set_child.
  rewrite (bind_set_other p _ ts s2 c t) by done. rewrite !bind_set_child. by rewrite !bind_modify.
Qed.

(** The second half makes the task, whatever has become of the slot in the meantime. *)
Lemma do_fork_finish_ok f queue forked clone_flags stack arg p i :
  fork_inv f queue forked → reserved p f → page_ok p → Z.land clone_flags PF_KTHREAD ≠ 0 → (length queue < 127)%nat →
  ∃ f', do_fork_finish fuel clone_flags stack arg p i f = Ret i f' ∧
    task_runs (f_sched f') (p :: queue) (forked ++ [p]) ∧ f_pages f' = f_pages f ∧
    g_task f' = <[Z.to_nat i := p]> (g_task f) ∧ current (f_sched f') = current (f_sched f) ∧
    (∃ t, tasks (f_sched f') !! p = Some t ∧ pid t = i ∧
          context t = CpuContext stack arg 0 0 0 0 0 0 0 0 0 (task_pt_regs p) ret_from_fork) ∧
    (∀ q, q ≠ p → pid <$> tasks (f_sched f') !! q = pid <$> tasks (f_sched f) !! q).
Proof.
  intros Hinv Hre Hpok Hk Hlen. destruct (reserved_fresh _ _ _ _ Hinv Hre Hpok) as (Hpn & Hpq & Hp0).
  destruct (re_owned _ _ Hre) as [(x & Hx & _) [n Hn]]. pose proof (fi_runs _ _ _ Hinv) as Hruns.
  pose proof (tr_inv _ _ _ Hruns) as Hs. destruct (inv_current_task _ _ _ Hs) as [t Ht].
  assert (p ≠ current (f_sched f)) as Hcp by (intros Heq; apply Hpn; rewrite Heq; apply Hs).
  assert (0 ≤ counter t < 2 ^ 31 - 1) as Hct by (apply (wf_counter (current (f_sched f))), (inv_tasks _ _ _ Hs); [apply Hs|done]).
  destruct (counter_halves (counter t) Hct) as (Hcnt & _ & _ & Hcnt' & _). rewrite <-Hcnt in Hcnt'.
  pose proof (halved_runs (f_sched f) queue forked Hruns) as Hruns1.
  rewrite (do_fork_finish_fills f clone_flags stack arg p x t i) by done.
  match goal with |- context [<[p := ?z]> (alter _ _ _)] => set (y := z) end.
  match goal with |- context [(zoom (SET_LINKS p) ≫= _) ?z] => set (f1 := z) end.
  destruct (link_and_wake fuel (f_sched f) (alter halve_counter (current (f_sched f)) (tasks (f_sched f))) queue forked p y n)
    as (sc' & Hlw & Hruns' & Hchild & Hother & Hregs & _); [done..|by vm_compute|done|done|].
  assert (lput (<[node_of p := n]> (nodes (f_sched f)))
            (set_tasks (<[p := y]> (alter halve_counter (current (f_sched f)) (tasks (f_sched f)))) (f_sched f)) = f_sched f1) as Hf1.
  { rewrite insert_id by done. done. }
  rewrite Hf1 in Hlw. exists (lput sc' f1).
  assert ((zoom (SET_LINKS p) ;; zoom (wake_up_process fuel p)) f1 = Ret tt (lput sc' f1)) as Hz by by apply zoom_seq.
  split; [by rewrite <-(bind_assoc (zoom (SET_LINKS p)) (λ _, zoom (wake_up_process fuel p)) (λ _, mret i) f1), (bind_eq _ _ _ _ _ Hz)|].
  split; [exact Hruns'|]. split; [done|]. split; [done|]. split; [cbn; unfold current; by rewrite Hregs|]. split.
  - cbn [f_sched lput lens_f_sched]. destruct (tasks sc' !! p) as [t'|]; [|done].
    exists t'. apply (inj Some) in Hchild. split; [done|].
    split; [exact (f_equal pid Hchild)|exact (f_equal context Hchild)].
  - intros q Hq. specialize (Hother q Hq). cbn [f_sched lput lens_f_sched]. revert Hother. rewrite lookup_alter.
    case_decide; [subst q|]; match goal with |- _ → pid <$> ?a = pid <$> ?b => destruct a, b end; cbn; try done;
      intros Hp'; apply (inj Some), (f_equal pid) in Hp'; by f_equal.
Qed.
End halves.

(** ** In the whole kernel *)

Section kernel.
Context `{Hsym : !SchedSymbols} {C : Type} `{Hcon : !Console C} (P : platform) (fuel : nat) (Hfuel : (128 ≤ fuel)%nat).
Implicit Types (s : kernel C).
Abbreviation K := (M (kernel C)).

(** kernel_thread's two halves, run by the task that called it. *)
(** [kernel/fork.c:123-126] kernel_thread *)
Definition kernel_thread_begin : K (option (Z * Z)) := zoom do_fork_begin.
Definition kernel_thread_finish (fn arg flags p pid : Z) : K Z :=
  zoom (do_fork_finish fuel (Z.lor flags PF_KTHREAD) fn arg p pid).

Lemma PF_KTHREAD_set a : Z.land (Z.lor a PF_KTHREAD) PF_KTHREAD ≠ 0.
Proof.
  intros H0. apply (f_equal (λ z, Z.testbit z 0)) in H0. rewrite Z.land_spec, Z.lor_spec, Z.bits_0 in H0.
  change (Z.testbit PF_KTHREAD 0) with true in H0. by rewrite orb_true_r in H0.
Qed.

Lemma begin_event s queue forked g i :
  kernel_ok s queue forked g → (0 < nr_mapped (k_pages s))%nat →
  find_free (map (λ a, negb (a =? 0)) (k_tasks s)) 0 = Some i →
  ∃ p s1, kernel_thread_begin s = Ret (Some (p, i)) s1 ∧ kernel_ok s1 queue forked g ∧ k_reserved p s1 ∧ page_ok p ∧
    ¬ page_used (k_pages s) p ∧ k_tasks s1 = k_tasks s ∧ current (k_sched s1) = current (k_sched s) ∧
    S (nr_mapped (k_pages s1)) = nr_mapped (k_pages s).
Proof.
  intros Hs Hfree Hfind.
  destruct (do_fork_begin_ok (lget s) queue forked i (ok_fork _ _ _ _ Hs) Hfree Hfind)
    as (p & f1 & E & H1 & H2 & H3 & H4 & H5 & H6 & H7).
  exists p, (lput f1 s). split; [by apply zoom_eq|]. split; [eapply ok_forked; [done..|by eapply ok_queue]|].
  split; [unfold k_reserved; by rewrite lget_lput|done].
Qed.

Lemma finish_event s queue forked g fn arg flags p i :
  kernel_ok s queue forked g → k_reserved p s → page_ok p → (length queue < 127)%nat →
  ∃ s', kernel_thread_finish fn arg flags p i s = Ret i s' ∧
    task_runs (k_sched s') (p :: queue) (forked ++ [p]) ∧ k_tasks s' = <[Z.to_nat i := p]> (k_tasks s) ∧
    (∃ t, tasks (k_sched s') !! p = Some t ∧ pid t = i ∧
          context t = CpuContext fn arg 0 0 0 0 0 0 0 0 0 (task_pt_regs p) ret_from_fork) ∧
    (∀ q, q ≠ p → pid <$> tasks (k_sched s') !! q = pid <$> tasks (k_sched s) !! q) ∧
    (k_tasks s !! Z.to_nat i = Some 0 → kernel_ok s' (p :: queue) (forked ++ [p]) g).
Proof.
  intros Hs Hr Hp Hl. pose proof (ok_fork _ _ _ _ Hs) as Hinv.
  destruct (reserved_fresh _ _ _ _ Hinv Hr Hp) as (Hpn & _ & Hp0).
  destruct (do_fork_finish_ok fuel (lget s) queue forked (Z.lor flags PF_KTHREAD) fn arg p i Hinv Hr Hp (PF_KTHREAD_set flags) Hl)
    as (f' & E & H1 & H2 & H3 & _ & H4 & H5).
  exists (lput f' s). split; [by apply zoom_eq|]. repeat (split; [done|]). intros Hi.
  eapply ok_forked; [done| |done]. destruct Hinv as [_ Hpg Hused Hlay Htab Hperm]. destruct Hr as [_ [_ Hu] _].
  split; [done|by rewrite H2| |done|by rewrite H3, length_insert|].
  - rewrite H2. intros q [Hq| ->%list_elem_of_singleton]%elem_of_app; [by apply Hused|done].
  - rewrite H3, filter_table by (done || lia). rewrite Hperm, (Permutation_app_comm forked [p]). apply Permutation_swap.
Qed.

Lemma slot_left s queue forked g i :
  kernel_ok s queue forked g → k_tasks s !! Z.to_nat i = Some 0 → (length forked < 127)%nat.
Proof.
  intros Hs Hi. destruct (find_free (map (λ a, negb (a =? 0)) (k_tasks s)) 0) as [j|] eqn:E.
  - exact (fork_inv_slot _ _ _ j (ok_fork _ _ _ _ Hs) E).
  - apply find_free_None in E. apply (Forall_lookup_1 _ _ (Z.to_nat i) false) in E; [done|].
    by rewrite list_lookup_fmap, Hi.
Qed.

(** The timer's interrupts until a task runs. *)
Lemma interrupts_until s queue forked g p b :
  kernel_ok s queue forked g → only_timer P g → page_ok p → k_reserved p s → b ∈ queue →
  ∃ n s', handle_all P fuel (replicate n Ev_el1_irq) s = Ret tt s' ∧ kernel_ok s' queue forked g ∧ k_reserved p s' ∧
    current (k_sched s') = b ∧ k_tasks s' = k_tasks s ∧ k_pages s' = k_pages s ∧
    ∀ q m, owned q m (k_sched s) → owned q m (k_sched s').
Proof.
  intros Hs Hg Hp Hr Hb. destruct (ok_lengths fuel Hfuel _ _ _ _ Hs) as [Hff Hfq].
  destruct (waits_at_most fuel queue forked b (k_sched s)) as (n & sc & _ & E & _ & Hc); [by eapply ok_task_runs|done..|].
  destruct (k_timer_interrupts P fuel n s queue forked g sc Hs Hg Hfuel E) as (s' & E' & Hl & Hs').
  destruct (handle_all_reserved P fuel p Hp (replicate n Ev_el1_irq) s Hfuel) as (x & Ex & _ & Hr');
    [rewrite irqs_no_pages; split; [by exists queue, forked, g|left; lia]|done|by apply Forall_replicate|]. rewrite E' in Ex. injection Ex as <-.
  exists n, s'. split; [done|]. split; [done|]. split; [done|]. split; [by rewrite <-Hc; exact (f_equal (current ∘ f_sched) Hl)|].
  split; [exact (f_equal g_task Hl)|]. split; [exact (f_equal f_pages Hl)|]. intros q m Hq.
  rewrite (f_equal f_sched Hl : k_sched s' = sc). exact (proj1 (kept_timer_interrupts fuel q m n _ _ _ Hq E)).
Qed.

(** A thread that is created meanwhile. *)
Lemma spawn_reserved s queue forked g p fn i :
  kernel_ok s queue forked g → page_ok p → k_reserved p s → (0 < nr_mapped (k_pages s))%nat →
  find_free (map (λ a, negb (a =? 0)) (k_tasks s)) 0 = Some i → (length forked < 127)%nat →
  ∃ q s', handle P fuel (Ev_spawn fn) s = Ret tt s' ∧ kernel_ok s' (q :: queue) (forked ++ [q]) g ∧ k_reserved p s' ∧
    q ≠ p ∧ q ∉ k_tasks s ∧ k_tasks s' = <[Z.to_nat i := q]> (k_tasks s) ∧ owned q i (k_sched s').
Proof.
  intros Hs Hp Hr Hfree Hfind Hl. pose proof (ok_fork _ _ _ _ Hs) as Hinv.
  destruct (fork_inv_lengths _ _ _ Hinv) as [_ Hlq].
  destruct (do_fork_kernel_ok fuel (lget s) queue forked (Z.lor 0 PF_KTHREAD) fn 0 i) as (q & f' & E & Hc & _);
    [done..|cbn in *; lia|apply PF_KTHREAD_set|].
  destruct Hc as (Hf' & Hq & Hqu & Hslot & Htab & (t & child & parent & _ & Hch & _ & Hpid & _) & _).
  destruct (find_empty_task_eq (C:=C) (lget s) i) as (_ & Hi & _); [exact Hfind|].
  assert (handle P fuel (Ev_spawn fn) s = Ret tt (lput f' s)) as Eh.
  { cbn [handle]. unfold spawn, kernel_thread. rewrite (bind_eq _ _ _ _ _ (zoom_eq _ s i f' E)).
    unfold when. by rewrite (proj2 (Z.ltb_ge i 0)) by lia. }
  exists q, (lput f' s). split; [done|]. split; [by eapply ok_forked|].
  split; [eapply handle_reserved; [done| |done|exact Eh]; by exists queue, forked, g|].
  split; [intros ->; apply Hqu; apply Hr|]. split; [|split; [done|]].
  - intros Hin. apply Hqu. destruct Hq as [Hq1 Hq2]. assert (q ∈ init_task :: forked) as Hin'.
    { rewrite <-(fi_tasks _ _ _ Hinv). apply list_elem_of_filter. split; [|done]. assert (0 < LOW_MEMORY) by done. lia. }
    apply elem_of_cons in Hin' as [->|Hin']; [|by apply (fi_used _ _ _ Hinv)].
    destruct (fi_layout _ _ _ Hinv). lia.
  - split; [by exists child|]. eapply ring_alloc; [apply Hf'|]. apply elem_of_cons. right. apply elem_of_cons. by left.
Qed.
End kernel.

(** ** Properties *)

Section properties.
Context `{Hsym : !SchedSymbols} {C : Type} `{Hcon : !Console C} (P : platform) (fuel : nat) (Hfuel : (128 ≤ fuel)%nat).
Implicit Types (s : kernel C).

(** C14 (safety): a thread creation that was interrupted between choosing its slot and
    filling it, by any events that ask for no more than the mapped pages left, still makes its thread as long as the slot is free when it
    goes on: the page and the structure it had set up are as it left them, no event has
    given the page to anyone else, and all the kernel's invariants hold before and after
    the second half. *)
Theorem interrupted_fork_completes s queue forked g i es fn arg flags :
  kernel_ok s queue forked g → (events_pages es < nr_mapped (k_pages s))%nat →
  find_free (map (λ a, negb (a =? 0)) (k_tasks s)) 0 = Some i → Forall allowed es →
  ∃ p s1 s2, kernel_thread_begin s = Ret (Some (p, i)) s1 ∧ handle_all P fuel es s1 = Ret tt s2 ∧ running s2 ∧
    (k_tasks s2 !! Z.to_nat i = Some 0 →
     ∃ s3, kernel_thread_finish fuel fn arg flags p i s2 = Ret i s3 ∧ running s3 ∧
       k_tasks s3 = <[Z.to_nat i := p]> (k_tasks s2) ∧
       ∃ t, tasks (k_sched s3) !! p = Some t ∧ pid t = i ∧
            context t = CpuContext fn arg 0 0 0 0 0 0 0 0 0 (task_pt_regs p) ret_from_fork).
Proof.
  intros Hs Hfree Hfind Hes. destruct (begin_event s queue forked g i Hs ltac:(lia) Hfind) as (p & s1 & E1 & Hs1 & Hr1 & Hp & _ & _ & _ & Hn).
  destruct (handle_all_reserved P fuel p Hp es s1 Hfuel) as (s2 & E2 & (queue2 & forked2 & g2 & Hs2) & Hr2);
    [split; [by exists queue, forked, g|left; lia]|done|done|].
  exists p, s1, s2. split; [done|]. split; [done|]. split; [by exists queue2, forked2, g2|]. intros Hi.
  pose proof (slot_left s2 queue2 forked2 g2 i Hs2 Hi). destruct (fork_inv_lengths _ _ _ (ok_fork _ _ _ _ Hs2)) as [_ Hlq].
  destruct (finish_event fuel Hfuel s2 queue2 forked2 g2 fn arg flags p i Hs2 Hr2 Hp ltac:(lia)) as (s3 & E3 & _ & Ht & Hch & _ & Hok).
  exists s3. split; [done|]. split; [|done]. exists (p :: queue2), (forked2 ++ [p]), g2. by apply Hok.
Qed.

(** C13 (error): do_fork does not keep the slot it has found.  When the timer switches from a
    task [a] inside kernel_thread to a task [b] that creates a thread of its own, and back,
    both threads get the slot and the pid: both are linked and runnable, the table has
    only one of them, and the state they are left in does not satisfy the invariant of
    the task table. *)
Theorem fork_race s queue forked g i a b fn fn' :
  kernel_ok s queue forked g → only_timer P g → (1 < nr_mapped (k_pages s))%nat →
  find_free (map (λ a, negb (a =? 0)) (k_tasks s)) 0 = Some i → (length forked < 126)%nat →
  current (k_sched s) = a → a ≠ b → a ∈ queue → b ∈ queue →
  ∃ p q n m s1 s2 s3 s4, kernel_thread_begin s = Ret (Some (p, i)) s1 ∧
    handle_all P fuel (replicate n Ev_el1_irq) s1 = Ret tt s2 ∧ current (k_sched s2) = b ∧
    handle_all P fuel (Ev_spawn fn' :: replicate m Ev_el1_irq) s2 = Ret tt s3 ∧ current (k_sched s3) = a ∧
    kernel_thread_finish fuel fn 0 0 p i s3 = Ret i s4 ∧
    task_runs (k_sched s4) (p :: q :: queue) (forked ++ [q; p]) ∧ p ≠ q ∧
    pid <$> tasks (k_sched s4) !! p = Some i ∧ pid <$> tasks (k_sched s4) !! q = Some i ∧
    q ∉ k_tasks s4 ∧ ¬ running s4.
Proof.
  intros Hs Hg Hfree Hfind Hl Ha _ Hina Hinb.
  destruct (begin_event s queue forked g i Hs ltac:(lia) Hfind) as (p & s1 & E1 & Hs1 & Hr1 & Hp & _ & Ht1 & _ & Hn1).
  destruct (interrupts_until P fuel Hfuel s1 queue forked g p b Hs1 Hg Hp Hr1 Hinb)
    as (n & s2 & E2 & Hs2 & Hr2 & Hb & Ht2 & Hp2 & _).
  destruct (spawn_reserved P fuel Hfuel s2 queue forked g p fn' i) as (q & s3 & E3 & Hs3 & Hr3 & Hqp & Hq & Ht3 & Ho3);
    [done..|rewrite Hp2; lia|by rewrite Ht2, Ht1|lia|].
  destruct (interrupts_until P fuel Hfuel s3 (q :: queue) (forked ++ [q]) g p a Hs3 Hg Hp Hr3) as (m & s4 & E4 & Hs4 & Hr4 & Hca & Ht4 & _ & Hk);
    [apply elem_of_cons; by right|].
  destruct (fork_inv_lengths _ _ _ (ok_fork _ _ _ _ Hs3)) as [_ Hlq]. rewrite length_app in Hlq. cbn in Hlq.
  destruct (finish_event fuel Hfuel s4 _ _ g fn 0 0 p i Hs4 Hr4 Hp) as (s5 & E5 & Hruns & Ht5 & (t & Hch & Hpid & _) & Hother & _);
    [cbn; lia|].
  rewrite <-app_assoc in Hruns.
  assert (k_tasks s5 = <[Z.to_nat i := p]> (k_tasks s)) as Htab by (by rewrite Ht5, Ht4, Ht3, list_insert_insert_eq, Ht2, Ht1).
  assert (q ∉ k_tasks s5) as Hnq by (rewrite Htab; rewrite Ht2, Ht1 in Hq; by apply insert_not_elem).
  exists p, q, n, m, s1, s2, s4, s5. do 3 (split; [done|]).
  split; [cbn [handle_all]; by rewrite (bind_eq _ _ _ _ _ E3)|]. do 4 (split; [done|]).
  split; [by rewrite Hch; cbn; rewrite Hpid|].
  split; [rewrite Hother by done; destruct (ow_task _ _ _ (Hk q i Ho3)) as (tq & -> & Hpq); cbn; by rewrite Hpq|].
  split; [done|]. intros (queue' & forked' & g' & Hs').
  pose proof (ok_fork _ _ _ _ Hs') as Hinv'.
  assert (forked' = forked ++ [q; p]) as ->.
  { eapply ring_unique; [exact (inv_links _ _ _ (tr_inv _ _ _ (fi_runs _ _ _ Hinv')))|exact (inv_links _ _ _ (tr_inv _ _ _ Hruns))]. }
  apply Hnq. assert (q ∈ filter (λ a, a ≠ 0) (k_tasks s5)) as Hin; [|by apply list_elem_of_filter in Hin as [_ ?]].
  rewrite (fi_tasks _ _ _ Hinv' : filter _ (k_tasks s5) ≡ₚ _). set_solver.
Qed.
End properties.

(** ** Instances *)

#[local] Existing Instance Example_sched.symbols.
#[local] Existing Instance log_console.

Module Example_race.
(** System.v's kernel a little later: the init task is put off inside schedule, and the
    first thread runs. *)
Definition put_off : task_struct :=
  TaskStruct TASK_RUNNING PF_KTHREAD 0 (CpuContext 0 0 0 0 0 0 0 0 0 0 0 0x80f00 0x2000) 6 20 0 1 0x400000 0x401000.
Definition ts : gmap Z task_struct := <[0x80000 := put_off]> Example_sched.ts.
Definition s1 : sched (list (string * list karg)) :=
  Sched ts Example_sched.heap (RunQueue 2 1 0x400000) (CpuContext 0x3000 0 0 0 0 0 0 0 0 0 0 0x400e00 0) false
    {[0x80000 := In_schedule]} [].

Lemma s1_tasks (Q : Z → task_struct → Prop) :
  Q 0x80000 put_off → Q 0x400000 (Example_sched.forked_task 1 13 0x400000 0x401000 0x80000) →
  Q 0x401000 (Example_sched.forked_task 2 7 0x401000 0x80000 0x400000) → ∀ p t, ts !! p = Some t → Q p t.
Proof.
  intros H1 H2 H3 p t Ht. unfold ts in Ht. apply lookup_insert_Some in Ht as [[<- <-]|[Hne Ht]]; [done|].
  revert p t Ht Hne. by refine (Example_sched.s0_tasks (λ p t, 0x80000 ≠ p → Q p t) _ _ _).
Qed.

Lemma s1_runs : task_runs s1 Example_sched.queue Example_sched.forked.
Proof.
  split; [split|refine (s1_tasks (λ _ t, state t = TASK_RUNNING) _ _ _); done|done].
  - split; [by_decision|]. cbn. unfold edge. repeat split.
  - done.
  - split; [by_decision|]. cbn. unfold edge. repeat split.
  - intros p Hp. unfold Example_sched.queue, Example_sched.forked in *. set_solver.
  - intros p t _; revert p t. refine (s1_tasks task_wf _ _ _); split; vm_compute; intuition congruence.
  - by_decision.
  - change (current s1) with 0x400000. intros p t _; revert p t.
    refine (s1_tasks (λ p t, p ≠ 0x400000 → suspended (frames s1) p t) _ _ _); intros Hne; [|done|split; [done|by left]].
    split; [by vm_compute|]. right. split; [done|]. split; [done|]. by eexists.
Qed.

Definition later : kernel (list (string * list karg)) := lput s1 Example_system.up.
Lemma later_ok : kernel_ok later Example_sched.queue Example_sched.forked Example_timer.gic1.
Proof. apply ok_sched; [exact Example_system.up_ok|exact s1_runs]. Qed.

(** Slot [k] of the task table after the first half of a creation and some events. *)
Definition slot_after (es : list event) (k : nat) : option Z :=
  match kernel_thread_begin Example_system.up with
  | Ret _ s1 => match handle_all Example_timer.board 128 es s1 with Ret _ s2 => k_tasks s2 !! k | _ => None end
  | _ => None
  end.
Lemma slot_after_is es k r (s1 s2 : kernel _) : kernel_thread_begin Example_system.up = Ret r s1 →
  handle_all Example_timer.board 128 es s1 = Ret tt s2 → k_tasks s2 !! k = slot_after es k.
Proof. unfold slot_after. by intros -> ->. Qed.
Lemma slot_kept : slot_after [Ev_el1_irq; Ev_schedule] 3 = Some 0.
Proof. by vm_compute. Qed.
End Example_race.

Lemma interrupted_fork_completes_witness :
  ∃ p s1 s2 s3, kernel_thread_begin Example_system.up = Ret (Some (p, 3)) s1 ∧
    handle_all Example_timer.board 128 [Ev_el1_irq; Ev_schedule] s1 = Ret tt s2 ∧
    kernel_thread_finish 128 0x82000 0 0 p 3 s2 = Ret 3 s3 ∧ running s3 ∧ k_tasks s3 !! 3%nat = Some p.
Proof.
  destruct (interrupted_fork_completes Example_timer.board 128 ltac:(lia) Example_system.up _ _ _ 3
              [Ev_el1_irq; Ev_schedule] 0x82000 0 0 Example_system.up_ok)
    as (p & s1 & s2 & E1 & E2 & _ & H); [by apply Nat.ltb_lt; vm_compute|by vm_compute| |].
  - repeat (apply list.Forall_cons; split; [done|]). by apply list.Forall_nil.
  - assert (k_tasks s2 !! 3%nat = Some 0) as Hfree.
    { rewrite (Example_race.slot_after_is _ _ _ _ _ E1 E2). exact Example_race.slot_kept. }
    destruct (H Hfree) as (s3 & E3 & H3 & Ht & _). exists p, s1, s2, s3.
    split_and!; [done..|]. rewrite Ht. apply list_lookup_insert_eq, (lookup_lt_Some _ _ _ Hfree).
Defined.

Lemma fork_race_witness :
  ∃ p q s4, p ≠ q ∧ pid <$> tasks (k_sched (s4 : kernel (list (string * list karg)))) !! p = Some 3 ∧
    pid <$> tasks (k_sched s4) !! q = Some 3 ∧ ¬ running s4.
Proof.
  destruct (fork_race Example_timer.board 128 ltac:(lia) Example_race.later _ _ _ 3 0x400000 0x401000 0x82000 0x82100
              Example_race.later_ok)
    as (p & q & n & m & s1 & s2 & s3 & s4 & _ & _ & _ & _ & _ & _ & _ & H1 & H2 & H3 & _ & H4);
    [by intros tr|by apply Nat.ltb_lt; vm_compute|by vm_compute|by apply Nat.ltb_lt; vm_compute|reflexivity|done| | |].
  - by_decision.
  - by_decision.
  - by exists p, q, s4.
Defined.
