(* ===== verification/User.v ===== *)
(** * User programs

    usr/user_syscall.c, and user_thread with the program it starts (init/main.c): what a
    user program does, the kernel does for it, and the memory map lets it do.  An
    exception of user code is System.v's el0_sync; the registers user code goes on with
    are those of its frame. *)

From S2P Require Import Prelude Memory Mmio Uart Format Printk PageAlloc KList Sched Fork.
From S2P Require Import PgTable Mmu Access Irq Gic Timer Syscall Traps Main System.

(** ** The code *)

Definition set_all_gregs (x : list Z) (r : pt_regs) : pt_regs :=
  PtRegs x (regs_sp r) (regs_pc r) (pstate r) (orig_x0 r) (syscallno r)
    (unused2 r) (orig_addr_limit r) (unused r) (stackframe r).

Section user.
Context {C : Type} `{Hcon : !Console C} `{Hsym : !SchedSymbols} `{Himg : !ImageSymbols}.
Context (P : platform) (fuel : nat).
Abbreviation K := (M (kernel C)).
Abbreviation F := (M (fork_state C)).

(** An exception of user code with the registers [r], up to the return to user code:
    kernel_context_res 0 loads the registers from the frame. *)
(** [arch/arm64/kernel/entry.S:138-169] kernel_context_res *)
Definition user_exception (ec : Z) (r : pt_regs) : F pt_regs :=
  c ← zoom get_current;
  el0_sync fuel ec r ;;
  load_regs (task_pt_regs c).

(** [usr/user_syscall.c:15-18] my_malloc, called with the registers [r] *)
Definition my_malloc (r : pt_regs) : F Z :=
  r ← user_exception ESR_ELx_EC_SVC64 (set_all_gregs (syscall_stub (<[0%nat := u64 __NR_malloc]> (gregs r))) r);
  mret (greg 0 r).

(** [init/main.c:121-133] run_user_thread, entered with the registers [r]; the endless
    loop runs as long as there is fuel *)
Definition run_user_thread_body (r : pt_regs) : K unit :=
  child_stack ← zoom (my_malloc r);
  loop fuel (λ my_local_var,
    zoom (delay 50000) ;;
    mret (inl (s32 (my_local_var + 1)))) 0.

(** A kernel thread from its function on: it runs, and when it returns ret_from_fork
    goes on to ret_to_user. *)
(** [arch/arm64/kernel/entry.S:312-319] ret_from_fork *)
Definition thread_to_user (body : K Z) : K unit :=
  body ;; zoom (T:=sched C) (ret_to_user fuel).
End user.

(** ** Lemmas *)

(** *** Events leave memory alone *)

Section memory.
Context {C : Type} `{Hcon : !Console C} `{Hsym : !SchedSymbols}.

(** A computation that does not write memory; the page tables, which are in memory, are
    then as they were. *)
Class KeepsMem {A} (k : M (kernel C) A) : Prop :=
  keeps_mem : ∀ s a s', k s = Ret a s' → k_mem s' = k_mem s.

#[export] Instance km_ret {A} (a : A) : KeepsMem (mret a).
Proof. by intros s b s' [= _ ->]. Qed.
#[export] Instance km_skip : KeepsMem skip.
Proof. apply km_ret. Qed.
#[export] Instance km_bind {A B} (m : M (kernel C) A) (k : A → M (kernel C) B) :
  KeepsMem m → (∀ a, KeepsMem (k a)) → KeepsMem (m ≫= k).
Proof. intros Hm Hk s b s2 (a & s1 & E1 & E2)%bind_inv. rewrite (Hk a s1 b s2 E2). by eapply Hm. Qed.
#[export] Instance km_when b (m : M (kernel C) unit) : KeepsMem m → KeepsMem (when b m).
Proof. intros Hm. unfold when. destruct b; [done|apply km_skip]. Qed.

(** Components whose state does not hold memory. *)
Lemma km_zoom {T A} `{!Lens (kernel C) T} (m : M T A) :
  (∀ t s, k_mem (lput t s) = k_mem s) → KeepsMem (zoom m).
Proof. intros Hl s a s' (t & _ & ->)%zoom_inv. apply Hl. Qed.
#[export] Instance km_machine {A} (m : M (machine pages C) A) : KeepsMem (zoom m).
Proof. by apply km_zoom. Qed.
#[export] Instance km_fork {A} (m : M (fork_state C) A) : KeepsMem (zoom m).
Proof. by apply km_zoom. Qed.
#[export] Instance km_sched {A} (m : M (sched C) A) : KeepsMem (zoom m).
Proof. by apply km_zoom. Qed.
#[export] Instance km_hw {A} (m : M trace A) : KeepsMem (zoom m).
Proof. by apply km_zoom. Qed.

Context (P : platform) (fuel : nat).

#[export] Instance km_handle e : KeepsMem (handle P fuel e).
Proof.
  destruct e; cbn [handle]; unfold k_el1_irq, el0_irq, spawn, kernel_thread_round, kprintk; apply _.
Qed.

#[export] Instance km_handle_all es : KeepsMem (handle_all P fuel es).
Proof. induction es as [|e es IH]; cbn [handle_all]; apply _. Qed.
End memory.

(** *** Exceptions of user code *)

Section exceptions.
Context {C : Type} `{Hcon : !Console C} `{Hsym : !SchedSymbols}.
Context (fuel : nat) (Hfuel : (128 ≤ fuel)%nat).
Implicit Types (f : fork_state C).

(** User code goes on with the registers the system call left in its frame. *)
Lemma user_exception_eq f f' ec r r' queue forked :
  let a := task_pt_regs (current (f_sched f)) in
  el0_svc_handler fuel a (put_regs a r f) = Ret tt f' → fork_inv f' queue forked → queue ≠ [] →
  f_regs f' !! a = Some r' →
  ∃ sc : sched C, user_exception fuel ec r f = Ret r' (lput sc f') ∧ fork_inv (lput sc f') queue forked.
Proof.
  intros a E Hf Hne Hr. destruct (el0_sync_eq fuel Hfuel f f' ec r queue forked E Hf Hne) as (sc & E1 & H1).
  exists sc. split; [|done]. unfold user_exception.
  rewrite (bind_eq _ _ f (current (f_sched f)) f) by (by destruct f). rewrite (bind_eq _ _ _ _ _ E1).
  by apply load_regs_eq.
Qed.

(** An exception whose number is not that of clone: the result is in x0 and nothing else
    of the registers changes. *)
Lemma user_exception_result f queue forked ec r no :
  fork_inv f queue forked → queue ≠ [] → s32 (greg 8 r) = no → no ≠ __NR_clone → 0 ≤ no →
  ∃ ret f',
    user_exception fuel ec r f = Ret (set_gregs 0 (u64 ret) (entered no r)) f' ∧
    f_regs f' !! task_pt_regs (current (f_sched f)) = Some (set_gregs 0 (u64 ret) (entered no r)) ∧
    fork_inv f' queue forked ∧
    if decide (no = __NR_malloc ∧ nr_free (mem_map (f_pages f)) ≠ 0%nat) then
      page_ok ret ∧ ¬ page_used (f_pages f) ret ∧ page_used (f_pages f') ret
    else ret = -1 ∧ f_pages f' = f_pages f.
Proof.
  intros Hf Hne Hno Hc Hpos. set (a := task_pt_regs (current (f_sched f))).
  pose proof (put_regs_inv a r f queue forked Hf) as Hf1.
  destruct (el0_svc_handler_result fuel (put_regs a r f) a r no (lookup_insert_eq _ _ _) Hno Hc Hpos (fi_pages _ _ _ Hf))
    as (ret & pages' & E & Hpg & Hus & Hret).
  assert (fork_inv (ForkState (f_sched f) pages' (<[a := set_gregs 0 (u64 ret) (entered no r)]> (f_regs (put_regs a r f)))
                       (g_task f) (total_forks f)) queue forked) as Hf2 by (destruct Hf1; split; eauto).
  destruct (user_exception_eq f _ ec r _ queue forked E Hf2 Hne (lookup_insert_eq _ _ _)) as (sc & E1 & H1).
  exists ret, (lput sc (ForkState (f_sched f) pages' (<[a := set_gregs 0 (u64 ret) (entered no r)]> (f_regs (put_regs a r f)))
                          (g_task f) (total_forks f))).
  split; [exact E1|]. split; [apply lookup_insert_eq|]. split; [exact H1|exact Hret].
Qed.

Lemma greg_result no v r : gregs r ≠ [] → greg 0 (set_gregs 0 v (entered no r)) = v.
Proof. unfold greg; cbn. by destruct (gregs r). Qed.

(** The registers of my_malloc's system call. *)
Lemma syscall_stub_length x : length (syscall_stub x) = length x.
Proof. unfold syscall_stub. by rewrite !length_insert. Qed.
Lemma my_malloc_number x : length x = 31%nat → s32 (nth 8 (syscall_stub (<[0%nat := u64 __NR_malloc]> x)) 0) = __NR_malloc.
Proof. intros H. do 31 (destruct x as [|? x]; [done|]). done. Qed.
End exceptions.

(** ** Properties *)

(** The task [c] is in user space with the registers [r], at the first instruction of
    run_user_thread, which the memory map does not let it fetch. *)
Record stuck `{!MmuSymbols, !ImageSymbols} {C} (s : kernel C) (c : Z) (r : pt_regs) : Prop := {
  st_frame : k_regs s !! task_pt_regs c = Some r;
  st_pc : regs_pc r = run_user_thread;
  st_x8 : s32 (greg 8 r) = 0;
  st_fetch : mem_access (k_mem s) idmap_pgd_dir EL0 Fetches (regs_pc r) = None;
}.

Section properties.
Context {C : Type} `{Hcon : !Console C} `{Hsym : !SchedSymbols} `{Hmmu : !MmuSymbols} `{Himg : !ImageSymbols}.
Context (P : platform) (fuel : nat).
Implicit Types (s : kernel C).

(** user_thread leaves a frame that enters run_user_thread with zero registers. *)
Lemma user_thread_enters queue forked g s :
  kernel_ok s queue forked g → (0 < nr_mapped (k_pages s))%nat →
  returns (user_thread P) (λ _ s1, kernel_ok s1 queue forked g ∧ k_mem s1 = k_mem s ∧
    ∃ r, k_regs s1 !! task_pt_regs (current (k_sched s)) = Some r ∧ regs_pc r = run_user_thread ∧ s32 (greg 8 r) = 0) s.
Proof.
  intros Hs Hfree. unfold user_thread.
  eapply returns_seq; [apply (quiet_event _ s queue forked g); [apply quiet_read|done]|].
  intros el s1 (Hs1 & c1 & tr1 & ->).
  eapply returns_seq; [apply (quiet_event _ _ queue forked g); [apply quiet_kprintk|done]|].
  intros ? s2 (Hs2 & c2 & tr2 & ->). rewrite with_io_twice in *.
  set (s2 := with_io c2 tr2 s) in *. apply returns_bind, returns_zoom.
  destruct (move_to_user_space_frame (lget s2 : fork_state C) run_user_thread (fi_pages _ _ _ (ok_fork _ _ _ _ Hs2)) (or_introl Hfree))
    as (ret & f & E & _ & Hinv & Hf).
  pose proof (nr_mapped_free (k_pages s)). change (f_pages (lget s2)) with (k_pages s) in Hf. rewrite decide_False in Hf by lia. destruct Hf as (-> & stack & _ & _ & _ & Hregs).
  eapply returns_ret; [exact E|]. apply returns_mret.
  split; [apply (ok_forked s2 queue forked g f); [done|apply Hinv, Hs2|by eapply ok_queue]|]. split; [done|].
  eexists. split; [cbn [k_regs lput lens_k_fork]; rewrite Hregs; apply lookup_insert_eq|]. done.
Qed.

(** C4 (safety): from the boot on, through any sequence of events that asks for no more pages
    than are left below the end of memory, the page tables let the kernel execute and read
    its text, read and write its data and its devices, and nothing else; no address can be
    both written and executed; and user code can neither read, write nor execute anything,
    so no user program can touch the kernel's memory (nor, in fact, run a single
    instruction).  Events write task structures, stacks and frames, which the model keeps
    apart from the memory of the tables: they are in pages of the allocator that are not
    tables. *)
Theorem kernel_memory_isolated `{!UartLive P fuel} (init_printk_done : C → C) r m c es :
  bootable P r → (128 ≤ fuel)%nat → Forall allowed es → Z.of_nat (events_pages es) ≤ PAGES_LEFT →
  returns (boot P fuel init_printk_done ;; handle_all P fuel es)
    (λ _ s', ∀ e a va, 0 ≤ va < 2 ^ 48 →
       mem_access (k_mem s') idmap_pgd_dir e a va = kernel_access e a va ∧
       ∀ e', is_Some (mem_access (k_mem s') idmap_pgd_dir e Stores va) →
             mem_access (k_mem s') idmap_pgd_dir e' Fetches va = None)
    (loaded m r c).
Proof.
  intros Hb Hf Hes Hp. eapply returns_seq; [by apply boot_stages_ok|]. intros _ s (p1 & p2 & Hs).
  destruct (handle_all_returns P fuel Hf s es 0) as ([] & s' & E & _); [apply (kernel_up_stocked p1 p2); [done|lia]|done|].
  eapply returns_ret; [exact E|]. intros e a va Hva.
  assert (∀ e a, mem_access (k_mem s') idmap_pgd_dir e a va = kernel_access e a va) as Hacc.
  { intros. apply kernel_map_access. rewrite (keeps_mem _ _ _ E). by apply (ku_mapped _ _ _ Hs). }
  split; [done|]. intros e'. rewrite !Hacc. apply kernel_access_w_xor_x.
Qed.

(** C18 (functional): my_malloc, from the registers of the user's call through the system
    call and back, returns the address of a page nobody used and that is now in use, or
    2^64-1, not a null pointer, when there is none; but the page is the kernel's own mapping
    of it: user code cannot access any byte of the memory it was given. *)
Theorem my_malloc_page s queue forked g r :
  kernel_ok s queue forked g → mapped (k_mem s) → (128 ≤ fuel)%nat → length (gregs r) = 31%nat →
  returns (zoom (T:=fork_state C) (my_malloc fuel r)) (λ p s', running s' ∧
    if decide (nr_free (mem_map (k_pages s)) = 0%nat) then p = 2 ^ 64 - 1 ∧ k_pages s' = k_pages s
    else page_ok p ∧ ¬ page_used (k_pages s) p ∧ page_used (k_pages s') p ∧
         ∀ a va, p ≤ va < p + PAGE_SIZE → mem_access (k_mem s') idmap_pgd_dir EL0 a va = None) s.
Proof.
  intros Hs Hm Hfuel Hlen. apply returns_zoom. set (f := lget s : fork_state C).
  set (r1 := set_all_gregs (syscall_stub (<[0%nat := u64 __NR_malloc]> (gregs r))) r).
  destruct (user_exception_result fuel Hfuel f queue forked ESR_ELx_EC_SVC64 r1 __NR_malloc)
    as (ret & f' & E & _ & Hf' & Hret);
    [apply Hs|by eapply ok_queue|by apply my_malloc_number|done|done|].
  apply (returns_ret _ _ _ (u64 ret) f').
  { unfold my_malloc. rewrite (bind_eq _ _ _ _ _ E). rewrite greg_result; [done|].
    intros H0%(f_equal length). cbn in H0. rewrite syscall_stub_length, length_insert, Hlen in H0. done. }
  split; [exists queue, forked, g; apply (ok_forked s queue forked g f'); [done..|by eapply ok_queue]|].
  change (f_pages f) with (k_pages s) in Hret. change (f_pages f') with (k_pages (lput f' s)) in Hret.
  destruct (decide (nr_free (mem_map (k_pages s)) = 0%nat)) as [H0|H0].
  - rewrite decide_False in Hret by tauto. destruct Hret as [-> ->]. done.
  - rewrite decide_True in Hret by tauto. destruct Hret as (Hp & Hu & Hu').
    rewrite u64_id by (destruct Hp; page_lia). split; [done|]. split; [done|]. split; [done|].
    intros a va Hva. rewrite (kernel_map_access _ EL0 a va); [done|]. apply Hm. destruct Hp; page_lia.
Qed.

(** C30 (error): a thread that enters user space with user_thread never executes an
    instruction of its program: the function it is sent to is in the kernel's text, which
    user code may not fetch, and each abort is taken for system call 0 (x8 is zero in a fresh
    frame), answered -1, and returned from to the same instruction. *)
Theorem user_thread_makes_no_progress ec s queue forked g :
  kernel_ok s queue forked g → mapped (k_mem s) → (128 ≤ fuel)%nat →
  (0 < nr_mapped (k_pages s))%nat → 0 ≤ run_user_thread < 2 ^ 48 →
  returns (thread_to_user fuel (user_thread P)) (λ _ s1,
    running s1 ∧ mapped (k_mem s1) ∧ ∃ r, stuck s1 (current (k_sched s)) r) s ∧
  ∀ r, stuck s (current (k_sched s)) r →
    returns (zoom (T:=fork_state C) (user_exception fuel ec r)) (λ r' s1,
      running s1 ∧ mapped (k_mem s1) ∧ stuck s1 (current (k_sched s)) r') s.
Proof.
  intros Hs Hm Hfuel Hfree Hpc. set (c := current (k_sched s)).
  assert (mem_access (k_mem s) idmap_pgd_dir EL0 Fetches run_user_thread = None) as Hno
    by (rewrite (kernel_map_access _ EL0 Fetches run_user_thread); [done|by apply Hm]).
  split.
  - unfold thread_to_user. eapply returns_seq; [by apply (user_thread_enters queue forked g)|].
    intros ret s1 (Hs1 & Hm1 & r & Hr & Hpc1 & H8). destruct (ok_lengths fuel Hfuel _ _ _ _ Hs1) as [Hff Hfq].
    destruct (ret_to_user_ok fuel (k_sched s1) queue forked) as (sc & E & H & _);
      [by eapply ok_task_runs|by eapply ok_queue|done|done|].
    apply returns_zoom. eapply returns_ret; [exact E|].
    split; [exists queue, forked, g; by apply ok_sched|].
    change (k_mem (lput sc s1)) with (k_mem s1). rewrite Hm1. split; [done|]. exists r.
    split; [exact Hr|done|done|]. cbn [k_mem lput lens_k_sched]. by rewrite Hm1, Hpc1.
  - intros r [H1 H2 H3 H4]. apply returns_zoom. set (f := lget s : fork_state C).
    destruct (user_exception_result fuel Hfuel f queue forked ec r 0)
      as (ret & f' & E & Hr & Hf' & _); [apply Hs|by eapply ok_queue|done..|].
    eapply returns_ret; [exact E|].
    split; [exists queue, forked, g; apply (ok_forked s queue forked g f'); [done..|by eapply ok_queue]|].
    split; [exact Hm|]. split; [exact Hr|exact H2| |].
    + unfold greg in *. cbn. by destruct (gregs r).
    + cbn [regs_pc set_gregs entered set_syscallno set_orig_x0]. by rewrite H2.
Qed.
End properties.

(** ** Instances *)

Module Example_user.
(** Example_system's running kernel, with the tables paging_init builds in memory. *)
Definition up (m : memory) : kernel (list (string * list karg)) :=
  Kernel (k_irqs Example_system.up) (k_gic Example_system.up) (k_rate Example_system.up) (k_hw Example_system.up) m
    (k_pages Example_system.up) (k_sched Example_system.up) (k_regs Example_system.up) (k_tasks Example_system.up)
    (k_forks Example_system.up).

Lemma user_up_ok m : kernel_ok (Hsym:=Example_sched.symbols) (up m) Example_sched.queue Example_sched.forked Example_timer.gic1.
Proof. destruct Example_system.up_ok as [Hf Hq [] Hh]. by split. Qed.

Lemma tables : ∃ m, mapped (H:=Example_mmu.symbols) m.
Proof.
  destruct (paging_init_ok (H:=Example_mmu.symbols) (Console0:=log_console) Example_mmu.board Example_mmu.boot [] Example_mmu.layout)
    as (s & _ & _ & _ & Hmap & _).
  - apply pages_boot_ok.
  - rewrite Example_mmu.boot_avail. lia.
  - exists (mem s). exact Hmap.
Qed.

Lemma up_mapped m : (0 < nr_mapped (k_pages (up m)))%nat.
Proof. apply Nat.ltb_lt. by vm_compute. Qed.
Lemma up_free m : nr_free (mem_map (k_pages (up m))) ≠ 0%nat.
Proof.
  change (nr_free (mem_map (first_used 2)) ≠ 0%nat). intros [_ H]%nr_free_0%Forall_app.
  rewrite Forall_lookup in H. specialize (H 0%nat false). discriminate H.
  apply lookup_replicate_2. assert (2 < NR_PAGES) by (by vm_compute). lia.
Qed.
End Example_user.

#[local] Existing Instance log_console.

Section booted.
#[local] Existing Instance Example_boot.sched_symbols.
#[local] Existing Instance Example_boot.mmu_symbols.
#[local] Existing Instance Example_boot.image.

Lemma kernel_memory_isolated_witness :
  returns (boot Example_boot.board 128 id ;;
           handle_all Example_boot.board 128 [Ev_el1_irq; Ev_el0_sync 0x24 (Example_system.trap 99)])
    (λ _ s', mem_access (k_mem s') 0x8c000 EL1 Fetches 0x82000 = Some 0x82000 ∧
             mem_access (k_mem s') 0x8c000 EL1 Stores 0x82000 = None ∧
             mem_access (k_mem s') 0x8c000 EL0 Loads 0x400000 = None)
    (loaded ∅ Example_boot.regs0 ([] : list (string * list karg))).
Proof.
  eapply returns_mono.
  - apply (kernel_memory_isolated Example_boot.board 128 (UartLive0:=board_live 127)); [exact board_bootable|lia| |by vm_compute].
    repeat (apply list.Forall_cons; split; [done|]). by apply list.Forall_nil.
  - intros ? s' H. cbn beta in H. split; [|split].
    + exact (proj1 (H EL1 Fetches 0x82000 ltac:(lia))).
    + exact (proj1 (H EL1 Stores 0x82000 ltac:(lia))).
    + exact (proj1 (H EL0 Loads 0x400000 ltac:(lia))).
Defined.
End booted.

#[local] Existing Instance Example_sched.symbols.
#[local] Existing Instance Example_mmu.symbols.

Lemma my_malloc_page_witness :
  ∃ m p s', zoom (T:=fork_state _) (my_malloc 128 (Example_system.trap 7)) (Example_user.up m) = Ret p s' ∧
    page_ok p ∧ page_used (k_pages s') p ∧ mem_access (k_mem s') 0x86000 EL0 Stores p = None.
Proof.
  destruct Example_user.tables as [m Hm].
  destruct (my_malloc_page 128 (Example_user.up m) _ _ _ (Example_system.trap 7) (Example_user.user_up_ok m) Hm)
    as (p & s' & E & _ & H); [lia|reflexivity|].
  rewrite decide_False in H by apply Example_user.up_free. destruct H as (H1 & _ & H2 & H3).
  exists m, p, s'. split; [exact E|]. split; [exact H1|]. split; [exact H2|]. apply H3. page_lia.
Defined.

Lemma user_thread_makes_no_progress_witness :
  ∃ m, mapped m ∧
    returns (thread_to_user 128 (user_thread (Himg:=Example_boot.image) Example_timer.board))
      (λ _ s1, ∃ r, stuck (H0:=Example_boot.image) s1 (current Example_sched.s0) r) (Example_user.up m).
Proof.
  destruct Example_user.tables as [m Hm]. exists m. split; [exact Hm|].
  destruct (user_thread_makes_no_progress (Himg:=Example_boot.image) Example_timer.board 128 0x20 (Example_user.up m) _ _ _
    (Example_user.user_up_ok m) Hm) as [H _]; [lia|apply Example_user.up_mapped|cbn; lia|].
  eapply returns_mono; [exact H|]. intros _ s1 (_ & _ & Hr). exact Hr.
Defined.
