(* ===== verification/MmuTest.v ===== *)
(** * init/main.c: the test of the MMU

    test_mmu asks the processor to translate an address inside memory and one behind it
    (the AT instruction of utils.S), reads the answers back from PAR_EL1, and then stores
    to both.  The processor's side is [translate] and [permits], through the registers
    enable_mmu wrote; the tables it walks are those paging_init built. *)

From S2P Require Import Prelude Memory CString Mmio Uart Format Printk PageAlloc KList Sched Fork.
From S2P Require Import PgTable Mmu Access Irq Gic Timer Traps Main Vectors.

(** ** The processor *)

(** What a system register holds: the last value written. *)
Fixpoint sysreg_now (reg : string) (tr : trace) : option Z :=
  match tr with
  | [] => None
  | Msr r v :: tr => if bool_decide (r = reg) then Some v else sysreg_now reg tr
  | _ :: tr => sysreg_now reg tr
  end.

(** Stage 1 translation: while the M bit of SCTLR_EL1 is clear an address is itself.  The
    answer is the physical address and the attributes. *)
Definition stage1 {C} (e : el) (a : access) (va : Z) (s : kernel C) : option (Z * Z) :=
  if Z.testbit (default 0 (sysreg_now "sctlr_el1" (k_hw s))) 0 then
    '(pa, attrs) ← translate (k_mem s) (default 0 (sysreg_now "ttbr0_el1" (k_hw s))) va;
    if permits attrs e a then Some (pa, attrs) else None
  else Some (va, 0).

(** What an address translation instruction leaves in PAR_EL1, a parameter: bit 0 says that
    it failed, and otherwise bits 12 to 47 are those of the physical address. *)
Record par_spec (par : option (Z * Z) → Z) : Prop := {
  par_failed : par None mod 2 = 1;
  par_found : ∀ pa attrs, 0 ≤ pa < 2 ^ 48 →
    par (Some (pa, attrs)) mod 2 = 0 ∧ par (Some (pa, attrs)) / 2 ^ 12 mod 2 ^ 36 = pa / 2 ^ 12;
  par_range : ∀ x, 0 ≤ par x < 2 ^ 64;
}.

(** ** The code *)

Section mmu_test.
Context {C : Type} `{Hcon : !Console C}.
Context (P : platform) (par : option (Z * Z) → Z).
Abbreviation K := (M (kernel C)).

(** [arch/arm64/kernel/utils.S:16-20] mmu_at_test *)
Definition mmu_at_test (addr : Z) : K Z := gets (λ s, par (stage1 EL1 Loads addr s)).

(** A 64-bit store of kernel code, by its virtual address: a data abort when the tables do
    not allow it. *)
Definition el1_store64 (va v : Z) : K unit :=
  s ← get;
  match stage1 EL1 Stores va s with
  | Some (pa, _) => zoom (T:=(memory * trace)%type) (zoom (T:=memory) (store64 pa v))
  | None => el1_sync_invalid P
  end.

(** [init/main.c:47-53] test_access_map_address *)
Definition test_access_map_address : K Z :=
  let address := TOTAL_MEMORY - 4096 in
  el1_store64 address 0x55 ;;
  kprintk ("%s access 0x%x done" +++ nl) [str "test_access_map_address"; KInt address] ;;
  mret 0.

(** [init/main.c:55-61] test_access_unmap_address *)
Definition test_access_unmap_address : K Z :=
  let address := TOTAL_MEMORY + 4096 in
  el1_store64 address 0x55 ;;
  kprintk ("%s access 0x%x done" +++ nl) [str "test_access_unmap_address"; KInt address] ;;
  mret 0.

(** [init/main.c:82-99] test_mmu *)
Definition test_mmu : K unit :=
  let addr := TOTAL_MEMORY - 4096 in
  par_el1 ← mmu_at_test addr;
  pa ← parse_par_el1 par_el1;
  kprintk ("test AT instruction %s" +++ nl) [str (if addr =? pa then "done" else "failed")] ;;
  let addr := TOTAL_MEMORY + 4096 in
  par_el1 ← mmu_at_test addr;
  pa ← parse_par_el1 par_el1;
  kprintk ("test AT instruction %s" +++ nl) [str (if addr =? pa then "done" else "failed")] ;;
  test_access_map_address ;;
  test_access_unmap_address ;;
  skip.
End mmu_test.

(** ** Lemmas *)

Lemma sysreg_now_writes reg tr :
  sysreg_now reg tr = list.last (snd <$> filter (λ w, fst w = reg) (msr_writes tr)).
Proof.
  induction tr as [|[] tr IH]; try done. cbn [sysreg_now msr_writes]. rewrite list.filter_app, fmap_app.
  case_bool_decide as Hr.
  - rewrite filter_cons_True, filter_nil by done. cbn [fmap list_fmap snd]. by rewrite list.last_snoc.
  - rewrite filter_cons_False, filter_nil by done. by rewrite app_nil_r.
Qed.

Section lemmas.
Context {C : Type} `{Hcon : !Console C} `{Hmmu : !MmuSymbols}.
Implicit Types (s : kernel C).

(** What is printed goes to the console, in order. *)
Definition says (l : list (string * list karg)) (c : C) : C := foldl (λ c m, console_printk (fst m) (snd m) c) c l.
Lemma says_app l l' c : says (l ++ l') c = says l' (says l c).
Proof. apply foldl_app. Qed.
Definition speak l s : kernel C := with_io (says l (console (k_sched s))) (k_hw s) s.

Lemma kprintk_speak fmt args s : kprintk fmt args s = Ret tt (speak [(fmt, args)] s).
Proof. by destruct s as [? ? ? ? ? ? [] ? ? ?]. Qed.
Lemma speak_app l l' s : speak l' (speak l s) = speak (l ++ l') s.
Proof. unfold speak, says. destruct s as [? ? ? ? ? ? [] ? ? ?]. cbn. by rewrite foldl_app. Qed.
Lemma stage1_speak l e a va s : stage1 e a va (speak l s) = stage1 e a va s.
Proof. by destruct s as [? ? ? ? ? ? [] ? ? ?]. Qed.

(** parse_par_el1: what it prints, and the address it reads. *)
Definition par_says (val : Z) : list (string * list karg) :=
  ("Address Translation instruction %s" +++ nl, [str (if val mod 2 =? 0 then "successfully" else "failed")]) ::
  (if val mod 2 =? 0 then
     [("par_el1:0x%lx, PA: 0x%lx" +++ nl, [KInt val; KInt (val mod 2 ^ 40 / 2 ^ 12 * 2 ^ 12)]);
      ("  NS=%u" +++ nl, [KInt (Z.land (Z.shiftr val 9) 1)]);
      ("  SH=%u" +++ nl, [KInt (Z.land (Z.shiftr val 7) 3)]);
      ("  ATTR=0x%x" +++ nl, [KInt (Z.shiftr val 56)])]
   else []).
Definition par_address (val : Z) : Z :=
  if val mod 2 =? 0 then val mod 2 ^ 40 / 2 ^ 12 * 2 ^ 12 else 2 ^ 64 - 1.

Lemma parse_par_el1_eq val s :
  0 ≤ val < 2 ^ 64 → parse_par_el1 val s = Ret (par_address val) (speak (par_says val) s).
Proof.
  intros Hv. unfold parse_par_el1, par_address, par_says.
  assert (Z.land val 1 = val mod 2) as -> by (change 1 with (2 ^ 1 - 1); by rewrite land_low).
  assert (Z.land (Z.land val (u64 PAGE_MASK)) 0xffffffffff = val mod 2 ^ 40 / 2 ^ 12 * 2 ^ 12) as ->.
  { rewrite land_u64_r by done. change PAGE_MASK with (Z.lnot (Z.ones 12)). rewrite <-Z.land_assoc.
    rewrite (Z.land_comm (Z.lnot _)), Z.land_assoc. change 0xffffffffff with (2 ^ 40 - 1).
    rewrite land_low by lia. by apply land_lnot_ones. }
  rewrite (bind_eq _ _ _ _ _ (kprintk_speak _ _ _)).
  destruct (Z.eqb_spec (val mod 2) 0) as [H0|H0]; cbn [negb]; [|done].
  do 4 (rewrite (bind_eq _ _ _ _ _ (kprintk_speak _ _ _)), speak_app; cbn [app]). done.
Qed.

(** An address that was found, below the terabyte PAR_EL1's reader keeps, is read back. *)
Lemma par_address_found par pa attrs :
  par_spec par → 0 ≤ pa < 2 ^ 40 → pa mod PAGE_SIZE = 0 → par_address (par (Some (pa, attrs))) = pa.
Proof.
  intros Hpar Hpa Hal. destruct (par_found _ Hpar pa attrs ltac:(lia)) as [H0 Hf]. unfold par_address.
  rewrite H0. cbn [Z.eqb]. set (v := par _) in *.
  assert (pa / 2 ^ 12 < 2 ^ 28) by (apply Z.div_lt_upper_bound; lia). pose proof (Z.div_pos pa (2 ^ 12)).
  assert (v mod 2 ^ 40 / 2 ^ 12 = pa / 2 ^ 12) as ->.
  { change (2 ^ 40) with (2 ^ 12 * 2 ^ 28). rewrite Z.rem_mul_r, (Z.mul_comm (2 ^ 12)), Z.div_add by lia.
    rewrite (Z.div_small (v mod _)), Z.add_0_l, (Znumtheory.Zmod_div_mod (2 ^ 28) (2 ^ 36)) by
      (first [lia|by exists (2 ^ 8)|by apply Z.mod_pos_bound]).
    rewrite Hf. apply Z.mod_small. lia. }
  autorewrite with page_consts in Hal. pose proof (Z.div_mod pa 4096). change (2 ^ 12) with 4096. lia.
Qed.

(** *** The processor with the kernel's tables *)

(** The MMU is on, walks the kernel's tables, and none of them is in the page [p]. *)
Record mmu_live (p : Z) s : Prop := {
  ml_on : sysreg_now "sctlr_el1" (k_hw s) = Some 1;
  ml_root : sysreg_now "ttbr0_el1" (k_hw s) = Some idmap_pgd_dir;
  ml_tables : ∃ tables ents, table_rep (k_mem s) idmap_pgd_dir tables ents ∧
                             ∀ x a, tables !! x = Some a → a ≠ p;
  ml_map : mapped (k_mem s);
}.

Lemma live_speak p l s : mmu_live p s → mmu_live p (speak l s).
Proof. by intros []. Qed.

Lemma live_stage1 p s e a va :
  mmu_live p s → 0 ≤ va < 2 ^ 48 →
  stage1 e a va s = '(pa, attrs) ← kernel_map va; if permits attrs e a then Some (pa, attrs) else None.
Proof.
  intros [Hon Hroot _ Hmap] Hva. unfold stage1. rewrite Hon, Hroot. cbn [default from_option Z.testbit].
  by rewrite Hmap.
Qed.

(** A store of the kernel to its data. *)
Lemma live_store p va v s :
  mmu_live p s → table_page p → kernel_map va = Some (va, data_attrs) → 0 ≤ va < 2 ^ 48 →
  p ≤ va → va + 8 ≤ p + PAGE_SIZE → 0 ≤ v < 2 ^ 64 →
  ∀ P, ∃ s', el1_store64 P va v s = Ret tt s' ∧ mmu_live p s' ∧ console (k_sched s') = console (k_sched s) ∧
    ld64 (k_mem s') va = Some v.
Proof.
  intros Hl Hp Hk Hva Hlo Hhi Hv P. exists (lput (st64 (k_mem s) va v, k_hw s) s).
  split; [|split; [|split; [done|by apply ld64_st64_eq]]].
  - unfold el1_store64, get. unfold mbind at 1, M_bind at 1. rewrite (live_stage1 p s EL1 Stores va Hl Hva), Hk. done.
  - destruct Hl as [Hon Hroot (tables & ents & Hrep & Hne) Hmap]. split; [done|done| |].
    + exists tables, ents. split; [|done]. by apply (rep_store_elsewhere _ _ _ _ Hrep p).
    + intros x Hx. cbn [k_mem lput lens_k_io fst].
      rewrite (translate_rep _ _ _ _ (rep_store_elsewhere _ _ _ _ Hrep p va v Hp Hne Hlo Hhi)) by done.
      rewrite <-(translate_rep _ _ _ _ Hrep) by done. by apply Hmap.
Qed.
End lemmas.

(** ** Properties *)

Section properties.
Context {C : Type} `{Hcon : !Console C} `{Hmmu : !MmuSymbols}.
Context (P : platform) (par : option (Z * Z) → Z) (Hpar : par_spec par).
Implicit Types (s : kernel C).

(** The page the test stores to, the last one of memory. *)
Definition last_page : Z := TOTAL_MEMORY - 4096.

Lemma last_page_ok : page_ok last_page ∧ table_page last_page.
Proof. split; (split; [done|]); by_decision. Qed.

Lemma last_page_map : kernel_layout → kernel_map last_page = Some (last_page, data_attrs).
Proof.
  intros [_ Hend _ _]. unfold kernel_map, last_page.
  assert (page_up _text_end ≤ TOTAL_MEMORY - 4096).
  { revert Hend. unfold page_up. autorewrite with page_consts. intros H.
    assert ((_text_end + 4096 - 1) / 4096 < 131072); [|lia]. lia. }
  rewrite decide_False, decide_True by page_lia. done.
Qed.

Lemma beyond_map : kernel_layout → kernel_map (TOTAL_MEMORY + 4096) = None.
Proof. intros H. apply past_memory_unmapped; [done|page_lia]. Qed.

(** What test_mmu prints before its last store. *)
Definition test_mmu_says : list (string * list karg) :=
  par_says (par (Some (last_page, data_attrs))) ++
  [("test AT instruction %s" +++ nl, [str "done"])] ++
  par_says (par None) ++
  [("test AT instruction %s" +++ nl, [str "failed"]);
   ("%s access 0x%x done" +++ nl, [str "test_access_map_address"; KInt last_page])].

(** bad_mode does not come back. *)
Lemma el1_sync_invalid_stops s a s' : el1_sync_invalid P s ≠ Ret a s'.
Proof.
  intros (esr & s1 & _ & E)%bind_inv. apply zoom_inv in E as (t & E & _).
  apply bind_inv in E as ([] & t1 & _ & E). by apply bind_inv in E as ([] & t2 & _ & E).
Qed.
Lemma el1_sync_invalid_then (k : unit → M (kernel C) unit) s : (el1_sync_invalid P ≫= k) s = el1_sync_invalid P s.
Proof.
  unfold mbind, M_bind. pose proof (el1_sync_invalid_stops s) as H.
  destruct (el1_sync_invalid P s) as [a s'|f|h|]; [by destruct (H a s')|done..].
Qed.

Lemma test_mmu_ok s :
  kernel_layout → mmu_live last_page s →
  ∃ s', test_mmu P par s = el1_sync_invalid P s' ∧
    console (k_sched s') = says test_mmu_says (console (k_sched s)) ∧ ld64 (k_mem s') last_page = Some 0x55.
Proof.
  intros Hlay Hl. destruct last_page_ok as [_ Hp]. pose proof (last_page_map Hlay) as Hin. pose proof (beyond_map Hlay) as Hout.
  assert (0 ≤ last_page < 2 ^ 40) as Hr by by_decision.
  unfold test_mmu. change (TOTAL_MEMORY - 4096) with last_page. unfold mmu_at_test. rewrite bind_gets.
  rewrite (live_stage1 _ s EL1 Loads last_page Hl), Hin by lia. cbn [mbind option_bind].
  change (permits (data_attrs) EL1 Loads) with true. cbv iota.
  rewrite (bind_eq _ _ _ _ _ (parse_par_el1_eq _ s (par_range _ Hpar _))).
  rewrite (par_address_found par last_page _ Hpar Hr eq_refl), Z.eqb_refl.
  rewrite (bind_eq _ _ _ _ _ (kprintk_speak _ _ _)), bind_gets, speak_app, stage1_speak.
  rewrite (live_stage1 _ s EL1 Loads _ Hl), Hout by by_decision. cbn [mbind option_bind].
  rewrite (bind_eq _ _ _ _ _ (parse_par_el1_eq _ _ (par_range _ Hpar _))).
  assert (par_address (par None) = 2 ^ 64 - 1) as -> by (unfold par_address; by rewrite (par_failed _ Hpar)).
  change (TOTAL_MEMORY + 4096 =? 2 ^ 64 - 1) with false. cbv iota.
  rewrite (bind_eq _ _ _ _ _ (kprintk_speak _ _ _)), !speak_app.
  set (s1 := speak _ s). assert (mmu_live last_page s1) as Hl1 by by apply live_speak.
  destruct (live_store last_page last_page 0x55 s1 Hl1 Hp Hin ltac:(lia) ltac:(lia) ltac:(page_lia) ltac:(lia) P)
    as (s2 & E2 & Hl2 & Hc2 & Hm2).
  set (s3 := speak [("%s access 0x%x done" +++ nl, [str "test_access_map_address"; KInt last_page])] s2).
  assert (test_access_map_address P s1 = Ret 0 s3) as E3.
  { unfold test_access_map_address. change (TOTAL_MEMORY - 4096) with last_page. rewrite (bind_eq _ _ _ _ _ E2).
    by rewrite (bind_eq _ _ _ _ _ (kprintk_speak _ _ _)). }
  rewrite (bind_eq _ _ _ _ _ E3). exists s3. split; [|split].
  - assert (el1_store64 P (TOTAL_MEMORY + 4096) 0x55 s3 = el1_sync_invalid P s3) as E4.
    { unfold el1_store64, get. unfold mbind at 1, M_bind at 1.
      by rewrite (live_stage1 _ s3 EL1 Stores _ (live_speak _ _ _ Hl2)), Hout by by_decision. }
    unfold test_access_unmap_address. rewrite (bind_assoc _ _ _ s3). unfold mbind at 1, M_bind at 1. rewrite E4.
    apply (el1_sync_invalid_then _ s3).
  - change (console (k_sched s3)) with (says [("%s access 0x%x done" +++ nl, [str "test_access_map_address"; KInt last_page])]
      (console (k_sched s2))). rewrite Hc2. unfold s1. change (console (k_sched (speak ?l s))) with (says l (console (k_sched s))).
    unfold test_mmu_says. by rewrite <-says_app, <-!app_assoc.
  - exact Hm2.
Qed.

(** C20 (functional): the kernel's own test of its page tables agrees with what they were
    built for.  Run right after paging_init, on a processor with 4 KB pages, with the last
    page of memory free and 600 pages free below it, test_mmu finds the last page at its
    own address (done), finds nothing behind the end of memory (failed), stores to the last
    page, and stores behind the end of memory: that is a data abort, which the vectors
    report through bad_mode and do not come back from. *)
Theorem test_mmu_reports s :
  kernel_layout → has_4k_granules P → spared last_page (k_pages s) → (600 ≤ free_below last_page (k_pages s))%nat →
  ∃ s', (zoom (T:=(mmu_state pages * C)%type) (paging_init P get_free_page) ;; test_mmu P par) s
        = el1_sync_invalid P s' ∧
    console (k_sched s') = says (("Enable mmu done" +++ nl, []) :: test_mmu_says) (console (k_sched s)) ∧
    ld64 (k_mem s') last_page = Some 0x55.
Proof.
  intros Hlay Hg Hok Hav. destruct last_page_ok as [Hlp _].
  destruct (paging_init_ok (PageAllocator0:=below_allocator last_page) P
    (MmuState (k_mem s) (k_pages s) (k_hw s)) (console (k_sched s)) Hlay Hok)
    as (x & E & Hok' & _ & Hmap & Hregs & _ & tables & ents & Hrep); [unfold avail; cbn; lia|].
  destruct (Hregs Hg) as [w Hw].
  set (s1 := lput (x, console_printk ("Enable mmu done" +++ nl) [] (console (k_sched s))) s).
  assert (mmu_live last_page s1) as Hl.
  { split.
    - change (k_hw s1) with (mtrace x). by rewrite sysreg_now_writes, Hw, list.filter_app, fmap_app, list.last_app.
    - change (k_hw s1) with (mtrace x). rewrite sysreg_now_writes, Hw, list.filter_app, fmap_app, list.last_app. cbn.
      destruct Hlay as [_ _ [_ Hr] _]. rewrite u64_id by page_lia. done.
    - exists tables, ents. split; [apply Hrep|]. intros y a Ha ->.
      destruct (mo_owned _ _ _ _ Hrep y _ Ha) as [[_ Hu]|[_ ?]]; [|done]. destruct Hok' as [_ Hfree].
      cbn [pa_used below_allocator] in Hu. unfold allocator in *. congruence.
    - exact Hmap. }
  destruct (test_mmu_ok s1 Hlay Hl) as (s' & E' & Hc & Hm). exists s'.
  split; [|split; [exact Hc|exact Hm]].
  rewrite (bind_eq _ _ _ _ _ (zoom_eq _ s _ _ E)). exact E'.
Qed.
End properties.

(** ** Instances *)

Module Example_mmutest.
(** A processor whose PAR_EL1 has the address, as normal shareable memory. *)
Definition par (x : option (Z * Z)) : Z :=
  match x with
  | Some (pa, _) => pa mod 2 ^ 48 / 2 ^ 12 * 2 ^ 12 + 0xff00000000000180
  | None => 0x809
  end.

Lemma par_ok : par_spec par.
Proof.
  split; [done|..].
  - intros pa attrs Hpa. unfold par. rewrite (Z.mod_small pa) by lia. pose proof (Z.div_pos pa (2 ^ 12)).
    assert (pa / 2 ^ 12 < 2 ^ 36) by (apply Z.div_lt_upper_bound; lia). set (q := pa / 2 ^ 12) in *. split.
    { replace (q * 2 ^ 12 + 0xff00000000000180) with (0 + (q * 2 ^ 11 + 0x7f800000000000c0) * 2) by lia. by rewrite Z.mod_add. }
    replace (q * 2 ^ 12 + 0xff00000000000180) with (0x180 + (q + 0xff00000000000) * 2 ^ 12) by lia.
    rewrite Z.div_add by lia. change (0x180 / 2 ^ 12) with 0. rewrite Z.add_0_l.
    replace (q + 0xff00000000000) with (q + 65280 * 2 ^ 36) by lia. rewrite Z.mod_add by lia. apply Z.mod_small. lia.
  - intros [[pa attrs]|]; unfold par; [|lia]. pose proof (Z.mod_pos_bound pa (2 ^ 48) ltac:(lia)) as Hr.
    pose proof (Z.div_pos (pa mod 2 ^ 48) (2 ^ 12)) as Hq.
    assert (pa mod 2 ^ 48 / 2 ^ 12 < 2 ^ 36) by (apply Z.div_lt_upper_bound; lia). lia.
Qed.
End Example_mmutest.

#[local] Existing Instance log_console.

Section booted.
#[local] Existing Instance Example_boot.sched_symbols.
#[local] Existing Instance Example_boot.mmu_symbols.
#[local] Existing Instance Example_boot.image.

Lemma test_mmu_reports_witness :
  let s := loaded ∅ Example_boot.regs0 ([] : list (string * list karg)) in
  ∃ s', (zoom (T:=(mmu_state pages * _)%type) (paging_init Example_mmu.board get_free_page) ;;
         test_mmu Example_mmu.board Example_mmutest.par) s = el1_sync_invalid Example_mmu.board s' ∧
    ld64 (k_mem s') 0x1ffff000 = Some 0x55.
Proof.
  intros s. destruct (test_mmu_reports Example_mmu.board Example_mmutest.par Example_mmutest.par_ok s)
    as (s' & E & _ & Hm).
  - exact (bo_layout _ _ board_bootable).
  - by intros tr.
  - split; [exact pages_boot_ok|]. apply lookup_replicate_2. by_decision.
  - unfold free_below. change (mem_map (k_pages s)) with (replicate (Z.to_nat NR_PAGES) false).
    rewrite take_replicate, nr_free_replicate. by_decision.
  - exists s'. split; [exact E|exact Hm].
Defined.
End booted.
