(* ===== verification/Shell.v ===== *)
(** * init/main.c: the shell

    start_kernel ends in a loop that prompts, reads a line into a buffer of 64 bytes and
    sends it back.  [shell_round] of Main.v is one round; the theorem is about any number
    of them, whatever is typed. *)

From S2P Require Import Prelude Memory CString Mmio Uart Format Printk PageAlloc KList Sched Fork.
From S2P Require Import PgTable Mmu Irq Gic Timer Traps Main.

(** ** Lemmas *)

(** The string in memory that starts with the characters [l]: it ends at the first NUL. *)
Fixpoint until_nul (l : list Z) : list Z :=
  match l with
  | [] => []
  | c :: l => if c =? 0 then [] else c :: until_nul l
  end.

Lemma until_nul_prefix l : (until_nul l ++ [0]) `prefix_of` (l ++ [0]).
Proof.
  induction l as [|c l [k IH]]; [done|]. cbn [until_nul app]. destruct (Z.eqb_spec c 0) as [->|_].
  - by exists (l ++ [0]).
  - exists k. cbn [app]. by rewrite IH.
Qed.

Lemma until_nul_chars l : Forall (λ c, 0 ≤ c < 256) l → Forall (λ c, c ≠ 0 ∧ 0 ≤ c < 256) (until_nul l).
Proof.
  induction 1 as [|c l Hc _ IH]; [constructor|]. cbn [until_nul]. destruct (Z.eqb_spec c 0); by constructor.
Qed.

Lemma until_nul_length l : (length (until_nul l) ≤ length l)%nat.
Proof. induction l as [|c l IH]; [done|]. cbn [until_nul]. destruct (c =? 0); cbn [length]; lia. Qed.

Section shell.
Context {C : Type} `{Hcon : !Console C} (P : platform) (fuel : nat) `{!UartLive P fuel}.
Implicit Types (s : kernel C).

(** uart_send_string on a string in memory. *)
Lemma send_cstring_loop t n a m tr :
  Forall (λ c, c ≠ 0 ∧ 0 ≤ c < 256) t → (length t < n)%nat →
  (∀ i c, (t ++ [0]) !! i = Some c → m !! (a + Z.of_nat i) = Some c) →
  ∃ tr', loop n (λ a,
      c ← zoom (load8 a);
      if c =? 0 then mret (inr tt) else zoom (uart_send P fuel c) ;; mret (inl (a + 1))) a (m, tr) = Ret tt (m, tr') ∧
    uart_output tr' = uart_output tr ++ t ∧ uart_input tr' = uart_input tr.
Proof.
  intros Ht; revert n a tr; induction Ht as [|c t [Hne Hc] _ IH]; intros n a tr Hn Hm; (destruct n as [|n]; [cbn in Hn; lia|]).
  - pose proof (Hm 0%nat 0 eq_refl) as H0. rewrite Z.add_0_r in H0. exists tr. rewrite app_nil_r. split; [|done].
    apply loop_done. unfold load8, zoom, mbind, M_bind; cbn. by rewrite H0.
  - pose proof (Hm 0%nat c eq_refl) as H0. rewrite Z.add_0_r in H0.
    destruct (uart_send_output P fuel c tr ltac:(lia)) as (tr1 & E1 & Ho & Hi).
    destruct (IH n (a + 1) tr1) as (tr' & E & Ho' & Hi'); [cbn in Hn; lia| |].
    + intros i c' Hc'. replace (a + 1 + Z.of_nat i) with (a + Z.of_nat (S i)) by lia. by apply Hm.
    + exists tr'. rewrite Ho', Ho, Hi', Hi, <-app_assoc. split; [|done]. rewrite <-E. apply loop_more.
      assert (zoom (S:=memory * trace) (load8 a) (m, tr) = Ret c (m, tr)) as E0 by (unfold load8, zoom; cbn; by rewrite H0).
      rewrite (bind_eq _ _ _ _ _ E0), (proj2 (Z.eqb_neq c 0)) by done.
      by rewrite (bind_eq _ _ _ _ _ (zoom_eq _ (m, tr) _ _ E1)).
Qed.

(** What the shell answers to a line. *)
Definition echo (l : list Z) : list Z := chars "> " ++ until_nul (take 63 l) ++ [13; 10].

Lemma send_ok l s :
  Forall (λ c, 0 ≤ c < 256) l →
  ∃ tr', send P fuel l s = Ret tt (lput tr' s) ∧ uart_output tr' = uart_output (k_hw s) ++ l ∧
         uart_input tr' = uart_input (k_hw s).
Proof.
  intros Hl. destruct (uart_send_string_ok P fuel l (k_hw s) Hl) as (tr' & E & H). exists tr'. split; [|done].
  exact (zoom_eq _ s tt tr' E).
Qed.

Lemma shell_round_ok buffer s :
  (64 ≤ fuel)%nat →
  ∃ l m' tr', shell_round P fuel buffer s = Ret tt (lput (m', tr') s) ∧ is_line 64 l ∧
    uart_input tr' = uart_input (k_hw s) ++ l ∧ uart_output tr' = uart_output (k_hw s) ++ echo l ∧
    ∀ x, x < buffer ∨ buffer + 64 ≤ x → m' !! x = k_mem s !! x.
Proof.
  intros Hfuel. unfold shell_round.
  destruct (send_ok (chars "> ") s) as (tr1 & E1 & Ho1 & Hi1); [by_decision|].
  destruct (uart_recv_string_line P fuel buffer 64 (k_mem s) tr1 ltac:(lia)) as (l & m2 & tr2 & E2 & Hl & Hm & Hw & Hi2).
  change (Z.to_nat (64 - 1)) with 63%nat in *. set (text := take 63 l) in *. pose proof Hl as (Hb & Hle & _).
  assert (length text ≤ 63)%nat as Htext by (unfold text; rewrite length_take; lia).
  pose proof (until_nul_length text) as Hut. destruct Hm as [Hout Hin].
  destruct (send_cstring_loop (until_nul text) fuel buffer m2 tr2) as (tr3 & E3 & Ho3 & Hi3).
  { by apply until_nul_chars, Forall_take. }
  { lia. }
  { intros i c Hc. apply Hin. by eapply prefix_lookup_Some, until_nul_prefix. }
  destruct (send_ok [13; 10] (lput (m2, tr3) s)) as (tr4 & E4 & Ho4 & Hi4); [by_decision|].
  exists l, m2, tr4. split; [|split; [done|split; [|split]]].
  - assert (zoom (T:=(memory * trace)%type) (uart_recv_string P fuel buffer 64) (lput tr1 s)
            = Ret (Z.of_nat (length text)) (lput (m2, tr2) s)) as Z2 by (unfold zoom; cbn [lget lens_k_io lens_k_hw k_mem k_hw lput fst snd]; by rewrite E2).
    assert (zoom (T:=(memory * trace)%type) (send_cstring P fuel buffer) (lput (m2, tr2) s)
            = Ret tt (lput (m2, tr3) s)) as Z3 by (unfold zoom, send_cstring; cbn [lget lens_k_io k_mem k_hw lput fst snd]; by rewrite E3).
    by rewrite (bind_eq _ _ _ _ _ E1), (bind_eq _ _ _ _ _ Z2), (bind_eq _ _ _ _ _ Z3), E4.
  - change (k_hw (lput (m2, tr3) s)) with tr3 in Hi4. by rewrite Hi4, Hi3, Hi2, Hi1.
  - change (k_hw (lput (m2, tr3) s)) with tr3 in Ho4. rewrite Ho4, Ho3, (uart_output_writes _ _ Hw), Ho1.
    unfold echo. by rewrite <-!app_assoc.
  - intros x Hx. apply Hout. rewrite length_app; cbn [length]. lia.
Qed.
End shell.

(** ** Properties *)

Section properties.
Context {C : Type} `{Hcon : !Console C} (P : platform) (fuel : nat) `{!UartLive P fuel}.
Implicit Types (s : kernel C).

Lemma shell_rounds_ok n i buffer s :
  (64 ≤ fuel)%nat →
  ∃ ls m' tr', for_range n i (λ _, shell_round P fuel buffer) s = Ret tt (lput (m', tr') s) ∧
    length ls = n ∧ Forall (is_line 64) ls ∧
    uart_input tr' = uart_input (k_hw s) ++ concat ls ∧
    uart_output tr' = uart_output (k_hw s) ++ concat (map echo ls) ∧
    ∀ x, x < buffer ∨ buffer + 64 ≤ x → m' !! x = k_mem s !! x.
Proof.
  intros Hfuel. revert i s; induction n as [|n IH]; intros i s.
  { exists [], (k_mem s), (k_hw s). cbn [concat map]. rewrite !app_nil_r. split; [|done]. by destruct s. }
  destruct (shell_round_ok P fuel buffer s Hfuel) as (l & m1 & tr1 & E1 & Hl & Hi1 & Ho1 & Hm1).
  destruct (IH (i + 1) (lput (m1, tr1) s)) as (ls & m' & tr' & E & Hlen & Hls & Hi & Ho & Hm).
  exists (l :: ls), m', tr'. cbn [k_hw k_mem lput lens_k_io fst snd] in *. cbn [concat map].
  rewrite Hi, Hi1, Ho, Ho1, <-!app_assoc. split; [|split; [cbn; lia|split; [by constructor|split; [done|split; [done|]]]]].
  - cbn [for_range]. by rewrite (bind_eq _ _ _ _ _ E1), E.
  - intros x Hx. by rewrite Hm, Hm1.
Qed.

(** C19 (functional): on a live UART the shell answers, for any number of rounds and
    whatever is typed: it reads the input line by line, each ending at its first carriage
    return or newline or after 64 characters, and sends back, after the prompt, the line up
    to its first NUL, less the 64th character, and a carriage return and newline.  It
    writes only its buffer, and changes nothing else of the kernel. *)
Theorem shell_echoes n buffer s :
  (64 ≤ fuel)%nat →
  ∃ ls m' tr', for_range n 0 (λ _, shell_round P fuel buffer) s = Ret tt (lput (m', tr') s) ∧
    length ls = n ∧ Forall (is_line 64) ls ∧
    uart_input tr' = uart_input (k_hw s) ++ concat ls ∧
    uart_output tr' = uart_output (k_hw s) ++ concat (map echo ls) ∧
    ∀ x, x < buffer ∨ buffer + 64 ≤ x → m' !! x = k_mem s !! x.
Proof. apply shell_rounds_ok. Qed.
End properties.

(** ** Instances *)

Module Example_shell.
(** A user who types the characters of [script], and returns after them. *)
Definition typing (script : list Z) : platform :=
  {| dev_read := λ tr a, if a =? UART_DATA_REG then nth (length (uart_input tr)) script 13 else 0;
     sysreg_read := λ _ _, 0 |}.

Lemma typing_live script n : UartLive (typing script) (S n).
Proof. split; intros tr; exists O; (split; [lia|reflexivity]). Qed.
End Example_shell.

#[local] Existing Instance log_console.
#[local] Existing Instance Example_shell.typing_live.
#[local] Existing Instance Example_boot.sched_symbols.

Lemma shell_echoes_witness :
  let s := loaded ∅ Example_boot.regs0 ([] : list (string * list karg)) in
  ∃ ls m' tr', for_range 2 0 (λ _, shell_round (Example_shell.typing (chars "help")) 64 0x8ff00) s = Ret tt (lput (m', tr') s) ∧
    length ls = 2%nat ∧ uart_input tr' = concat ls ∧ uart_output tr' = concat (map echo ls).
Proof.
  intros s. destruct (shell_echoes (Example_shell.typing (chars "help")) 64 2 0x8ff00 s (le_n 64))
    as (ls & m' & tr' & E & H1 & _ & H2 & H3 & _).
  exists ls, m', tr'. split; [exact E|]. split; [exact H1|]. split; [exact H2|exact H3].
Defined.

(** What the terminal shows when help is typed, and then nothing but returns. *)
Example shell_help :
  (λ s, uart_output (k_hw s)) <$> (match for_range 2 0 (λ _, shell_round (Example_shell.typing (chars "help")) 64 0x8ff00)
     (loaded ∅ Example_boot.regs0 ([] : list (string * list karg))) with Ret _ s => Some s | _ => None end)
  = Some (chars "> help" ++ [13; 13; 10] ++ chars "> " ++ [13; 13; 10]).
Proof. vm_compute. reflexivity. Qed.
